(* ===== verification/_CoqProject ===== *)
-Q . S2P
Prelude.v
Strs.v
Crates.v
Node.v
Instances.v
Fs.v
Worklist.v
Store.v
Tasks.v
StoreFacts.v
Utf8.v
OpLock.v
Gc.v
GcFacts.v
RefcountFacts.v
RemoveTag.v
GcSpec.v
StoreSpec.v
Vsock.v
Ipam.v
Dns.v
Net.v
Firewall.v
NetSpec.v
OciTypes.v
HostFs.v
Exec.v
Workload.v
Images.v
ImagesSpec.v
Archive.v
Puller.v
Convert.v
Materialize.v
ConvertSpec.v
UnpackSpec.v
ConvertTermination.v
LayerSpec.v
Policy.v
Secrets.v
SecretsSpec.v
Container.v
Rootless.v
Compose.v
ControlPlane.v
Bloom.v
Sync.v
Peers.v
Dockerfile.v
Scan.v
ScanSpec.v
Push.v
PushSpec.v
Kernel.v
Builder.v
BuilderSpec.v
Service.v
Publish.v
Handlers.v
Requests.v
Watcher.v
ServiceFacts.v
DaemonSpec.v
StopSpec.v
CheckpointSpec.v
CopySpec.v
Vm.v
VmSpec.v
RunSpec.v
Cri.v
CriSpec.v
Demo.v
Witnesses.v
LayerWitnesses.v
ServiceWitnesses.v
NetWitnesses.v
SyncWitnesses.v
ImagesWitnesses.v
DaemonWitnesses.v
BuilderWitnesses.v
