(* ===== verification/Prelude.v ===== *)
(** * Verification of the Pullrun runtime

    Pullrun stores container images as a content-addressed DAG and runs workloads
    from it.  This library models the Rust crates under [src/runtime] and Go programs
    beside them by a shallow embedding and proves the properties that make them
    correct.

    ** The program and its parts

    - [pullrun-store]: the store.  A node of the DAG is a file named by the SHA-256 of
      its serialized bytes; files are replaced atomically, reads go through two LRU
      caches of memory maps, reference counts decide what [remove_tag] deletes, and
      operation locks defer garbage collection.
    - [pullrun-gc]: the mark-and-sweep collector over the store.
    - [pullrun-vsock]: the framed protocol between the host and the init process of a
      guest.
    - [pullrun-net]: addresses and subnets, the proxy network of a workload, the DNS
      proxy, and NAT through iptables or nftables.
    - [pullrun-oci]: the registry client that pulls images, the conversion of image
      layers to nodes and their unpacking to a root file system, archives of parts of
      the DAG, the upload of images and OCI layouts, the Dockerfile parser and the scan
      of a directory into nodes.
    - [pullrun-sync]: Bloom filters that announce blobs, the cache of the filters of
      peers, the block exchange service, the puller that uses peers, and the tables of
      known peers.
    - [pullrun-policy]: signatures, bills of materials and the decision whether an
      image may run.
    - [pullrun-exec]: the executors, which write the configuration of a container and
      drive [runc], with or without root.
    - [pullrun-runtime]: the daemon.  Its gRPC handlers run, stop, inspect, copy, commit
      and prune workloads, and pull, tag, build, push, export, import, remove and collect
      images; watchers notice exits, restart workloads and check their health; checkpoints
      survive a restart.  The image builder, the store of secrets and configurations and
      the registration of emulators belong to it.
    - [pullrun-vm]: the executor that runs a workload in a Firecracker machine, its
      network, the pool of booted machines, and kernels that are pulled as images.
    - [cri/pullrun-cri]: the shim that answers Kubernetes with workloads of the daemon.
    - [cmd/pullrun-compose]: of it, the order in which services are started.
    - [control-plane]: the records of workloads and nodes and the choice of a node.

    An image is pulled ([Puller.v], [Sync.v]), converted into the store ([Convert.v]),
    checked ([Policy.v]) and unpacked ([Materialize.v]) for an executor ([Container.v],
    [Rootless.v], [Vm.v]); the table of images ([Images.v]) decides which of its nodes stay.  The
    handlers ([Service.v], [Handlers.v], [Publish.v], [Archive.v]) compose these parts,
    [Requests.v] and [Watcher.v] interleave the handlers with the watchers, and the
    daemon so composed implements the interface that the shim ([Cri.v]) calls.

    ** How code becomes definitions

    A fallible function returns [result]; a stateful one is an [eff], a function from
    a world to a result and a new world, so what was done before an early return stays
    done.  A [w]-bit integer is a [Z] with its wrap-around written out; bytes are
    [list byte]; a map is a [gmap].  A panic is a value: [None] in [Bloom.v], a
    constructor in [Vsock.v], [Sync.v], [Dockerfile.v] and [ControlPlane.v].  A loop that
    is not structural takes fuel computed from its input ([Worklist.v],
    [Sync.chunk_loop]); that the fuel is never exhausted is proved ([traverse_rule] in
    [StoreFacts.v], [chunk_loop_spec] in [Sync.v]).  A recursion without a bound in the
    source takes its depth as an argument, and theorems say which depth is enough:
    following nested image indexes ([pull_complete]), storing the directories of a layer
    ([convert_layer_terminates]), unpacking them ([convert_materialize]), scanning a
    directory ([scanned_image_empty], for a scan that ends) and visiting services
    ([sort_fuel] in [Compose.v]).

    A handler of the daemon that waits is a [task] ([Tasks.v]): it is cut at its awaits,
    and between two pieces any other task may run.  [Watcher.v] has the step relation of
    the daemon, with the requests and the two watchers.

    Code outside the repository is a parameter: a class of operations, with a class of
    laws where a theorem relies on documented behaviour.  [Crates.v] has [hex], [sha2],
    [rkyv] and [bytes]; [Firewall.v] the commands for NAT, [Container.v] the programs an
    executor starts and the hash of the standard library, [Kernel.v] temporary
    directories, [Builder.v] what a build asks of the host; [Puller.v] HTTP, JSON, gzip
    and base64, [Push.v] uploads, the writing of archives and JSON; [Bloom.v] the
    floating-point sizing; [Sync.v] the peers and the clock, [Peers.v] announcements;
    [Archive.v] and [Convert.v] tar, JSON and the decompressors; [Exec.v] and [Workload.v]
    JSON values and checkpoints; [Policy.v] ed25519 and base64; [Secrets.v] AES-GCM and
    the random source; [Dockerfile.v], [Secrets.v] and [Exec.v] the Unicode tables;
    [ControlPlane.v] and [Cri.v] Go's JSON, and [Cri.v] the clock, the random source, the
    order of maps and conversions out of range; [Vm.v] system calls, the Firecracker API
    and the programs that make file systems.  The daemon's theorems hold for every
    executor of machines; [Vm.vm_backend] is the one of the source.  Nothing is assumed of the hash but its output
    size: a theorem that needs two nodes to have different digests says so for the nodes
    at hand ([storable] in [ConvertSpec.v]).  [Instances.v], [Demo.v] and the witness
    files give concrete functions that satisfy every law a property uses.

    ** Files

    Shared: [Prelude.v] (results, effects, integers, bytes, sums), [Strs.v] and [Utf8.v]
    (string operations and number parsing), [Crates.v], [Instances.v], [Tasks.v].

    Store, from [pullrun-store/src/{lib,node,store,op_lock}.rs]: [Node.v] (digests and
    nodes), [Fs.v] (the file system, [write_atomically] and crashes), [Worklist.v] (queue
    traversals), [Store.v] ([MmapStore]), [OpLock.v].  [StoreFacts.v], [RefcountFacts.v]
    and [RemoveTag.v] hold the invariants: cache well-formedness, agreement of caches and
    disk, exactness of counts, the cascade of deletions, the rebuild of the counts.

    Collector, from [pullrun-gc/src/lib.rs]: [Gc.v], [GcFacts.v].

    Protocol, from [pullrun-vsock/src/lib.rs]: [Vsock.v].

    Network, from [pullrun-net/src]: [Ipam.v], [Dns.v], [Net.v] ([lib.rs],
    [proxy.rs], [loopback.rs]), [Firewall.v].

    Images, from [pullrun-oci/src]: [OciTypes.v] and [Puller.v] ([puller.rs]), [Convert.v]
    ([converter.rs]), [Materialize.v] ([materializer.rs]), [Archive.v] ([dag_export.rs],
    [dag_import.rs] and their handlers), [Push.v] ([push.rs], [oci_layout.rs]),
    [Dockerfile.v] and [Scan.v] ([dockerfile.rs]), over the host's file system with
    symbolic links and attributes in [HostFs.v].  [ConvertSpec.v] says which nodes a
    layer becomes, [UnpackSpec.v] what reading them does to the host and leaves in the
    target.

    Executors, from [pullrun-exec/src]: [Exec.v] (JSON values, the types and the
    interface of executors, seccomp profiles), [Container.v], [Rootless.v].  Machines,
    from [pullrun-vm/src/{lib,network,ext4,pool}.rs]: [Vm.v].

    Daemon, from [pullrun-runtime/src]: [Images.v] (the table of images and the start-up),
    [Workload.v] (the record of a workload), [Service.v] and [Handlers.v] (handlers),
    [Requests.v] (handlers as tasks), [Watcher.v] (recovery, watchers, steps), [Builder.v]
    ([builder.rs]), [Publish.v] (build and push requests), [Secrets.v] ([secrets.rs]),
    [Kernel.v] ([binfmt.rs], and [oci_kernel.rs] of [pullrun-vm]); [ServiceFacts.v] says
    what handlers do to the table of workloads.

    Policies, from [pullrun-policy/src]: [Policy.v].

    Sync, from [pullrun-sync/src]: [Bloom.v] ([bloom.rs], [delta.rs], [gossip.rs]),
    [Sync.v] ([block_sync.rs], [sync_puller.rs]), [Peers.v] ([registrar.rs],
    [discovery.rs]).

    Go: [Compose.v] from [cmd/pullrun-compose/compose.go], [ControlPlane.v] from
    [control-plane], [Cri.v] from [cri/pullrun-cri], with the daemon's model as its
    runtime at the end of the file.

    The properties are in the files ending in [Spec], in [ConvertTermination.v], and at
    the end of the smaller models; [Demo.v] builds concrete stores, and the files ending
    in [Witnesses] apply each property that has hypotheses.

    ** What is shown

    - Collection (C1, C2; [GcSpec.v]): a collection never deletes what the roots reach,
      whatever fails; a forced run leaves exactly the reachable nodes.
    - Store (C3 to C5, C22; [StoreSpec.v]): with exact reference counts, removing a tag
      keeps what other tags reach and leaves no garbage; storing keeps counts exact; an
      interrupted write leaves the old or the new contents.
    - Layers (C6, C7 in [LayerSpec.v]; C30 in [ConvertTermination.v]): converting a layer
      and unpacking its nodes does what unpacking the archive does, and leaves exactly its
      members; the conversion ends.
    - Workloads (C8, C12 in [RunSpec.v]; C9, C29, C38, C40 in [StopSpec.v]; C10, C26, C39
      in [DaemonSpec.v]; C11 in [CheckpointSpec.v]; C27, C28 in [CopySpec.v]): what runs
      was admitted, and the policy reaches runc; a stopped workload stays stopped through
      every interleaving, except in the pause before a restart; restarts start what was
      run, after bounded pauses; the states and widths of records in every reachable
      state; requests are answered; a restarted daemon finds its workloads; copies stay
      within the root file system.
    - Pulling, policies and secrets (C13 in [Puller.v], C14 in [Policy.v], C15 in
      [SecretsSpec.v]): pulled content is verified; an allowed image passed every check;
      the store of secrets is a map from names to data.
    - Archives and uploads (C16, C17 in [Archive.v]; C18, C19 in [PushSpec.v]): an image
      moves from daemon to daemon complete and no archive can plant a node under a digest
      that is not its own; a push that succeeds refers to nothing unconfirmed; which
      members of a layer leave the store.
    - Machines (C32; [VmSpec.v]): a machine that is stopped gives back its descriptors,
      processes, sessions and ports.  Lemmas beside it: [/init] runs the image's command,
      hardware addresses are unique, machines of one project share an address, and a
      machine of the pool is never stopped.
    - Builds (C20 in [Publish.v]; C21 in [BuilderSpec.v]): a built image is kept and
      nothing else changes; its configuration is that of its instructions.  A lemma shows
      that the files of the layers below are lost.
    - Image table (C23 to C25; [ImagesSpec.v]): removing and collecting delete nothing in
      use; the start-up restores exact counts.
    - Go programs (C31 in [Compose.v], C33 in [CriSpec.v], C34 in [ControlPlane.v]):
      services start after those they depend on; the shim and the control plane have
      their records after a restart.  [CriSpec.v] shows too which removals leave a
      workload running.
    - Protocol, network and peers (C35 in [Vsock.v], C36 in [Ipam.v], C37 in [Bloom.v]):
      streams of frames round-trip, addresses are unique under interleaving, filters have
      no false negatives.  Lemmas in [NetSpec.v], [Sync.v] and [Peers.v]: set-up and
      tear-down are inverse, blobs are transferred intact, a peer that sends signs of life
      is found, and a node never lists itself.

    ** Not modelled

    The process inside the guest ([pullrun-init]), the terminals of machines and the
    hypervisor of macOS ([attach.rs] and [apple] of [pullrun-vm]) drive system calls and
    streams.  Of the daemon:
    attaching, log streams, metrics, the capacity of the event channel, the branches for
    macOS and the options of [main.rs].  Of the shim: statistics, the streams of exec,
    attach and port forwarding, requests that answer a constant, and concurrent requests.
    Of discovery, the sockets and the sending of announcements; of the registrar, its
    client.  The command line and the other compose commands are clients that print what
    the daemon answers.

    Operations of the store run one at a time, as its locks make them; interleavings are
    modelled for the address counter and for the daemon's requests and watchers.  In the
    store's file system ([Fs.v]) directories exist as long as a file lies below them and
    an I/O fault is a path that fails; the host's file system ([HostFs.v]) has
    directories, links and attributes but no faults.  Log output, the texts of error
    messages (their arguments are kept), timeouts and the transport of bytes over sockets
    are not modelled. *)

From stdpp Require Import base gmap strings list numbers fin_maps fin_map_dom.
From Stdlib Require Import ZArith Lia.
From Stdlib Require Strings.Byte.

(** ** Results and effects

    Rust's [Result<A, E>] and the state-and-error monad in which the stateful
    code is written.  An effect returns the new world also on error: what a
    Rust function did before its [?] stays done. *)

Inductive result (E A : Type) : Type :=
| Ok (a : A)
| Err (e : E).

Arguments Ok {E A} a.
Arguments Err {E A} e.

#[export] Instance result_ret {E} : MRet (result E) := λ A a, Ok a.

#[export] Instance result_bind {E} : MBind (result E) := λ A B f m,
  match m with
  | Ok a => f a
  | Err e => Err e
  end.

Definition is_ok {E A} (r : result E A) : bool :=
  match r with
  | Ok _ => true
  | Err _ => false
  end.

(** [Result::ok] and [Option::ok_or]. *)
Definition ok {E A} (r : result E A) : option A :=
  match r with
  | Ok a => Some a
  | Err _ => None
  end.

Definition ok_or {E A} (o : option A) (e : E) : result E A :=
  match o with
  | Some a => Ok a
  | None => Err e
  end.

Definition map_err {E F A} (f : E → F) (r : result E A) : result F A :=
  match r with
  | Ok a => Ok a
  | Err e => Err (f e)
  end.

(** Collecting an iterator of results stops at the first error. *)
Fixpoint collect_results {E A B} (f : A → result E B) (l : list A) : result E (list B) :=
  match l with
  | [] => Ok []
  | a :: l => b ← f a; bs ← collect_results f l; Ok (b :: bs)
  end.

Definition eff (W E A : Type) : Type := W → result E A * W.

#[export] Instance eff_ret {W E} : MRet (eff W E) := λ A a w, (Ok a, w).

#[export] Instance eff_bind {W E} : MBind (eff W E) := λ A B f m w,
  match m w with
  | (Ok a, w') => f a w'
  | (Err e, w') => (Err e, w')
  end.

Definition throw {W E A} (e : E) : eff W E A := λ w, (Err e, w).
Definition get_world {W E} : eff W E W := λ w, (Ok w, w).
Definition modify_world {W E} (f : W → W) : eff W E unit := λ w, (Ok tt, f w).
Definition lift_result {W E A} (r : result E A) : eff W E A := λ w, (r, w).

(** [match m { Ok(..) => .., Err(..) => .. }]: observe the result of an effect
    without leaving the function. *)
Definition try_eff {W E F A} (m : eff W E A) : eff W F (result E A) :=
  λ w, let '(r, w') := m w in (Ok r, w').

(** [let _ = m;]: the result is dropped. *)
Definition ignore_eff {W E F A} (m : eff W E A) : eff W F unit :=
  λ w, let '(_, w') := m w in (Ok tt, w').

Definition map_err_eff {W E F A} (f : E → F) (m : eff W E A) : eff W F A :=
  λ w, let '(r, w') := m w in (map_err f r, w').

(** [for x in l { f(x)?; }]. *)
Fixpoint for_each {W E A} (f : A → eff W E unit) (l : list A) : eff W E unit :=
  match l with
  | [] => mret tt
  | a :: l => f a ;; for_each f l
  end.

Fixpoint map_eff {W E A B} (f : A → eff W E B) (l : list A) : eff W E (list B) :=
  match l with
  | [] => mret []
  | a :: l => b ← f a; bs ← map_eff f l; mret (b :: bs)
  end.

Lemma bind_ok {W E A B} (f : A → eff W E B) m w a w' :
  m w = (Ok a, w') → (m ≫= f) w = f a w'.
Proof. intros H. unfold mbind, eff_bind. by rewrite H. Qed.

Lemma bind_err {W E A B} (f : A → eff W E B) m w e w' :
  m w = (Err e, w') → (m ≫= f) w = (Err e, w').
Proof. intros H. unfold mbind, eff_bind. by rewrite H. Qed.

Lemma bind_inv_ok {W E A B} (f : A → eff W E B) m w b w' :
  (m ≫= f) w = (Ok b, w') → ∃ a w1, m w = (Ok a, w1) ∧ f a w1 = (Ok b, w').
Proof. unfold mbind, eff_bind. destruct (m w) as [[a|e] w1]; naive_solver. Qed.

Lemma bind_cases {W E A B} (f : A → eff W E B) m w r w' :
  (m ≫= f) w = (r, w') →
  (∃ a w1, m w = (Ok a, w1) ∧ f a w1 = (r, w')) ∨ (∃ e, m w = (Err e, w') ∧ r = Err e).
Proof. unfold mbind, eff_bind. destruct (m w) as [[a|e] w1]; naive_solver. Qed.

Lemma lift_frame {W E A} (x : result E A) (w w' : W) r :
  lift_result x w = (r, w') → w' = w ∧ r = x.
Proof. by intros [= <- <-]. Qed.

(** ** Machine integers

    A [w]-bit unsigned integer is a [Z] in [[0, 2^w)]; arithmetic that wraps in
    the source is written with its reduction. *)

Declare Scope rust_scope.
Delimit Scope rust_scope with rust.

Definition u8_mod : Z := 2 ^ 8.
Definition u16_mod : Z := 2 ^ 16.
Definition u32_mod : Z := 2 ^ 32.
Definition u64_mod : Z := 2 ^ 64.

Definition wrap32 (z : Z) : Z := z `mod` u32_mod.
Definition wrap64 (z : Z) : Z := z `mod` u64_mod.

(** [u as i64]. *)
Definition as_i64 (u : Z) : Z := if decide (u < 2 ^ 63)%Z then u else (u - u64_mod)%Z.

Definition is_u8 (z : Z) : Prop := (0 ≤ z < u8_mod)%Z.
Definition is_u16 (z : Z) : Prop := (0 ≤ z < u16_mod)%Z.
Definition is_u32 (z : Z) : Prop := (0 ≤ z < u32_mod)%Z.
Definition is_u64 (z : Z) : Prop := (0 ≤ z < u64_mod)%Z.

Notation "x +u32 y" := (wrap32 (x + y)) (at level 50, left associativity) : rust_scope.
Notation "x +u64 y" := (wrap64 (x + y)) (at level 50, left associativity) : rust_scope.
Notation "x -u64 y" := (wrap64 (x - y)) (at level 50, left associativity) : rust_scope.

Ltac unfold_widths :=
  unfold wrap32, wrap64, is_u8, is_u16, is_u32, is_u64,
    u8_mod, u16_mod, u32_mod, u64_mod in *.

Lemma wrap64_small z : is_u64 z → wrap64 z = z.
Proof. intros. unfold_widths. by apply Z.mod_small. Qed.

Lemma wrap32_small z : is_u32 z → wrap32 z = z.
Proof. intros. unfold_widths. by apply Z.mod_small. Qed.

Lemma wrap64_range z : is_u64 (wrap64 z).
Proof. unfold_widths. apply Z.mod_pos_bound. lia. Qed.

Lemma wrap32_range z : is_u32 (wrap32 z).
Proof. unfold_widths. apply Z.mod_pos_bound. lia. Qed.

(** ** Bytes *)

Abbreviation byte := Byte.byte.
Abbreviation bytes := (list Byte.byte).

#[export] Instance byte_eq_dec : EqDecision byte := Byte.byte_eq_dec.

#[export] Instance byte_countable : Countable byte :=
  inj_countable Byte.to_N Byte.of_N Byte.of_to_N.

Definition u8_of (b : byte) : Z := Z.of_N (Byte.to_N b).

Definition byte_of (z : Z) : byte :=
  default Byte.x00 (Byte.of_N (Z.to_N (z `mod` u8_mod))).

Lemma u8_of_range b : is_u8 (u8_of b).
Proof.
  unfold u8_of. unfold_widths. pose proof (Byte.to_N_bounded b). lia.
Qed.

Lemma u8_of_byte_of z : u8_of (byte_of z) = (z `mod` u8_mod)%Z.
Proof.
  assert (0 ≤ z `mod` u8_mod < u8_mod)%Z as Hr by (apply Z.mod_pos_bound; done).
  unfold byte_of, u8_of. destruct (Byte.of_N _) as [b|] eqn:E; simpl.
  - apply Byte.to_of_N in E. rewrite E. lia.
  - apply Byte.of_N_None_iff in E. unfold u8_mod in *. lia.
Qed.

Lemma byte_of_u8_of b : byte_of (u8_of b) = b.
Proof.
  unfold byte_of. rewrite Z.mod_small by apply u8_of_range.
  unfold u8_of. rewrite N2Z.id. by rewrite Byte.of_to_N.
Qed.

(** [to_le_bytes]/[from_le_bytes] and [to_be_bytes]/[from_be_bytes], for [n]
    bytes. *)
Fixpoint le_bytes (n : nat) (z : Z) : bytes :=
  match n with
  | O => []
  | S n => byte_of z :: le_bytes n (z `div` u8_mod)
  end.

Fixpoint from_le (l : bytes) : Z :=
  match l with
  | [] => 0
  | b :: l => u8_of b + u8_mod * from_le l
  end%Z.

Definition be_bytes (n : nat) (z : Z) : bytes := reverse (le_bytes n z).
Definition from_be (l : bytes) : Z := from_le (reverse l).

Lemma length_le_bytes n z : length (le_bytes n z) = n.
Proof. revert z. induction n; intros z; simpl; auto. Qed.

Lemma length_be_bytes n z : length (be_bytes n z) = n.
Proof. unfold be_bytes. by rewrite length_reverse, length_le_bytes. Qed.

Lemma from_le_bytes n z : from_le (le_bytes n z) = (z `mod` (u8_mod ^ Z.of_nat n))%Z.
Proof.
  revert z. induction n as [|n IH]; intros z; simpl le_bytes; simpl from_le.
  { by rewrite Z.mod_1_r. }
  rewrite u8_of_byte_of, IH, Nat2Z.inj_succ, Z.pow_succ_r by lia.
  rewrite (Z.rem_mul_r z u8_mod) by (unfold u8_mod; lia). lia.
Qed.

Lemma from_be_bytes n z : from_be (be_bytes n z) = (z `mod` (u8_mod ^ Z.of_nat n))%Z.
Proof. unfold from_be, be_bytes. rewrite reverse_involutive. apply from_le_bytes. Qed.

Lemma from_le_range l : (0 ≤ from_le l < u8_mod ^ Z.of_nat (length l))%Z.
Proof.
  induction l as [|b l IH]; simpl length; [done|]. simpl from_le.
  rewrite Nat2Z.inj_succ, Z.pow_succ_r by lia.
  pose proof (u8_of_range b). unfold is_u8 in *. nia.
Qed.

Lemma le_bytes_from_le l : le_bytes (length l) (from_le l) = l.
Proof.
  induction l as [|b l IH]; [done|]. simpl.
  pose proof (u8_of_range b) as Hb. unfold is_u8, u8_mod in *.
  assert ((u8_of b + 2 ^ 8 * from_le l) `div` 2 ^ 8 = from_le l)%Z as ->.
  { rewrite Z.add_comm, Z.mul_comm, Z.div_add_l by lia.
    rewrite Z.div_small by lia. lia. }
  rewrite IH. f_equal. unfold byte_of, u8_mod.
  rewrite Z.mul_comm, Z.mod_add by lia.
  rewrite <-(byte_of_u8_of b) at 2. done.
Qed.

(** ** Fixed-size byte arrays: Rust's [[u8; n]] *)

Definition arr (n : nat) : Type := { l : bytes | bool_decide (length l = n) }.

#[export] Instance arr_eq_dec n : EqDecision (arr n).
Proof. unfold arr. apply _. Defined.

#[export] Instance arr_countable n : Countable (arr n).
Proof. unfold arr. apply _. Defined.

Definition arr_bytes {n} (a : arr n) : bytes := proj1_sig a.

(** [<[u8; n]>::try_from(slice)]. *)
Definition arr_of_list (n : nat) (l : bytes) : option (arr n) :=
  match decide (Is_true (bool_decide (length l = n))) with
  | left H => Some (exist _ l H)
  | right _ => None
  end.

Lemma arr_eq {n} (a b : arr n) : arr_bytes a = arr_bytes b → a = b.
Proof. intros. by apply (sig_eq_pi _). Qed.

Lemma arr_length {n} (a : arr n) : length (arr_bytes a) = n.
Proof. destruct a as [l H]. simpl. by apply bool_decide_unpack in H. Qed.

Lemma arr_of_list_Some n l a : arr_of_list n l = Some a → arr_bytes a = l.
Proof. unfold arr_of_list. case_decide; naive_solver. Qed.

Lemma arr_of_list_None n l : arr_of_list n l = None ↔ length l ≠ n.
Proof.
  unfold arr_of_list. case_decide as H; rewrite ?bool_decide_spec in H; naive_solver.
Qed.

Lemma arr_of_list_bytes {n} (a : arr n) : arr_of_list n (arr_bytes a) = Some a.
Proof.
  destruct (arr_of_list n (arr_bytes a)) as [b|] eqn:E.
  - f_equal. apply arr_eq. by apply arr_of_list_Some in E.
  - apply arr_of_list_None in E. by rewrite arr_length in E.
Qed.

(** ** Filters *)

Section filters.
Context {A : Type} (P : A → Prop) `{∀ x, Decision (P x)}.

Lemma filter_ext_in (Q : A → Prop) `{∀ x, Decision (Q x)} (l : list A) :
  (∀ x, x ∈ l → P x ↔ Q x) → filter P l = filter Q l.
Proof.
  induction l as [|x l IH]; intros HPQ; [done|]. rewrite !filter_cons, IH by (intros; apply HPQ; by right).
  destruct (HPQ x ltac:(left)). repeat case_decide; tauto.
Qed.

Lemma filter_all (l : list A) : (∀ x, x ∈ l → P x) → filter P l = l.
Proof.
  induction l as [|x l IH]; intros HP; [done|]. rewrite filter_cons_True by (apply HP; left).
  rewrite IH; [done|]. intros; apply HP; by right.
Qed.

Lemma filter_none (l : list A) : (∀ x, x ∈ l → ¬ P x) → filter P l = [].
Proof.
  induction l as [|x l IH]; intros HP; [done|]. rewrite filter_cons_False by (apply HP; left).
  apply IH. intros; apply HP; by right.
Qed.

End filters.

(** ** Sums over lists *)

Lemma sum_list_with_perm {A} (f : A → nat) l k :
  l ≡ₚ k → sum_list_with f l = sum_list_with f k.
Proof. induction 1; simpl; lia. Qed.

Lemma sum_list_with_filter_le {A} (f : A → nat) (P : A → Prop) `{∀ x, Decision (P x)} l :
  sum_list_with f (filter P l) ≤ sum_list_with f l.
Proof.
  induction l as [|x l IH]; [done|]. rewrite filter_cons. case_decide; simpl; lia.
Qed.

Lemma sum_list_with_submseteq {A} (f : A → nat) l k :
  l ⊆+ k → sum_list_with f l ≤ sum_list_with f k.
Proof. induction 1; simpl; lia. Qed.

(** ** Sums over maps and occurrence counts *)

Definition map_sum {K A} `{Countable K} (f : A → Z) (m : gmap K A) : Z :=
  map_fold (λ _ a n, (f a + n)%Z) 0%Z m.

Lemma map_sum_empty {K A} `{Countable K} (f : A → Z) : map_sum f (∅ : gmap K A) = 0%Z.
Proof. done. Qed.

Lemma map_sum_insert {K A} `{Countable K} (f : A → Z) (m : gmap K A) k a :
  m !! k = None → map_sum f (<[k := a]> m) = (f a + map_sum f m)%Z.
Proof. intros Hm. unfold map_sum. rewrite map_fold_insert_L; auto with lia. Qed.

Lemma map_sum_delete {K A} `{Countable K} (f : A → Z) (m : gmap K A) k a :
  m !! k = Some a → map_sum f m = (f a + map_sum f (delete k m))%Z.
Proof.
  intros Hm. rewrite <- (insert_delete_id m k a Hm) at 1.
  by rewrite map_sum_insert by apply lookup_delete_eq.
Qed.

Lemma map_sum_nonneg {K A} `{Countable K} (f : A → Z) (m : gmap K A) :
  (∀ a, 0 ≤ f a)%Z → (0 ≤ map_sum f m)%Z.
Proof.
  intros Hf. induction m as [|k a m Hm IH] using map_ind; [done|].
  rewrite map_sum_insert by done. pose proof (Hf a). lia.
Qed.

Lemma map_sum_elem {K A} `{Countable K} (f : A → Z) (m : gmap K A) k a :
  (∀ a, 0 ≤ f a)%Z → m !! k = Some a → (f a ≤ map_sum f m)%Z.
Proof.
  intros Hf Hm. rewrite (map_sum_delete f m k a Hm).
  pose proof (map_sum_nonneg f (delete k m) Hf). lia.
Qed.

Lemma map_sum_pos {K A} `{Countable K} (f : A → Z) (m : gmap K A) :
  (∀ a, 0 ≤ f a)%Z → (0 < map_sum f m)%Z → ∃ k a, m !! k = Some a ∧ (0 < f a)%Z.
Proof.
  intros Hf. induction m as [|k a m Hm IH] using map_ind; [rewrite map_sum_empty; lia|].
  rewrite map_sum_insert by done. intros Hs. destruct (decide (0 < f a)%Z) as [|Hn].
  - exists k, a. by rewrite lookup_insert_eq.
  - pose proof (Hf a). destruct IH as (k' & a' & Hk & Ha); [lia|].
    exists k', a'. rewrite lookup_insert_ne by congruence. done.
Qed.

Lemma map_sum_filter_le {K A} `{Countable K} (f : A → Z) (P : K * A → Prop) `{∀ x, Decision (P x)}
    (m : gmap K A) :
  (∀ a, 0 ≤ f a)%Z → (map_sum f (filter P m) ≤ map_sum f m)%Z.
Proof.
  intros Hf. induction m as [|k a m Hm IH] using map_ind; [by rewrite map_filter_empty|].
  rewrite (map_sum_insert f m) by done. pose proof (Hf a). destruct (decide (P (k, a))) as [Hp|Hp].
  - rewrite map_filter_insert_True by done. rewrite map_sum_insert; [lia|].
    apply map_lookup_filter_None. by left.
  - rewrite map_filter_insert_False by done. rewrite delete_id by done. lia.
Qed.

Definition occ {A} `{EqDecision A} (x : A) (l : list A) : nat := length (filter (λ y, y = x) l).

Lemma occ_cons {A} `{EqDecision A} (x y : A) l :
  occ x (y :: l) = (if decide (y = x) then 1 else 0) + occ x l.
Proof. unfold occ. rewrite filter_cons. by case_decide. Qed.

Lemma occ_pos {A} `{EqDecision A} (x : A) l : x ∈ l ↔ 0 < occ x l.
Proof.
  induction l as [|y l IH]; [split; [by intros ?%not_elem_of_nil|simpl; unfold occ; simpl; lia]|].
  rewrite elem_of_cons, occ_cons, IH. case_decide as E; [subst; split; [lia|by left]|].
  split; [intros [->|?]; [done|lia]|intros; right; lia].
Qed.

Lemma occ_perm {A} `{EqDecision A} (x : A) l k : l ≡ₚ k → occ x l = occ x k.
Proof. unfold occ. by intros ->. Qed.

Lemma wf_sub {A} (R S : A → A → Prop) :
  (∀ a b, R a b → S a b) → well_founded S → well_founded R.
Proof. intros HRS HS a. induction (HS a) as [a _ IH]. constructor. eauto. Qed.
