(* ===== verification/Strs.v ===== *)
(** * String operations of Rust's [str]

    A Rust string is its UTF-8 byte sequence; Rocq's [string] is a sequence of
    8-bit characters, so a [str] is modelled byte by byte.  Every operation here
    works on ASCII delimiters, for which the byte view and the [char] view of
    [str] agree. *)

From stdpp Require Import base strings list pretty.
From Stdlib Require Import Ascii String Lia.
From S2P Require Import Prelude.

Local Open Scope string_scope.

(** ** Bytes and slices *)

Definition as_bytes (s : string) : bytes := String.list_byte_of_string s.
Definition str_of_bytes (b : bytes) : string := String.string_of_list_byte b.

Lemma str_of_as_bytes s : str_of_bytes (as_bytes s) = s.
Proof. apply String.string_of_list_byte_of_string. Qed.

Lemma as_bytes_app s t : as_bytes (s +:+ t) = (as_bytes s ++ as_bytes t)%list.
Proof. induction s as [|a s IH]; [done|]. exact (f_equal (cons (byte_of_ascii a)) IH). Qed.

Lemma as_bytes_of b : as_bytes (str_of_bytes b) = b.
Proof. apply String.list_byte_of_string_of_list_byte. Qed.

(** [&s[..n]] and [&s[n..]] (the callers slice within bounds). *)
Fixpoint str_take (n : nat) (s : string) : string :=
  match n, s with
  | S n, String c s => String c (str_take n s)
  | _, _ => ""
  end.

Fixpoint str_drop (n : nat) (s : string) : string :=
  match n, s with
  | O, _ => s
  | S n, String _ s => str_drop n s
  | S _, "" => ""
  end.

Fixpoint str_all (P : ascii → bool) (s : string) : bool :=
  match s with
  | "" => true
  | String c s => P c && str_all P s
  end.

Fixpoint str_map (f : ascii → ascii) (s : string) : string :=
  match s with
  | "" => ""
  | String c s => String (f c) (str_map f s)
  end.

(** ** Searching *)

Fixpoint strip_prefix (p s : string) : option string :=
  match p, s with
  | "", _ => Some s
  | String a p, String b s => if decide (a = b) then strip_prefix p s else None
  | String _ _, "" => None
  end.

Definition starts_with (s p : string) : bool :=
  match strip_prefix p s with
  | Some _ => true
  | None => false
  end.

Fixpoint contains (s pat : string) : bool :=
  starts_with s pat ||
  match s with
  | "" => false
  | String _ s => contains s pat
  end.

Fixpoint contains_char (s : string) (c : ascii) : bool :=
  match s with
  | "" => false
  | String a s => bool_decide (a = c) || contains_char s c
  end.

(** [s.split_once(c)]. *)
Fixpoint split_once (s : string) (c : ascii) : option (string * string) :=
  match s with
  | "" => None
  | String a s =>
    if decide (a = c) then Some ("", s)
    else '(x, y) ← split_once s c; Some (String a x, y)
  end.

(** [s.rsplit_once(c)]: at the last occurrence. *)
Fixpoint rsplit_once (s : string) (c : ascii) : option (string * string) :=
  match s with
  | "" => None
  | String a s =>
    match rsplit_once s c with
    | Some (x, y) => Some (String a x, y)
    | None => if decide (a = c) then Some ("", s) else None
    end
  end.

(** [s.trim_end_matches(c)]. *)
Fixpoint trim_end_matches (s : string) (c : ascii) : string :=
  match s with
  | "" => ""
  | String a s =>
    match trim_end_matches s c with
    | "" => if decide (a = c) then "" else String a ""
    | t => String a t
    end
  end.

Fixpoint ends_with (s p : string) : bool :=
  bool_decide (s = p) ||
  match s with
  | "" => false
  | String _ s => ends_with s p
  end.

(** [s.split(c)]: at least one piece, also of the empty string. *)
Fixpoint split (s : string) (c : ascii) : list string :=
  match s with
  | "" => [""]
  | String a s =>
    if decide (a = c) then "" :: split s c
    else match split s c with
         | [] => [String a ""]
         | x :: xs => String a x :: xs
         end
  end.

(** [parts.join(sep)]. *)
Fixpoint join (sep : string) (l : list string) : string :=
  match l with
  | [] => ""
  | [x] => x
  | x :: l => x +:+ sep +:+ join sep l
  end.

(** ** ASCII character classes *)

Definition in_range (lo hi c : ascii) : bool :=
  (nat_of_ascii lo <=? nat_of_ascii c)%nat && (nat_of_ascii c <=? nat_of_ascii hi)%nat.

Definition is_lower_hex (c : ascii) : bool := in_range "0" "9" c || in_range "a" "f" c.

Definition is_ascii_hexdigit (c : ascii) : bool := is_lower_hex c || in_range "A" "F" c.

Definition ascii_lower (c : ascii) : ascii :=
  if in_range "A" "Z" c then ascii_of_nat (nat_of_ascii c + 32) else c.

Definition ascii_upper (c : ascii) : ascii :=
  if in_range "a" "z" c then ascii_of_nat (nat_of_ascii c - 32) else c.

Definition to_ascii_lowercase : string → string := str_map ascii_lower.

(** [a.eq_ignore_ascii_case(b)]. *)
Definition eq_ignore_ascii_case (a b : string) : bool :=
  bool_decide (to_ascii_lowercase a = to_ascii_lowercase b).

(** ** Number formatting *)

Definition hex_digit (n : Z) : ascii :=
  ascii_of_nat (if (n <? 10)%Z then 48 + Z.to_nat n else 87 + Z.to_nat n).

(** [{:0<n>x}] of an unsigned integer below [16^n]. *)
Fixpoint hex_fixed (n : nat) (z : Z) : string :=
  match n with
  | O => ""
  | S n => hex_fixed n (z / 16) +:+ String (hex_digit (z mod 16)) ""
  end.

(** ** Lemmas *)

Lemma str_app_nil_r s : s +:+ "" = s.
Proof. induction s as [|c s IH]; [done|]. change (String c (s +:+ "") = String c s). by rewrite IH. Qed.

Lemma str_app_cons c s t : String c s +:+ t = String c (s +:+ t).
Proof. done. Qed.

Lemma str_app_assoc s t u : s +:+ (t +:+ u) = (s +:+ t) +:+ u.
Proof. induction s as [|c s IH]; [done|]. rewrite !str_app_cons. by rewrite IH. Qed.

Lemma str_length_app s t : String.length (s +:+ t) = String.length s + String.length t.
Proof. induction s as [|c s IH]; [done|]. rewrite str_app_cons. simpl. by rewrite IH. Qed.

Lemma str_take_drop n s : str_take n s +:+ str_drop n s = s.
Proof.
  revert s. induction n as [|n IH]; intros s; [done|].
  destruct s as [|c s]; [done|]. simpl. rewrite str_app_cons. by rewrite IH.
Qed.

Lemma str_drop_drop n m s : str_drop n (str_drop m s) = str_drop (m + n) s.
Proof.
  revert s. induction m as [|m IH]; intros s; [done|].
  destruct s; simpl; [by destruct n|]. apply IH.
Qed.

Lemma strip_prefix_app p s : strip_prefix p (p +:+ s) = Some s.
Proof.
  induction p as [|c p IH]; [by destruct s|]. rewrite str_app_cons. simpl.
  by rewrite decide_True.
Qed.

Lemma strip_prefix_Some p s t : strip_prefix p s = Some t → s = p +:+ t.
Proof.
  revert s. induction p as [|a p IH]; intros s; simpl; [naive_solver|].
  destruct s as [|b s]; [done|]. case_decide; [subst|done].
  intros H. rewrite str_app_cons. f_equal. by apply IH.
Qed.

Lemma starts_with_app p s : starts_with (p +:+ s) p = true.
Proof. unfold starts_with. by rewrite strip_prefix_app. Qed.

Lemma split_once_app x y c :
  contains_char x c = false → split_once (x +:+ String c y) c = Some (x, y).
Proof.
  induction x as [|a x IH]; intros H.
  - change ("" +:+ String c y) with (String c y). simpl. by rewrite decide_True.
  - rewrite str_app_cons. simpl in *.
    apply orb_false_iff in H as [H1%bool_decide_eq_false H2].
    rewrite decide_False by done. by rewrite IH.
Qed.

Lemma split_once_Some s c x y :
  split_once s c = Some (x, y) → s = x +:+ String c y ∧ contains_char x c = false.
Proof.
  revert x y. induction s as [|a s IH]; intros x y; simpl; [done|].
  case_decide; [intros [= <- <-]; by subst|].
  destruct (split_once s c) as [[x' y']|] eqn:E; simpl; [|done].
  intros [= <- <-]. destruct (IH _ _ eq_refl) as [-> Hx]. split; [done|].
  simpl. by rewrite bool_decide_eq_false_2.
Qed.

Lemma str_all_app P s t : str_all P (s +:+ t) = str_all P s && str_all P t.
Proof.
  induction s as [|c s IH]; [done|]. rewrite str_app_cons. simpl. rewrite IH.
  by rewrite andb_assoc.
Qed.

Lemma str_all_contains P s c : str_all P s = true → P c = false → contains_char s c = false.
Proof.
  induction s as [|a s IH]; simpl; [done|]. intros [Ha Hs]%andb_true_iff Hc.
  rewrite (IH Hs Hc), orb_false_r. apply bool_decide_eq_false. congruence.
Qed.

Lemma str_all_starts_with P s c p : str_all P s = true → P c = false →
  strip_prefix (String c p) s = None.
Proof.
  destruct s as [|a s]; simpl; [done|]. intros [Ha _]%andb_true_iff Hc.
  case_decide; [congruence|done].
Qed.

Lemma contains_app s pat t : contains (s +:+ pat +:+ t) pat = true.
Proof.
  induction s as [|c s IH].
  - change ("" +:+ pat +:+ t) with (pat +:+ t).
    pose proof (starts_with_app pat t) as E.
    destruct (pat +:+ t); simpl; by rewrite E.
  - rewrite str_app_cons. simpl. rewrite IH. by rewrite orb_true_r.
Qed.

Lemma split_no_sep s c : contains_char s c = false → split s c = [s].
Proof.
  induction s as [|a s IH]; simpl; [done|]. intros [Ha Hs]%orb_false_iff.
  apply bool_decide_eq_false in Ha. rewrite decide_False by done. by rewrite IH.
Qed.

Lemma split_once_None s c : contains_char s c = false → split_once s c = None.
Proof.
  intros Hs. destruct (split_once s c) as [[x y]|] eqn:E; [|done].
  apply split_once_Some in E as [-> _]. exfalso. revert Hs. induction x as [|a x IH]; simpl.
  - by rewrite bool_decide_true.
  - intros [_ ?]%orb_false_iff. by apply IH.
Qed.

Lemma str_map_contains f s c : contains_char s c = true → contains_char (str_map f s) (f c) = true.
Proof.
  induction s as [|a s IH]; simpl; [done|]. rewrite !orb_true_iff, !bool_decide_eq_true.
  intros [->|Hs]; [by left|right; by apply IH].
Qed.

Lemma contains_char_app s t c : contains_char (s +:+ t) c = contains_char s c || contains_char t c.
Proof. induction s as [|a s IH]; [done|]. rewrite str_app_cons. simpl. by rewrite IH, orb_assoc. Qed.

Lemma contains_no_char s c pat : contains_char s c = false → contains s (String c pat) = false.
Proof.
  induction s as [|a s IH]; simpl; [done|]. intros [Ha%bool_decide_eq_false Hs]%orb_false_iff.
  unfold starts_with. simpl. rewrite decide_False by congruence. by apply IH.
Qed.

Lemma split_app x y c : contains_char x c = false → split (x +:+ String c y) c = x :: split y c.
Proof.
  induction x as [|a x IH].
  - intros _. change ("" +:+ String c y) with (String c y). simpl. by rewrite decide_True.
  - rewrite str_app_cons. simpl. intros [Ha%bool_decide_eq_false Hx]%orb_false_iff.
    rewrite decide_False by done. by rewrite IH.
Qed.

Lemma split_join c l :
  (l ≠ [])%list → Forall (λ x, contains_char x c = false) l → split (join (String c "") l) c = l.
Proof.
  intros Hne Hl. induction Hl as [|x l Hx Hl IH]; [done|]. destruct l as [|y l].
  - by apply split_no_sep.
  - change (join (String c "") (x :: y :: l)) with (x +:+ String c (join (String c "") (y :: l))).
    rewrite split_app by done. by rewrite IH.
Qed.

Lemma join_snoc sep l x : (l ≠ [])%list → join sep (l ++ [x]) = join sep l +:+ sep +:+ x.
Proof.
  induction l as [|y [|z l] IH]; intros Hl; [done..|].
  change (join sep ((y :: z :: l) ++ [x])) with (y +:+ sep +:+ join sep ((z :: l) ++ [x])).
  rewrite IH by done. change (join sep (y :: z :: l)) with (y +:+ sep +:+ join sep (z :: l)).
  by rewrite !str_app_assoc.
Qed.

Lemma rsplit_once_None s c : contains_char s c = false → rsplit_once s c = None.
Proof.
  induction s as [|a s IH]; simpl; [done|]. intros [Ha%bool_decide_eq_false Hs]%orb_false_iff.
  rewrite IH by done. by rewrite decide_False.
Qed.

Lemma rsplit_once_app x y c : contains_char y c = false → rsplit_once (x +:+ String c y) c = Some (x, y).
Proof.
  intros Hy. induction x as [|a x IH].
  - change ("" +:+ String c y) with (String c y). simpl. by rewrite rsplit_once_None, decide_True.
  - rewrite str_app_cons. simpl. by rewrite IH.
Qed.

Lemma trim_end_no_char s c : contains_char s c = false → trim_end_matches s c = s.
Proof.
  induction s as [|a s IH]; simpl; [done|]. intros [Ha%bool_decide_eq_false Hs]%orb_false_iff.
  rewrite IH by done. destruct s; [by rewrite decide_False|done].
Qed.

Lemma trim_end_app s t c :
  trim_end_matches t c ≠ "" → trim_end_matches (s +:+ t) c = s +:+ trim_end_matches t c.
Proof.
  intros Ht. induction s as [|a s IH]; [done|]. rewrite str_app_cons. simpl. rewrite IH.
  destruct (s +:+ trim_end_matches t c) eqn:E; [|by rewrite str_app_cons, E].
  exfalso. destruct s; [|done]. by destruct (trim_end_matches t c).
Qed.

Lemma trim_end_snoc s c : trim_end_matches (s +:+ String c "") c = trim_end_matches s c.
Proof.
  induction s as [|a s IH].
  - change ("" +:+ String c "") with (String c ""). simpl. by rewrite decide_True.
  - rewrite str_app_cons. simpl. by rewrite IH.
Qed.

Lemma rsplit_once_Some s c x y : rsplit_once s c = Some (x, y) → s = x +:+ String c y.
Proof.
  revert x y. induction s as [|a s IH]; intros x y; simpl; [done|].
  destruct (rsplit_once s c) as [[x' y']|] eqn:E.
  - intros [= <- <-]. rewrite str_app_cons. f_equal. by apply IH.
  - case_decide; [intros [= <- <-]; by subst|done].
Qed.

Lemma trim_end_split s c :
  s = trim_end_matches s c ∨ ∃ r, s = trim_end_matches s c +:+ String c r.
Proof.
  induction s as [|a s IH]; simpl; [by left|]. destruct (trim_end_matches s c) as [|b t] eqn:E.
  - case_decide as Ha; [right; exists s; by subst|]. destruct IH as [->|[r ->]]; [by left|].
    right. exists r. done.
  - destruct IH as [->|[r ->]]; [by left|]. right. by exists r.
Qed.

Lemma contains_true s pat : contains s pat = true → ∃ x y, s = x +:+ pat +:+ y.
Proof.
  induction s as [|a s IH]; simpl; rewrite ?orb_false_r.
  - unfold starts_with. destruct (strip_prefix pat "") as [y|] eqn:E; [|done]. intros _.
    apply strip_prefix_Some in E. by exists "", y.
  - intros [Hs|Hs]%orb_true_iff.
    + unfold starts_with in Hs. destruct (strip_prefix pat (String a s)) as [y|] eqn:E; [|done].
      apply strip_prefix_Some in E. by exists "", y.
    + destruct (IH Hs) as (x & y & ->). exists (String a x), y. by rewrite str_app_cons.
Qed.

Lemma contains_mid a s b pat : contains s pat = true → contains (a +:+ s +:+ b) pat = true.
Proof.
  intros (x & y & ->)%contains_true.
  replace (a +:+ (x +:+ pat +:+ y) +:+ b) with ((a +:+ x) +:+ pat +:+ (y +:+ b)); [apply contains_app|].
  by rewrite !str_app_assoc.
Qed.
