(* ===== verification/Crates.v ===== *)
(** * Third-party crates

    The runtime calls crates whose sources are not part of the repository.  Each
    is a class of operations, an argument of every definition that calls it; what
    the code relies on is a separate class of laws, which state documented
    behaviour of the crate.  [Instances.v] gives concrete functions that satisfy
    the laws. *)

From stdpp Require Import base gmap strings list.
From Stdlib Require Import ZArith.
From S2P Require Import Prelude Strs.

(** ** [hex]: [encode] writes two lower-case hexadecimal digits per byte, and
    [decode] reads digits of either case. *)

Class Hex := {
  hex_encode : bytes → string;
  hex_decode : string → option bytes;
}.

Class HexLaws `{Hex} : Prop := {
  hex_decode_encode b : hex_decode (hex_encode b) = Some b;
  hex_encode_length b : String.length (hex_encode b) = 2 * length b;
  hex_encode_lower b : str_all is_lower_hex (hex_encode b) = true;
  hex_decode_lower s b : hex_decode s = Some b → hex_encode b = to_ascii_lowercase s;
}.

(** ** [sha2]: the two digest functions the code uses.  Nothing is assumed of
    them beyond being functions of the data with outputs of the right size. *)

Class Sha2 := {
  sha256 : bytes → arr 32;
  sha512 : bytes → arr 64;
}.

(** ** [rkyv]: serialization of a type to bytes and the checked access to its
    archived form.  [to_bytes] may fail; a byte string it produced passes
    [check_archived_root] and gives back the value. *)

Class Rkyv (A : Type) := {
  rkyv_to_bytes : A → option bytes;
  check_archived_root : bytes → option A;
}.

Class RkyvLaws (A : Type) `{Rkyv A} : Prop := {
  check_to_bytes (a : A) b : rkyv_to_bytes a = Some b → check_archived_root b = Some a;
}.

(** ** [bytes]: [BufMut] appends integers in big-endian order; [Buf] takes them
    from the front and panics (here [None]) when fewer bytes remain. *)

Definition to_signed32 (z : Z) : Z := if (z <? 2 ^ 31)%Z then z else (z - 2 ^ 32)%Z.

Class ByteBuf := {
  put_u8 : bytes → Z → bytes;
  put_u16 : bytes → Z → bytes;
  put_u32 : bytes → Z → bytes;
  put_i32 : bytes → Z → bytes;
  get_u8 : bytes → option (Z * bytes);
  get_u16 : bytes → option (Z * bytes);
  get_u32 : bytes → option (Z * bytes);
  get_i32 : bytes → option (Z * bytes);
}.

Class ByteBufLaws `{ByteBuf} : Prop := {
  put_u8_be b z : put_u8 b z = b ++ be_bytes 1 z;
  put_u16_be b z : put_u16 b z = b ++ be_bytes 2 z;
  put_u32_be b z : put_u32 b z = b ++ be_bytes 4 z;
  put_i32_be b z : put_i32 b z = b ++ be_bytes 4 z;
  get_u8_be b :
    get_u8 b = if decide (1 ≤ length b) then Some (from_be (take 1 b), drop 1 b) else None;
  get_u16_be b :
    get_u16 b = if decide (2 ≤ length b) then Some (from_be (take 2 b), drop 2 b) else None;
  get_u32_be b :
    get_u32 b = if decide (4 ≤ length b) then Some (from_be (take 4 b), drop 4 b) else None;
  get_i32_be b :
    get_i32 b =
    if decide (4 ≤ length b) then Some (to_signed32 (from_be (take 4 b)), drop 4 b) else None;
}.
