(* ===== verification/Node.v ===== *)
(** * Digests and DAG nodes: [runtime/pullrun-store/src/{lib,node}.rs]

    A digest is 32 raw bytes.  Its textual forms are the bare hexadecimal string
    and the OCI form [sha256:<hex>]; the operations below parse, print and check
    them.  Error strings of the source are modelled as constructors carrying what
    the message interpolates.  The archived form of a node ([ArchivedDagNode]) is a
    view of the same fields, so one record serves for both. *)

From Stdlib Require Import Ascii.
From stdpp Require Import base gmap strings list.
From S2P Require Import Strs Crates Prelude.

(** [pub struct Digest(pub [u8; 32])]. *)
Record Digest := MkDigest { digest_arr : arr 32 }.

#[export] Instance digest_eq_dec : EqDecision Digest.
Proof. solve_decision. Defined.

#[export] Instance digest_countable : Countable Digest :=
  inj_countable' digest_arr MkDigest (λ d, match d with MkDigest a => eq_refl end).

Inductive DigestError :=
| InvalidHexDigest (s : string)
| DigestLength (n : nat)
| MissingAlgorithm (s : string)
| UnsupportedAlgorithm (algo : string)
| Sha256Mismatch (computed claimed : string)
| Sha512Mismatch (computed claimed : string).

Section digest.
Context `{Hex, Sha2}.

Definition from_hex (s : string) : result DigestError Digest :=
  let s := default s (strip_prefix "sha256:" s) in
  b ← ok_or (hex_decode s) (InvalidHexDigest s);
  match arr_of_list 32 b with
  | Some a => Ok (MkDigest a)
  | None => Err (DigestLength (length b))
  end.

Definition as_hex (d : Digest) : string := hex_encode (arr_bytes (digest_arr d)).

Definition compute (data : bytes) : Digest := MkDigest (sha256 data).

Definition from_oci (s : string) : result DigestError Digest :=
  match split_once s ":"%char with
  | None => Err (MissingAlgorithm s)
  | Some (algo, encoded) =>
    if decide (algo = "sha256") then from_hex encoded
    else Err (UnsupportedAlgorithm algo)
  end.

Definition verify_oci (data : bytes) (claimed : string) : result DigestError unit :=
  match split_once claimed ":"%char with
  | None => Err (MissingAlgorithm claimed)
  | Some (algo, encoded) =>
    if decide (algo = "sha256") then
      let computed := hex_encode (arr_bytes (sha256 data)) in
      if decide (computed = encoded) then Ok tt else Err (Sha256Mismatch computed encoded)
    else if decide (algo = "sha512") then
      let computed := hex_encode (arr_bytes (sha512 data)) in
      if decide (computed = encoded) then Ok tt else Err (Sha512Mismatch computed encoded)
    else Ok tt
  end.

(** ** Lemmas *)

Context `{!HexLaws}.

Lemma as_hex_length d : String.length (as_hex d) = 64.
Proof. unfold as_hex. by rewrite hex_encode_length, arr_length. Qed.

Lemma as_hex_inj d e : as_hex d = as_hex e → d = e.
Proof.
  unfold as_hex. intros E. apply (f_equal hex_decode) in E.
  rewrite !hex_decode_encode in E. destruct d as [a], e as [b]. simpl in *.
  f_equal. apply arr_eq. naive_solver.
Qed.

Lemma as_hex_no_prefix d : strip_prefix "sha256:" (as_hex d) = None.
Proof.
  apply (str_all_starts_with is_lower_hex); [apply hex_encode_lower|done].
Qed.

Lemma from_hex_as_hex d : from_hex (as_hex d) = Ok d.
Proof.
  unfold from_hex. rewrite as_hex_no_prefix. simpl. unfold as_hex.
  rewrite hex_decode_encode. simpl. rewrite arr_of_list_bytes. by destruct d.
Qed.

Lemma from_hex_prefixed d : from_hex ("sha256:" +:+ as_hex d) = Ok d.
Proof.
  pose proof (from_hex_as_hex d) as E. unfold from_hex in *.
  rewrite as_hex_no_prefix in E. by rewrite strip_prefix_app.
Qed.

Lemma from_hex_sound s d :
  from_hex s = Ok d →
  as_hex d = to_ascii_lowercase (default s (strip_prefix "sha256:" s)).
Proof.
  unfold from_hex, as_hex. set (t := default _ _).
  destruct (hex_decode t) as [b|] eqn:Eh; simpl; [|done].
  destruct (arr_of_list 32 b) as [a|] eqn:Ea; [|done].
  intros [= <-]. simpl. rewrite (arr_of_list_Some _ _ _ Ea). by apply hex_decode_lower.
Qed.

End digest.

Inductive NodeKind :=
| Blob
| Tree
| Layer
| Manifest
| ManifestList
| Whiteout
| OpaqueDir.

#[export] Instance node_kind_eq_dec : EqDecision NodeKind.
Proof. solve_decision. Defined.

Record DagNode := MkDagNode {
  kind : NodeKind;
  edges : list Digest;
  inline_data : bytes;
}.

#[export] Instance dag_node_eq_dec : EqDecision DagNode.
Proof. solve_decision. Defined.

Module DagNode.

Definition new (k : NodeKind) (es : list Digest) (data : bytes) : DagNode := MkDagNode k es data.
Definition blob (data : bytes) : DagNode := MkDagNode Blob [] data.
Definition tree (es : list Digest) (data : bytes) : DagNode := MkDagNode Tree es data.
Definition layer (es : list Digest) (data : bytes) : DagNode := MkDagNode Layer es data.
Definition manifest (es : list Digest) (data : bytes) : DagNode := MkDagNode Manifest es data.
Definition manifest_list (es : list Digest) (data : bytes) : DagNode := MkDagNode ManifestList es data.
Definition whiteout (target_path : bytes) : DagNode := MkDagNode Whiteout [] target_path.
Definition opaque_dir (dir_path : bytes) : DagNode := MkDagNode OpaqueDir [] dir_path.

Definition is_blob (n : DagNode) : bool := bool_decide (kind n = Blob).
Definition is_tree (n : DagNode) : bool := bool_decide (kind n = Tree).
Definition is_layer (n : DagNode) : bool := bool_decide (kind n = Layer).
Definition is_manifest (n : DagNode) : bool := bool_decide (kind n = Manifest).
Definition is_manifest_list (n : DagNode) : bool := bool_decide (kind n = ManifestList).
Definition is_whiteout (n : DagNode) : bool := bool_decide (kind n = Whiteout).
Definition is_opaque_dir (n : DagNode) : bool := bool_decide (kind n = OpaqueDir).

End DagNode.
