(* ===== verification/Instances.v ===== *)
(** * Concrete crates

    Functions that satisfy the laws of [Crates.v]: the hexadecimal codec itself,
    a length-preserving stand-in for the hash functions (injective on short
    inputs) and a length-prefixed archive format for nodes.  The witnesses of the
    development run on them; no theorem depends on them. *)

From stdpp Require Import base gmap strings list.
From Stdlib Require Import Ascii Lia ZArith.
From S2P Require Import Prelude Strs Crates Node.

(** ** Hexadecimal *)

Definition hex_of_byte (b : byte) : string := hex_fixed 2 (u8_of b).

Fixpoint hex_enc (b : bytes) : string :=
  match b with
  | [] => EmptyString
  | x :: b => hex_of_byte x +:+ hex_enc b
  end.

Definition hex_val (c : ascii) : option Z :=
  let n := Z.of_nat (nat_of_ascii c) in
  if in_range "0" "9" c then Some (n - 48)%Z
  else if in_range "a" "f" c then Some (n - 87)%Z
  else if in_range "A" "F" c then Some (n - 55)%Z
  else None.

Fixpoint hex_dec (s : string) : option bytes :=
  match s with
  | EmptyString => Some []
  | String _ EmptyString => None
  | String a (String b s) =>
    x ← hex_val a; y ← hex_val b; r ← hex_dec s; Some (byte_of (16 * x + y) :: r)
  end.

#[export] Instance concrete_hex : Hex := {| hex_encode := hex_enc; hex_decode := hex_dec |}.

Lemma hex_of_byte_check b :
  (let x := hex_digit (u8_of b / 16) in
   let y := hex_digit (u8_of b mod 16) in
   String.eqb (hex_of_byte b) (String x (String y EmptyString)) &&
   is_lower_hex x && is_lower_hex y &&
   match hex_val x, hex_val y with
   | Some u, Some v => Byte.eqb (byte_of (16 * u + v)) b
   | _, _ => false
   end)%Z = true.
Proof. by destruct b. Qed.

Lemma hex_of_byte_spec b :
  ∃ x y, hex_of_byte b = String x (String y EmptyString) ∧
    is_lower_hex x = true ∧ is_lower_hex y = true ∧
    ∃ u v, hex_val x = Some u ∧ hex_val y = Some v ∧ byte_of (16 * u + v) = b.
Proof.
  pose proof (hex_of_byte_check b) as H. cbv zeta in H.
  rewrite !andb_true_iff in H. destruct H as [[[E Hx] Hy] Hv].
  apply String.eqb_eq in E. eexists _, _. split; [exact E|]. do 2 (split; [done|]).
  repeat case_match; try done. eexists _, _. repeat split; try done.
  by apply Byte.byte_dec_bl.
Qed.

Lemma hex_val_lower a x : hex_val a = Some x →
  (0 ≤ x < 16)%Z ∧ hex_digit x = ascii_lower a.
Proof.
  destruct a as [[] [] [] [] [] [] [] []]; vm_compute; intros [= <-]; repeat split; discriminate.
Qed.

Lemma hex_of_byte_of x y :
  (0 ≤ x < 16)%Z → (0 ≤ y < 16)%Z →
  hex_of_byte (byte_of (16 * x + y)) = String (hex_digit x) (String (hex_digit y) EmptyString).
Proof.
  intros Hx Hy. unfold hex_of_byte. rewrite u8_of_byte_of.
  rewrite Z.mod_small by (unfold u8_mod; lia). unfold hex_fixed.
  replace ((16 * x + y) / 16)%Z with x by (apply (Z.div_unique_pos _ _ _ y); lia).
  replace ((16 * x + y) mod 16)%Z with y by (apply (Z.mod_unique_pos _ _ x); lia).
  by rewrite (Z.mod_small x) by lia.
Qed.

#[export] Instance concrete_hex_laws : HexLaws.
Proof.
  split; simpl.
  - induction b as [|b l IH]; [done|]. cbn [hex_enc].
    destruct (hex_of_byte_spec b) as (x & y & -> & _ & _ & u & v & Hu & Hv & Hb).
    rewrite !str_app_cons. simpl. rewrite Hu, Hv. simpl.
    change (EmptyString +:+ hex_enc l) with (hex_enc l). rewrite IH. simpl. by rewrite Hb.
  - induction b as [|b l IH]; [done|]. cbn [hex_enc].
    destruct (hex_of_byte_spec b) as (x & y & -> & _). rewrite str_length_app. simpl. lia.
  - induction b as [|b l IH]; [done|]. cbn [hex_enc].
    destruct (hex_of_byte_spec b) as (x & y & -> & Hx & Hy & _).
    rewrite str_all_app. simpl. by rewrite Hx, Hy, IH.
  - fix IH 1. intros [|a [|b s]] l; [by intros [= <-]|done|].
    change (to_ascii_lowercase (String a (String b s)))
      with (String (ascii_lower a) (String (ascii_lower b) (to_ascii_lowercase s))).
    cbn [hex_dec].
    destruct (hex_val a) as [x|] eqn:Ea; [|done].
    destruct (hex_val b) as [y|] eqn:Eb; [|done].
    destruct (hex_dec s) as [r|] eqn:Er; [|done]. intros [= <-]. cbn [hex_enc].
    apply hex_val_lower in Ea as [? <-]. apply hex_val_lower in Eb as [? <-].
    rewrite hex_of_byte_of by done. rewrite !str_app_cons.
    change (EmptyString +:+ hex_enc r) with (hex_enc r). by rewrite (IH s r).
Qed.

(** ** Hashes *)

Definition arr_le (n : nat) (z : Z) : arr n :=
  match arr_of_list n (le_bytes n z) with
  | Some a => a
  | None => exist _ (le_bytes n z) (bool_decide_pack _ (length_le_bytes n z))
  end.

Definition toy_hash (data : bytes) : Z := from_le (Byte.x01 :: rev data).

#[export] Instance concrete_sha2 : Sha2 := {|
  sha256 data := arr_le 32 (toy_hash data);
  sha512 data := arr_le 64 (toy_hash data)
|}.

(** ** Archives of DAG nodes *)

Definition kind_byte (k : NodeKind) : byte :=
  match k with
  | Blob => Byte.x00 | Tree => Byte.x01 | Layer => Byte.x02 | Manifest => Byte.x03
  | ManifestList => Byte.x04 | Whiteout => Byte.x05 | OpaqueDir => Byte.x06
  end.

Definition byte_kind (b : byte) : option NodeKind :=
  match b with
  | Byte.x00 => Some Blob | Byte.x01 => Some Tree | Byte.x02 => Some Layer
  | Byte.x03 => Some Manifest | Byte.x04 => Some ManifestList
  | Byte.x05 => Some Whiteout | Byte.x06 => Some OpaqueDir
  | _ => None
  end.

Definition digest_bytes (d : Digest) : bytes := arr_bytes (digest_arr d).

Fixpoint take_digests (n : nat) (b : bytes) : option (list Digest * bytes) :=
  match n with
  | O => Some ([], b)
  | S n =>
    a ← arr_of_list 32 (take 32 b);
    '(ds, r) ← take_digests n (drop 32 b);
    Some (MkDigest a :: ds, r)
  end.

Definition node_to_bytes (n : DagNode) : option bytes :=
  if decide (Z.of_nat (length (edges n)) < u16_mod)%Z then
    Some (kind_byte (kind n) :: le_bytes 2 (Z.of_nat (length (edges n))) ++
          concat (digest_bytes <$> edges n) ++ inline_data n)
  else None.

Definition node_of_bytes (b : bytes) : option DagNode :=
  match b with
  | k :: l0 :: l1 :: r =>
    k ← byte_kind k;
    '(ds, data) ← take_digests (Z.to_nat (from_le [l0; l1])) r;
    Some (MkDagNode k ds data)
  | _ => None
  end.

#[export] Instance concrete_rkyv : Rkyv DagNode := {|
  rkyv_to_bytes := node_to_bytes;
  check_archived_root := node_of_bytes
|}.

Lemma take_digests_concat ds r :
  take_digests (length ds) (concat (digest_bytes <$> ds) ++ r) = Some (ds, r).
Proof.
  induction ds as [|d ds IH]; [done|].
  cbn [length take_digests concat fmap list_fmap]. rewrite <-app_assoc.
  rewrite take_app_length' by (symmetry; apply arr_length).
  rewrite drop_app_length' by (symmetry; apply arr_length).
  change (digest_bytes d) with (arr_bytes (digest_arr d)). rewrite arr_of_list_bytes. simpl.
  rewrite IH. by destruct d.
Qed.

#[export] Instance concrete_rkyv_laws : RkyvLaws DagNode.
Proof.
  split. intros [k es data] b. cbn [rkyv_to_bytes check_archived_root concrete_rkyv].
  unfold node_to_bytes. cbn [kind edges inline_data]. case_decide as Hn; [|done].
  intros [= <-]. unfold node_of_bytes. cbn [le_bytes app].
  assert (byte_kind (kind_byte k) = Some k) as -> by (by destruct k).
  change [byte_of (Z.of_nat (length es)); byte_of (Z.of_nat (length es) `div` u8_mod)]
    with (le_bytes 2 (Z.of_nat (length es))).
  rewrite from_le_bytes, Z.mod_small by (unfold u16_mod, u8_mod in *; lia).
  rewrite Nat2Z.id. cbn [mbind option_bind]. by rewrite take_digests_concat.
Qed.

(** ** The buffer crate *)

Definition take_be_n (n : nat) (b : bytes) : option (Z * bytes) :=
  if decide (n ≤ length b) then Some (from_be (take n b), drop n b) else None.

#[export] Instance concrete_buf : ByteBuf := {|
  put_u8 b z := b ++ be_bytes 1 z;
  put_u16 b z := b ++ be_bytes 2 z;
  put_u32 b z := b ++ be_bytes 4 z;
  put_i32 b z := b ++ be_bytes 4 z;
  get_u8 := take_be_n 1;
  get_u16 := take_be_n 2;
  get_u32 := take_be_n 4;
  get_i32 b := '(z, r) ← take_be_n 4 b; Some (to_signed32 z, r);
|}.

#[export] Instance concrete_buf_laws : ByteBufLaws.
Proof.
  constructor; intros; try done; simpl; unfold take_be_n; by case_decide.
Qed.
