(* ===== verification/Fs.v ===== *)
(** * The file system under the store

    The operations of [std::fs] the store uses, over absolute paths given as
    component lists.  A directory exists as long as a file lies below it, so
    creating and removing (empty) directories does not change the state; the
    faults an operation can meet are the paths in [io_bad].  A file whose data
    was written and not yet [fsync]ed is in [unsynced]: a crash may leave any
    prefix of it. *)

From stdpp Require Import base gmap strings list pretty.
From Stdlib Require Import ZArith Lia.
From S2P Require Import Prelude Strs.

Abbreviation path := (list string).

Record Os := MkOs {
  files : gmap path bytes;
  unsynced : gset path;
  io_bad : gset path;
  write_counter : Z;
  os_pid : N;
}.

Inductive IoError :=
| IoNotFound
| IoFault
| IoUnexpectedEof.

Definition parent (p : path) : path := take (length p - 1) p.
Definition file_name (p : path) : string := default "" (last p).

Definition faulty (s : Os) (p : path) : bool :=
  bool_decide (p ∈ io_bad s) || bool_decide (parent p ∈ io_bad s).

Definition with_files (s : Os) (fs : gmap path bytes) (un : gset path) : Os :=
  MkOs fs un (io_bad s) (write_counter s) (os_pid s).

(** [Path::exists], [metadata(..).len()]. *)
Definition exists_file (s : Os) (p : path) : bool := bool_decide (is_Some (files s !! p)).
Definition file_len (s : Os) (p : path) : option Z := (λ b, Z.of_nat (length b)) <$> files s !! p.

Definition read_file (p : path) : eff Os IoError bytes := λ s,
  if faulty s p then (Err IoFault, s)
  else match files s !! p with
       | Some b => (Ok b, s)
       | None => (Err IoNotFound, s)
       end.

Definition write_file (p : path) (b : bytes) : eff Os IoError unit := λ s,
  if faulty s p then (Err IoFault, s)
  else (Ok tt, with_files s (<[p := b]> (files s)) ({[p]} ∪ unsynced s)).

Definition sync_file (p : path) : eff Os IoError unit := λ s,
  if faulty s p then (Err IoFault, s)
  else match files s !! p with
       | Some _ => (Ok tt, with_files s (files s) (unsynced s ∖ {[p]}))
       | None => (Err IoNotFound, s)
       end.

Definition rename (a b : path) : eff Os IoError unit := λ s,
  if faulty s a || faulty s b then (Err IoFault, s)
  else match files s !! a with
       | Some d =>
         (Ok tt, with_files s (<[b := d]> (delete a (files s)))
                   (if decide (a ∈ unsynced s) then {[b]} ∪ unsynced s ∖ {[a]}
                    else unsynced s ∖ {[a; b]}))
       | None => (Err IoNotFound, s)
       end.

Definition remove_file (p : path) : eff Os IoError unit := λ s,
  if faulty s p then (Err IoFault, s)
  else match files s !! p with
       | Some _ => (Ok tt, with_files s (delete p (files s)) (unsynced s ∖ {[p]}))
       | None => (Err IoNotFound, s)
       end.

(** [create_dir_all] and opening a directory to [fsync] it. *)
Definition touch_dir (p : path) : eff Os IoError unit := λ s,
  if bool_decide (p ∈ io_bad s) then (Err IoFault, s) else (Ok tt, s).

(** ** Atomic replacement of a file

    The sequence of system calls of [write_atomically], as data, so that a crash
    can be placed between any two of them. *)

Inductive fs_op :=
| OpWrite (p : path) (b : bytes)
| OpSync (p : path)
| OpRename (a b : path)
| OpSyncDir (p : path).

Definition run_op (o : fs_op) : eff Os IoError unit :=
  match o with
  | OpWrite p b => write_file p b
  | OpSync p => sync_file p
  | OpRename a b => rename a b
  | OpSyncDir p => touch_dir p
  end.

Definition write_ops (tmp p : path) (b : bytes) : list fs_op :=
  [OpWrite tmp b; OpSync tmp; OpRename tmp p; OpSyncDir (parent p)].

(** [WRITE_COUNTER.fetch_add(1, Relaxed)]. *)
Definition next_write_seq : eff Os IoError Z := λ s,
  (Ok (write_counter s),
   MkOs (files s) (unsynced s) (io_bad s) (wrap64 (write_counter s + 1)) (os_pid s)).

(** [<name>.tmp.<pid>.<counter>]. *)
Definition tmp_name (name : string) (pid : N) (seq : Z) : string :=
  name +:+ ".tmp." +:+ pretty pid +:+ "." +:+ hex_fixed 16 seq.

Definition tmp_path (p : path) (pid : N) (seq : Z) : path :=
  parent p ++ [tmp_name (file_name p) pid seq].

Definition write_atomically (p : path) (b : bytes) : eff Os IoError unit :=
  touch_dir (parent p) ;;
  s ← get_world;
  seq ← next_write_seq;
  let tmp := tmp_path p (os_pid s) seq in
  r ← try_eff (for_each run_op (write_ops tmp p b));
  match r with
  | Ok _ => mret tt
  | Err e => ignore_eff (remove_file tmp) ;; throw e
  end.

(** What a crash leaves of a state: synced files keep their contents, unsynced
    ones any prefix of them. *)
Definition crash (s s' : Os) : Prop :=
  ∀ p, match files s !! p with
       | None => files s' !! p = None
       | Some b =>
         if decide (p ∈ unsynced s) then ∃ n, files s' !! p = Some (take n b)
         else files s' !! p = Some b
       end.

(** ** Recursive directory traversal

    The files below [dir], entering only the directories whose names pass
    [enter]; reading a directory in [io_bad] fails the whole walk. *)

Fixpoint strip_dir (dir p : path) : option path :=
  match dir, p with
  | [], _ => Some p
  | a :: dir, b :: p => if decide (a = b) then strip_dir dir p else None
  | _ :: _, [] => None
  end.

(** The directories between [dir] and the file, outermost first. *)
Fixpoint dirs_below (dir rest : path) : list path :=
  match rest with
  | [] | [_] => [dir]
  | a :: rest => dir :: dirs_below (dir ++ [a]) rest
  end.

Definition below (enter : string → bool) (dir p : path) : bool :=
  match strip_dir dir p with
  | Some rest => negb (bool_decide (rest = [])) && forallb enter (parent rest)
  | None => false
  end.

Definition walk_files (enter : string → bool) (dir : path) : eff Os IoError (list path) := λ s,
  let found := filter (λ p, below enter dir p = true) (map_to_list (files s)).*1 in
  let dirs := dir :: (p ← found; dirs_below dir (default [] (strip_dir dir p))) in
  if existsb (λ q, bool_decide (q ∈ io_bad s)) dirs then (Err IoFault, s)
  else (Ok found, s).

(** ** Lemmas *)

Lemma parent_snoc p x : parent (p ++ [x]) = p.
Proof.
  unfold parent. rewrite length_app. simpl.
  replace (length p + 1 - 1) with (length p) by lia. by rewrite take_app_length.
Qed.

Lemma file_name_snoc p x : file_name (p ++ [x]) = x.
Proof. unfold file_name. by rewrite last_snoc. Qed.

Lemma strip_dir_app dir p : strip_dir dir (dir ++ p) = Some p.
Proof. induction dir as [|a dir IH]; simpl; [done|]. by rewrite decide_True. Qed.

Lemma strip_dir_Some dir p r : strip_dir dir p = Some r → p = dir ++ r.
Proof.
  revert p. induction dir as [|a dir IH]; intros p; simpl; [naive_solver|].
  destruct p as [|b p]; [done|]. case_decide; [subst|done]. intros ->%IH. done.
Qed.

(** *** Temporary files *)

Definition is_tmp (p : path) : bool := contains (file_name p) ".tmp.".

Lemma tmp_path_is_tmp p pid seq : is_tmp (tmp_path p pid seq) = true.
Proof. unfold is_tmp, tmp_path, tmp_name. rewrite file_name_snoc. apply contains_app. Qed.

Lemma tmp_path_ne p pid seq : tmp_path p pid seq ≠ p.
Proof.
  intros E. apply (f_equal file_name) in E. unfold tmp_path in E.
  rewrite file_name_snoc in E. apply (f_equal String.length) in E.
  unfold tmp_name in E. rewrite !str_length_app in E. simpl in E. lia.
Qed.

(** *** Atomic writes *)

Lemma not_faulty s p : io_bad s = ∅ → faulty s p = false.
Proof. intros E. unfold faulty. rewrite E. rewrite !bool_decide_eq_false_2; set_solver. Qed.

Lemma write_atomically_ok p b s :
  io_bad s = ∅ →
  let tmp := tmp_path p (os_pid s) (write_counter s) in
  write_atomically p b s =
    (Ok tt, MkOs (<[p := b]> (delete tmp (files s))) (unsynced s ∖ {[tmp; p]}) (io_bad s)
              (wrap64 (write_counter s + 1)) (os_pid s)).
Proof.
  intros Hio tmp. unfold write_atomically, mbind, eff_bind, touch_dir, get_world, next_write_seq.
  rewrite bool_decide_eq_false_2 by (rewrite Hio; set_solver). simpl. fold tmp.
  unfold try_eff, for_each, mbind, eff_bind, write_file, sync_file, rename, with_files. simpl.
  rewrite !not_faulty by done. simpl. rewrite !lookup_insert_eq. simpl.
  rewrite !not_faulty by done. simpl. rewrite !lookup_insert_eq. simpl.
  rewrite decide_False by set_solver. unfold touch_dir. simpl.
  rewrite bool_decide_eq_false_2 by (rewrite Hio; set_solver). simpl.
  unfold mret, eff_ret. do 2 f_equal; [|set_solver]. by rewrite delete_insert_eq.
Qed.

(** The states the file system goes through during an atomic write, faults
    included: untouched, temporary file written, synced, renamed. *)
Definition write_states (tmp p : path) (b : bytes) (s : Os) : list Os :=
  [s;
   with_files s (<[tmp := b]> (files s)) ({[tmp]} ∪ unsynced s);
   with_files s (<[tmp := b]> (files s)) (unsynced s ∖ {[tmp]});
   with_files s (<[p := b]> (delete tmp (files s))) (unsynced s ∖ {[tmp; p]})].

Lemma write_prefix_states tmp p b s n :
  (for_each run_op (take n (write_ops tmp p b)) s).2 ∈ write_states tmp p b s.
Proof.
  set (b1 := with_files s (<[tmp := b]> (files s)) ({[tmp]} ∪ unsynced s)).
  assert (Hw : write_file tmp b s = (Err IoFault, s) ∨ write_file tmp b s = (Ok tt, b1)).
  { unfold write_file. destruct (faulty s tmp); auto. }
  set (b2 := with_files s (<[tmp := b]> (files s)) (unsynced s ∖ {[tmp]})).
  assert (Hs : sync_file tmp b1 = (Err IoFault, b1) ∨ sync_file tmp b1 = (Ok tt, b2)).
  { unfold sync_file. destruct (faulty _ _); [auto|]. right. simpl. rewrite lookup_insert_eq.
    unfold b2, with_files. simpl.
    by replace (({[tmp]} ∪ unsynced s) ∖ {[tmp]}) with (unsynced s ∖ {[tmp]}) by set_solver. }
  set (b3 := with_files s (<[p := b]> (delete tmp (files s))) (unsynced s ∖ {[tmp; p]})).
  assert (Hr : rename tmp p b2 = (Err IoFault, b2) ∨ rename tmp p b2 = (Ok tt, b3)).
  { unfold rename. destruct (_ || _); [auto|]. right. simpl. rewrite lookup_insert_eq.
    rewrite decide_False by set_solver. rewrite delete_insert_eq.
    unfold b3, with_files. simpl.
    by replace (unsynced s ∖ {[tmp]} ∖ {[tmp; p]}) with (unsynced s ∖ {[tmp; p]}) by set_solver. }
  unfold write_states. fold b1 b2 b3.
  destruct Hw as [Hw|Hw], Hs as [Hs|Hs], Hr as [Hr|Hr], n as [|[|[|[|n]]]];
    unfold write_ops, for_each; simpl; unfold mbind, eff_bind;
    rewrite ?Hw; simpl; rewrite ?Hs; simpl; rewrite ?Hr; simpl;
    unfold touch_dir; try destruct (bool_decide _); simpl; rewrite ?take_nil; set_solver.
Qed.

Lemma crash_synced s s' q :
  crash s s' → q ∉ unsynced s → files s' !! q = files s !! q.
Proof.
  intros Hc Hq. specialize (Hc q). destruct (files s !! q); [|done]. by rewrite decide_False in Hc.
Qed.

Lemma write_states_crash tmp p b s s1 s' :
  tmp ≠ p → p ∉ unsynced s → s1 ∈ write_states tmp p b s → crash s1 s' →
  (files s' !! p = files s !! p ∨ files s' !! p = Some b) ∧
  (∀ q, q ≠ p → q ≠ tmp → q ∉ unsynced s → files s' !! q = files s !! q).
Proof.
  intros Htp Hp Hs1 Hc.
  assert (Hn : (p ∉ unsynced s1) ∧
    (∀ q, q ≠ p → q ≠ tmp → q ∉ unsynced s → q ∉ unsynced s1) ∧
    (files s1 !! p = files s !! p ∨ files s1 !! p = Some b) ∧
    (∀ q, q ≠ p → q ≠ tmp → files s1 !! q = files s !! q)).
  { unfold write_states in Hs1. rewrite !elem_of_cons in Hs1.
    destruct Hs1 as [-> | [-> | [-> | [-> | Hnil]]]]; simpl;
      [| | | |by apply not_elem_of_nil in Hnil]; split_and!;
      try set_solver; simplify_map_eq; auto; intros q ??; by simplify_map_eq. }
  destruct Hn as (H1 & H2 & H3 & H4). split.
  - rewrite (crash_synced _ _ _ Hc H1). done.
  - intros q ???. rewrite (crash_synced _ _ _ Hc); auto.
Qed.

Lemma write_ops_ok tmp p b s s1 :
  for_each run_op (write_ops tmp p b) s = (Ok tt, s1) →
  s1 = with_files s (<[p := b]> (delete tmp (files s))) (unsynced s ∖ {[tmp; p]}).
Proof.
  unfold write_ops, for_each. intros Hr.
  apply bind_inv_ok in Hr as (? & sa & Ha & Hr). apply bind_inv_ok in Hr as (? & sb & Hb & Hr).
  apply bind_inv_ok in Hr as (? & sc & Hc & Hr). apply bind_inv_ok in Hr as (? & sd & Hd & Hr).
  simpl in *. unfold write_file in Ha. destruct (faulty s tmp); simplify_eq.
  unfold sync_file in Hb. destruct (faulty _ tmp); simplify_eq.
  simpl in Hb. rewrite lookup_insert_eq in Hb. simplify_eq.
  unfold rename in Hc. destruct (_ || _); simplify_eq.
  simpl in Hc. rewrite lookup_insert_eq, decide_False, delete_insert_eq in Hc by set_solver.
  unfold touch_dir in Hd. destruct (bool_decide _); simplify_eq.
  unfold mret, eff_ret in Hr. simplify_eq. unfold with_files. simpl. f_equal. set_solver.
Qed.

(** Every path but [p] and the temporary ones keeps its contents. *)
Record write_frame (p : path) (b : bytes) (r : result IoError unit) (s s' : Os) : Prop := {
  frame_bad : io_bad s' = io_bad s;
  frame_other q : is_tmp q = false → q ≠ p → files s' !! q = files s !! q;
  frame_self : files s' !! p = files s !! p ∨ files s' !! p = Some b;
  frame_ok : r = Ok tt → files s' !! p = Some b;
}.

Lemma write_states_frame tmp p b s s1 :
  tmp ≠ p → is_tmp tmp = true → s1 ∈ write_states tmp p b s →
  io_bad s1 = io_bad s ∧
  (∀ q, is_tmp q = false → q ≠ p → files s1 !! q = files s !! q) ∧
  (files s1 !! p = files s !! p ∨ files s1 !! p = Some b).
Proof.
  intros Htp Ht Hs1. unfold write_states in Hs1. rewrite !elem_of_cons in Hs1.
  destruct Hs1 as [-> | [-> | [-> | [-> | Hnil]]]]; simpl; [| | | |by apply not_elem_of_nil in Hnil];
    split_and!; auto; try (simplify_map_eq; auto; fail);
    intros q Hq ?; assert (q ≠ tmp) by congruence; by simplify_map_eq.
Qed.

Lemma write_atomically_frame p b s r s' :
  write_atomically p b s = (r, s') → write_frame p b r s s'.
Proof.
  unfold write_atomically, mbind, eff_bind, touch_dir, get_world, next_write_seq.
  destruct (bool_decide _); [intros [= <- <-]; by constructor; auto|].
  set (tmp := tmp_path _ _ _). set (s0 := MkOs _ _ _ _ _). unfold try_eff.
  pose proof (tmp_path_ne p (os_pid s) (write_counter s)) as Htp. fold tmp in Htp.
  pose proof (tmp_path_is_tmp p (os_pid s) (write_counter s)) as Ht. fold tmp in Ht.
  destruct (for_each _ _ s0) as [[[]|e] s1] eqn:Er.
  - apply write_ops_ok in Er as ->. unfold mret, eff_ret. intros [= <- <-].
    constructor; simpl; [done| |right|intros _]; [|by simplify_map_eq..].
    intros q Hq ?. assert (q ≠ tmp) by congruence. by simplify_map_eq.
  - pose proof (write_prefix_states tmp p b s0 4) as Hin.
    change (take 4 (write_ops tmp p b)) with (write_ops tmp p b) in Hin. rewrite Er in Hin.
    apply write_states_frame in Hin as (Hb & Ho & Hs); [|done..]. simpl in *.
    unfold ignore_eff, remove_file, throw.
    destruct (faulty s1 tmp); [intros [= <- <-]; by constructor|].
    destruct (files s1 !! tmp) eqn:Et; intros [= <- <-]; [|by constructor].
    constructor; simpl; [done| | |done]; [|by rewrite lookup_delete_ne].
    intros q Hq ?. rewrite lookup_delete_ne by congruence. auto.
Qed.
