(* ===== verification/Worklist.v ===== *)
(** * Breadth-first worklists

    The store's graph traversals all have one shape: pop the front of a queue,
    skip what is already in the visited set, otherwise run a body that returns
    the successors to push at the back.  [worklist] is that loop; the loop bound
    is fuel, and exhausting it is the error [oof], which [worklist_rule] shows
    is not returned when the fuel covers [worklist_measure]. *)

From stdpp Require Import base gmap list.
From Stdlib Require Import Lia.
From S2P Require Import Prelude.

Section worklist.
Context {K W E : Type} `{Countable K} (oof : E).
Variable body : K → eff W E (list K).

Fixpoint worklist (fuel : nat) (visited : gset K) (queue : list K) : eff W E (gset K) :=
  match queue with
  | [] => mret visited
  | d :: queue =>
    match fuel with
    | 0 => throw oof
    | S fuel =>
      if decide (d ∈ visited) then worklist fuel visited queue
      else more ← body d; worklist fuel ({[d]} ∪ visited) (queue ++ more)
    end
  end.

(** What every body preserves, the loop preserves, however it ends. *)
Lemma worklist_preserves (I : W → Prop) fuel V Q w :
  (∀ d w, I w → I (body d w).2) → I w → I (worklist fuel V Q w).2.
Proof.
  intros Hb. revert V Q w. induction fuel as [|fuel IH]; intros V [|d Q] w HI; simpl; try done.
  case_decide; [by apply IH|]. unfold mbind, eff_bind. pose proof (Hb d w HI).
  destruct (body d w) as [[more|e] w']; [by apply IH|done].
Qed.

(** ** Counting what a set of keys can push *)

Definition set_sum (f : K → nat) (X : gset K) : nat := sum_list_with f (elements X).

Lemma set_sum_insert f d X : d ∉ X → set_sum f ({[d]} ∪ X) = f d + set_sum f X.
Proof.
  intros Hd. unfold set_sum.
  rewrite (sum_list_with_perm _ _ _ (elements_union_singleton X d Hd)). done.
Qed.

Lemma set_sum_empty f : set_sum f ∅ = 0.
Proof. unfold set_sum. by rewrite elements_empty. Qed.

(** The queue plus what the unvisited keys may still push, [B] bounding the
    pushes of any set of keys. *)
Definition worklist_measure (out : K → nat) (B : nat) (V : gset K) (Q : list K) : nat :=
  length Q + (B - set_sum out V).

(** ** The loop rule *)

Variables (out : K → nat) (B : nat).
Variables (P : gset K → list K → W → Prop) (R : E → W → Prop).

Hypothesis bound : ∀ X, set_sum out X ≤ B.
Hypothesis skip_ok : ∀ V d Q w, d ∈ V → P V (d :: Q) w → P V Q w.
Hypothesis body_ok : ∀ V d Q w, d ∉ V → P V (d :: Q) w →
  match body d w with
  | (Ok more, w') => length more ≤ out d ∧ P ({[d]} ∪ V) (Q ++ more) w'
  | (Err e, w') => R e w'
  end.

Lemma worklist_rule fuel V Q w :
  worklist_measure out B V Q ≤ fuel → P V Q w →
  match worklist fuel V Q w with
  | (Ok V', w') => V ⊆ V' ∧ P V' [] w'
  | (Err e, w') => R e w'
  end.
Proof using bound skip_ok body_ok.
  revert V Q w. induction fuel as [|fuel IH]; intros V [|d Q] w Hf HP;
    unfold worklist_measure in *; simpl in *; try done; [lia|].
  destruct (decide (d ∈ V)) as [Hd|Hd].
  - apply IH; [lia|eauto].
  - pose proof (body_ok V d Q w Hd HP) as Hb.
    unfold mbind, eff_bind. destruct (body d w) as [[more|e] w'] eqn:Eb; [|done].
    destruct Hb as [Hl HP']. specialize (IH ({[d]} ∪ V) (Q ++ more) w').
    pose proof (bound ({[d]} ∪ V)) as Hbd. rewrite set_sum_insert in IH, Hbd by done.
    rewrite length_app in IH. specialize (IH ltac:(lia) HP').
    destruct (worklist _ _ _ _) as [[V'|e] w'']; [|done]. destruct IH. split; [set_solver|done].
Qed.

End worklist.

Arguments worklist {K W E _ _} oof body fuel visited queue w : rename.
