(* ===== verification/Store.v ===== *)
(** * The content-addressed store: [runtime/pullrun-store/src/store.rs]

    [MmapStore] keeps every DAG node in [<root>/<h0h1>/<h2h3>/<rest>/node.rkyv],
    a large file's bytes beside it in [blob.raw] and the node's reference count
    in [node.refcount], where the hexadecimal digest is split after 2 and 4
    characters.  Two LRU caches hold the memory-mapped files.

    The four fields the source has for the node cache ([cache], [lru],
    [total_node_bytes], [max_node_cache_bytes]) and the four it has for the blob
    cache are the two [Cache]s of the record below; the code that works on them
    is written twice in the source with different field names and once here.
    The [refcount_lock] and the cache locks serialise the operations, which run
    here one at a time.  An [Arc<Mmap>] is the bytes it maps. *)

From stdpp Require Import base gmap strings list.
From Stdlib Require Import ZArith Lia.
From S2P Require Import Prelude Strs Crates Node Fs Worklist.

(** [OutOfFuel] is not in the source: it is the result of a traversal whose loop
    bound is exhausted, and is shown never to be returned. *)
Inductive StoreError :=
| NotFound (d : Digest)
| Corrupted (d : Digest)
| Io (e : IoError)
| Serialization
| ArchiveValidation
| DigestMismatch (expected actual : Digest)
| OutOfFuel.

Definition DEFAULT_MAX_NODE_CACHE_BYTES : Z := 256 * 1024 * 1024.
Definition DEFAULT_MAX_BLOB_CACHE_BYTES : Z := 256 * 1024 * 1024.

(** ** The LRU caches *)

Record Cache := MkCache {
  cache : gmap Digest bytes;
  lru : list Digest;
  total_bytes : Z;
  max_bytes : option Z;
}.

Definition len (b : bytes) : Z := Z.of_nat (length b).

Module Lru.

(** [while total > max { pop the front of the LRU list, drop its entry }]. *)
Fixpoint evict_loop (max : Z) (m : gmap Digest bytes) (total : Z) (l : list Digest)
    : gmap Digest bytes * Z * list Digest :=
  if decide (total > max)%Z then
    match l with
    | [] => (m, total, l)
    | oldest :: l' =>
      match m !! oldest with
      | Some evicted => evict_loop max (delete oldest m) (wrap64 (total - len evicted)) l'
      | None => evict_loop max m total l'
      end
    end
  else (m, total, l).

Definition evict_lru_locked (c : Cache) : Cache :=
  match max_bytes c with
  | Some max =>
    if decide (max > 0)%Z then
      let '(m, total, l) := evict_loop max (cache c) (total_bytes c) (lru c) in
      MkCache m l total (max_bytes c)
    else c
  | None => c
  end.

(** Remove the first occurrence, [lru.remove(position)]. *)
Fixpoint remove_first (d : Digest) (l : list Digest) : list Digest :=
  match l with
  | [] => []
  | x :: l => if decide (x = d) then l else x :: remove_first d l
  end.

(** The hit path of [get]: move to the back, then evict. *)
Definition touch (d : Digest) (c : Cache) : Cache :=
  evict_lru_locked (MkCache (cache c) (remove_first d (lru c) ++ [d]) (total_bytes c) (max_bytes c)).

(** The miss path: evict, push at the back, account for the bytes, insert. *)
Definition load (d : Digest) (b : bytes) (c : Cache) : Cache :=
  let c := evict_lru_locked c in
  MkCache (<[d := b]> (cache c)) (lru c ++ [d]) (wrap64 (total_bytes c + len b)) (max_bytes c).

Definition evict_cache_entry (d : Digest) (c : Cache) : Cache :=
  match cache c !! d with
  | Some evicted =>
    MkCache (delete d (cache c)) (filter (λ x, x ≠ d) (lru c))
      (wrap64 (total_bytes c - len evicted)) (max_bytes c)
  | None => c
  end.

Definition empty (max : option Z) : Cache := MkCache ∅ [] 0 max.

End Lru.

(** ** The store *)

Record MmapStore := MkStore {
  root : path;
  node_cache : Cache;
  blob_cache : Cache;
}.

Record World := MkWorld { os : Os; store : MmapStore }.

Definition MmapStore_new (root : path) : MmapStore :=
  MkStore root (Lru.empty (Some DEFAULT_MAX_NODE_CACHE_BYTES))
    (Lru.empty (Some DEFAULT_MAX_BLOB_CACHE_BYTES)).

Definition MmapStore_new_unbounded (root : path) : MmapStore :=
  MkStore root (Lru.empty None) (Lru.empty None).

Definition with_max (m : Z) (c : Cache) : Cache := MkCache (cache c) (lru c) (total_bytes c) (Some m).

Definition set_max_node_cache_bytes (m : Z) (s : MmapStore) : MmapStore :=
  MkStore (root s) (with_max m (node_cache s)) (blob_cache s).
Definition set_max_blob_cache_bytes (m : Z) (s : MmapStore) : MmapStore :=
  MkStore (root s) (node_cache s) (with_max m (blob_cache s)).

(** [self.total_node_bytes() + self.total_blob_bytes()]. *)
Definition store_total_bytes (s : MmapStore) : Z :=
  wrap64 (total_bytes (node_cache s) + total_bytes (blob_cache s)).

Definition on_node_cache (f : Cache → Cache) (w : World) : World :=
  MkWorld (os w) (MkStore (root (store w)) (f (node_cache (store w))) (blob_cache (store w))).
Definition on_blob_cache (f : Cache → Cache) (w : World) : World :=
  MkWorld (os w) (MkStore (root (store w)) (node_cache (store w)) (f (blob_cache (store w)))).

(** A system call of the store: [std::io::Error] becomes [StoreError::Io]. *)
Definition on_os {A} (m : eff Os IoError A) : eff World StoreError A := λ w,
  let '(r, s) := m (os w) in (map_err Io r, MkWorld s (store w)).

Abbreviation store_eff := (eff World StoreError).

Section store.
Context `{Hex, Sha2, Rkyv DagNode}.

(** The digest's directory: [root/hex[0..2]/hex[2..4]/hex[4..]]. *)
Definition shard_dir (root : path) (d : Digest) : path :=
  let hex := as_hex d in
  root ++ [str_take 2 hex; str_take 2 (str_drop 2 hex); str_drop 4 hex].

Definition path_for (root : path) (d : Digest) : path := shard_dir root d ++ ["node.rkyv"].
Definition path_for_blob (root : path) (d : Digest) : path := shard_dir root d ++ ["blob.raw"].
Definition refcount_path (root : path) (d : Digest) : path := shard_dir root d ++ ["node.refcount"].

Definition node_exists (w : World) (d : Digest) : bool :=
  exists_file (os w) (path_for (root (store w)) d).
Definition blob_exists (w : World) (d : Digest) : bool :=
  exists_file (os w) (path_for_blob (root (store w)) d).

(** *** Reference counts *)

(** [File::open] and [read_exact] of 8 bytes, little endian. *)
Definition get_refcount (d : Digest) : store_eff Z :=
  w ← get_world;
  let p := refcount_path (root (store w)) d in
  if exists_file (os w) p then
    b ← on_os (read_file p);
    if decide (8 ≤ length b) then mret (from_le (take 8 b)) else throw (Io IoUnexpectedEof)
  else mret 0%Z.

Definition set_refcount (d : Digest) (count : Z) : store_eff unit :=
  w ← get_world;
  let p := refcount_path (root (store w)) d in
  if decide (count = 0%Z) then ignore_eff (on_os (remove_file p))
  else on_os (write_atomically p (le_bytes 8 count)).

Definition increment_refcount (d : Digest) : store_eff Z :=
  c ← get_refcount d;
  let count := wrap64 (c + 1) in
  set_refcount d count ;;
  mret count.

Definition decrement_refcount (d : Digest) : store_eff Z :=
  count ← get_refcount d;
  let new := Z.max 0 (count - 1) in
  set_refcount d new ;;
  mret new.

(** *** Nodes *)

Definition put (node : DagNode) : store_eff Digest :=
  match rkyv_to_bytes node with
  | None => throw Serialization
  | Some b =>
    let digest := compute b in
    w ← get_world;
    if node_exists w digest then mret digest
    else
      on_os (write_atomically (path_for (root (store w)) digest) b) ;;
      for_each (λ e, ignore_eff (increment_refcount e)) (edges node) ;;
      mret digest
  end.

Definition load_node_from_disk (d : Digest) : store_eff bytes :=
  w ← get_world;
  if node_exists w d then
    b ← on_os (read_file (path_for (root (store w)) d));
    modify_world (on_node_cache (Lru.load d b)) ;;
    mret b
  else throw (NotFound d).

Definition get (d : Digest) : store_eff bytes :=
  w ← get_world;
  match cache (node_cache (store w)) !! d with
  | Some b => modify_world (on_node_cache (Lru.touch d)) ;; mret b
  | None => load_node_from_disk d
  end.

(** [ArchivedNodeGuard::new]. *)
Definition archived_node (d : Digest) (b : bytes) : result StoreError DagNode :=
  match check_archived_root b with
  | Some n => Ok n
  | None => Err (Corrupted d)
  end.

Definition get_archived (d : Digest) : store_eff DagNode :=
  b ← get d; lift_result (archived_node d b).

(** A hit leaves the LRU order alone, unlike [get]. *)
Definition get_archived_async (d : Digest) : store_eff DagNode :=
  w ← get_world;
  match cache (node_cache (store w)) !! d with
  | Some b => lift_result (archived_node d b)
  | None => b ← load_node_from_disk d; lift_result (archived_node d b)
  end.

(** Deserializing an archived node is [Infallible]. *)
Definition get_deserialized (d : Digest) : store_eff DagNode :=
  b ← get d;
  match check_archived_root b with
  | Some n => mret n
  | None => throw (Corrupted d)
  end.

Definition exists_ (w : World) (d : Digest) : bool :=
  bool_decide (is_Some (cache (node_cache (store w)) !! d)) || node_exists w d.

(** *** Blobs *)

Definition put_blob (d : Digest) (data : bytes) : store_eff unit :=
  w ← get_world;
  if blob_exists w d then mret tt
  else on_os (write_atomically (path_for_blob (root (store w)) d) data).

Definition load_blob_from_disk (d : Digest) : store_eff bytes :=
  w ← get_world;
  if blob_exists w d then
    b ← on_os (read_file (path_for_blob (root (store w)) d));
    modify_world (on_blob_cache (Lru.load d b)) ;;
    mret b
  else throw (NotFound d).

Definition get_blob (d : Digest) : store_eff bytes :=
  w ← get_world;
  match cache (blob_cache (store w)) !! d with
  | Some b => modify_world (on_blob_cache (Lru.touch d)) ;; mret b
  | None => load_blob_from_disk d
  end.

Definition get_blob_async (d : Digest) : store_eff bytes :=
  w ← get_world;
  match cache (blob_cache (store w)) !! d with
  | Some b => mret b
  | None => load_blob_from_disk d
  end.

(** *** Crash recovery *)

(** One entry of [recover_dir]: count its bytes, try to remove it. *)
Definition recover_entry (acc : Z * Z) (p : path) : store_eff (Z * Z) :=
  let '(files_removed, bytes_freed) := acc in
  if contains (file_name p) ".tmp." then
    w ← get_world;
    let bytes_freed := wrap64 (bytes_freed + default 0%Z (file_len (os w) p)) in
    r ← try_eff (on_os (remove_file p));
    mret (if is_ok r then wrap64 (files_removed + 1) else files_removed, bytes_freed)
  else mret acc.

Fixpoint fold_eff {W E A B} (f : A → B → eff W E A) (a : A) (l : list B) : eff W E A :=
  match l with
  | [] => mret a
  | x :: l => a ← f a x; fold_eff f a l
  end.

Definition recover : store_eff (Z * Z) :=
  w ← get_world;
  entries ← on_os (walk_files (λ _, true) (root (store w)));
  fold_eff recover_entry (0, 0)%Z entries.

(** *** Traversals *)

(** The number of edges stored in the files, which with the queue is the loop bound
    of the traversals below. *)
Definition edge_count (b : bytes) : nat :=
  match check_archived_root b with
  | Some n => length (edges n)
  | None => 0
  end.

Definition edge_bound (s : Os) : nat :=
  sum_list_with (λ kv, edge_count kv.2) (map_to_list (files s)).

(** A traversal's world: the store with the loop's local variables. *)
Definition on_world {L A} (m : store_eff A) : eff (World * L) StoreError A := λ wl,
  let '(r, w) := m wl.1 in (r, (w, wl.2)).
Definition on_locals {L} (f : L → L) : eff (World * L) StoreError unit := λ wl,
  (Ok tt, (wl.1, f wl.2)).

Definition traverse {L} (body : Digest → eff (World * L) StoreError (list Digest))
    (queue : list Digest) (locals : L) : store_eff L := λ w,
  let fuel := length queue + edge_bound (os w) in
  match worklist OutOfFuel body fuel ∅ queue (w, locals) with
  | (Ok _, (w', l)) => (Ok l, w')
  | (Err e, (w', _)) => (Err e, w')
  end.

Definition walk_reachable_body (d : Digest)
    : eff (World * (list Digest * list Digest)) StoreError (list Digest) :=
  wl ← get_world;
  if exists_ wl.1 d then
    on_locals (λ '(ns, bs), (ns ++ [d], if blob_exists wl.1 d then bs ++ [d] else bs)) ;;
    r ← try_eff (on_world (get_archived d));
    match r with
    | Ok n => mret (edges n)
    | Err (NotFound _) => mret []
    | Err e => throw e
    end
  else mret [].

(** Reachable node digests, and those among them with a separate blob file. *)
Definition walk_reachable (roots : list Digest) : store_eff (list Digest * list Digest) :=
  traverse walk_reachable_body roots ([], []).

Definition compute_image_size_body (d : Digest) : eff (World * Z) StoreError (list Digest) :=
  wl ← get_world;
  let size p := default 0%Z (file_len (os wl.1) p) in
  on_locals (λ total, wrap64 (total + size (path_for (root (store wl.1)) d))) ;;
  on_locals (λ total, wrap64 (total + size (path_for_blob (root (store wl.1)) d))) ;;
  r ← try_eff (on_world (get_archived d));
  match r with
  | Ok n => mret (edges n)
  | Err _ => mret []
  end.

Definition compute_image_size (d : Digest) : store_eff Z :=
  traverse compute_image_size_body [d] 0%Z.

(** [*counts.entry(d).or_default() += 1]. *)
Definition count_one (d : Digest) (counts : gmap Digest Z) : gmap Digest Z :=
  <[d := wrap64 (default 0%Z (counts !! d) + 1)]> counts.

Definition recompute_body (d : Digest) : eff (World * gmap Digest Z) StoreError (list Digest) :=
  wl ← get_world;
  if node_exists wl.1 d then
    r ← try_eff (on_world (get_archived d));
    match r with
    | Ok n =>
      wl ← get_world;
      let children := filter (λ c, node_exists wl.1 c = true) (edges n) in
      on_locals (λ counts, foldl (λ m c, count_one c m) counts children) ;;
      mret children
    | Err (NotFound _) => mret []
    | Err e => throw e
    end
  else mret [].

Definition recompute_all_refcounts (roots : list Digest) : store_eff unit :=
  counts ← traverse recompute_body roots (foldl (λ m r, count_one r m) ∅ roots);
  for_each (λ '(d, c), set_refcount d c) (map_to_list counts).

(** [remove_file] of the node's files, counting the bytes of the first two;
    the empty shard directories above go with the last file. *)
Definition delete_node_files (d : Digest) : eff (World * Z) StoreError unit :=
  wl ← get_world;
  let r := root (store wl.1) in
  let size p := default 0%Z (file_len (os wl.1) p) in
  on_locals (λ freed, wrap64 (freed + size (path_for r d))) ;;
  on_world (ignore_eff (on_os (remove_file (path_for r d)))) ;;
  on_locals (λ freed, wrap64 (freed + size (path_for_blob r d))) ;;
  on_world (ignore_eff (on_os (remove_file (path_for_blob r d)))) ;;
  on_world (ignore_eff (on_os (remove_file (refcount_path r d)))).

(** [for child in &edges { if decrement(child)? == 0 { push(child) } }]. *)
Fixpoint release_children (l : list Digest) : store_eff (list Digest) :=
  match l with
  | [] => mret []
  | c :: l =>
    n ← decrement_refcount c;
    zero ← release_children l;
    mret (if decide (n = 0%Z) then c :: zero else zero)
  end.

Definition remove_tag_body (d : Digest) : eff (World * Z) StoreError (list Digest) :=
  wl ← get_world;
  if node_exists wl.1 d then
    r ← try_eff (on_world (get_archived d));
    es ← match r with
         | Ok n => mret (edges n)
         | Err (NotFound _) => mret []
         | Err e => throw e
         end;
    zero ← on_world (release_children es);
    on_world (modify_world (on_node_cache (Lru.evict_cache_entry d))) ;;
    delete_node_files d ;;
    mret zero
  else mret [].

(** Decrement the root and delete what no longer has references; the number
    of bytes freed. *)
Definition remove_tag (d : Digest) : store_eff Z :=
  remaining ← decrement_refcount d;
  if decide (remaining > 0)%Z then mret 0%Z
  else traverse remove_tag_body [d] 0%Z.

End store.
