(* ===== verification/Tasks.v ===== *)
(** * Effects that keep a property, and requests that others interrupt

    [keeps I m]: however [m] ends, [I] still holds.  The database [keeps] follows the
    structure of a function written with the combinators of the prelude.

    A handler of the daemon is an asynchronous function: it holds the state only from
    one [await] to the next, and other tasks run in between.  A [task] is such a
    function cut at its awaits; [alone] runs one without interruption, and [task_ok]
    says that every piece keeps an invariant of the state, whatever the others do. *)

From stdpp Require Import base list.
From S2P Require Import Prelude Store.

Definition keeps {W E A} (I : W → Prop) (m : eff W E A) : Prop := ∀ w, I w → I (m w).2.

Create HintDb keeps.

(** The steps of a function that cannot fail. *)
Section steps.
Context {W E F A B : Type}.

Lemma modify_bind (f : W → W) (n : unit → eff W E B) w : (modify_world f ≫= n) w = n tt (f w).
Proof. done. Qed.

Lemma get_bind (n : W → eff W E B) w : (get_world ≫= n) w = n w w.
Proof. done. Qed.

Lemma ignore_bind (m : eff W F A) (n : unit → eff W E B) w : (ignore_eff m ≫= n) w = n tt (m w).2.
Proof. unfold mbind, eff_bind, ignore_eff. by destruct (m w). Qed.

Lemma try_bind (m : eff W F A) (n : result F A → eff W E B) w : (try_eff m ≫= n) w = n (m w).1 (m w).2.
Proof. unfold mbind, eff_bind, try_eff. by destruct (m w). Qed.

End steps.

Section keeps.
Context {W E A : Type} (I : W → Prop).

Lemma keeps_ret (a : A) : keeps (E := E) I (mret a).
Proof. by intros w Hw. Qed.

Lemma keeps_throw (e : E) : keeps (A := A) I (throw e).
Proof. by intros w Hw. Qed.

Lemma keeps_get : keeps (E := E) I get_world.
Proof. by intros w Hw. Qed.

Lemma keeps_lift (r : result E A) : keeps I (lift_result r).
Proof. by intros w Hw. Qed.

Lemma keeps_modify f : (∀ w, I w → I (f w)) → keeps (E := E) I (modify_world f).
Proof. intros Hf w Hw. by apply Hf. Qed.

Lemma keeps_bind {B} (m : eff W E A) (f : A → eff W E B) :
  keeps I m → (∀ a, keeps I (f a)) → keeps I (m ≫= f).
Proof.
  intros Hm Hf w Hw. specialize (Hm w Hw). unfold mbind, eff_bind.
  destruct (m w) as [[a|e] w']; [by apply Hf|done].
Qed.

(** A function that looks at the state may use what it keeps. *)
Lemma keeps_bind_get {B} (f : W → eff W E B) :
  (∀ w, I w → I (f w w).2) → keeps I (get_world ≫= f).
Proof. intros Hf w Hw. by apply Hf. Qed.

Lemma modify_then {B} (f : W → W) (m : eff W E B) w : I (f w) → keeps I m → I ((modify_world f ;; m) w).2.
Proof. intros Hf Hm. by apply Hm. Qed.

Lemma keeps_try {F} (m : eff W E A) : keeps I m → keeps (E := F) I (try_eff m).
Proof. intros Hm w Hw. specialize (Hm w Hw). unfold try_eff. by destruct (m w). Qed.

Lemma keeps_ignore {F} (m : eff W E A) : keeps I m → keeps (E := F) I (ignore_eff m).
Proof. intros Hm w Hw. specialize (Hm w Hw). unfold ignore_eff. by destruct (m w). Qed.

Lemma keeps_map_err {F} (f : E → F) (m : eff W E A) : keeps I m → keeps I (map_err_eff f m).
Proof. intros Hm w Hw. specialize (Hm w Hw). unfold map_err_eff. by destruct (m w). Qed.

Lemma keeps_if {P} `{Decision P} (m n : eff W E A) : keeps I m → keeps I n → keeps I (if decide P then m else n).
Proof. by case_decide. Qed.

Lemma keeps_bool (b : bool) (m n : eff W E A) : keeps I m → keeps I n → keeps I (if b then m else n).
Proof. by destruct b. Qed.

End keeps.

#[export] Hint Resolve keeps_ret keeps_throw keeps_get keeps_lift keeps_try keeps_ignore keeps_map_err : keeps.
#[export] Hint Resolve keeps_bind keeps_if keeps_bool : keeps.

Section lists.
Context {W E A : Type} (I : W → Prop).

Lemma keeps_for_each (f : A → eff W E unit) l : (∀ a, keeps I (f a)) → keeps I (for_each f l).
Proof. intros Hf. induction l; simpl; auto with keeps. Qed.

Lemma keeps_map_eff {B} (f : A → eff W E B) l : (∀ a, keeps I (f a)) → keeps I (map_eff f l).
Proof. intros Hf. induction l; simpl; auto with keeps. Qed.

Lemma keeps_fold {B} (f : B → A → eff W E B) b l : (∀ b a, keeps I (f b a)) → keeps I (fold_eff f b l).
Proof. intros Hf. revert b. induction l; intros b; simpl; auto with keeps. Qed.

End lists.

#[export] Hint Resolve keeps_for_each keeps_map_eff keeps_fold : keeps.

(** Splits matches and conditionals the database does not see through. *)
Ltac keeps_step :=
  first
    [ progress (eauto 3 with keeps)
    | apply keeps_bind; [|intros ?]
    | apply keeps_map_eff; intros ?
    | apply keeps_for_each; intros ?
    | apply keeps_fold; intros ? ?
    | apply keeps_map_err
    | apply keeps_try
    | apply keeps_ignore
    | match goal with
      | |- keeps _ (match ?x with _ => _ end) => destruct x
      | |- keeps _ (let _ := _ in _) => cbv zeta
      | |- keeps _ (λ _, _) => fail 1
      end ].
Ltac keeps_solve := repeat keeps_step.

#[warnings="-register-all"]
Inductive task (W E A : Type) :=
| Answer (r : result E A)
| Await (run : W → task W E A * W).

Arguments Answer {W E A}.
Arguments Await {W E A}.

Section task.
Context {W E : Type}.

Fixpoint task_bind {A B} (k : A → task W E B) (t : task W E A) : task W E B :=
  match t with
  | Answer (Ok a) => k a
  | Answer (Err e) => Answer (Err e)
  | Await f => Await (λ w, let '(t', w') := f w in (task_bind k t', w'))
  end.

(** Induction over the pieces. *)
Lemma task_pieces {A} (P : task W E A → Prop) :
  (∀ r, P (Answer r)) → (∀ f, (∀ w, P (f w).1) → P (Await f)) → ∀ t, P t.
Proof.
  intros Ha Hf. fix IH 1. intros [r|f]; [apply Ha|]. apply Hf. intros w. destruct (f w) as [t' w']. apply IH.
Qed.

#[global] Instance task_mret : MRet (task W E) := λ _ a, Answer (Ok a).
#[global] Instance task_mbind : MBind (task W E) := @task_bind.

(** What runs between two awaits. *)
Definition atomic {A} (m : eff W E A) : task W E A := Await (λ w, let '(r, w') := m w in (Answer r, w')).

(** Nobody interrupts. *)
Fixpoint alone {A} (t : task W E A) : eff W E A := λ w,
  match t with
  | Answer r => (r, w)
  | Await f => let '(t', w') := f w in alone t' w'
  end.

Fixpoint map_task {A B} (f : A → task W E B) (l : list A) : task W E (list B) :=
  match l with
  | [] => mret []
  | a :: l => b ← f a; bs ← map_task f l; mret (b :: bs)
  end.

(** ** Without interruption *)

Lemma alone_atomic {A} (m : eff W E A) w : alone (atomic m) w = m w.
Proof. simpl. by destruct (m w). Qed.

Lemma alone_bind {A B} (t : task W E A) (k : A → task W E B) w :
  alone (t ≫= k) w = (alone t ≫= λ a, alone (k a)) w.
Proof.
  revert w. induction t as [[a|e]|f IH] using task_pieces; intros w; [done..|].
  unfold mbind in *. simpl. specialize (IH w). unfold eff_bind in *. simpl. destruct (f w) as [t' w']. apply IH.
Qed.

Lemma alone_piece {A B} (m : eff W E A) (k : A → task W E B) w :
  alone (atomic m ≫= k) w = (m ≫= λ a, alone (k a)) w.
Proof. rewrite alone_bind. unfold mbind, eff_bind. by rewrite alone_atomic. Qed.

(** Handlers that act alike in every state. *)
Definition same_eff {A} (m n : eff W E A) : Prop := ∀ w, m w = n w.

#[global] Instance same_eff_equiv {A} : Equivalence (@same_eff A).
Proof. split; [by intros m w|intros m n Hm w; by rewrite Hm|intros m n o Hm Hn w; by rewrite Hm, Hn]. Qed.

Lemma same_bind {A B} (m n : eff W E A) (f g : A → eff W E B) :
  same_eff m n → (∀ a, same_eff (f a) (g a)) → same_eff (m ≫= f) (n ≫= g).
Proof.
  intros Hm Hf w. unfold mbind, eff_bind. rewrite Hm. destruct (n w) as [[a|e] w']; [apply Hf|done].
Qed.

(** [runs t m]: uninterrupted, [t] is [m]. *)
Definition runs {A} (t : task W E A) (m : eff W E A) : Prop := same_eff (alone t) m.

Lemma runs_atomic {A} (m : eff W E A) : runs (atomic m) m.
Proof. intros w. apply alone_atomic. Qed.

Lemma runs_answer {A} (r : result E A) : runs (Answer r) (lift_result r).
Proof. by intros w. Qed.

Lemma runs_ret {A} (a : A) : runs (mret a) (mret a).
Proof. by intros w. Qed.

Lemma runs_bind {A B} (t : task W E A) (k : A → task W E B) m f :
  runs t m → (∀ a, runs (k a) (f a)) → runs (t ≫= k) (m ≫= f).
Proof. intros Ht Hk w. rewrite alone_bind. by apply same_bind. Qed.

Lemma runs_if {A P} `{Decision P} (t u : task W E A) m n :
  runs t m → runs u n → runs (if decide P then t else u) (if decide P then m else n).
Proof. by case_decide. Qed.

Lemma runs_map {A B} (f : A → task W E B) g l : (∀ a, runs (f a) (g a)) → runs (map_task f l) (map_eff g l).
Proof.
  intros Hf. induction l as [|a l IH]; [apply runs_ret|]. simpl.
  apply runs_bind; [apply Hf|intros b]. apply runs_bind; [apply IH|intros bs]. apply runs_ret.
Qed.

(** ** Among others *)

(** Every piece keeps [I], and an answer has [Q]. *)
Fixpoint task_ok {A} (I : W → Prop) (Q : A → Prop) (t : task W E A) : Prop :=
  match t with
  | Answer (Ok a) => Q a
  | Answer (Err _) => True
  | Await f => ∀ w, I w → let '(t', w') := f w in I w' ∧ task_ok I Q t'
  end.

Context (I : W → Prop).

Lemma task_ok_atomic {A} (Q : A → Prop) (m : eff W E A) :
  keeps I m → (∀ w a w', m w = (Ok a, w') → Q a) → task_ok I Q (atomic m).
Proof.
  intros Hm HQ w Hw. specialize (Hm w Hw). specialize (HQ w).
  destruct (m w) as [[a|e] w']; (split; [done|]); [by eapply HQ|done].
Qed.

Lemma task_ok_keeps {A} (m : eff W E A) : keeps I m → task_ok I (λ _, True) (atomic m).
Proof. intros Hm. by apply task_ok_atomic. Qed.

Lemma task_ok_bind {A B} (Q : A → Prop) (R : B → Prop) (t : task W E A) (k : A → task W E B) :
  task_ok I Q t → (∀ a, Q a → task_ok I R (k a)) → task_ok I R (t ≫= k).
Proof.
  intros Ht Hk. revert Ht. induction t as [[a|e]|f IH] using task_pieces; [by apply Hk|done|].
  intros Hf w Hw. specialize (Hf w Hw). specialize (IH w). destruct (f w) as [t' w'].
  destruct Hf as [Hw' Ht']. split; [done|by apply IH].
Qed.

Lemma task_ok_seq {A B} (R : B → Prop) (t : task W E A) (k : A → task W E B) :
  task_ok I (λ _, True) t → (∀ a, task_ok I R (k a)) → task_ok I R (t ≫= k).
Proof. intros Ht Hk. eapply task_ok_bind; eauto. Qed.

Lemma task_ok_answer {A} (r : result E A) : task_ok I (λ _, True) (Answer r).
Proof. by destruct r. Qed.

Lemma task_ok_map {A B} (f : A → task W E B) l :
  (∀ a, a ∈ l → task_ok I (λ _, True) (f a)) → task_ok I (λ _, True) (map_task f l).
Proof.
  induction l as [|a l IH]; intros Hf; [done|]. simpl. apply task_ok_seq; [apply Hf; left|intros b].
  apply task_ok_seq; [apply IH; intros; apply Hf; by right|by intros bs].
Qed.

End task.

(** Splits a handler into its pieces. *)
Ltac runs_solve :=
  repeat first
    [ apply runs_atomic | apply runs_ret | apply runs_answer
    | apply runs_bind; [|intros ?]
    | apply runs_if
    | match goal with |- runs (match ?x with _ => _ end) _ => destruct x end ].

Ltac task_solve :=
  repeat first
    [ apply task_ok_keeps; solve [keeps_solve]
    | apply task_ok_answer
    | exact Logic.I
    | apply task_ok_seq; [|intros ?]
    | match goal with |- task_ok _ _ (match ?x with _ => _ end) => destruct x end ].
