(* ===== verification/StoreFacts.v ===== *)
(** * The store: caches, layout, views and invariant

    The invariant of a [Cache]: the LRU list names each cached digest exactly
    once, and the byte counter is the sum of the cached lengths modulo 2^64.
    What the store's operations do is stated through three views of the disk:
    the node file, the blob file and the reference count of a digest.  The layout
    lemmas show that the views of different digests do not overlap, and the
    invariant ties the caches to the files. *)

From stdpp Require Import base gmap strings list.
From Stdlib Require Import ZArith Lia.
From S2P Require Import Worklist Prelude Strs Crates Node Fs Store.

Definition cached_bytes (m : gmap Digest bytes) : Z := map_sum len m.

Record cache_wf (c : Cache) : Prop := {
  wf_nodup : NoDup (lru c);
  wf_dom d : d ∈ lru c ↔ is_Some (cache c !! d);
  wf_total : total_bytes c = wrap64 (cached_bytes (cache c));
}.

Create HintDb cache discriminated.

(** ** Byte sums *)

Lemma wrap64_sub a b : wrap64 (wrap64 a - b) = wrap64 (a - b).
Proof. unfold wrap64. by rewrite Zminus_mod_idemp_l. Qed.

Lemma wrap64_add a b : wrap64 (wrap64 a + b) = wrap64 (a + b).
Proof. unfold wrap64. by rewrite Zplus_mod_idemp_l. Qed.

(** ** Eviction *)

(** What the loop returns: a suffix of the list, the map restricted to it, the
    counter still exact, and the budget met. *)
Lemma evict_loop_spec max m total l m' total' l' :
  (0 ≤ max)%Z → NoDup l → (∀ d, d ∈ l ↔ is_Some (m !! d)) → total = wrap64 (cached_bytes m) →
  Lru.evict_loop max m total l = (m', total', l') →
  NoDup l' ∧ (∀ d, d ∈ l' ↔ is_Some (m' !! d)) ∧ total' = wrap64 (cached_bytes m') ∧
  m' ⊆ m ∧ (∃ k, l = k ++ l') ∧ (total' ≤ max)%Z.
Proof.
  intros Hmax. revert m total. induction l as [|d l IH]; intros m total Hnd Hdom Htot; simpl.
  - assert (m = ∅) as ->.
    { apply map_empty. intros d. apply eq_None_not_Some. rewrite <- Hdom. apply not_elem_of_nil. }
    unfold cached_bytes in Htot. rewrite map_sum_empty in Htot. change (wrap64 0) with 0%Z in Htot.
    rewrite decide_False by lia. intros [= <- <- <-]. split_and!; try done; [by exists []|lia].
  - destruct (decide (total > max)%Z) as [Hgt|Hle].
    + assert (is_Some (m !! d)) as [b Hb] by (apply Hdom; left). rewrite Hb.
      apply NoDup_cons in Hnd as [Hd Hnd]. intros Hev.
      apply IH in Hev as (?&?&?&?&[k ->]&?); [|done| |].
      * split_and!; try done; [|by exists (d :: k)]. etrans; [done|]. apply delete_subseteq.
      * intros e. destruct (decide (e = d)) as [->|Hne].
        { rewrite lookup_delete_eq. split; [done|]. intros []; done. }
        rewrite lookup_delete_ne, <- Hdom, elem_of_cons by done. naive_solver.
      * unfold cached_bytes in *. rewrite Htot, wrap64_sub, (map_sum_delete len m d b Hb). f_equal. lia.
    + intros [= <- <- <-]. split_and!; try done. by exists [].
Qed.

(** The cache after eviction: well formed, part of what it was, within budget
    when it has one. *)
Lemma evict_spec c :
  cache_wf c →
  cache_wf (Lru.evict_lru_locked c) ∧
  cache (Lru.evict_lru_locked c) ⊆ cache c ∧
  (∃ k, lru c = k ++ lru (Lru.evict_lru_locked c)) ∧
  max_bytes (Lru.evict_lru_locked c) = max_bytes c ∧
  (∀ m, max_bytes c = Some m → (0 < m)%Z → (total_bytes (Lru.evict_lru_locked c) ≤ m)%Z).
Proof.
  intros Hwf. unfold Lru.evict_lru_locked. destruct (max_bytes c) as [max|] eqn:Emax.
  2: { split_and!; try done. by exists []. }
  case_decide as Hmax.
  - destruct (Lru.evict_loop _ _ _ _) as [[m total] l] eqn:Ee. destruct Hwf as [Hn Hd Ht].
    apply evict_loop_spec in Ee as (?&?&?&?&?&?); [|lia|done..].
    split_and!; [by constructor|done..|naive_solver].
  - split_and!; try done; [by exists []|]. intros m [= ->]. lia.
Qed.

(** ** The operations keep the invariant *)

Lemma remove_first_filter d l : NoDup l → Lru.remove_first d l = filter (λ x, x ≠ d) l.
Proof.
  induction 1 as [|x l Hx Hnd IH]; [done|]. simpl. rewrite filter_cons. case_decide as E.
  - subst. rewrite decide_False by naive_solver. clear IH Hnd.
    induction l as [|y l IH]; [done|]. rewrite filter_cons, decide_True by set_solver.
    by rewrite <- IH by set_solver.
  - rewrite decide_True by done. by rewrite IH.
Qed.

Lemma nodup_move_back (d : Digest) l : NoDup l → NoDup (filter (λ x, x ≠ d) l ++ [d]).
Proof.
  intros Hnd. apply NoDup_app. split_and!.
  - by apply NoDup_filter.
  - intros x Hx%list_elem_of_filter Hx'%list_elem_of_singleton. naive_solver.
  - apply NoDup_singleton.
Qed.

Lemma requeue_wf d c :
  cache_wf c → is_Some (cache c !! d) →
  cache_wf (MkCache (cache c) (Lru.remove_first d (lru c) ++ [d]) (total_bytes c) (max_bytes c)).
Proof.
  intros [Hn Hd Ht] Hc. rewrite remove_first_filter by done.
  constructor; simpl; [by apply nodup_move_back| |done].
  intros e. rewrite <- Hd, elem_of_app, list_elem_of_filter, list_elem_of_singleton.
  destruct (decide (e = d)) as [->|]; [|naive_solver]. rewrite Hd. naive_solver.
Qed.

Lemma touch_wf d c : cache_wf c → is_Some (cache c !! d) → cache_wf (Lru.touch d c).
Proof. intros. unfold Lru.touch. apply evict_spec. by apply requeue_wf. Qed.

Lemma touch_sub d c : cache_wf c → is_Some (cache c !! d) → cache (Lru.touch d c) ⊆ cache c.
Proof.
  intros Hwf Hd. unfold Lru.touch.
  by destruct (evict_spec _ (requeue_wf d c Hwf Hd)) as (_ & Hs & _).
Qed.

Lemma load_wf d b c : cache_wf c → cache c !! d = None → cache_wf (Lru.load d b c).
Proof.
  intros Hwf Hc. destruct (evict_spec c Hwf) as ([Hn Hd Ht] & Hs & _). unfold Lru.load.
  set (c' := Lru.evict_lru_locked c) in *.
  assert (Hc' : cache c' !! d = None) by (by eapply lookup_weaken_None).
  constructor; simpl.
  - apply NoDup_app. split_and!; [done| |apply NoDup_singleton].
    intros x Hx ->%list_elem_of_singleton. apply Hd in Hx as [? ?]. congruence.
  - intros e. rewrite elem_of_app, list_elem_of_singleton, Hd, lookup_insert_is_Some'. naive_solver.
  - unfold cached_bytes in *. rewrite Ht, wrap64_add, map_sum_insert by done. f_equal. lia.
Qed.

Lemma load_sub d b c : cache_wf c → cache (Lru.load d b c) ⊆ <[d := b]> (cache c).
Proof.
  intros Hwf. destruct (evict_spec c Hwf) as (_ & Hs & _). simpl. by apply insert_mono.
Qed.

Lemma evict_entry_wf d c : cache_wf c → cache_wf (Lru.evict_cache_entry d c).
Proof.
  intros [Hn Hd Ht]. unfold Lru.evict_cache_entry. destruct (cache c !! d) as [b|] eqn:Ec; [|done].
  constructor; simpl.
  - by apply NoDup_filter.
  - intros e. rewrite list_elem_of_filter, Hd, lookup_delete_is_Some. naive_solver.
  - unfold cached_bytes in *. rewrite Ht, wrap64_sub, (map_sum_delete len _ d b Ec). f_equal. lia.
Qed.

Lemma evict_entry_lookup d c : cache (Lru.evict_cache_entry d c) = delete d (cache c).
Proof.
  unfold Lru.evict_cache_entry. destruct (cache c !! d) eqn:E; [done|].
  by rewrite delete_id.
Qed.

Lemma empty_wf m : cache_wf (Lru.empty m).
Proof.
  constructor; simpl; [apply NoDup_nil_2| |done]. intros d. rewrite lookup_empty.
  split; [by intros ?%not_elem_of_nil|by intros []].
Qed.

#[export] Hint Resolve touch_wf load_wf evict_entry_wf empty_wf : cache.

Section facts.
Context `{Hex, Sha2, Rkyv DagNode, !HexLaws}.

(** ** Layout *)

Lemma list3_inj {A} (a b c a' b' c' : A) :
  [a; b; c] = [a'; b'; c'] → a = a' ∧ b = b' ∧ c = c'.
Proof. by intros [= -> -> ->]. Qed.

Lemma split_hex s : str_take 2 s +:+ str_take 2 (str_drop 2 s) +:+ str_drop 4 s = s.
Proof.
  change 4 with (2 + 2). by rewrite <- str_drop_drop, str_take_drop, str_take_drop.
Qed.

Lemma shard_dir_inj r d e : shard_dir r d = shard_dir r e → d = e.
Proof.
  unfold shard_dir. intros (E1 & E2 & E3)%(inj (app r))%list3_inj. apply as_hex_inj.
  by rewrite <- (split_hex (as_hex d)), <- (split_hex (as_hex e)), E1, E2, E3.
Qed.

Lemma path_for_inj r d e : path_for r d = path_for r e → d = e.
Proof. intros [E _]%app_inj_tail. by eapply shard_dir_inj. Qed.

Lemma path_for_blob_inj r d e : path_for_blob r d = path_for_blob r e → d = e.
Proof. intros [E _]%app_inj_tail. by eapply shard_dir_inj. Qed.

Lemma refcount_path_inj r d e : refcount_path r d = refcount_path r e → d = e.
Proof. intros [E _]%app_inj_tail. by eapply shard_dir_inj. Qed.

Lemma node_blob_ne r d e : path_for r d ≠ path_for_blob r e.
Proof. by intros [_ E]%app_inj_tail. Qed.

Lemma node_rc_ne r d e : path_for r d ≠ refcount_path r e.
Proof. by intros [_ E]%app_inj_tail. Qed.

Lemma blob_rc_ne r d e : path_for_blob r d ≠ refcount_path r e.
Proof. by intros [_ E]%app_inj_tail. Qed.

Lemma path_for_tmp r d : is_tmp (path_for r d) = false.
Proof. unfold is_tmp, path_for. by rewrite file_name_snoc. Qed.

Lemma path_for_blob_tmp r d : is_tmp (path_for_blob r d) = false.
Proof. unfold is_tmp, path_for_blob. by rewrite file_name_snoc. Qed.

Lemma refcount_path_tmp r d : is_tmp (refcount_path r d) = false.
Proof. unfold is_tmp, refcount_path. by rewrite file_name_snoc. Qed.

(** ** Views *)

Definition node_file (w : World) (d : Digest) : option bytes :=
  files (os w) !! path_for (root (store w)) d.
Definition blob_file (w : World) (d : Digest) : option bytes :=
  files (os w) !! path_for_blob (root (store w)) d.
Definition rc_file (w : World) (d : Digest) : option bytes :=
  files (os w) !! refcount_path (root (store w)) d.

(** The node a digest stands for. *)
Definition node_at (w : World) (d : Digest) : option DagNode :=
  node_file w d ≫= check_archived_root.

Definition children (w : World) (d : Digest) : list Digest :=
  match node_at w d with
  | Some n => edges n
  | None => []
  end.

Lemma node_exists_spec w d : node_exists w d = bool_decide (is_Some (node_file w d)).
Proof. done. Qed.

Lemma blob_exists_spec w d : blob_exists w d = bool_decide (is_Some (blob_file w d)).
Proof. done. Qed.

(** ** Invariant *)

Record store_inv (w : World) : Prop := {
  inv_node_cache : cache_wf (node_cache (store w));
  inv_blob_cache : cache_wf (blob_cache (store w));
  inv_coherent d b : cache (node_cache (store w)) !! d = Some b → node_file w d = Some b;
}.

Definition healthy (w : World) : Prop := io_bad (os w) = ∅.

(** Same files and same root: only the caches may differ. *)
Definition same_disk (w w' : World) : Prop :=
  os w' = os w ∧ root (store w') = root (store w).

Lemma same_disk_refl w : same_disk w w.
Proof. done. Qed.

Lemma same_disk_trans w1 w2 w3 : same_disk w1 w2 → same_disk w2 w3 → same_disk w1 w3.
Proof. unfold same_disk. intros [] []. split; congruence. Qed.

Lemma same_disk_node w w' d : same_disk w w' → node_file w' d = node_file w d.
Proof. unfold node_file. by intros [-> ->]. Qed.

Lemma same_disk_blob_file w w' d : same_disk w w' → blob_file w' d = blob_file w d.
Proof. unfold blob_file. by intros [-> ->]. Qed.

Lemma same_disk_node_at w w' d : same_disk w w' → node_at w' d = node_at w d.
Proof. intros E. unfold node_at. by rewrite (same_disk_node _ _ _ E). Qed.

Lemma same_disk_children w w' d : same_disk w w' → children w' d = children w d.
Proof. intros E. unfold children. by rewrite (same_disk_node_at _ _ _ E). Qed.

Lemma same_disk_healthy w w' : same_disk w w' → healthy w → healthy w'.
Proof. unfold healthy. by intros [-> _]. Qed.

(** ** Reading nodes *)

Definition get_result (w : World) (d : Digest) : result StoreError bytes :=
  match node_file w d with
  | Some b => Ok b
  | None => Err (NotFound d)
  end.

Lemma on_os_read p w :
  on_os (read_file p) w = (map_err Io (read_file p (os w)).1, w).
Proof.
  unfold on_os, read_file. destruct w as [s st]. simpl.
  destruct (faulty s p), (files s !! p); done.
Qed.

(** Reading a node does not touch the disk, keeps the invariant, and gives the
    contents of the node file or, on a faulty disk only, an I/O error. *)
Lemma get_spec d w r w' :
  store_inv w → get d w = (r, w') →
  store_inv w' ∧ same_disk w w' ∧
  (r = get_result w d ∨ (∃ e, r = Err (Io e)) ∧ ¬ healthy w).
Proof.
  intros [Hn Hb Hco] Hg. unfold get, mbind, eff_bind, get_world in Hg.
  destruct (cache (node_cache (store w)) !! d) as [b|] eqn:Ec.
  - unfold modify_world, mret, eff_ret in Hg. simplify_eq.
    pose proof (touch_sub d _ Hn (ex_intro _ b Ec)) as Hsub.
    split_and!; [|done|].
    + constructor; simpl; [by apply touch_wf|done|].
      intros e b' He. eapply lookup_weaken in He; [|done]. by apply Hco.
    + left. unfold get_result. by rewrite (Hco _ _ Ec).
  - unfold load_node_from_disk, mbind, eff_bind, get_world in Hg. rewrite node_exists_spec in Hg.
    case_bool_decide as Hex; [|unfold throw in Hg; simplify_eq; split_and!; try done].
    2: { left. unfold get_result. apply eq_None_not_Some in Hex. by rewrite Hex. }
    rewrite on_os_read in Hg. destruct Hex as [b Eb]. unfold read_file in Hg.
    fold (node_file w d) in Hg. unfold get_result, healthy. rewrite Eb in *.
    destruct (faulty (os w) _) eqn:Ef; simpl in Hg.
    { simplify_eq. split_and!; try done. right. split; [by eexists|].
      intros Hh. by rewrite not_faulty in Ef. }
    unfold modify_world, mret, eff_ret in Hg. simplify_eq. split_and!; try done; [|by left].
    constructor; simpl; [by apply load_wf|done|].
    intros e b' He. eapply lookup_weaken in He; [|by apply load_sub].
    destruct (decide (e = d)) as [->|]; simplify_map_eq; [done|by apply Hco].
Qed.

Definition archived_result (w : World) (d : Digest) : result StoreError DagNode :=
  b ← get_result w d; archived_node d b.

Lemma get_archived_spec d w r w' :
  store_inv w → get_archived d w = (r, w') →
  store_inv w' ∧ same_disk w w' ∧
  (r = archived_result w d ∨ (∃ e, r = Err (Io e)) ∧ ¬ healthy w).
Proof.
  intros Hinv Hg. unfold get_archived, mbind, eff_bind in Hg.
  destruct (get d w) as [r1 w1] eqn:Eg. apply get_spec in Eg as (?&?&Hr); [|done].
  unfold archived_result. destruct r1 as [b|e]; unfold lift_result in Hg; simplify_eq;
    split_and!; try done; destruct Hr as [<- | [[? ?] ?]]; simplify_eq; eauto.
Qed.

Lemma archived_result_Ok w d n : archived_result w d = Ok n ↔ node_at w d = Some n.
Proof.
  unfold archived_result, get_result, node_at, archived_node. simpl.
  destruct (node_file w d) as [b|]; simpl; [|naive_solver].
  destruct (check_archived_root b); naive_solver.
Qed.

(** A node file that does not parse. *)
Definition corrupted_at (w : World) (d : Digest) : Prop :=
  ∃ b, node_file w d = Some b ∧ check_archived_root b = None.

Lemma archived_result_Err w d e :
  archived_result w d = Err e ↔
  (e = NotFound d ∧ node_file w d = None) ∨ (e = Corrupted d ∧ corrupted_at w d).
Proof.
  unfold archived_result, get_result, corrupted_at, archived_node. simpl.
  destruct (node_file w d) as [b|]; simpl; [|naive_solver].
  destruct (check_archived_root b) eqn:E; naive_solver.
Qed.

Lemma exists_spec w d :
  store_inv w → exists_ w d = bool_decide (is_Some (node_file w d)).
Proof.
  intros [_ _ Hco]. unfold exists_. rewrite node_exists_spec.
  case_bool_decide as Hc; [|done]. destruct Hc as [b Hb%Hco]. rewrite Hb.
  by rewrite bool_decide_true.
Qed.

(** ** Traversals *)

Lemma children_count w d :
  length (children w d) = default 0 (edge_count <$> node_file w d).
Proof.
  unfold children, node_at, edge_count. destruct (node_file w d) as [b|]; [|done].
  simpl. by destruct (check_archived_root b).
Qed.

Lemma edge_bound_children w X :
  set_sum (λ d, length (children w d)) X ≤ edge_bound (os w).
Proof.
  unfold set_sum, edge_bound.
  set (f d := (λ b, (path_for (root (store w)) d, b)) <$> node_file w d).
  trans (sum_list_with (λ kv, edge_count kv.2) (omap f (elements X))).
  - induction (elements X) as [|d l IH]; [done|]. simpl. rewrite children_count.
    destruct (f d) as [kv|] eqn:Ef; unfold f in Ef; destruct (node_file w d); simpl in *;
      simplify_eq; simpl; unfold omap in IH; lia.
  - apply sum_list_with_submseteq, NoDup_submseteq.
    + pose proof (NoDup_elements X) as Hnd. induction Hnd as [|d l Hd Hnd IH]; [constructor|].
      simpl. destruct (f d) as [kv|] eqn:Ef; [|done]. constructor; [|done].
      intros (e & He & Ee)%list_elem_of_omap. apply Hd. unfold f in *.
      apply fmap_Some in Ef as (?&_&->). apply fmap_Some in Ee as (?&_&[= E _]).
      apply path_for_inj in E. by subst.
    + intros [p b] (d & _ & E)%list_elem_of_omap. apply elem_of_map_to_list.
      apply fmap_Some in E as (b' & Eb & [= -> ->]). done.
Qed.

Section traverse.
Context {L : Type} (body : Digest → eff (World * L) StoreError (list Digest)).
Variables (w : World) (P : gset Digest → list Digest → World * L → Prop).
Variable R : StoreError → World * L → Prop.
Hypothesis skip_ok : ∀ V d Q wl, d ∈ V → P V (d :: Q) wl → P V Q wl.
Hypothesis body_ok : ∀ V d Q wl, d ∉ V → P V (d :: Q) wl →
  match body d wl with
  | (Ok more, wl') => length more ≤ length (children w d) ∧ P ({[d]} ∪ V) (Q ++ more) wl'
  | (Err e, wl') => R e wl'
  end.

(** The loop bound is never exhausted. *)
Lemma traverse_rule queue l :
  P ∅ queue (w, l) →
  match traverse body queue l w with
  | (Ok l', w') => ∃ V, P V [] (w', l')
  | (Err e, w') => ∃ l', R e (w', l')
  end.
Proof using All.
  intros HP. unfold traverse.
  pose proof (worklist_rule OutOfFuel body (λ d, length (children w d)) (edge_bound (os w)) P R
    (edge_bound_children w) skip_ok body_ok (length queue + edge_bound (os w)) ∅ queue (w, l)) as Hw.
  ospecialize (Hw _ HP). { unfold worklist_measure. rewrite set_sum_empty. lia. }
  destruct (worklist _ _ _ _ _ _) as [[V|e] [w' l']]; naive_solver.
Qed.

(** What every body preserves of the world, the traversal preserves. *)
Lemma traverse_preserves (I : World → Prop) queue l w0 :
  (∀ d wl, I wl.1 → I (body d wl).2.1) → I w0 → I (traverse body queue l w0).2.
Proof using Type.
  intros Hb HI. unfold traverse.
  pose proof (worklist_preserves OutOfFuel body (λ wl, I wl.1)
    (length queue + edge_bound (os w0)) ∅ queue (w0, l) Hb HI) as Hw.
  destruct (worklist _ _ _ _ _ _) as [[V|e] [w' l']]; done.
Qed.

End traverse.

End facts.

Section blobs.
Context `{Hex, Sha2, Rkyv DagNode, !HexLaws}.

(** Bytes the store would return for a digest, from the disk or the cache. *)
Definition blob_view (w : World) (d : Digest) (b : bytes) : Prop :=
  blob_file w d = Some b ∨ cache (blob_cache (store w)) !! d = Some b.

(** The blobs of the digests in [P] are stored under the digest of their contents. *)
Definition trusted_blobs (P : Digest → Prop) (w : World) : Prop :=
  ∀ d b, P d → blob_view w d b → compute b = d.

Lemma get_blob_frame d w r w' :
  store_inv w → get_blob d w = (r, w') →
  store_inv w' ∧ same_disk w w' ∧ (∀ e b, blob_view w' e b → blob_view w e b) ∧
  (∀ b, r = Ok b → blob_view w d b).
Proof.
  intros [Hn Hb Hco] Hg. unfold get_blob, mbind, eff_bind, get_world in Hg.
  destruct (cache (blob_cache (store w)) !! d) as [b|] eqn:Ec.
  - unfold modify_world, mret, eff_ret in Hg. simplify_eq.
    pose proof (touch_sub d _ Hb (ex_intro _ b Ec)) as Hsub.
    split_and!; [constructor; simpl; [done|by apply touch_wf|done]|done| |].
    + intros e b' [He|He]; [by left|right]. by eapply lookup_weaken.
    + intros b' [= <-]. by right.
  - unfold load_blob_from_disk, mbind, eff_bind, get_world in Hg. rewrite blob_exists_spec in Hg.
    case_bool_decide as Hex; [|unfold throw in Hg; simplify_eq; by split_and!].
    rewrite on_os_read in Hg. destruct Hex as [b Eb]. unfold read_file in Hg.
    fold (blob_file w d) in Hg. rewrite Eb in Hg.
    destruct (faulty (os w) _); simpl in Hg; [by simplify_eq; split_and!|].
    unfold modify_world, mret, eff_ret in Hg. simplify_eq.
    split_and!; [constructor; simpl; [done|by apply load_wf|done]|done| |].
    + intros e b' [He|He]; [by left|]. eapply lookup_weaken in He; [|by apply load_sub].
      destruct (decide (e = d)) as [->|]; simplify_map_eq; [by left|by right].
    + intros b' [= <-]. by left.
Qed.

Lemma put_blob_frame d data w r w' :
  put_blob d data w = (r, w') →
  store w' = store w ∧ (∀ e, node_file w' e = node_file w e) ∧ (∀ e, rc_file w' e = rc_file w e) ∧
  ∀ e b, blob_file w' e = Some b → blob_file w e = Some b ∨ e = d ∧ b = data.
Proof.
  unfold put_blob, mbind, eff_bind, get_world. destruct (blob_exists w d).
  { intros [= _ <-]. naive_solver. }
  unfold on_os. destruct (write_atomically _ _ _) as [r' s] eqn:E. intros [= _ <-].
  apply write_atomically_frame in E as [_ Ho Hs _]. unfold node_file, rc_file, blob_file. simpl.
  split_and!; [done|intros e..|intros e b He].
  - apply Ho; [apply path_for_tmp|apply node_blob_ne].
  - apply Ho; [apply refcount_path_tmp|apply not_eq_sym, blob_rc_ne].
  - destruct (decide (e = d)) as [->|Hne].
    + destruct Hs as [Hs|Hs]; rewrite Hs in He; [by left|right; naive_solver].
    + left. rewrite <- Ho; [done|apply path_for_blob_tmp|]. by intros ?%path_for_blob_inj.
Qed.

Lemma put_blob_new d data w :
  healthy w → blob_file w d = None →
  ∃ w', put_blob d data w = (Ok tt, w') ∧ store w' = store w ∧ io_bad (os w') = io_bad (os w) ∧
    (∀ e, node_file w' e = node_file w e) ∧ (∀ e, rc_file w' e = rc_file w e) ∧
    ∀ e, blob_file w' e = if decide (e = d) then Some data else blob_file w e.
Proof.
  intros Hh Hd. unfold put_blob, mbind, eff_bind, get_world. rewrite blob_exists_spec, Hd.
  rewrite bool_decide_false by (by intros []). unfold on_os.
  destruct (write_atomically _ data (os w)) as [r s] eqn:Ew.
  pose proof (write_atomically_ok (path_for_blob (root (store w)) d) data (os w) Hh) as Eok.
  rewrite Ew in Eok. injection Eok as -> _. apply write_atomically_frame in Ew as [Hbad Ho _ Hok].
  eexists. split; [done|]. simpl. split_and!; [done|done|intros e..]; unfold node_file, rc_file, blob_file; simpl.
  - apply Ho; [apply path_for_tmp|apply node_blob_ne].
  - apply Ho; [apply refcount_path_tmp|apply not_eq_sym, blob_rc_ne].
  - case_decide as E; [subst; auto|]. apply Ho; [apply path_for_blob_tmp|]. by intros ?%path_for_blob_inj.
Qed.

Lemma put_blob_known d data w : is_Some (blob_file w d) → put_blob d data w = (Ok tt, w).
Proof.
  intros Hd. unfold put_blob, mbind, eff_bind, get_world. rewrite blob_exists_spec.
  by rewrite bool_decide_true.
Qed.

Lemma put_blob_inv d data w r w' : store_inv w → put_blob d data w = (r, w') → store_inv w'.
Proof.
  intros [Hn Hb Hco] (Hs & Hno & _)%put_blob_frame. constructor; rewrite Hs; [done..|].
  intros e b. rewrite Hno. apply Hco.
Qed.

Lemma put_blob_trusted P d data w r w' :
  trusted_blobs P w → (P d → compute data = d) → put_blob d data w = (r, w') → trusted_blobs P w'.
Proof.
  intros Ht Hd (Hs & _ & _ & Hb)%put_blob_frame e b He [Hv|Hv].
  - apply Hb in Hv as [Hv|[-> ->]]; [|by apply Hd]. apply Ht; [done|by left].
  - rewrite Hs in Hv. apply Ht; [done|by right].
Qed.

Lemma get_blob_trusted P d w r w' :
  store_inv w → trusted_blobs P w → get_blob d w = (r, w') →
  store_inv w' ∧ trusted_blobs P w' ∧ ∀ b, r = Ok b → P d → compute b = d.
Proof.
  intros Hi Ht (Hi' & _ & Hv & Hr)%get_blob_frame; [|done]. split_and!; [done| |].
  - intros e b He Hb. apply Ht; [done|]. by apply Hv.
  - intros b Hb HP. apply Ht; [done|]. by apply Hr.
Qed.

End blobs.
