(* ===== verification/Utf8.v ===== *)
(** * UTF-8 and white space

    [String::from_utf8] (well-formedness, table 3-7 of the Unicode standard) and
    the trimming and line splitting of [str], which are defined on [char]s: white
    space is Unicode's, given here by the UTF-8 encodings of its code points. *)

From stdpp Require Import base strings list.
From Stdlib Require Import ZArith Ascii Lia.
From S2P Require Import Prelude Strs.

(** ** Well-formed byte sequences *)

Definition between (lo hi : Z) (b : byte) : bool := ((lo <=? u8_of b) && (u8_of b <=? hi))%Z.
Definition cont (b : byte) : bool := between 0x80 0xBF b.

Fixpoint valid_utf8 (l : bytes) : bool :=
  match l with
  | [] => true
  | a :: l =>
    if between 0 0x7F a then valid_utf8 l
    else if between 0xC2 0xDF a then
      match l with
      | b :: l => cont b && valid_utf8 l
      | _ => false
      end
    else if between 0xE0 0xEF a then
      match l with
      | b :: c :: l =>
        (if (u8_of a =? 0xE0)%Z then between 0xA0 0xBF b
         else if (u8_of a =? 0xED)%Z then between 0x80 0x9F b else cont b)
        && cont c && valid_utf8 l
      | _ => false
      end
    else if between 0xF0 0xF4 a then
      match l with
      | b :: c :: d :: l =>
        (if (u8_of a =? 0xF0)%Z then between 0x90 0xBF b
         else if (u8_of a =? 0xF4)%Z then between 0x80 0x8F b else cont b)
        && cont c && cont d && valid_utf8 l
      | _ => false
      end
    else false
  end.

Definition from_utf8 (l : bytes) : option string :=
  if valid_utf8 l then Some (str_of_bytes l) else None.

(** A string value of the program. *)
Definition utf8 (s : string) : Prop := valid_utf8 (as_bytes s) = true.

Lemma from_utf8_as_bytes s : utf8 s → from_utf8 (as_bytes s) = Some s.
Proof. unfold utf8, from_utf8. intros ->. by rewrite str_of_as_bytes. Qed.

Lemma from_utf8_Some l s : from_utf8 l = Some s → as_bytes s = l ∧ utf8 s.
Proof.
  unfold from_utf8, utf8. destruct (valid_utf8 l) eqn:E; [|done]. intros [= <-].
  by rewrite as_bytes_of.
Qed.

Lemma valid_utf8_app l k : valid_utf8 l = true → valid_utf8 k = true → valid_utf8 (l ++ k) = true.
Proof.
  intros Hl Hk. revert l Hl. fix IH 1. intros [|a l]; [done|]. cbn [valid_utf8 app].
  destruct (between 0 0x7F a); [apply IH|]. destruct (between 0xC2 0xDF a).
  { destruct l as [|b l]; [done|]. cbn [app]. intros [-> ?]%andb_true_iff. by apply IH. }
  destruct (between 0xE0 0xEF a).
  { destruct l as [|b [|c l]]; [done..|]. cbn [app]. intros [-> ?]%andb_true_iff. by apply IH. }
  destruct (between 0xF0 0xF4 a); [|done].
  destruct l as [|b [|c [|d l]]]; [done..|]. cbn [app]. intros [-> ?]%andb_true_iff. by apply IH.
Qed.

Lemma utf8_app s t : utf8 s → utf8 t → utf8 (s +:+ t).
Proof. unfold utf8. rewrite as_bytes_app. apply valid_utf8_app. Qed.

(** An ASCII character is never part of a longer sequence. *)
Lemma valid_utf8_cut l x k :
  between 0 0x7F x = true → valid_utf8 (l ++ x :: k) = true → valid_utf8 l = true ∧ valid_utf8 k = true.
Proof.
  intros Hx. assert (Hc : ∀ lo hi, (0x80 <= lo)%Z → between lo hi x = false).
  { intros lo hi Hlo. unfold between in *. apply andb_true_iff in Hx as [_ Hx%Z.leb_le].
    apply andb_false_iff. left. apply Z.leb_gt. lia. }
  assert (H80 : cont x = false) by (by apply Hc). induction l as [l IH] using (induction_ltof1 _ (@length byte)).
  unfold ltof in IH. destruct l as [|a l]; cbn [valid_utf8 app]; [by rewrite Hx|].
  destruct (between 0 0x7F a); [apply IH; simpl; lia|]. destruct (between 0xC2 0xDF a).
  { destruct l as [|b l]; cbn [app]; [by rewrite H80|]. intros [-> ?]%andb_true_iff. apply IH; [simpl; lia|done]. }
  destruct (between 0xE0 0xEF a).
  { destruct l as [|b [|c l]]; cbn [app].
    - destruct k; [done|]. rewrite H80. by repeat rewrite Hc by done; repeat case_match.
    - rewrite H80, andb_false_r. done.
    - intros [-> ?]%andb_true_iff. apply IH; [simpl; lia|done]. }
  destruct (between 0xF0 0xF4 a); [|done]. destruct l as [|b [|c [|d l]]]; cbn [app].
  - destruct k as [|? [|??]]; [done..|]. rewrite H80. by repeat rewrite Hc by done; repeat case_match.
  - destruct k; [done|]. by rewrite H80, andb_false_r.
  - by rewrite H80, andb_false_r.
  - intros [-> ?]%andb_true_iff. apply IH; [simpl; lia|done].
Qed.

Lemma utf8_cut s c t :
  between 0 0x7F (byte_of_ascii c) = true → utf8 (s +:+ String c t) → utf8 s ∧ utf8 t.
Proof.
  unfold utf8. rewrite as_bytes_app. change (as_bytes (String c t)) with (byte_of_ascii c :: as_bytes t).
  apply valid_utf8_cut.
Qed.

(** [String::from_utf8_lossy]: each maximal ill-formed piece becomes U+FFFD. *)
Definition replacement : bytes := byte_of <$> [0xEF; 0xBF; 0xBD]%Z.

Definition second_of_three (a b : byte) : bool :=
  if (u8_of a =? 0xE0)%Z then between 0xA0 0xBF b
  else if (u8_of a =? 0xED)%Z then between 0x80 0x9F b else cont b.

Definition second_of_four (a b : byte) : bool :=
  if (u8_of a =? 0xF0)%Z then between 0x90 0xBF b
  else if (u8_of a =? 0xF4)%Z then between 0x80 0x8F b else cont b.

Fixpoint lossy (l : bytes) : bytes :=
  match l with
  | [] => []
  | a :: l =>
    if between 0 0x7F a then a :: lossy l
    else if between 0xC2 0xDF a then
      match l with
      | b :: r => if cont b then a :: b :: lossy r else replacement ++ lossy l
      | [] => replacement
      end
    else if between 0xE0 0xEF a then
      match l with
      | b :: r =>
        if second_of_three a b then
          match r with
          | c :: r' => if cont c then a :: b :: c :: lossy r' else replacement ++ lossy r
          | [] => replacement
          end
        else replacement ++ lossy l
      | [] => replacement
      end
    else if between 0xF0 0xF4 a then
      match l with
      | b :: r =>
        if second_of_four a b then
          match r with
          | c :: r' =>
            if cont c then
              match r' with
              | d :: r'' => if cont d then a :: b :: c :: d :: lossy r'' else replacement ++ lossy r'
              | [] => replacement
              end
            else replacement ++ lossy r
          | [] => replacement
          end
        else replacement ++ lossy l
      | [] => replacement
      end
    else replacement ++ lossy l
  end.

Definition from_utf8_lossy (l : bytes) : string := str_of_bytes (lossy l).

Lemma lossy_valid l : valid_utf8 l = true → lossy l = l.
Proof.
  revert l. fix IH 1. intros [|a l]; [done|]. cbn [valid_utf8 lossy].
  destruct (between 0 0x7F a); [intros; f_equal; by apply IH|].
  destruct (between 0xC2 0xDF a).
  { destruct l as [|b l]; [done|]. intros [-> ?]%andb_true_iff. do 2 f_equal. by apply IH. }
  destruct (between 0xE0 0xEF a).
  { destruct l as [|b [|c l]]; [done..|]. intros [[Hb ->]%andb_true_iff ?]%andb_true_iff.
    unfold second_of_three. rewrite Hb. do 3 f_equal. by apply IH. }
  destruct (between 0xF0 0xF4 a); [|done].
  destruct l as [|b [|c [|d l]]]; [done..|].
  intros [[[Hb ->]%andb_true_iff ->]%andb_true_iff ?]%andb_true_iff.
  unfold second_of_four. rewrite Hb. do 4 f_equal. by apply IH.
Qed.

Lemma from_utf8_lossy_as_bytes s : utf8 s → from_utf8_lossy (as_bytes s) = s.
Proof. intros Hs. unfold from_utf8_lossy. rewrite lossy_valid by done. apply str_of_as_bytes. Qed.

(** [s.chars()]: the code points of a well-formed sequence. *)
Fixpoint code_points (l : bytes) : list Z :=
  match l with
  | [] => []
  | a :: l =>
    if between 0 0x7F a then u8_of a :: code_points l
    else if between 0xC2 0xDF a then
      match l with
      | b :: l => (Z.land (u8_of a) 0x1F * 0x40 + Z.land (u8_of b) 0x3F)%Z :: code_points l
      | _ => []
      end
    else if between 0xE0 0xEF a then
      match l with
      | b :: c :: l =>
        ((Z.land (u8_of a) 0x0F * 0x40 + Z.land (u8_of b) 0x3F) * 0x40 + Z.land (u8_of c) 0x3F)%Z :: code_points l
      | _ => []
      end
    else
      match l with
      | b :: c :: d :: l =>
        (((Z.land (u8_of a) 0x07 * 0x40 + Z.land (u8_of b) 0x3F) * 0x40 + Z.land (u8_of c) 0x3F) * 0x40
          + Z.land (u8_of d) 0x3F)%Z :: code_points l
      | _ => []
      end
  end.

Definition chars (s : string) : list Z := code_points (as_bytes s).

(** An ASCII character of a well-formed sequence is one of its code points. *)
Lemma code_points_ascii l x :
  valid_utf8 l = true → between 0 0x7F x = true → x ∈ l → u8_of x ∈ code_points l.
Proof.
  intros Hv Hx. assert (Hc : ∀ y lo hi, between lo hi y = true → (0x80 <= lo)%Z → x ≠ y).
  { intros y lo hi Hy Hlo ->. unfold between in *. apply andb_true_iff in Hx as [_ Hx%Z.leb_le], Hy as [Hy%Z.leb_le _].
    lia. }
  assert (Hcont : ∀ y, cont y = true → x ≠ y) by (intros y Hy; by eapply Hc).
  induction l as [l IH] using (induction_ltof1 _ (@length byte)). unfold ltof in IH.
  destruct l as [|a l]; [by intros ?%elem_of_nil|]. cbn [valid_utf8 code_points] in *.
  destruct (between 0 0x7F a) eqn:E1.
  { intros [->|Hin]%elem_of_cons; [by left|]. right. apply IH; [simpl; lia|done..]. }
  destruct (between 0xC2 0xDF a) eqn:E2.
  { destruct l as [|b l]; [done|]. apply andb_true_iff in Hv as [Hb Hv].
    intros [->|[->|Hin]%elem_of_cons]%elem_of_cons; [by destruct (Hc a _ _ E2)|by destruct (Hcont b)|].
    right. apply IH; [simpl; lia|done..]. }
  destruct (between 0xE0 0xEF a) eqn:E3.
  { destruct l as [|b [|c l]]; [done..|]. apply andb_true_iff in Hv as [[Hb Hcc]%andb_true_iff Hv].
    intros [->|[->|[->|Hin]%elem_of_cons]%elem_of_cons]%elem_of_cons;
      [by destruct (Hc a _ _ E3)| |by destruct (Hcont c)|right; apply IH; [simpl; lia|done..]].
    exfalso. repeat case_match; [by destruct (Hc b _ _ Hb)|by destruct (Hc b _ _ Hb)|by destruct (Hcont b)]. }
  destruct (between 0xF0 0xF4 a) eqn:E4; [|done].
  destruct l as [|b [|c [|d l]]]; [done..|].
  apply andb_true_iff in Hv as [[[Hb Hcc]%andb_true_iff Hd]%andb_true_iff Hv].
  intros [->|[->|[->|[->|Hin]%elem_of_cons]%elem_of_cons]%elem_of_cons]%elem_of_cons;
    [by destruct (Hc a _ _ E4)| |by destruct (Hcont c)|by destruct (Hcont d)|right; apply IH; [simpl; lia|done..]].
  exfalso. repeat case_match; [by destruct (Hc b _ _ Hb)|by destruct (Hc b _ _ Hb)|by destruct (Hcont b)].
Qed.

(** ** White space *)

Definition enc (l : list Z) : bytes := byte_of <$> l.

(** The encodings of the 25 code points with the [White_Space] property. *)
Definition white_space : list bytes :=
  enc <$>
  [[0x09]; [0x0A]; [0x0B]; [0x0C]; [0x0D]; [0x20]; [0xC2; 0x85]; [0xC2; 0xA0];
   [0xE1; 0x9A; 0x80];
   [0xE2; 0x80; 0x80]; [0xE2; 0x80; 0x81]; [0xE2; 0x80; 0x82]; [0xE2; 0x80; 0x83];
   [0xE2; 0x80; 0x84]; [0xE2; 0x80; 0x85]; [0xE2; 0x80; 0x86]; [0xE2; 0x80; 0x87];
   [0xE2; 0x80; 0x88]; [0xE2; 0x80; 0x89]; [0xE2; 0x80; 0x8A];
   [0xE2; 0x80; 0xA8]; [0xE2; 0x80; 0xA9]; [0xE2; 0x80; 0xAF]; [0xE2; 0x81; 0x9F];
   [0xE3; 0x80; 0x80]]%Z.

Fixpoint strip_bytes (p l : bytes) : option bytes :=
  match p, l with
  | [], _ => Some l
  | a :: p, b :: l => if decide (a = b) then strip_bytes p l else None
  | _ :: _, [] => None
  end.

(** The rest after one of [ps], if the list starts with one. *)
Fixpoint strip_any (ps : list bytes) (l : bytes) : option bytes :=
  match ps with
  | [] => None
  | p :: ps => match strip_bytes p l with
               | Some r => Some r
               | None => strip_any ps l
               end
  end.

Fixpoint trim_front (fuel : nat) (ps : list bytes) (l : bytes) : bytes :=
  match fuel with
  | O => l
  | S fuel => match strip_any ps l with
              | Some r => trim_front fuel ps r
              | None => l
              end
  end.

(** [s.trim_start()], [s.trim_end()], [s.trim()]; every step drops a byte, so
    the length is fuel enough. *)
Definition trim_start_bytes (l : bytes) : bytes := trim_front (length l) white_space l.
Definition trim_end_bytes (l : bytes) : bytes :=
  reverse (trim_front (length l) (reverse <$> white_space) (reverse l)).

Definition trim_start (s : string) : string := str_of_bytes (trim_start_bytes (as_bytes s)).
Definition trim_end (s : string) : string := str_of_bytes (trim_end_bytes (as_bytes s)).
Definition trim (s : string) : string := trim_end (trim_start s).

(** [s.lines()]: pieces ending in a line feed, the last one possibly without,
    each without a final carriage return (which only a terminated piece loses). *)
Fixpoint strip_cr (s : string) : string :=
  match s with
  | EmptyString => EmptyString
  | String c EmptyString => if decide (c = "013"%char) then EmptyString else s
  | String c s => String c (strip_cr s)
  end.

Fixpoint terminated_lines (l : list string) : list string :=
  match l with
  | [] => []
  | [last] => if decide (last = EmptyString) then [] else [last]
  | x :: l => strip_cr x :: terminated_lines l
  end.

Definition lines (s : string) : list string := terminated_lines (split s "010"%char).

Definition digit_val (radix : Z) (c : ascii) : option Z :=
  let n := Z.of_nat (nat_of_ascii c) in
  let v := if in_range "0" "9" c then Some (n - 48)%Z
           else if in_range "a" "z" c then Some (n - 87)%Z
           else if in_range "A" "Z" c then Some (n - 55)%Z else None in
  d ← v; if decide (d < radix)%Z then Some d else None.

(** The digits, most significant first; an intermediate value outside the type is
    an overflow error. *)
Fixpoint parse_digits (radix bound acc : Z) (s : string) : option Z :=
  match s with
  | EmptyString => Some acc
  | String c s =>
    d ← digit_val radix c;
    let acc := (acc * radix + d)%Z in
    if decide (acc < bound)%Z then parse_digits radix bound acc s else None
  end.

(** [from_str_radix] of an unsigned type with values below [bound]: one leading
    plus sign is allowed, no digits at all is an error. *)
Definition from_str_radix (radix bound : Z) (s : string) : option Z :=
  let digits := match s with
                | String "+" s => s
                | _ => s
                end in
  match digits with
  | EmptyString => None
  | _ => parse_digits radix bound 0 digits
  end.

Definition parse_u32 (s : string) : option Z := from_str_radix 10 u32_mod s.
Definition parse_u16 (s : string) : option Z := from_str_radix 10 u16_mod s.
Definition parse_u8 (s : string) : option Z := from_str_radix 10 u8_mod s.

(** An octet of a dotted address: one to three digits, no leading zero. *)
Definition parse_octet (s : string) : option Z :=
  match s with
  | String "0" (String _ _) | String "+" _ | EmptyString => None
  | _ => if decide (String.length s ≤ 3) then parse_digits 10 u8_mod 0 s else None
  end.

(** [Ipv4Addr::from_str], as the [u32] of the address. *)
Definition parse_ipv4 (s : string) : option Z :=
  match split s "." with
  | [a; b; c; d] =>
    a ← parse_octet a; b ← parse_octet b; c ← parse_octet c; d ← parse_octet d;
    Some (((a * 256 + b) * 256 + c) * 256 + d)%Z
  | _ => None
  end.

(** [split_whitespace], on the bytes: [cur] is the word being read, reversed. *)
Fixpoint words_loop (fuel : nat) (cur l : bytes) : list bytes :=
  let emit := match cur with
              | [] => []
              | _ => [reverse cur]
              end in
  match fuel with
  | O => emit
  | S fuel =>
    match l with
    | [] => emit
    | b :: rest =>
      match strip_any white_space l with
      | Some l => emit ++ words_loop fuel [] l
      | None => words_loop fuel (b :: cur) rest
      end
    end
  end.

Definition split_whitespace (s : string) : list string :=
  let l := as_bytes s in str_of_bytes <$> words_loop (S (length l)) [] l.

(** ** Ranges *)

Lemma in_range_bounds lo hi c :
  in_range lo hi c = true → nat_of_ascii lo ≤ nat_of_ascii c ≤ nat_of_ascii hi.
Proof. unfold in_range. by intros [?%Nat.leb_le ?%Nat.leb_le]%andb_true_iff. Qed.

Lemma digit_val_range radix c d : digit_val radix c = Some d → (0 ≤ d < radix)%Z.
Proof.
  unfold digit_val. intros Hd.
  destruct (in_range "0" "9" c) eqn:E1; [|destruct (in_range "a" "z" c) eqn:E2;
    [|destruct (in_range "A" "Z" c) eqn:E3; [|done]]]; cbn [mbind option_bind] in Hd;
    case_decide; simplify_eq.
  - apply in_range_bounds in E1. change (nat_of_ascii "0") with 48 in E1. lia.
  - apply in_range_bounds in E2. change (nat_of_ascii "a") with 97 in E2. lia.
  - apply in_range_bounds in E3. change (nat_of_ascii "A") with 65 in E3. lia.
Qed.

Lemma parse_digits_range radix bound acc s z :
  (0 ≤ acc < bound)%Z → parse_digits radix bound acc s = Some z → (0 ≤ z < bound)%Z.
Proof.
  revert acc. induction s as [|c s IH]; intros acc Ha; simpl; [naive_solver|].
  destruct (digit_val radix c) as [d|] eqn:Ed; [|done]. apply digit_val_range in Ed. simpl.
  case_decide; [|done]. apply IH. nia.
Qed.

Lemma parse_octet_range s z : parse_octet s = Some z → is_u8 z.
Proof.
  intros Hp. unfold is_u8. assert (parse_digits 10 u8_mod 0 s = Some z) as Hd.
  { unfold parse_octet in Hp. destruct s as [|c s]; [done|].
    repeat (case_match; try done). }
  by apply parse_digits_range in Hd.
Qed.

Lemma parse_ipv4_range s z : parse_ipv4 s = Some z → is_u32 z.
Proof.
  unfold parse_ipv4. intros Hp. destruct (split s ".") as [|a' [|b' [|c' [|d' [|? ?]]]]]; try done.
  destruct (parse_octet a') as [a|] eqn:Ea; simpl in Hp; [|done].
  destruct (parse_octet b') as [b|] eqn:Eb; simpl in Hp; [|done].
  destruct (parse_octet c') as [c|] eqn:Ec; simpl in Hp; [|done].
  destruct (parse_octet d') as [d|] eqn:Ed; simpl in Hp; [|done].
  apply parse_octet_range in Ea, Eb, Ec, Ed. unfold_widths. simplify_eq. lia.
Qed.

Lemma from_str_radix_range radix bound s z :
  (0 < bound)%Z → from_str_radix radix bound s = Some z → (0 ≤ z < bound)%Z.
Proof.
  intros Hb. unfold from_str_radix. intros Hp.
  destruct (match s with String "+" s => s | _ => s end) as [|c t]; [done|].
  apply parse_digits_range in Hp; lia.
Qed.
