(* ===== verification/OpLock.v ===== *)
(** * Operation locks: [runtime/pullrun-store/src/op_lock.rs]

    An operation that writes to the store keeps a file in [<store>/ops/], which
    the garbage collector takes as the sign to wait.  The directory is a state of
    its own, since it shares no file with the rest of the store: its files with
    their modification times (nanoseconds since the epoch), the clock, and whether
    reading the directory fails. *)

From stdpp Require Import base gmap strings list.
From Stdlib Require Import ZArith Ascii Lia.
From S2P Require Import Prelude Strs Utf8 Fs.

Record OpDir := MkOpDir {
  ops : gmap string (bytes * Z);
  clock : Z;
  ops_fault : bool;
}.

Abbreviation ops_eff := (eff OpDir IoError).

Record OpLock := MkOpLock { op_id : string }.

(** [Duration::from_secs(3600)], in nanoseconds. *)
Definition STALE_AGE : Z := 3600 * 1000000000.

Definition with_ops (o : OpDir) (m : gmap string (bytes * Z)) : OpDir :=
  MkOpDir m (clock o) (ops_fault o).

(** [format!("op_{nanos:020x}")]. *)
Definition generate_op_id (o : OpDir) : string := "op_" +:+ hex_fixed 20 (clock o).

Definition ops_access : ops_eff unit := λ o,
  if ops_fault o then (Err IoFault, o) else (Ok tt, o).

Definition OpLock_new : ops_eff OpLock :=
  ops_access ;;
  o ← get_world;
  let id := generate_op_id o in
  modify_world (λ o, with_ops o (<[id := ([], clock o)]> (ops o))) ;;
  mret (MkOpLock id).

(** Append [<hex>\n]; writing moves the modification time. *)
Definition append (l : OpLock) (digest_hex : string) : ops_eff unit :=
  ops_access ;;
  o ← get_world;
  match ops o !! op_id l with
  | None => throw IoNotFound
  | Some (content, _) =>
    let content := content ++ as_bytes (digest_hex +:+ String "010"%char EmptyString) in
    modify_world (λ o, with_ops o (<[op_id l := (content, clock o)]> (ops o)))
  end.

Definition touch (l : OpLock) : ops_eff unit :=
  ops_access ;;
  o ← get_world;
  match ops o !! op_id l with
  | None => throw IoNotFound
  | Some (content, _) => modify_world (λ o, with_ops o (<[op_id l := (content, clock o)]> (ops o)))
  end.

(** [remove], and so [complete] and [drop]: failures are ignored. *)
Definition remove (l : OpLock) : ops_eff unit :=
  o ← get_world;
  if ops_fault o then mret tt else modify_world (λ o, with_ops o (delete (op_id l) (ops o))).

Definition read_op_lock (content : bytes) : option (list string) :=
  s ← from_utf8 content;
  Some (filter (λ l, l ≠ EmptyString) (trim <$> lines s)).

(** A modification time in the future counts as age zero. *)
Definition is_op_lock_stale (now mtime : Z) : bool :=
  bool_decide (Z.max 0 (now - mtime) > STALE_AGE)%Z.

Definition fresh_locks (o : OpDir) : list (string * list string) :=
  '(id, (content, mtime)) ← map_to_list (ops o);
  if is_op_lock_stale (clock o) mtime then [] else [(id, default [] (read_op_lock content))].

Definition list_fresh_op_locks : ops_eff (list (string * list string)) :=
  ops_access ;;
  o ← get_world;
  mret (fresh_locks o).

Definition clean_stale_op_locks : ops_eff (list (string * list string)) :=
  ops_access ;;
  o ← get_world;
  modify_world (λ o, with_ops o
    (filter (λ kv, is_op_lock_stale (clock o) kv.2.2 = false) (ops o))) ;;
  mret (fresh_locks o).

(** ** Lemmas *)

Lemma fresh_locks_elem o id c t :
  ops o !! id = Some (c, t) → is_op_lock_stale (clock o) t = false → fresh_locks o ≠ [].
Proof.
  intros Hl Hs Hn. assert ((id, default [] (read_op_lock c)) ∈ fresh_locks o) as Hin.
  { unfold fresh_locks. apply list_elem_of_bind. exists (id, (c, t)).
    split; [rewrite Hs; by left|by apply elem_of_map_to_list]. }
  rewrite Hn in Hin. by apply not_elem_of_nil in Hin.
Qed.

Lemma fresh_locks_nil o :
  fresh_locks o = [] ↔ ∀ id c t, ops o !! id = Some (c, t) → is_op_lock_stale (clock o) t = true.
Proof.
  split.
  - intros Hn id c t Hl. destruct (is_op_lock_stale _ t) eqn:E; [done|].
    by eapply fresh_locks_elem in Hn.
  - intros Hall. unfold fresh_locks.
    assert (Hm : ∀ kv, kv ∈ map_to_list (ops o) → is_op_lock_stale (clock o) kv.2.2 = true).
    { intros [id [c t]] Hin%elem_of_map_to_list. by eapply Hall. }
    induction (map_to_list (ops o)) as [|[id [c t]] l IH]; [done|].
    assert (is_op_lock_stale (clock o) t = true) as E by (apply (Hm (id, (c, t))); left).
    simpl. rewrite E. apply IH. intros kv ?. apply Hm. by right.
Qed.

Lemma fresh_locks_clean o :
  fresh_locks (with_ops o (filter (λ kv, is_op_lock_stale (clock o) kv.2.2 = false) (ops o))) = [] ↔
  fresh_locks o = [].
Proof.
  rewrite !fresh_locks_nil. simpl. split; intros Hall id c t Hl.
  - destruct (is_op_lock_stale (clock o) t) eqn:E; [done|]. rewrite <- E.
    apply (Hall id c t). by rewrite map_lookup_filter_Some.
  - apply map_lookup_filter_Some in Hl as [Hl _]. by eapply Hall.
Qed.
