(* ===== verification/Gc.v ===== *)
(** * The garbage collector: [runtime/pullrun-gc/src/lib.rs]

    Mark and sweep over the store: the nodes reachable from the given roots are
    kept, every other node found on disk is deleted with its blob.  The guards
    that make it refuse (operation locks, empty or missing roots, a corrupted
    reachable node, too much to free) come first, in the order of the source. *)

From stdpp Require Import base gmap strings list.
From Stdlib Require Import ZArith Ascii Lia.
From S2P Require Import Prelude Strs Crates Node Fs Worklist Store OpLock.

Inductive GcError :=
| GcIo (e : IoError)
| ActiveOpLocks
| EmptyRootSet
| RootDigestMissing (d : Digest)
| CorruptedNodeDuringWalk (d : Digest)
| GcStore (e : StoreError)
| WouldFreeTooMuch (pct total_mb max_pct : Z).

Record GcReport := MkGcReport {
  total_nodes : nat;
  reachable_nodes : nat;
  unreachable_nodes : nat;
  deleted_nodes : nat;
  deleted_blobs : nat;
  bytes_freed : Z;
  report_dry_run : bool;
}.

Record GarbageCollector := MkGc { dry_run : bool; force : bool }.

Definition GarbageCollector_new : GarbageCollector := MkGc true false.
Definition with_dry_run (b : bool) (g : GarbageCollector) : GarbageCollector := MkGc b (force g).
Definition with_force (b : bool) (g : GarbageCollector) : GarbageCollector := MkGc (dry_run g) b.

(** The store and the [ops] directory beside it. *)
Record GcWorld := MkGcWorld { gw_store : World; gw_ops : OpDir }.

Abbreviation gc_eff := (eff GcWorld GcError).

Definition on_ops {A} (m : ops_eff A) : gc_eff A := λ w,
  let '(r, o) := m (gw_ops w) in (map_err GcIo r, MkGcWorld (gw_store w) o).
Definition on_store {A} (f : StoreError → GcError) (m : store_eff A) : gc_eff A := λ w,
  let '(r, s) := m (gw_store w) in (map_err f r, MkGcWorld s (gw_ops w)).
Definition on_fs {A} (m : eff Os IoError A) : gc_eff A := λ w,
  let '(r, s) := m (os (gw_store w)) in
  (map_err GcIo r, MkGcWorld (MkWorld s (store (gw_store w))) (gw_ops w)).

Section gc.
Context `{Hex, Sha2, Rkyv DagNode}.

Definition digest_from_path (p : path) : option Digest :=
  match reverse p with
  | _ :: tail :: mid :: head :: _ => ok (from_hex (head +:+ mid +:+ tail))
  | _ => None
  end.

(** The directories the enumeration enters. *)
Definition enter_dir (name : string) : bool :=
  negb (bool_decide (name = "ops") || starts_with name ".").

Definition list_all_node_digests : gc_eff (list Digest) :=
  w ← get_world;
  found ← on_fs (walk_files enter_dir (root (store (gw_store w))));
  mret (omap digest_from_path (filter (λ p, file_name p = "node.rkyv") found)).

(** The safety limit, on the bytes the store has cached. *)
Definition check_limit (w : World) (unreachable : list Digest) : result GcError unit :=
  let unreachable_bytes :=
    foldl (λ n d, wrap64 (n + default 0%Z (file_len (os w) (path_for (root (store w)) d)))) 0%Z
      unreachable in
  let total_bytes := store_total_bytes (store w) in
  if decide (total_bytes > 100 * 1024 * 1024)%Z then
    let pct := (wrap64 (unreachable_bytes * 100) `div` total_bytes)%Z in
    if decide (pct >= 90)%Z
    then Err (WouldFreeTooMuch pct ((total_bytes `div` 1024) `div` 1024)%Z 90)
    else Ok tt
  else Ok tt.

Definition walk_error_to_gc (e : StoreError) : GcError :=
  match e with
  | Corrupted d => CorruptedNodeDuringWalk d
  | other => GcStore other
  end.

(** Delete one file of the swept node if it exists: its size if it was there. *)
Definition sweep_file (p : path) : gc_eff (option Z) :=
  w ← get_world;
  let s := os (gw_store w) in
  if exists_file s p then
    let size := default 0%Z (file_len s p) in
    on_fs (remove_file p) ;;
    mret (Some size)
  else mret None.

Definition count_deleted (n : nat) (o : option Z) : nat :=
  match o with
  | Some _ => S n
  | None => n
  end.

(** The counters [deleted_nodes], [deleted_blobs], [bytes_freed]. *)
Definition sweep_one (acc : nat * nat * Z) (d : Digest) : gc_eff (nat * nat * Z) :=
  let '(nodes, blobs, freed) := acc in
  modify_world (λ w, MkGcWorld (on_node_cache (Lru.evict_cache_entry d) (gw_store w)) (gw_ops w)) ;;
  w ← get_world;
  let r := root (store (gw_store w)) in
  n ← sweep_file (path_for r d);
  let freed := wrap64 (freed + default 0%Z n) in
  b ← sweep_file (path_for_blob r d);
  let freed := wrap64 (freed + default 0%Z b) in
  mret (count_deleted nodes n, count_deleted blobs b, freed).

Definition check_roots (roots : list Digest) : gc_eff unit :=
  for_each (λ r, w ← get_world;
    if exists_ (gw_store w) r then mret tt else throw (RootDigestMissing r)) roots.

(** Step 7, skipped with [force] and on an empty store. *)
Definition limit_guard (g : GarbageCollector) (all unreachable : list Digest) : gc_eff unit :=
  w ← get_world;
  if negb (force g) && negb (bool_decide (length all = 0))
  then lift_result (check_limit (gw_store w) unreachable) else mret tt.

(** Step 1: defer to fresh locks, then clean up stale ones on a real run. *)
Definition lock_guard (g : GarbageCollector) : gc_eff unit :=
  fresh ← on_ops list_fresh_op_locks;
  if negb (bool_decide (fresh = [])) && negb (force g) then throw ActiveOpLocks
  else if dry_run g then mret tt else on_ops clean_stale_op_locks ;; mret tt.

(** Steps 6 to 8: what is not reachable, the limit, the sweep. *)
Definition sweep (g : GarbageCollector) (all reachable : list Digest) : gc_eff GcReport :=
  let unreachable := filter (λ d, d ∉ reachable) all in
  limit_guard g all unreachable ;;
  let report := MkGcReport (length all) (size (list_to_set reachable : gset Digest))
                  (length unreachable) in
  if dry_run g then mret (report 0 0 0%Z true)
  else
    '(nodes, blobs, freed) ← fold_eff sweep_one (0, 0, 0%Z) unreachable;
    mret (report nodes blobs freed false).

Definition collect (g : GarbageCollector) (roots : list Digest) : gc_eff GcReport :=
  lock_guard g ;;
  if bool_decide (roots = []) then throw EmptyRootSet
  else
    check_roots roots ;;
    all ← list_all_node_digests;
    '(reachable, _) ← on_store walk_error_to_gc (walk_reachable roots);
    sweep g all reachable.

End gc.
