(* ===== verification/GcFacts.v ===== *)
(** * Reachability and the garbage collector: lemmas

    The breadth-first walk visits exactly the nodes reachable from the roots that
    are on disk, reports a corrupted reachable node instead of skipping its
    subtree, and always ends.  The collector's enumeration finds every node of the
    store, the sweep deletes exactly the files of the digests it is given, and the run
    as a whole either stops before the sweep with the disk as it was or sweeps what is
    not reachable. *)

From stdpp Require Import base gmap strings list relations.
From Stdlib Require Import ZArith Ascii Lia.
From S2P Require Import Prelude Strs Crates Node Fs Worklist Store StoreFacts.
From S2P Require Import OpLock Gc.

Section reach.
Context `{Hex, Sha2, Rkyv DagNode, !HexLaws}.

(** Reachability in the stored graph: a path of edges from a root. *)
Definition edge (w : World) (a b : Digest) : Prop := b ∈ children w a.

Definition reachable (w : World) (roots : list Digest) (d : Digest) : Prop :=
  ∃ r, r ∈ roots ∧ rtc (edge w) r d.

Lemma reachable_root w roots r : r ∈ roots → reachable w roots r.
Proof. intros Hr. by exists r. Qed.

Lemma reachable_step w roots d e : reachable w roots d → edge w d e → reachable w roots e.
Proof. intros (r & Hr & Hp) He. exists r. split; [done|]. by eapply rtc_r. Qed.

(** A set that holds the roots and is closed under edges holds all that is
    reachable. *)
Lemma reachable_closed w roots (S : Digest → Prop) :
  (∀ r, r ∈ roots → S r) → (∀ d e, S d → edge w d e → S e) →
  ∀ d, reachable w roots d → S d.
Proof.
  intros Hr Hs d (r & Hin & Hp). apply Hr in Hin. induction Hp; eauto.
Qed.

Lemma same_nodes_reachable w w' roots d :
  (∀ e, node_file w' e = node_file w e) → reachable w' roots d ↔ reachable w roots d.
Proof.
  intros E. assert (He : ∀ a b, edge w' a b ↔ edge w a b).
  { intros a b. unfold edge, children, node_at. by rewrite E. }
  split; intros (r & Hr & Hp); exists r; split; try done;
    (eapply rtc_subrel; [|done]; intros ?? Hab; by apply He in Hab).
Qed.

(** The queue discipline shared by the traversals: everything seen is reachable,
    the roots are seen, and what visited nodes point to is seen. *)
Record explored (w : World) (roots : list Digest) (V : gset Digest) (Q : list Digest) : Prop := {
  ex_sound d : d ∈ V ∨ d ∈ Q → reachable w roots d;
  ex_roots r : r ∈ roots → r ∈ V ∨ r ∈ Q;
  ex_closed d e : d ∈ V → edge w d e → e ∈ V ∨ e ∈ Q;
}.

Lemma explored_start w roots : explored w roots ∅ roots.
Proof.
  constructor; [|auto|set_solver]. intros d [?|?]; [set_solver|by apply reachable_root].
Qed.

Lemma explored_skip w roots V d Q : d ∈ V → explored w roots V (d :: Q) → explored w roots V Q.
Proof.
  intros Hd [Hs Hr Hc]. constructor.
  - intros e [?|?]; apply Hs; set_solver.
  - intros r Hin. destruct (Hr r Hin) as [?|Hq]; [by left|].
    apply elem_of_cons in Hq as [->|?]; auto.
  - intros a e Ha He. destruct (Hc a e Ha He) as [?|Hq]; [by left|].
    apply elem_of_cons in Hq as [->|?]; auto.
Qed.

Lemma explored_visit w roots V d Q :
  explored w roots V (d :: Q) → explored w roots ({[d]} ∪ V) (Q ++ children w d).
Proof.
  intros [Hs Hr Hc]. assert (Hd : reachable w roots d) by (apply Hs; right; left).
  constructor.
  - intros e He. rewrite elem_of_app, elem_of_union, elem_of_singleton in He.
    destruct He as [[->|?]|[?|?]]; [done|apply Hs; auto|apply Hs; right; by right|].
    by eapply reachable_step.
  - intros r Hin. rewrite elem_of_app, elem_of_union, elem_of_singleton.
    destruct (Hr r Hin) as [?|[->|?]%elem_of_cons];
      [left; by right|left; by left|right; by left].
  - intros a e. rewrite elem_of_app, !elem_of_union, !elem_of_singleton. unfold edge.
    intros [->|Ha] He; [tauto|].
    destruct (Hc a e Ha He) as [?|[->|?]%elem_of_cons];
      [left; by right|left; by left|right; by left].
Qed.

Lemma explored_done w roots V : explored w roots V [] → ∀ d, d ∈ V ↔ reachable w roots d.
Proof.
  intros [Hs Hr Hc] d. split; [auto|].
  apply (reachable_closed w roots (λ d, d ∈ V)).
  - intros r Hin. by destruct (Hr r Hin) as [?|?%not_elem_of_nil].
  - intros a e Ha He. by destruct (Hc a e Ha He) as [?|?%not_elem_of_nil].
Qed.

(** ** The walk *)

Record walk_inv (w : World) (roots : list Digest) (V : gset Digest) (Q : list Digest)
    (wl : World * (list Digest * list Digest)) : Prop := {
  walk_store : store_inv wl.1;
  walk_disk : same_disk w wl.1;
  walk_explored : explored w roots V Q;
  walk_nodup : NoDup wl.2.1;
  walk_nodes d : d ∈ wl.2.1 ↔ d ∈ V ∧ is_Some (node_file w d);
  walk_blobs : wl.2.2 = filter (λ d, blob_exists w d = true) wl.2.1;
  walk_intact d : d ∈ V → ¬ corrupted_at w d;
}.

Definition walk_error (w : World) (roots : list Digest) (e : StoreError)
    (wl : World * (list Digest * list Digest)) : Prop :=
  store_inv wl.1 ∧ same_disk w wl.1 ∧
  ((∃ d, e = Corrupted d ∧ reachable w roots d ∧ corrupted_at w d) ∨
   (∃ i, e = Io i) ∧ ¬ healthy w).

Lemma children_missing w d : node_file w d = None → children w d = [].
Proof. intros E. unfold children, node_at. by rewrite E. Qed.

Lemma children_node w d n : node_at w d = Some n → children w d = edges n.
Proof. intros E. unfold children. by rewrite E. Qed.

Lemma corrupted_exists w d : corrupted_at w d → is_Some (node_file w d).
Proof. intros (b & -> & _). done. Qed.

Lemma node_not_corrupted w d n : node_at w d = Some n → ¬ corrupted_at w d.
Proof. unfold node_at. intros E (b & Eb & Ec). rewrite Eb in E. simpl in E. congruence. Qed.

Lemma node_at_file w d n : node_at w d = Some n → is_Some (node_file w d).
Proof. unfold node_at. destruct (node_file w d); naive_solver. Qed.

Lemma same_disk_blob w w' d : same_disk w w' → blob_exists w' d = blob_exists w d.
Proof. unfold blob_exists. by intros [-> ->]. Qed.

Lemma same_disk_archived w w' d : same_disk w w' → archived_result w' d = archived_result w d.
Proof. intros E. unfold archived_result, get_result. by rewrite (same_disk_node _ _ d E). Qed.

Lemma walk_visit_missing w roots V d Q wl :
  walk_inv w roots V (d :: Q) wl → node_file w d = None →
  walk_inv w roots ({[d]} ∪ V) (Q ++ []) wl.
Proof.
  intros [Hst Hdi Hex Hnd Hno Hbl Hin] Hm. constructor; try done.
  - rewrite <- (children_missing w d Hm). by apply explored_visit.
  - intros e. rewrite Hno, elem_of_union, elem_of_singleton. split; [naive_solver|].
    intros [[->|?] [? ?]]; [congruence|]. naive_solver.
  - intros e [->%elem_of_singleton|?]%elem_of_union; [|auto].
    intros Hc%corrupted_exists. rewrite Hm in Hc. by destruct Hc.
Qed.

Lemma walk_visit_node w roots V d Q wl w1 n :
  walk_inv w roots V (d :: Q) wl → d ∉ V → node_at w d = Some n →
  store_inv w1 → same_disk w w1 →
  walk_inv w roots ({[d]} ∪ V) (Q ++ edges n)
    (w1, (wl.2.1 ++ [d], if blob_exists wl.1 d then wl.2.2 ++ [d] else wl.2.2)).
Proof.
  intros [Hst Hdi Hex Hnd Hno Hbl Hin] Hd Hn Hi1 Hd1. constructor; simpl; try done.
  - rewrite <- (children_node w d n Hn). by apply explored_visit.
  - apply NoDup_app. split_and!; [done| |apply NoDup_singleton].
    intros e He ->%list_elem_of_singleton. apply Hno in He. naive_solver.
  - intros e. apply node_at_file in Hn.
    rewrite elem_of_app, Hno, elem_of_union, list_elem_of_singleton, elem_of_singleton. naive_solver.
  - rewrite (same_disk_blob w) by done. rewrite filter_app, <- Hbl, filter_cons, filter_nil.
    destruct (blob_exists w d); [by rewrite decide_True|]. by rewrite decide_False, app_nil_r.
  - intros e [->%elem_of_singleton|?]%elem_of_union; [|auto]. by eapply node_not_corrupted.
Qed.

Lemma walk_reachable_spec w roots :
  store_inv w →
  match walk_reachable roots w with
  | (Ok (ns, bs), w') => ∃ V, walk_inv w roots V [] (w', (ns, bs))
  | (Err e, w') => ∃ l, walk_error w roots e (w', l)
  end.
Proof.
  intros Hinv. unfold walk_reachable.
  pose proof (traverse_rule walk_reachable_body w (walk_inv w roots) (walk_error w roots)) as Ht.
  specialize (Ht) with (queue := roots) (l := ([], [])).
  assert (walk_inv w roots ∅ roots (w, ([], []))) as Hstart.
  { constructor; simpl; try done; [apply explored_start|constructor|set_solver..]. }
  ospecialize (Ht _ _ Hstart).
  { intros V d Q wl Hd [????? ? ?]. constructor; try done. by eapply explored_skip. }
  2: { destruct (traverse _ _ _ _) as [[[ns bs]|e] w']; done. }
  clear Hstart. intros V d Q [w1 [ns bs]] Hd HP. pose proof (walk_store _ _ _ _ _ HP) as Hs1.
  pose proof (walk_disk _ _ _ _ _ HP) as Hd1. simpl in Hs1, Hd1.
  unfold walk_reachable_body, mbind, eff_bind, get_world. simpl.
  rewrite exists_spec, (same_disk_node w) by done. case_bool_decide as Hf.
  2: { apply eq_None_not_Some in Hf. simpl. split; [lia|]. by apply walk_visit_missing. }
  unfold on_locals, try_eff, on_world. simpl.
  destruct (get_archived d w1) as [r w2] eqn:Eg.
  apply get_archived_spec in Eg as (Hs2 & Hd2 & Hr); [|done].
  pose proof (same_disk_trans _ _ _ Hd1 Hd2) as Hd12.
  assert (Hreach : reachable w roots d).
  { apply (ex_sound _ _ _ _ (walk_explored _ _ _ _ _ HP)). right. left. }
  rewrite (same_disk_archived w w1) in Hr by done.
  destruct Hr as [-> | [[i ->] Hh]].
  - destruct (archived_result w d) as [n|e] eqn:Ea.
    + apply archived_result_Ok in Ea. unfold mret, eff_ret.
      rewrite (children_node w d n) by done. split; [done|].
      by eapply (walk_visit_node w roots V d Q (w1, (ns, bs))).
    + apply archived_result_Err in Ea as [[-> ?]|[-> ?]]; [by destruct Hf; congruence|].
      unfold throw, walk_error. naive_solver.
  - unfold throw, walk_error. simpl. split_and!; try done. right. split; [eauto|].
    intros Hw. by apply Hh, (same_disk_healthy w).
Qed.

End reach.

Section gc_facts.
Context `{Hex, Sha2, Rkyv DagNode, !HexLaws}.

(** ** The sweep *)

(** From [w] to [w'] only files of the digests in [U] have been deleted. *)
Record swept (U : list Digest) (w w' : World) : Prop := {
  swept_inv : store_inv w';
  swept_root : root (store w') = root (store w);
  swept_bad : io_bad (os w') = io_bad (os w);
  swept_files q : files (os w') !! q = files (os w) !! q ∨
    files (os w') !! q = None ∧
    ∃ d, d ∈ U ∧ (q = path_for (root (store w)) d ∨ q = path_for_blob (root (store w)) d);
}.

Lemma swept_refl U w : store_inv w → swept U w w.
Proof. intros Hi. constructor; auto. Qed.

Lemma swept_trans U w1 w2 w3 : swept U w1 w2 → swept U w2 w3 → swept U w1 w3.
Proof.
  intros [_ Hr1 Hb1 Hf1] [Hi Hr2 Hb2 Hf2]. constructor; [done|congruence..|].
  intros q. destruct (Hf2 q) as [->|[-> ?]]; [apply Hf1|]. rewrite Hr1 in *. right; auto.
Qed.

Lemma swept_mono U U' w w' : U ⊆ U' → swept U w w' → swept U' w w'.
Proof.
  intros Hu [Hi Hr Hb Hf]. constructor; auto.
  intros q. destruct (Hf q) as [->|[-> (d & Hd & ?)]]; [by left|]. right. split; [done|].
  exists d. set_solver.
Qed.

Lemma evict_swept U d w :
  store_inv w → swept U w (on_node_cache (Lru.evict_cache_entry d) w).
Proof.
  intros [Hn Hb Hc]. constructor; auto. constructor; simpl; auto with cache.
  intros e b. rewrite evict_entry_lookup, lookup_delete_Some. intros [_ ?]. by apply Hc.
Qed.

(** A single [sweep_file]: the file is gone when it succeeds. *)
Lemma sweep_file_spec p w r w' :
  sweep_file p w = (r, w') →
  gw_ops w' = gw_ops w ∧ store (gw_store w') = store (gw_store w) ∧
  io_bad (os (gw_store w')) = io_bad (os (gw_store w)) ∧
  (∀ q, q ≠ p → files (os (gw_store w')) !! q = files (os (gw_store w)) !! q) ∧
  (files (os (gw_store w')) !! p = files (os (gw_store w)) !! p ∨
   files (os (gw_store w')) !! p = None) ∧
  (∀ o, r = Ok o → files (os (gw_store w')) !! p = None ∧
     o = (λ b, len b) <$> files (os (gw_store w)) !! p) ∧
  (∀ e, r = Err e → ¬ healthy (gw_store w) ∧ ∃ i, e = GcIo i).
Proof.
  destruct w as [[s st] o]. unfold sweep_file, mbind, eff_bind, get_world, exists_file. simpl.
  case_bool_decide as Hex.
  2: { apply eq_None_not_Some in Hex. unfold mret, eff_ret. intros [= <- <-]. simpl.
    rewrite Hex. split_and!; auto; [naive_solver|done]. }
  destruct Hex as [b Hb]. unfold on_fs, remove_file, file_len, healthy. simpl. rewrite Hb.
  destruct (faulty s p) eqn:Ef; simpl.
  { intros [= <- <-]. simpl. split_and!; auto; [done|].
    intros e [= <-]. split; [|by eexists]. intros Hh. by rewrite not_faulty in Ef. }
  unfold mret, eff_ret. intros [= <- <-]. simpl. rewrite lookup_delete_eq. split_and!; auto.
  - intros q Hq. by rewrite lookup_delete_ne.
  - by intros o' [= <-].
  - done.
Qed.

(** Losing files of an uncached digest keeps the invariant. *)
Lemma swept_uncached d w w' :
  store_inv w → cache (node_cache (store w)) !! d = None →
  store w' = store w → io_bad (os w') = io_bad (os w) →
  (∀ q, q ≠ path_for (root (store w)) d → q ≠ path_for_blob (root (store w)) d →
    files (os w') !! q = files (os w) !! q) →
  (∀ q, q = path_for (root (store w)) d ∨ q = path_for_blob (root (store w)) d →
    files (os w') !! q = files (os w) !! q ∨ files (os w') !! q = None) →
  swept [d] w w'.
Proof.
  intros [Hn Hb Hc] Hd Hst Hbad Hq Hdel.
  constructor; [|congruence|done|].
  - constructor; rewrite ?Hst; auto. intros e b He. unfold node_file. rewrite Hst in *.
    rewrite <- (Hc _ _ He). assert (e ≠ d) by congruence. apply Hq; [|apply node_blob_ne].
    by intros ?%path_for_inj.
  - intros q. destruct (decide (q = path_for (root (store w)) d ∨
      q = path_for_blob (root (store w)) d)) as [Hp|Hp]; [|left; apply Hq; tauto].
    destruct (Hdel q Hp) as [-> | ->]; [by left|]. right. split; [done|]. exists d. set_solver.
Qed.

Definition sweep_count (w : World) (acc : nat * nat * Z) (d : Digest) : nat * nat * Z :=
  let '(nodes, blobs, freed) := acc in
  let n := len <$> node_file w d in
  let b := len <$> blob_file w d in
  (count_deleted nodes n, count_deleted blobs b,
   wrap64 (wrap64 (freed + default 0 n) + default 0 b))%Z.

Lemma sweep_one_spec acc d w r w' :
  store_inv (gw_store w) → sweep_one acc d w = (r, w') →
  gw_ops w' = gw_ops w ∧ swept [d] (gw_store w) (gw_store w') ∧
  (∀ a, r = Ok a → node_file (gw_store w') d = None ∧ blob_file (gw_store w') d = None ∧
     a = sweep_count (gw_store w) acc d) ∧
  (∀ e, r = Err e → ¬ healthy (gw_store w) ∧ ∃ i, e = GcIo i).
Proof.
  intros Hi. destruct acc as [[nodes blobs] freed].
  unfold sweep_one, mbind, eff_bind, modify_world, get_world. simpl.
  set (w1 := on_node_cache (Lru.evict_cache_entry d) (gw_store w)).
  pose proof (evict_swept [d] d _ Hi) as Hs1. fold w1 in Hs1.
  assert (Hc1 : cache (node_cache (store w1)) !! d = None).
  { simpl. rewrite evict_entry_lookup. apply lookup_delete_eq. }
  set (rt := root (store (gw_store w))).
  destruct (sweep_file (path_for rt d) _) as [r2 w2] eqn:E2.
  apply sweep_file_spec in E2 as (Ho2 & Hst2 & Hb2 & Hq2 & Hd2 & Hr2 & Hh2). simpl in *.
  assert (Hbn : path_for_blob rt d ≠ path_for rt d) by (intros E; by eapply node_blob_ne).
  destruct r2 as [n|e].
  2: { intros [= <- <-]. split_and!; [done| |done|intros e' [= <-]; by apply Hh2].
    eapply swept_trans; [done|]. apply swept_uncached; try done; [apply Hs1|auto|].
    intros q [-> | ->]; [done|]. left. by apply Hq2. }
  destruct (Hr2 n eq_refl) as [Hn2 ->].
  destruct (sweep_file (path_for_blob rt d) w2) as [r3 w3] eqn:E3.
  apply sweep_file_spec in E3 as (Ho3 & Hst3 & Hb3 & Hq3 & Hd3 & Hr3 & Hh3).
  rewrite Hq2 in Hd3, Hr3 by done.
  assert (Hn3 : node_file (gw_store w3) d = None).
  { unfold node_file. rewrite Hst3, Hst2. change (root _) with rt. by rewrite Hq3. }
  assert (Hsw : swept [d] (gw_store w) (gw_store w3)).
  { eapply swept_trans; [done|]. apply swept_uncached; simpl; [apply Hs1|done|congruence..| |].
    - intros q ??. by rewrite Hq3, Hq2.
    - intros q [-> | ->]; [|done]. right. by rewrite Hq3. }
  destruct r3 as [b|e].
  - destruct (Hr3 b eq_refl) as [Hb4 ->]. unfold mret, eff_ret. intros [= <- <-].
    split_and!; [congruence|done| |done]. intros a [= <-]. split_and!; [done| |done].
    unfold blob_file. by rewrite Hst3, Hst2.
  - intros [= <- <-]. split_and!; [congruence|done..|]. intros e' [= <-].
    destruct (Hh3 e eq_refl) as [Hh ?]. split; [|done]. unfold healthy in *. by rewrite Hb2 in Hh.
Qed.

Definition sweep_counts (w : World) := foldl (sweep_count w).

Lemma sweep_loop_spec U acc w r w' :
  store_inv (gw_store w) → fold_eff sweep_one acc U w = (r, w') →
  gw_ops w' = gw_ops w ∧ swept U (gw_store w) (gw_store w') ∧
  (∀ a, r = Ok a →
     ∀ d, d ∈ U → node_file (gw_store w') d = None ∧ blob_file (gw_store w') d = None) ∧
  (∀ e, r = Err e → ¬ healthy (gw_store w) ∧ ∃ i, e = GcIo i).
Proof.
  revert acc w. induction U as [|d U IH]; intros acc w Hi; simpl.
  { unfold mret, eff_ret. intros [= <- <-]. split_and!; auto using swept_refl; [set_solver|done]. }
  unfold mbind, eff_bind. destruct (sweep_one acc d w) as [r1 w1] eqn:E1.
  apply sweep_one_spec in E1 as (Ho1 & Hs1 & Hr1 & Hh1); [|done].
  destruct r1 as [a1|e]; [|intros [= <- <-]; split_and!; try done].
  2: { apply (swept_mono [d]); [set_solver|done]. }
  intros E. apply IH in E as (Ho & Hs & Hr & Hh); [|apply Hs1]. destruct (Hr1 a1 eq_refl) as (Hnn & Hbn & _).
  split_and!; [congruence| | |].
  - apply (swept_trans _ _ (gw_store w1)); [apply (swept_mono [d])|apply (swept_mono U)];
      try done; set_solver.
  - intros a Ha e [->|He]%elem_of_cons; [|by eapply Hr].
    destruct Hs as [_ Hrt _ Hf]. unfold node_file, blob_file in *. rewrite Hrt.
    destruct (Hf (path_for (root (store (gw_store w1))) d)) as [->|[-> _]],
      (Hf (path_for_blob (root (store (gw_store w1))) d)) as [->|[-> _]]; done.
  - intros e Ee. destruct (Hh e Ee) as [Hh' ?]. split; [|done].
    unfold healthy in *. by rewrite (swept_bad _ _ _ Hs1) in Hh'.
Qed.

(** ** Enumeration *)

Lemma hex_dir_entered s : str_all is_lower_hex s = true → enter_dir s = true.
Proof.
  intros Hs. unfold enter_dir. rewrite bool_decide_eq_false_2 by (intros ->; done).
  destruct s as [|c s]; [done|]. unfold starts_with. cbn [strip_prefix].
  rewrite decide_False; [done|]. intros <-. done.
Qed.

Lemma str_all_split P n s :
  str_all P s = true → str_all P (str_take n s) = true ∧ str_all P (str_drop n s) = true.
Proof.
  intros Hs. rewrite <- (str_take_drop n s), str_all_app in Hs. by apply andb_true_iff.
Qed.

Lemma digest_from_path_for r d : digest_from_path (path_for r d) = Some d.
Proof.
  unfold digest_from_path, path_for, shard_dir. rewrite !reverse_app.
  set (h := as_hex d).
  change (ok (from_hex (str_take 2 h +:+ str_take 2 (str_drop 2 h) +:+ str_drop 4 h)) = Some d).
  unfold h. by rewrite split_hex, from_hex_as_hex.
Qed.

Lemma path_for_below r d : below enter_dir r (path_for r d) = true.
Proof.
  unfold below, path_for, shard_dir. rewrite <- app_assoc, strip_dir_app.
  cbn [app]. change (forallb enter_dir (parent _)) with (forallb enter_dir
    [str_take 2 (as_hex d); str_take 2 (str_drop 2 (as_hex d)); str_drop 4 (as_hex d)]).
  assert (Ha : str_all is_lower_hex (as_hex d) = true) by apply hex_encode_lower.
  cbn [forallb]. rewrite !hex_dir_entered; [done|..].
  - by apply str_all_split.
  - by apply str_all_split, str_all_split.
  - by apply str_all_split.
Qed.

Lemma list_all_spec w r w' :
  list_all_node_digests w = (r, w') →
  w' = w ∧
  match r with
  | Ok l => ∀ d, is_Some (node_file (gw_store w) d) → d ∈ l
  | Err e => ¬ healthy (gw_store w) ∧ ∃ i, e = GcIo i
  end.
Proof.
  destruct w as [[s st] o]. unfold list_all_node_digests, mbind, eff_bind, get_world, on_fs. simpl.
  unfold walk_files. set (found := filter _ _).
  destruct (existsb _ _) eqn:Eb; simpl; unfold mret, eff_ret; intros [= <- <-];
    split_and!; try done.
  - unfold healthy. simpl. intros Hh. rewrite Hh in Eb. apply existsb_exists in Eb as (q & _ & Hq).
    rewrite bool_decide_eq_false_2 in Hq; set_solver.
  - by eexists.
  - intros d [b Hb]. apply list_elem_of_omap. exists (path_for (root st) d).
    split; [|apply digest_from_path_for]. apply list_elem_of_filter.
    split; [apply file_name_snoc|]. apply list_elem_of_filter. split; [apply path_for_below|].
    apply list_elem_of_fmap. exists (path_for (root st) d, b). split; [done|].
    by apply elem_of_map_to_list.
Qed.

(** ** The guards *)

Lemma check_roots_spec roots w r w' :
  store_inv (gw_store w) → check_roots roots w = (r, w') →
  w' = w ∧
  match r with
  | Ok _ => ∀ d, d ∈ roots → is_Some (node_file (gw_store w) d)
  | Err e => ∃ d, e = RootDigestMissing d ∧ d ∈ roots ∧ node_file (gw_store w) d = None
  end.
Proof.
  intros Hi. unfold check_roots. induction roots as [|d roots IH]; simpl.
  { unfold mret, eff_ret. intros [= <- <-]. split; [done|]. set_solver. }
  unfold mbind, eff_bind, get_world. rewrite exists_spec by done. case_bool_decide as Hd.
  - unfold mret at 1, eff_ret at 1. intros [-> Hr]%IH. split; [done|].
    destruct r as [?|e]; [|set_solver]. intros e [->|?]%elem_of_cons; auto.
  - unfold throw. intros [= <- <-]. split; [done|]. exists d. apply eq_None_not_Some in Hd.
    set_solver.
Qed.

(** ** The run as a whole *)

(** Why a run may stop before the sweep. *)
Inductive stop_reason (g : GarbageCollector) (roots : list Digest) (w : GcWorld) : GcError → Prop :=
| stop_ops_io e : ops_fault (gw_ops w) = true → stop_reason g roots w (GcIo e)
| stop_io e : ¬ healthy (gw_store w) → stop_reason g roots w (GcIo e)
| stop_locks : fresh_locks (gw_ops w) ≠ [] → force g = false → stop_reason g roots w ActiveOpLocks
| stop_empty : roots = [] → stop_reason g roots w EmptyRootSet
| stop_missing d : d ∈ roots → node_file (gw_store w) d = None →
    stop_reason g roots w (RootDigestMissing d)
| stop_corrupted d : reachable (gw_store w) roots d → corrupted_at (gw_store w) d →
    stop_reason g roots w (CorruptedNodeDuringWalk d)
| stop_store_io e : ¬ healthy (gw_store w) → stop_reason g roots w (GcStore (Io e))
| stop_limit p m x : force g = false → stop_reason g roots w (WouldFreeTooMuch p m x).

(** What the mark phase establishes before the sweep, from [w] to [w1]. *)
Record marked (roots : list Digest) (w w1 : World) (all ns : list Digest) : Prop := {
  marked_disk : same_disk w w1;
  marked_inv : store_inv w1;
  marked_roots r : r ∈ roots → is_Some (node_file w r);
  marked_all d : is_Some (node_file w d) → d ∈ all;
  marked_reach d : d ∈ ns ↔ reachable w roots d ∧ is_Some (node_file w d);
  marked_intact d : reachable w roots d → ¬ corrupted_at w d;
}.

Definition dead (all ns : list Digest) : list Digest := filter (λ d, d ∉ ns) all.

Inductive gc_outcome (g : GarbageCollector) (roots : list Digest) (w w' : GcWorld)
    (r : result GcError GcReport) : Prop :=
| gc_stopped e : r = Err e → stop_reason g roots w e →
    same_disk (gw_store w) (gw_store w') → store_inv (gw_store w') → gc_outcome g roots w w' r
| gc_dry all ns rep : dry_run g = true → r = Ok rep → marked roots (gw_store w) (gw_store w') all ns →
    gw_ops w' = gw_ops w →
    rep = MkGcReport (length all) (size (list_to_set ns : gset Digest)) (length (dead all ns))
            0 0 0 true → gc_outcome g roots w w' r
| gc_swept w1 all ns : dry_run g = false → marked roots (gw_store w) w1 all ns →
    swept (dead all ns) w1 (gw_store w') →
    (∀ rep, r = Ok rep → ∀ d, d ∈ dead all ns →
       node_file (gw_store w') d = None ∧ blob_file (gw_store w') d = None) →
    (∀ e, r = Err e → ¬ healthy (gw_store w) ∧ ∃ i, e = GcIo i) → gc_outcome g roots w w' r.

Lemma limit_guard_spec g all U w r w' :
  limit_guard g all U w = (r, w') →
  w' = w ∧ ∀ e, r = Err e → force g = false ∧ ∃ p m x, e = WouldFreeTooMuch p m x.
Proof.
  unfold limit_guard, mbind, eff_bind, get_world, lift_result, check_limit.
  destruct (force g); simpl; [by intros [= <- <-]|].
  destruct (negb _); [|by intros [= <- <-]].
  repeat case_decide; intros [= <- <-]; naive_solver.
Qed.

Lemma lock_guard_spec g w r w' :
  lock_guard g w = (r, w') →
  gw_store w' = gw_store w ∧ (dry_run g = true → gw_ops w' = gw_ops w) ∧
  ∀ e, r = Err e →
    (ops_fault (gw_ops w) = true ∧ ∃ i, e = GcIo i) ∨
    (fresh_locks (gw_ops w) ≠ [] ∧ force g = false ∧ e = ActiveOpLocks).
Proof.
  destruct w as [w o]. unfold lock_guard, mbind, eff_bind, on_ops, list_fresh_op_locks, ops_access,
    clean_stale_op_locks, get_world, modify_world, throw, mret, eff_ret. simpl.
  unfold mbind, eff_bind. destruct (ops_fault o) eqn:Eo; simpl; [intros [= <- <-]; naive_solver|].
  case_bool_decide as Hf; destruct (force g); simpl; destruct (dry_run g); simpl;
    unfold ops_access; rewrite ?Eo; simpl;
    intros Heq; simplify_eq; split_and!; try done; intros e Ee; simplify_eq; auto.
Qed.

Lemma sweep_outcome g roots all ns w w1 r w' :
  marked roots (gw_store w) (gw_store w1) all ns → (dry_run g = true → gw_ops w1 = gw_ops w) →
  sweep g all ns w1 = (r, w') → gc_outcome g roots w w' r.
Proof.
  intros Hm Ho. pose proof (marked_inv _ _ _ _ _ Hm) as Hi. pose proof (marked_disk _ _ _ _ _ Hm) as Hd.
  unfold sweep, mbind, eff_bind. fold (dead all ns).
  destruct (limit_guard _ _ _ w1) as [r2 w2] eqn:El. apply limit_guard_spec in El as [-> Hl].
  destruct r2 as [[]|e].
  2: { destruct (Hl e eq_refl) as (? & p & m & x & ->). intros [= <- <-].
    eapply gc_stopped; try done. by constructor. }
  destruct (dry_run g) eqn:Edr.
  { unfold mret, eff_ret. intros [= <- <-]. eapply gc_dry; eauto. }
  destruct (fold_eff _ _ _ w1) as [r3 w3] eqn:Ef.
  apply sweep_loop_spec in Ef as (Ho3 & Hs3 & Hr3 & Hh3); [|done].
  assert (Hh : ∀ e, r3 = Err e → ¬ healthy (gw_store w) ∧ ∃ i, e = GcIo i).
  { intros e Ee. destruct (Hh3 e Ee) as [Hh ?]. split; [|done].
    intros Hw. by apply Hh, (same_disk_healthy (gw_store w)). }
  destruct r3 as [[[nodes blobs] freed]|e]; unfold mret, eff_ret; intros [= <- <-];
    eapply (gc_swept _ _ _ _ _ (gw_store w1)); try done; [by eauto|].
  intros e' [= <-]. by apply Hh.
Qed.

(** Every run ends in one of the outcomes. *)
Lemma collect_outcome g roots w r w' :
  store_inv (gw_store w) → collect g roots w = (r, w') → gc_outcome g roots w w' r.
Proof.
  intros Hi. unfold collect, mbind, eff_bind.
  destruct (lock_guard g w) as [r0 w0] eqn:E0. apply lock_guard_spec in E0 as (Hs0 & Ho0 & He0).
  destruct r0 as [[]|e].
  2: { intros [= <- <-]. eapply gc_stopped; rewrite ?Hs0; try done.
    destruct (He0 e eq_refl) as [[? [i ->]]|(?&?&->)]; by constructor. }
  case_bool_decide as Hroots.
  { unfold throw. intros [= <- <-]. eapply gc_stopped; rewrite ?Hs0; try done. by constructor. }
  destruct (check_roots roots w0) as [r1 w1] eqn:E1.
  apply check_roots_spec in E1 as [-> Hr1]; [|by rewrite Hs0]. rewrite Hs0 in Hr1.
  destruct r1 as [[]|e].
  2: { destruct Hr1 as (d & -> & Hd & Hn). intros [= <- <-]. eapply gc_stopped; rewrite ?Hs0; try done.
    by apply stop_missing. }
  destruct (list_all_node_digests w0) as [r2 w2] eqn:E2. apply list_all_spec in E2 as [-> Hall].
  rewrite Hs0 in Hall. destruct r2 as [all|e2].
  2: { destruct Hall as [? [i ->]]. intros [= <- <-]. eapply gc_stopped; rewrite ?Hs0; try done.
    by apply stop_io. }
  unfold on_store. pose proof (walk_reachable_spec (gw_store w0) roots) as Hw. rewrite Hs0 in *.
  specialize (Hw Hi). destruct (walk_reachable roots (gw_store w)) as [[[ns bs]|e] w3]; simpl.
  2: { destruct Hw as (l & Hi3 & Hd3 & He). intros [= <- <-]. simpl in *.
    eapply gc_stopped; try done. destruct He as [(d & -> & ? & ?)|[[i ->] ?]]; by constructor. }
  destruct Hw as [V [Hst Hdi Hex Hnd Hno Hbl Hin]]. simpl in *. eapply sweep_outcome; [|done].
  pose proof (explored_done _ _ _ Hex) as HV.
  constructor; simpl; try done; intros d; [rewrite Hno, HV; done|].
  rewrite <- HV. apply Hin.
Qed.

Lemma marked_dead_not_reachable roots w w1 all ns d :
  marked roots w w1 all ns → is_Some (node_file w d) → d ∈ dead all ns ↔ ¬ reachable w roots d.
Proof.
  intros [_ _ _ Hall Hre _] Hd. unfold dead. rewrite list_elem_of_filter, Hre. naive_solver.
Qed.

(** Nothing reachable is deleted, whatever the outcome. *)
Lemma collect_keeps g roots w r w' d :
  store_inv (gw_store w) → collect g roots w = (r, w') →
  reachable (gw_store w) roots d → is_Some (node_file (gw_store w) d) →
  node_file (gw_store w') d = node_file (gw_store w) d ∧
  blob_file (gw_store w') d = blob_file (gw_store w) d ∧ store_inv (gw_store w').
Proof.
  intros Hi Hc Hr Hd.
  destruct (collect_outcome _ _ _ _ _ Hi Hc) as [e _ _ Hsd Hi'|all ns rep _ _ [Hsd Hi' _ _ _ _] _ _|
    w1 all ns _ Hm Hsw _ _].
  - rewrite (same_disk_node _ _ _ Hsd), (same_disk_blob_file _ _ _ Hsd). done.
  - rewrite (same_disk_node _ _ _ Hsd), (same_disk_blob_file _ _ _ Hsd). done.
  - pose proof (marked_disk _ _ _ _ _ Hm) as Hsd. destruct Hsw as [Hi' Hrt _ Hf].
    assert (Hnd : d ∉ dead all ns).
    { intros Hin. by apply (marked_dead_not_reachable _ _ _ _ _ _ Hm Hd) in Hin. }
    rewrite <- (same_disk_node _ _ d Hsd), <- (same_disk_blob_file _ _ d Hsd).
    unfold node_file, blob_file. rewrite Hrt. split_and!; [| |done].
    + destruct (Hf (path_for (root (store w1)) d)) as [->|(_ & e & He & [E|E])]; [done| |].
      * apply path_for_inj in E. by subst.
      * by apply node_blob_ne in E.
    + destruct (Hf (path_for_blob (root (store w1)) d)) as [->|(_ & e & He & [E|E])]; [done| |].
      * symmetry in E. by apply node_blob_ne in E.
      * apply path_for_blob_inj in E. by subst.
Qed.

End gc_facts.
