(* ===== verification/RefcountFacts.v ===== *)
(** * Reference counts: lemmas

    The effect of every reference-count operation and of [put] on the three views
    of the store, and the sum that a count stands for: the tags on the digest plus
    the edges to it from stored nodes. *)

From stdpp Require Import base gmap strings list.
From Stdlib Require Import ZArith Lia.
From S2P Require Import Prelude Strs Crates Node Fs Worklist Store StoreFacts.
From S2P Require Import GcFacts Gc.

Section refcounts.
Context `{Hex, Sha2, Rkyv DagNode, !HexLaws}.

(** ** The stored count *)

Definition rc (w : World) (d : Digest) : Z :=
  match rc_file w d with
  | Some b => from_le (take 8 b)
  | None => 0
  end.

(** Every count file holds at least 8 bytes. *)
Definition rc_wf (w : World) : Prop := ∀ d b, rc_file w d = Some b → 8 ≤ length b.

Lemma rc_range w d : rc_wf w → is_u64 (rc w d).
Proof.
  intros Hwf. unfold rc. destruct (rc_file w d) as [b|] eqn:E; [|done].
  apply Hwf in E. pose proof (from_le_range (take 8 b)) as Hr.
  rewrite length_take_le in Hr by done. unfold_widths. done.
Qed.

(** From [w] to [w'] only counts have changed, and they are now [f]. *)
Record rc_frame (f : Digest → Z) (w w' : World) : Prop := {
  frame_store : store w' = store w;
  frame_io : io_bad (os w') = io_bad (os w);
  frame_node d : node_file w' d = node_file w d;
  frame_blob d : blob_file w' d = blob_file w d;
  frame_rc d : rc w' d = f d;
  frame_wf : rc_wf w';
}.

Lemma rc_frame_refl w : rc_wf w → rc_frame (rc w) w w.
Proof. by constructor. Qed.

Lemma rc_frame_trans f g w1 w2 w3 : rc_frame f w1 w2 → rc_frame g w2 w3 → rc_frame g w1 w3.
Proof.
  intros [Hs1 Hi1 Hn1 Hb1 _ _] [Hs2 Hi2 Hn2 Hb2 Hr2 Hw2]. constructor; auto; congruence.
Qed.

Lemma rc_frame_ext f g w w' : (∀ d, f d = g d) → rc_frame f w w' → rc_frame g w w'.
Proof. intros Hfg []. constructor; auto. intros. by rewrite <- Hfg. Qed.

Lemma rc_frame_inv f w w' : rc_frame f w w' → store_inv w → store_inv w'.
Proof.
  intros [Hs _ Hn _ _ _] [Hnc Hbc Hco]. constructor; rewrite Hs; auto.
  intros d b Hd. rewrite Hn. auto.
Qed.

Lemma rc_frame_healthy f w w' : rc_frame f w w' → healthy w → healthy w'.
Proof. unfold healthy. intros [_ -> _ _ _ _]. done. Qed.

Definition set_fn (d : Digest) (c : Z) (f : Digest → Z) (e : Digest) : Z :=
  if decide (e = d) then c else f e.

(** Both ways of setting a count reduce to a change of one file. *)
Lemma rc_frame_files d c w s' o :
  rc_wf w →
  io_bad s' = io_bad (os w) →
  (∀ q, is_tmp q = false → q ≠ refcount_path (root (store w)) d → files s' !! q = files (os w) !! q) →
  files s' !! refcount_path (root (store w)) d = o →
  c = match o with Some b => from_le (take 8 b) | None => 0%Z end →
  (∀ b, o = Some b → 8 ≤ length b) →
  rc_frame (set_fn d c (rc w)) w (MkWorld s' (store w)).
Proof.
  intros Hwf Hbad Hq Ho Hc Hlen.
  assert (Hrc : ∀ e, rc_file (MkWorld s' (store w)) e = if decide (e = d) then o else rc_file w e).
  { intros e. unfold rc_file. simpl. case_decide as E; [by subst|].
    apply Hq; [apply refcount_path_tmp|]. by intros ?%refcount_path_inj. }
  constructor; simpl; auto.
  - intros e. apply Hq; [apply path_for_tmp|apply node_rc_ne].
  - intros e. apply Hq; [apply path_for_blob_tmp|apply blob_rc_ne].
  - intros e. unfold rc, set_fn. rewrite Hrc. by case_decide.
  - intros e b. rewrite Hrc. case_decide; eauto.
Qed.

Lemma set_refcount_spec d c w :
  healthy w → rc_wf w → is_u64 c →
  ∃ w', set_refcount d c w = (Ok tt, w') ∧ rc_frame (set_fn d c (rc w)) w w'.
Proof.
  intros Hh Hwf Hc. unfold set_refcount, mbind, eff_bind, get_world. case_decide as E.
  - subst. unfold ignore_eff, on_os, remove_file. rewrite not_faulty by done.
    destruct (files (os w) !! _) as [b|] eqn:Ef; simpl; eexists; (split; [done|]);
      apply (rc_frame_files _ _ _ _ None); simpl; auto; try done.
    + intros q _ ?. by rewrite lookup_delete_ne.
    + apply lookup_delete_eq.
  - unfold on_os. destruct (write_atomically _ _ (os w)) as [r s'] eqn:Ew.
    pose proof (write_atomically_ok (refcount_path (root (store w)) d) (le_bytes 8 c) (os w) Hh) as Eok.
    rewrite Ew in Eok. injection Eok as -> _. apply write_atomically_frame in Ew as [Hb Hq _ Hok].
    eexists. split; [done|]. apply (rc_frame_files _ _ _ _ (Some (le_bytes 8 c))); auto.
    + change (c = from_le (le_bytes 8 c)). rewrite from_le_bytes.
      unfold_widths. symmetry. by apply Z.mod_small.
    + intros b E'. assert (b = le_bytes 8 c) as -> by congruence. by rewrite length_le_bytes.
Qed.

Lemma get_refcount_spec d w : healthy w → rc_wf w → get_refcount d w = (Ok (rc w d), w).
Proof.
  intros Hh Hwf. unfold get_refcount, mbind, eff_bind, get_world, exists_file.
  change (files (os w) !! refcount_path (root (store w)) d) with (rc_file w d).
  unfold rc. case_bool_decide as He.
  - destruct He as [b Hb]. rewrite on_os_read. unfold read_file. rewrite not_faulty by done.
    change (files (os w) !! refcount_path (root (store w)) d) with (rc_file w d). rewrite Hb. simpl.
    rewrite decide_True by eauto. done.
  - apply eq_None_not_Some in He. by rewrite He.
Qed.

Lemma increment_spec d w :
  healthy w → rc_wf w → (rc w d + 1 < u64_mod)%Z →
  ∃ w', increment_refcount d w = (Ok (rc w d + 1)%Z, w') ∧
        rc_frame (set_fn d (rc w d + 1) (rc w)) w w'.
Proof.
  intros Hh Hwf Hlt. pose proof (rc_range w d Hwf) as Hr. unfold is_u64 in Hr.
  unfold increment_refcount, mbind, eff_bind. rewrite get_refcount_spec by done.
  rewrite wrap64_small by (unfold is_u64; lia).
  destruct (set_refcount_spec d (rc w d + 1) w Hh Hwf) as (w' & -> & ?); [unfold is_u64; lia|].
  by eexists.
Qed.

Lemma decrement_spec d w :
  healthy w → rc_wf w →
  let c := Z.max 0 (rc w d - 1) in
  ∃ w', decrement_refcount d w = (Ok c, w') ∧ rc_frame (set_fn d c (rc w)) w w'.
Proof.
  intros Hh Hwf c. pose proof (rc_range w d Hwf) as Hr. unfold is_u64 in Hr.
  unfold decrement_refcount, mbind, eff_bind. rewrite get_refcount_spec by done. fold c.
  destruct (set_refcount_spec d c w Hh Hwf) as (w' & -> & ?); [unfold is_u64; lia|].
  by eexists.
Qed.

(** Incrementing along a list of edges. *)
Lemma increments_spec l w :
  healthy w → rc_wf w → (∀ e, rc w e + Z.of_nat (occ e l) < u64_mod)%Z →
  ∃ w', for_each (E := StoreError) (λ e, ignore_eff (increment_refcount e)) l w = (Ok tt, w') ∧
        rc_frame (λ e, rc w e + Z.of_nat (occ e l))%Z w w'.
Proof.
  revert w. induction l as [|d l IH]; intros w Hh Hwf Hlt; simpl.
  { eexists. split; [done|]. eapply rc_frame_ext; [|by apply rc_frame_refl].
    intros e. unfold occ. simpl. lia. }
  destruct (increment_spec d w Hh Hwf) as (w1 & E1 & Hf1).
  { specialize (Hlt d). rewrite occ_cons, decide_True in Hlt by done. lia. }
  erewrite bind_ok by (unfold ignore_eff; by rewrite E1).
  assert (Hrc : ∀ e, (rc w1 e + Z.of_nat (occ e l) = rc w e + Z.of_nat (occ e (d :: l)))%Z).
  { intros e. rewrite (frame_rc _ _ _ Hf1). unfold set_fn. rewrite occ_cons.
    repeat case_decide; subst; try congruence; lia. }
  destruct (IH w1) as (w2 & -> & Hf2).
  - by eapply rc_frame_healthy.
  - by eapply frame_wf.
  - intros e. by rewrite Hrc.
  - eexists. split; [done|]. eapply rc_frame_trans; [done|].
    eapply rc_frame_ext; [|exact Hf2]. intros e. apply Hrc.
Qed.

(** ** The graph *)

(** The stored nodes, by digest. *)
Definition node_map (w : World) : gmap Digest bytes :=
  list_to_map (omap (λ '(p, b),
    d ← digest_from_path p;
    if decide (path_for (root (store w)) d = p) then Some (d, b) else None)
    (map_to_list (files (os w)))).

Lemma node_map_lookup w d : node_map w !! d = node_file w d.
Proof.
  unfold node_map, node_file. set (l := omap _ _).
  assert (Hl : ∀ e b, (e, b) ∈ l ↔ files (os w) !! path_for (root (store w)) e = Some b).
  { intros e b. unfold l. rewrite list_elem_of_omap. split.
    - intros ([p b'] & Hp%elem_of_map_to_list & E).
      destruct (digest_from_path p) as [e'|]; [|done]. simpl in E. case_decide; [|done].
      by simplify_eq.
    - intros Hb. exists (path_for (root (store w)) e, b). split; [by apply elem_of_map_to_list|].
      rewrite digest_from_path_for. simpl. by rewrite decide_True. }
  apply option_eq. intros b. rewrite <- Hl. split; [apply elem_of_list_to_map_2|].
  intros Hin. apply elem_of_list_to_map_1'; [|done].
  intros b' Hin'. apply Hl in Hin, Hin'. congruence.
Qed.

Definition edges_of (b : bytes) : list Digest :=
  match check_archived_root b with
  | Some n => edges n
  | None => []
  end.

Lemma children_edges_of w d : children w d = default [] (edges_of <$> node_file w d).
Proof.
  unfold children, node_at, edges_of. destruct (node_file w d); [|done]. simpl.
  by destruct (check_archived_root _).
Qed.

(** How many edges of stored nodes point to a digest. *)
Definition in_refs (m : gmap Digest bytes) (d : Digest) : Z :=
  map_sum (λ b, Z.of_nat (occ d (edges_of b))) m.

Lemma in_refs_nonneg m d : (0 ≤ in_refs m d)%Z.
Proof. apply map_sum_nonneg. lia. Qed.

Lemma in_refs_edge w d e : edge w d e → (0 < in_refs (node_map w) e)%Z.
Proof.
  unfold edge. rewrite children_edges_of. destruct (node_file w d) as [b|] eqn:E; simpl;
    [|by intros ?%not_elem_of_nil]. intros Ho%occ_pos.
  pose proof (map_sum_elem (λ b, Z.of_nat (occ e (edges_of b))) (node_map w) d b) as Hs.
  rewrite node_map_lookup in Hs. specialize (Hs ltac:(lia) E). simpl in Hs. unfold in_refs. lia.
Qed.

Lemma edge_stored w d e : edge w d e → is_Some (node_file w d).
Proof.
  unfold edge. rewrite children_edges_of. destruct (node_file w d); [done|]. by intros ?%not_elem_of_nil.
Qed.

Lemma in_refs_pos w e : (0 < in_refs (node_map w) e)%Z → ∃ d, edge w d e.
Proof.
  intros (d & b & Hd & Ho)%map_sum_pos; [|lia]. exists d. rewrite node_map_lookup in Hd.
  unfold edge. rewrite children_edges_of, Hd. simpl. apply occ_pos. lia.
Qed.

(** Every count is what it stands for: tags and edges from stored nodes. *)
Definition rc_exact (tags : list Digest) (w : World) : Prop :=
  ∀ d, rc w d = (Z.of_nat (occ d tags) + in_refs (node_map w) d)%Z.

Lemma node_map_frame f w w' : rc_frame f w w' → node_map w' = node_map w.
Proof. intros Hf. apply map_eq. intros d. rewrite !node_map_lookup. apply Hf. Qed.

(** ** Storing a node *)

Record put_frame (d : Digest) (b : bytes) (w w' : World) : Prop := {
  put_store : store w' = store w;
  put_io : io_bad (os w') = io_bad (os w);
  put_node e : node_file w' e = if decide (e = d) then Some b else node_file w e;
  put_blobs e : blob_file w' e = blob_file w e;
  put_rc e : rc w' e = (rc w e + Z.of_nat (occ e (edges_of b)))%Z;
  put_wf : rc_wf w';
}.

Lemma write_node_spec d b w :
  healthy w →
  ∃ w1, on_os (write_atomically (path_for (root (store w)) d) b) w = (Ok tt, w1) ∧
  store w1 = store w ∧ io_bad (os w1) = io_bad (os w) ∧
  (∀ e, node_file w1 e = if decide (e = d) then Some b else node_file w e) ∧
  (∀ e, blob_file w1 e = blob_file w e) ∧ (∀ e, rc_file w1 e = rc_file w e).
Proof.
  intros Hh. unfold on_os. destruct (write_atomically _ _ (os w)) as [r s'] eqn:Ew.
  pose proof (write_atomically_ok (path_for (root (store w)) d) b (os w) Hh) as Eok.
  rewrite Ew in Eok. injection Eok as -> _. apply write_atomically_frame in Ew as [Hb Hq _ Hok].
  eexists. split_and!; [done..| | |]; simpl; auto; intros e; unfold node_file, blob_file, rc_file; simpl.
  - case_decide as E; [subst; auto|]. apply Hq; [apply path_for_tmp|]. by intros ?%path_for_inj.
  - apply Hq; [apply path_for_blob_tmp|]. intros E. by eapply node_blob_ne.
  - apply Hq; [apply refcount_path_tmp|]. intros E. by eapply node_rc_ne.
Qed.

Lemma put_new_spec n b w :
  healthy w → rc_wf w → rkyv_to_bytes n = Some b → check_archived_root b = Some n →
  node_file w (compute b) = None →
  (∀ e, rc w e + Z.of_nat (occ e (edges n)) < u64_mod)%Z →
  ∃ w', put n w = (Ok (compute b), w') ∧ put_frame (compute b) b w w'.
Proof.
  intros Hh Hwf Hb Hc Hn Hlt. unfold put. rewrite Hb.
  assert (Heo : edges_of b = edges n) by (unfold edges_of; by rewrite Hc).
  unfold mbind, eff_bind, get_world. rewrite node_exists_spec, Hn.
  rewrite bool_decide_false by (by intros []). destruct (write_node_spec (compute b) b w Hh) as (w1 & -> & Hs1 & Hi1 & Hn1 & Hb1 & Hr1).
  simpl. assert (Hrc1 : ∀ e, rc w1 e = rc w e) by (intros e; unfold rc; by rewrite Hr1).
  destruct (increments_spec (edges n) w1) as (w2 & -> & [Hs2 Hi2 Hn2 Hb2 Hr2 Hw2]).
  { unfold healthy in *. congruence. }
  { intros e b'. rewrite Hr1. apply Hwf. }
  { intros e. rewrite Hrc1. apply Hlt. }
  eexists. split; [done|]. constructor; try congruence.
  - intros e. rewrite Hn2. apply Hn1.
  - done.
Qed.

Lemma put_frame_inv d b w w' :
  put_frame d b w w' → node_file w d = None → store_inv w → store_inv w'.
Proof.
  intros [Hs _ Hn _ _ _] Hd [Hnc Hbc Hco]. constructor; rewrite Hs; auto.
  intros e b' He. rewrite Hn. rewrite decide_False; [by auto|].
  intros ->. apply Hco in He. congruence.
Qed.

Lemma put_node_map d b w w' : put_frame d b w w' → node_map w' = <[d := b]> (node_map w).
Proof.
  intros Hf. apply map_eq. intros e. rewrite node_map_lookup, (put_node _ _ _ _ Hf).
  case_decide; [subst; by rewrite lookup_insert_eq|].
  by rewrite lookup_insert_ne, node_map_lookup.
Qed.

Lemma put_frame_exact d b w w' tags :
  put_frame d b w w' → node_file w d = None → rc_exact tags w → rc_exact tags w'.
Proof.
  intros Hf Hd Hex e. rewrite (put_rc _ _ _ _ Hf), (put_node_map _ _ _ _ Hf), (Hex e).
  unfold in_refs. rewrite map_sum_insert by (by rewrite node_map_lookup). lia.
Qed.

(** Also when system calls fail, [put] keeps the invariant. *)
Definition node_frame (w w' : World) : Prop :=
  store w' = store w ∧ io_bad (os w') = io_bad (os w) ∧
  (∀ d, node_file w' d = node_file w d) ∧ (∀ d, blob_file w' d = blob_file w d).

Lemma node_frame_trans w1 w2 w3 : node_frame w1 w2 → node_frame w2 w3 → node_frame w1 w3.
Proof. intros (? & ? & ? & ?) (? & ? & ? & ?). split_and!; [congruence..| |]; intros; etrans; eauto. Qed.

Lemma on_os_write_frame p b w r w' :
  on_os (write_atomically p b) w = (r, w') →
  store w' = store w ∧ io_bad (os w') = io_bad (os w) ∧
  (∀ q, is_tmp q = false → q ≠ p → files (os w') !! q = files (os w) !! q) ∧
  (files (os w') !! p = files (os w) !! p ∨ files (os w') !! p = Some b).
Proof.
  unfold on_os. destruct (write_atomically p b (os w)) as [r1 s'] eqn:Ew.
  apply write_atomically_frame in Ew as [Hb Hq Hs _]. by intros [= <- <-].
Qed.

Lemma set_refcount_frame d c w r w' : set_refcount d c w = (r, w') → node_frame w w'.
Proof.
  unfold set_refcount, mbind, eff_bind, get_world. case_decide.
  - unfold ignore_eff, on_os, remove_file. destruct (faulty _ _); [by intros [= <- <-]|].
    destruct (files (os w) !! _); intros [= <- <-]; [|done].
    split_and!; [done..| |]; intros e; unfold node_file, blob_file; simpl; rewrite lookup_delete_ne; try done.
    + intros E. by eapply node_rc_ne.
    + intros E. by eapply blob_rc_ne.
  - intros (Hs & Hb & Hq & _)%on_os_write_frame.
    split_and!; [done..| |]; intros e; unfold node_file, blob_file; rewrite Hs; apply Hq.
    + apply path_for_tmp.
    + apply node_rc_ne.
    + apply path_for_blob_tmp.
    + apply blob_rc_ne.
Qed.

Lemma increment_frame d w r w' : increment_refcount d w = (r, w') → node_frame w w'.
Proof.
  unfold increment_refcount, mbind, eff_bind.
  assert (Hg : (get_refcount d w).2 = w).
  { unfold get_refcount, mbind, eff_bind, get_world. destruct (exists_file _ _); [|done].
    rewrite on_os_read. destruct (read_file _ (os w)) as [[b|e] ?]; simpl; [|done].
    by case_decide. }
  destruct (get_refcount d w) as [[c|e] w1]; simpl in Hg; subst; [|by intros [= <- <-]].
  destruct (set_refcount d _ w) as [[?|e] w2] eqn:Es; apply set_refcount_frame in Es;
    unfold mret, eff_ret; by intros [= <- <-].
Qed.

Lemma increments_frame l w r w' :
  for_each (E := StoreError) (λ e, ignore_eff (increment_refcount e)) l w = (r, w') →
  r = Ok tt ∧ node_frame w w'.
Proof.
  revert w. induction l as [|d l IH]; intros w; simpl; [by intros [= <- <-]|].
  unfold mbind, eff_bind, ignore_eff at 1. destruct (increment_refcount d w) as [r1 w1] eqn:E1.
  apply increment_frame in E1. intros [-> ?]%IH. split; [done|]. by eapply node_frame_trans.
Qed.

Lemma put_inv n w r w' : store_inv w → put n w = (r, w') → store_inv w'.
Proof.
  intros Hi. unfold put. destruct (rkyv_to_bytes n) as [b|]; [|by intros [= <- <-]].
  unfold mbind, eff_bind, get_world. rewrite node_exists_spec.
  case_bool_decide as He; [by intros [= <- <-]|]. apply eq_None_not_Some in He.
  destruct (on_os _ w) as [r1 w1] eqn:E1. apply on_os_write_frame in E1 as (Hs1 & _ & Hq1 & Hp1).
  assert (Hi1 : store_inv w1).
  { destruct Hi as [Hn Hb Hc]. constructor; rewrite Hs1; auto. intros e b' Hcc. unfold node_file.
    rewrite Hs1. rewrite Hq1; [by apply Hc|apply path_for_tmp|]. intros ->%path_for_inj.
    apply Hc in Hcc. congruence. }
  destruct r1; [|by intros [= <- <-]].
  destruct (for_each _ _ w1) as [r2 w2] eqn:E2. apply increments_frame in E2 as (-> & Hs2 & _ & Hn2 & _).
  intros [= <- <-]. destruct Hi1 as [Hn Hb Hc]. constructor; rewrite Hs2; auto.
  intros e b'. rewrite Hn2. apply Hc.
Qed.

End refcounts.
