(* ===== verification/RemoveTag.v ===== *)
(** * Removing a tag and rebuilding the counts

    With exact counts, dropping one reference to a root and deleting what falls to
    zero never deletes a node another tag still reaches, leaves the counts exact,
    and leaves no node without a reference.  The rebuild counts, for every digest,
    its occurrences among the roots and among the edges of the nodes it visits, then
    writes the counts. *)

From stdpp Require Import base gmap strings list relations fin_maps.
From Stdlib Require Import ZArith Lia.
From S2P Require Import Prelude Strs Crates Node Fs Worklist Store StoreFacts.
From S2P Require Import GcFacts Gc RefcountFacts.

Section remove_tag.
Context `{Hex, Sha2, Rkyv DagNode, !HexLaws}.

(** ** Dropping the references of a deleted node *)

Lemma release_children_spec l w :
  healthy w → rc_wf w → (∀ e, Z.of_nat (occ e l) ≤ rc w e)%Z →
  ∃ zero w', release_children l w = (Ok zero, w') ∧
    rc_frame (λ e, rc w e - Z.of_nat (occ e l))%Z w w' ∧ length zero ≤ length l ∧
    ∀ c, c ∈ zero ↔ c ∈ l ∧ (rc w c - Z.of_nat (occ c l) = 0)%Z.
Proof.
  revert w. induction l as [|d l IH]; intros w Hh Hwf Hle; cbn [release_children].
  { eexists _, _. split; [done|]. split_and!; [|done|].
    - eapply rc_frame_ext; [|by apply rc_frame_refl]. intros e. unfold occ. simpl. lia.
    - intros c. split; [by intros ?%not_elem_of_nil|by intros [?%not_elem_of_nil _]]. }
  assert (Hd := Hle d). rewrite occ_cons, decide_True in Hd by done.
  destruct (decrement_spec d w Hh Hwf) as (w1 & E1 & Hf1).
  rewrite Z.max_r in E1, Hf1 by lia. erewrite bind_ok by done.
  assert (Hrc : ∀ e, (rc w1 e - Z.of_nat (occ e l) = rc w e - Z.of_nat (occ e (d :: l)))%Z).
  { intros e. rewrite (frame_rc _ _ _ Hf1). unfold set_fn. rewrite occ_cons.
    repeat case_decide; subst; try congruence; lia. }
  destruct (IH w1) as (zero & w2 & E2 & Hf2 & Hlen & Hz).
  - by eapply rc_frame_healthy.
  - by eapply frame_wf.
  - intros e. specialize (Hle e). specialize (Hrc e). lia.
  - erewrite bind_ok by done. eexists _, _. split; [done|]. split_and!.
    + eapply rc_frame_trans; [done|]. eapply rc_frame_ext; [|exact Hf2]. intros e. apply Hrc.
    + case_decide; simpl; lia.
    + intros c. rewrite elem_of_cons, <- Hrc.
      assert (Hc : c ∈ (if decide (rc w d - 1 = 0)%Z then d :: zero else zero) ↔
        (c = d ∧ rc w d - 1 = 0)%Z ∨ c ∈ zero).
      { case_decide; [rewrite elem_of_cons|]; naive_solver. }
      rewrite Hc, Hz. clear Hc Hz. split; [|].
      * intros [[-> E]|?]; [|naive_solver]. split; [by left|].
        rewrite Hrc, occ_cons, decide_True by done. lia.
      * intros [[->|?] E]; [|naive_solver].
        destruct (decide (d ∈ l)) as [|Hn]; [naive_solver|]. left. split; [done|].
        rewrite Hrc, occ_cons, decide_True in E by done. rewrite occ_pos in Hn. lia.
Qed.

(** ** Deleting a node's files *)

Lemma ignore_remove_spec p w :
  healthy w →
  ∃ w', ignore_eff (F := StoreError) (on_os (remove_file p)) w = (Ok tt, w') ∧
    store w' = store w ∧ io_bad (os w') = io_bad (os w) ∧ files (os w') = delete p (files (os w)).
Proof.
  intros Hh. unfold ignore_eff, on_os, remove_file. rewrite not_faulty by done.
  destruct (files (os w) !! p) eqn:E; eexists; (split; [done|]); simpl; [done|].
  split_and!; try done. by rewrite delete_id.
Qed.

Lemma on_world_ok {L A} (m : store_eff A) w (l : L) a w' :
  m w = (Ok a, w') → on_world m (w, l) = (Ok a, (w', l)).
Proof. intros E. unfold on_world. simpl. by rewrite E. Qed.

Record deleted_frame (d : Digest) (w w' : World) : Prop := {
  del_store : store w' = store w;
  del_io : io_bad (os w') = io_bad (os w);
  del_node e : node_file w' e = if decide (e = d) then None else node_file w e;
  del_blob e : blob_file w' e = if decide (e = d) then None else blob_file w e;
  del_rc e : rc_file w' e = if decide (e = d) then None else rc_file w e;
}.

Lemma delete_node_files_spec d w freed :
  healthy w →
  ∃ w' freed', delete_node_files d (w, freed) = (Ok tt, (w', freed')) ∧ deleted_frame d w w'.
Proof.
  intros Hh. unfold delete_node_files. erewrite bind_ok by done. simpl fst.
  set (r := root (store w)). erewrite bind_ok by done.
  destruct (ignore_remove_spec (path_for r d) w Hh) as (w1 & E1 & Hs1 & Hi1 & Hf1).
  erewrite bind_ok by (apply on_world_ok; exact E1). erewrite bind_ok by done.
  destruct (ignore_remove_spec (path_for_blob r d) w1) as (w2 & E2 & Hs2 & Hi2 & Hf2).
  { unfold healthy in *. congruence. }
  erewrite bind_ok by (apply on_world_ok; exact E2).
  destruct (ignore_remove_spec (refcount_path r d) w2) as (w3 & E3 & Hs3 & Hi3 & Hf3).
  { unfold healthy in *. congruence. }
  eexists _, _. split; [apply on_world_ok; exact E3|].
  pose proof (node_blob_ne r). pose proof (node_rc_ne r). pose proof (blob_rc_ne r).
  constructor; try congruence; intros e; unfold node_file, blob_file, rc_file;
    rewrite Hs3, Hs2, Hs1, Hf3, Hf2, Hf1; fold r; case_decide as E; subst.
  - by rewrite !lookup_delete_ne, lookup_delete_eq by (try apply not_eq_sym; auto).
  - rewrite !lookup_delete_ne; auto. by intros ?%path_for_inj.
  - by rewrite lookup_delete_ne, lookup_delete_eq by (try apply not_eq_sym; auto).
  - rewrite !lookup_delete_ne; auto. by intros ?%path_for_blob_inj.
  - by rewrite lookup_delete_eq.
  - rewrite !lookup_delete_ne; auto. by intros ?%refcount_path_inj.
Qed.

(** ** The cascade *)

Definition intact (w : World) : Prop := ∀ d, ¬ corrupted_at w d.

(** Every stored node has a reference. *)
Definition no_garbage (w : World) : Prop := ∀ d, is_Some (node_file w d) → (0 < rc w d)%Z.

(** [w0] is the store when the cascade starts, [T] the remaining tags; [G] says
    that the only stored node without references was the one in the queue. *)
Record cascade (T : list Digest) (w0 : World) (G : Prop) (V : gset Digest) (Q : list Digest)
    (wl : World * Z) : Prop := {
  ca_inv : store_inv wl.1;
  ca_healthy : healthy wl.1;
  ca_wf : rc_wf wl.1;
  ca_exact : rc_exact T wl.1;
  ca_queue q : q ∈ Q → rc wl.1 q = 0%Z;
  ca_sub d b : node_file wl.1 d = Some b → node_file w0 d = Some b;
  ca_keep d : reachable w0 T d →
    node_file wl.1 d = node_file w0 d ∧ blob_file wl.1 d = blob_file w0 d;
  ca_gone d : d ∈ V → node_file wl.1 d = None;
  ca_zero : G → ∀ d, is_Some (node_file wl.1 d) → rc wl.1 d = 0%Z → d ∈ Q;
}.

Lemma rc_exact_nonneg T w d : rc_exact T w → (0 ≤ rc w d)%Z.
Proof. intros Hex. rewrite (Hex d). pose proof (in_refs_nonneg (node_map w) d). lia. Qed.

(** A node without references is not reachable from the remaining tags. *)
Lemma zero_unreachable T w0 G V Q wl d :
  cascade T w0 G V Q wl → rc wl.1 d = 0%Z → ¬ reachable w0 T d.
Proof.
  intros [_ _ _ Hex _ _ Hk _ _] Hz (r & Hr & Hp).
  assert (Hcases : d ∈ T ∨ ∃ p, reachable w0 T p ∧ edge w0 p d).
  { apply rtc_inv_r in Hp as [->|(p & Hp & He)]; [by left|]. right. exists p. split; [by exists r|done]. }
  pose proof (Hex d) as Hd. pose proof (in_refs_nonneg (node_map wl.1) d).
  destruct Hcases as [Ht%occ_pos|(p & Hrp & He)]; [lia|].
  assert (edge wl.1 p d) as He'%in_refs_edge; [|lia].
  unfold edge in *. rewrite children_edges_of in *. by rewrite (proj1 (Hk p Hrp)).
Qed.

Lemma cascade_skip T w0 G V d Q wl :
  d ∈ V → cascade T w0 G V (d :: Q) wl → cascade T w0 G V Q wl.
Proof.
  intros Hd [Hi Hh Hw Hex Hq Hs Hk Hg Hz]. constructor; auto.
  - intros q ?. apply Hq. by right.
  - intros HG e He Hr. apply (Hz HG e He) in Hr as [->|?]%elem_of_cons; [|done].
    rewrite (Hg d Hd) in He. by destruct He.
Qed.

Lemma cascade_absent T w0 G V d Q wl :
  node_file wl.1 d = None → cascade T w0 G V (d :: Q) wl →
  cascade T w0 G ({[d]} ∪ V) (Q ++ []) wl.
Proof.
  intros Hn [Hi Hh Hw Hex Hq Hs Hk Hg Hz]. rewrite app_nil_r. constructor; auto.
  - intros q ?. apply Hq. by right.
  - intros e [->%elem_of_singleton|?]%elem_of_union; auto.
  - intros HG e He Hr. apply (Hz HG e He) in Hr as [->|?]%elem_of_cons; [|done].
    rewrite Hn in He. by destruct He.
Qed.

Lemma same_disk_rc w w' d : same_disk w w' → rc w' d = rc w d.
Proof. unfold rc, rc_file. by intros [-> ->]. Qed.

Lemma same_disk_rc_wf w w' : same_disk w w' → rc_wf w → rc_wf w'.
Proof. unfold rc_wf, rc_file. by intros [-> ->]. Qed.

Lemma same_disk_node_map w w' : same_disk w w' → node_map w' = node_map w.
Proof. unfold node_map. by intros [-> ->]. Qed.

Lemma same_disk_cascade T w0 G V Q w w1 freed :
  same_disk w w1 → store_inv w1 → cascade T w0 G V Q (w, freed) → cascade T w0 G V Q (w1, freed).
Proof.
  intros Hsd Hi1 [Hi Hh Hw Hex Hq Hs Hk Hg Hz]. simpl in *. constructor; simpl; auto.
  - by eapply same_disk_healthy.
  - by eapply same_disk_rc_wf.
  - intros d. rewrite (same_disk_rc _ _ _ Hsd), (same_disk_node_map _ _ Hsd). apply Hex.
  - intros q. rewrite (same_disk_rc _ _ _ Hsd). apply Hq.
  - intros d b. rewrite (same_disk_node _ _ _ Hsd). apply Hs.
  - intros d. rewrite (same_disk_node _ _ _ Hsd), (same_disk_blob_file _ _ _ Hsd). apply Hk.
  - intros d. rewrite (same_disk_node _ _ _ Hsd). apply Hg.
  - intros HG d. rewrite (same_disk_node _ _ _ Hsd), (same_disk_rc _ _ _ Hsd). auto.
Qed.

Lemma deleted_node_map d w w' : deleted_frame d w w' → node_map w' = delete d (node_map w).
Proof.
  intros Hf. apply map_eq. intros e. rewrite node_map_lookup, (del_node _ _ _ Hf).
  case_decide; [subst; by rewrite lookup_delete_eq|].
  by rewrite lookup_delete_ne, node_map_lookup.
Qed.

(** Deleting a node whose children have been released. *)
Lemma deleted_exact T d b w w1 w2 w3 :
  rc_exact T w → rc w d = 0%Z → node_file w d = Some b →
  rc_frame (λ e, rc w e - Z.of_nat (occ e (edges_of b)))%Z w w1 → same_disk w1 w2 →
  deleted_frame d w2 w3 →
  rc_exact T w3 ∧ ∀ e, rc w3 e = (rc w e - Z.of_nat (occ e (edges_of b)))%Z.
Proof.
  intros Hex Hz Hb Hf Hsd Hd.
  assert (Hsum : ∀ e, (in_refs (node_map w) e =
    Z.of_nat (occ e (edges_of b)) + in_refs (delete d (node_map w)) e)%Z).
  { intros e. unfold in_refs. by rewrite (map_sum_delete _ (node_map w) d b)
      by (by rewrite node_map_lookup). }
  assert (Hrc : ∀ e, rc w3 e = (rc w e - Z.of_nat (occ e (edges_of b)))%Z).
  { intros e. unfold rc at 1. rewrite (del_rc _ _ _ Hd). case_decide as E.
    - subst e. pose proof (Hex d). rewrite Hsum in *.
      pose proof (in_refs_nonneg (delete d (node_map w)) d). lia.
    - fold (rc w2 e). rewrite (same_disk_rc _ _ _ Hsd). apply Hf. }
  split; [|done]. intros e. rewrite Hrc, (Hex e), Hsum, (deleted_node_map _ _ _ Hd).
  rewrite (same_disk_node_map _ _ Hsd), (node_map_frame _ _ _ Hf). lia.
Qed.

(** The node popped from the queue, from the state [w1] after its edges were read
    to the state [w3] with its files deleted. *)
Lemma cascade_delete T w0 G V d Q w1 w2 w3 freed freed' b zero :
  cascade T w0 G V (d :: Q) (w1, freed) → node_file w1 d = Some b →
  rc_frame (λ e, rc w1 e - Z.of_nat (occ e (edges_of b)))%Z w1 w2 →
  (∀ c, c ∈ zero ↔ c ∈ edges_of b ∧ (rc w1 c - Z.of_nat (occ c (edges_of b)) = 0)%Z) →
  deleted_frame d (on_node_cache (Lru.evict_cache_entry d) w2) w3 →
  cascade T w0 G ({[d]} ∪ V) (Q ++ zero) (w3, freed').
Proof.
  intros Hca Hb Hf Hz Hd. set (w2' := on_node_cache (Lru.evict_cache_entry d) w2) in *.
  assert (Hsd : same_disk w2 w2') by done.
  assert (Hrd : rc w1 d = 0%Z) by (apply (ca_queue _ _ _ _ _ _ Hca); left).
  pose proof (zero_unreachable _ _ _ _ _ _ d Hca Hrd) as Hnr.
  destruct Hca as [Hi Hh Hw Hex Hq Hs Hk Hg Hze]. simpl in *.
  destruct (deleted_exact T d b w1 w2 w2' w3) as [Hex3 Hrc3]; try done.
  assert (Hno : ∀ e, node_file w3 e = if decide (e = d) then None else node_file w1 e).
  { intros e. rewrite (del_node _ _ _ Hd). case_decide; [done|]. apply Hf. }
  assert (Hoc : ∀ e, rc w1 e = 0%Z → rc w3 e = 0%Z).
  { intros e He. pose proof (rc_exact_nonneg _ _ e Hex3). rewrite Hrc3 in *. lia. }
  constructor; simpl; auto.
  - destruct (rc_frame_inv _ _ _ Hf Hi) as [Hnc Hbc Hco].
    constructor; rewrite (del_store _ _ _ Hd); simpl; auto with cache.
    intros e b'. rewrite evict_entry_lookup, lookup_delete_Some. intros [? He].
    rewrite Hno, decide_False by done. rewrite <- (frame_node _ _ _ Hf). by apply Hco.
  - unfold healthy. rewrite (del_io _ _ _ Hd). by apply (rc_frame_healthy _ _ _ Hf).
  - intros e b'. rewrite (del_rc _ _ _ Hd). case_decide; [done|]. apply Hf.
  - intros q [?|[_ Hq']%Hz]%elem_of_app; [apply Hoc, Hq; by right|]. by rewrite Hrc3.
  - intros e b'. rewrite Hno. case_decide; [done|]. apply Hs.
  - intros e He. assert (e ≠ d) by congruence. rewrite Hno, (del_blob _ _ _ Hd), !decide_False by done.
    change (blob_file w2' e) with (blob_file w2 e). rewrite (frame_blob _ _ _ Hf). auto.
  - intros e He. rewrite Hno. case_decide; [done|]. apply Hg. set_solver.
  - intros HG e. rewrite Hno. case_decide as Ed; [by intros []|]. intros Hst Hr3.
    rewrite elem_of_app, Hz. rewrite Hrc3 in Hr3. destruct (decide (e ∈ edges_of b)) as [|He]; [auto|].
    left. assert (rc w1 e = 0%Z) as Hr1 by (rewrite occ_pos in He; lia).
    apply (Hze HG e Hst) in Hr1 as [->|?]%elem_of_cons; done.
Qed.

Lemma remove_tag_body_spec T w0 G V d Q wl :
  intact w0 → d ∉ V → cascade T w0 G V (d :: Q) wl →
  match remove_tag_body d wl with
  | (Ok more, wl') => length more ≤ length (children w0 d) ∧ cascade T w0 G ({[d]} ∪ V) (Q ++ more) wl'
  | (Err _, _) => False
  end.
Proof.
  intros Hin Hd Hca. destruct wl as [w freed].
  unfold remove_tag_body. erewrite bind_ok by done. simpl fst. rewrite node_exists_spec.
  case_bool_decide as He.
  2: { apply eq_None_not_Some in He. split; [simpl; lia|]. by apply cascade_absent. }
  destruct He as [b Hb]. destruct (get_archived d w) as [r w1] eqn:Eg.
  pose proof (ca_inv _ _ _ _ _ _ Hca) as Hi.
  pose proof (ca_healthy _ _ _ _ _ _ Hca) as Hh.
  apply get_archived_spec in Eg as Hg; [|done]. destruct Hg as (Hi1 & Hsd & [Hr|[_ []]]); [|done].
  pose proof (ca_sub _ _ _ _ _ _ Hca d b Hb) as Hb0. simpl in *.
  destruct (archived_result w d) as [n|e] eqn:Ea.
  2: { apply archived_result_Err in Ea as [[_ ?]|[_ (b' & Hb' & Hc)]]; [congruence|].
    destruct (Hin d). exists b'. split; [|done]. congruence. }
  apply archived_result_Ok in Ea as Hn.
  assert (Heo : edges_of b = edges n).
  { unfold edges_of. unfold node_at in Hn. rewrite Hb in Hn. simpl in Hn. by rewrite Hn. }
  apply (same_disk_cascade _ _ _ _ _ w w1) in Hca; [|done..].
  rewrite <- (same_disk_node w w1) in Hb by done.
  erewrite bind_ok by (unfold try_eff, on_world; simpl; rewrite Eg; done).
  rewrite Hr. erewrite bind_ok by done. pose proof (ca_exact _ _ _ _ _ _ Hca) as Hex. simpl in Hex.
  destruct (release_children_spec (edges n) w1) as (zero & w2 & E2 & Hf2 & Hlen & Hz).
  { apply (ca_healthy _ _ _ _ _ _ Hca). }
  { apply (ca_wf _ _ _ _ _ _ Hca). }
  { intros e. rewrite (Hex e). unfold in_refs.
    pose proof (map_sum_elem (λ b, Z.of_nat (occ e (edges_of b))) (node_map w1) d b) as Hle.
    simpl in Hle. rewrite node_map_lookup, Heo in Hle. specialize (Hle ltac:(lia) Hb). lia. }
  erewrite bind_ok by (apply on_world_ok; exact E2).
  erewrite bind_ok by (apply on_world_ok; reflexivity). rewrite <- Heo in *.
  destruct (delete_node_files_spec d (on_node_cache (Lru.evict_cache_entry d) w2) freed)
    as (w3 & freed' & E3 & Hd3).
  { apply (rc_frame_healthy _ _ _ Hf2). apply (ca_healthy _ _ _ _ _ _ Hca). }
  erewrite bind_ok by exact E3. unfold mret, eff_ret. split.
  - rewrite children_edges_of, Hb0. done.
  - by eapply cascade_delete.
Qed.

(** What removing a tag leaves, [T] being the remaining tags. *)
Record untagged (T : list Digest) (w w' : World) : Prop := {
  un_inv : store_inv w';
  un_healthy : healthy w';
  un_wf : rc_wf w';
  un_exact : rc_exact T w';
  un_sub d b : node_file w' d = Some b → node_file w d = Some b;
  un_keep d : reachable w T d → node_file w' d = node_file w d ∧ blob_file w' d = blob_file w d;
  un_garbage : no_garbage w → no_garbage w';
}.

Lemma rc_frame_cascade d T w w1 freed :
  store_inv w → healthy w → rc_exact (d :: T) w → rc w d = 1%Z →
  rc_frame (set_fn d 0 (rc w)) w w1 → cascade T w1 (no_garbage w) ∅ [d] (w1, freed).
Proof.
  intros Hi Hh Hex Hd Hf. constructor; simpl; try done.
  - by eapply rc_frame_inv.
  - by eapply rc_frame_healthy.
  - by eapply frame_wf.
  - intros e. rewrite (frame_rc _ _ _ Hf), (node_map_frame _ _ _ Hf). unfold set_fn.
    pose proof (Hex e) as He. rewrite occ_cons in He. repeat case_decide; subst; congruence || lia.
  - intros q ->%list_elem_of_singleton. rewrite (frame_rc _ _ _ Hf). unfold set_fn. by case_decide.
  - intros HG e. rewrite (frame_node _ _ _ Hf), (frame_rc _ _ _ Hf). unfold set_fn.
    case_decide; [subst; set_solver|]. intros Hst%HG. lia.
Qed.

Lemma remove_tag_spec d T w :
  store_inv w → healthy w → rc_wf w → intact w → rc_exact (d :: T) w →
  ∃ freed w', remove_tag d w = (Ok freed, w') ∧ untagged T w w'.
Proof.
  intros Hi Hh Hwf Hin Hex. pose proof (Hex d) as Hd. rewrite occ_cons, decide_True in Hd by done.
  pose proof (in_refs_nonneg (node_map w) d). unfold remove_tag.
  destruct (decrement_spec d w Hh Hwf) as (w1 & E1 & Hf). rewrite Z.max_r in E1, Hf by lia.
  erewrite bind_ok by exact E1. case_decide as Hr.
  - eexists _, _. split; [done|]. constructor.
    + by eapply rc_frame_inv.
    + by eapply rc_frame_healthy.
    + by eapply frame_wf.
    + intros e. rewrite (frame_rc _ _ _ Hf), (node_map_frame _ _ _ Hf). unfold set_fn.
      pose proof (Hex e) as He. rewrite occ_cons in He. repeat case_decide; subst; congruence || lia.
    + intros e b. by rewrite (frame_node _ _ _ Hf).
    + intros e _. split; apply Hf.
    + intros HG e. rewrite (frame_node _ _ _ Hf), (frame_rc _ _ _ Hf). unfold set_fn.
      case_decide; [lia|auto].
  - replace (rc w d - 1)%Z with 0%Z in Hf by lia.
    pose proof (rc_frame_cascade d T w w1 0%Z Hi Hh Hex ltac:(lia) Hf) as Hstart.
    pose proof (traverse_rule remove_tag_body w1 (cascade T w1 (no_garbage w)) (λ _ _, False)) as Ht.
    specialize (Ht ltac:(intros ???? Hv; by apply cascade_skip)).
    assert (intact w1) as Hin1.
    { intros e (b & Hb & Hc). apply (Hin e). exists b. by rewrite <- (frame_node _ _ _ Hf). }
    specialize (Ht ltac:(intros; by apply remove_tag_body_spec) [d] 0%Z Hstart).
    destruct (traverse _ _ _ w1) as [[freed|e] w2]; [|by destruct Ht].
    destruct Ht as [V [Hi2 Hh2 Hw2 Hex2 _ Hs2 Hk2 _ Hz2]]. simpl in *.
    eexists _, _. split; [done|]. constructor; auto.
    + intros e b Hb. apply Hs2 in Hb. by rewrite (frame_node _ _ _ Hf) in Hb.
    + intros e He. rewrite <- (frame_node _ _ _ Hf), <- (frame_blob _ _ _ Hf). apply Hk2.
      by apply (same_nodes_reachable w w1), He; apply Hf.
    + intros HG e He. pose proof (rc_exact_nonneg _ _ e Hex2) as Hnn.
      destruct (decide (rc w2 e = 0)%Z) as [E|]; [|lia].
      by apply (Hz2 HG e He) in E as ?%not_elem_of_nil.
Qed.

End remove_tag.

Section recompute.
Context `{Hex, Sha2, Rkyv DagNode, !HexLaws}.

(** ** Counting *)

Definition count_of (m : gmap Digest Z) (d : Digest) : Z := default 0%Z (m !! d).

Definition count_all (l : list Digest) (m : gmap Digest Z) : gmap Digest Z := foldl (λ m c, count_one c m) m l.

Lemma count_one_lookup c m d :
  count_one c m !! d = if decide (d = c) then Some (wrap64 (count_of m d + 1)) else m !! d.
Proof. unfold count_one, count_of. case_decide; subst; by simplify_map_eq. Qed.

Lemma count_all_spec l m d :
  (0 ≤ count_of m d)%Z → (count_of m d + Z.of_nat (occ d l) < u64_mod)%Z →
  count_of (count_all l m) d = (count_of m d + Z.of_nat (occ d l))%Z.
Proof.
  revert m. induction l as [|c l IH]; intros m Hm0 Hlt; unfold count_all; simpl.
  { unfold occ. simpl. lia. }
  fold (count_all l (count_one c m)). rewrite occ_cons in *.
  assert (E : count_of (count_one c m) d = (count_of m d + Z.of_nat (if decide (c = d) then 1 else 0))%Z).
  { unfold count_of at 1. rewrite count_one_lookup. destruct (decide (d = c)) as [->|Hne].
    - rewrite decide_True in * by done. simpl. apply wrap64_small. unfold is_u64. lia.
    - rewrite decide_False by done. fold (count_of m d). lia. }
  rewrite IH, E; [|rewrite ?E..]; repeat case_decide; simpl in *; lia.
Qed.

Lemma count_all_dom l m d : is_Some (count_all l m !! d) → is_Some (m !! d) ∨ d ∈ l.
Proof.
  revert m. induction l as [|c l IH]; intros m; unfold count_all; simpl; [tauto|].
  intros [Hm|Hl]%IH; [|right; by right]. rewrite count_one_lookup in Hm.
  case_decide; [subst; right; left|by left].
Qed.

(** ** The nodes counted so far *)

Definition visited_map (w : World) (V : gset Digest) : gmap Digest bytes :=
  filter (λ kv, kv.1 ∈ V) (node_map w).

Lemma in_refs_visit w V d e :
  d ∉ V → in_refs (visited_map w ({[d]} ∪ V)) e =
    (Z.of_nat (occ e (children w d)) + in_refs (visited_map w V) e)%Z.
Proof.
  intros Hd. unfold visited_map, in_refs. rewrite children_edges_of, <- node_map_lookup.
  destruct (node_map w !! d) as [b|] eqn:E; simpl.
  - replace (filter _ (node_map w)) with (<[d := b]> (filter (λ kv, kv.1 ∈ V) (node_map w))).
    { rewrite map_sum_insert; [done|]. apply map_lookup_filter_None. right. naive_solver. }
    apply map_eq. intros x. destruct (decide (x = d)) as [->|Hx].
    + rewrite lookup_insert_eq. symmetry. apply map_lookup_filter_Some. set_solver.
    + rewrite lookup_insert_ne by done. apply option_eq. intros c.
      rewrite !map_lookup_filter_Some. set_solver.
  - replace (filter _ (node_map w)) with (filter (λ kv, kv.1 ∈ V) (node_map w)).
    { unfold occ. simpl. lia. }
    apply map_eq. intros x. apply option_eq. intros c. rewrite !map_lookup_filter_Some. simpl.
    destruct (decide (x = d)) as [->|]; [naive_solver|set_solver].
Qed.

Lemma in_refs_visited_le w V d : (in_refs (visited_map w V) d ≤ in_refs (node_map w) d)%Z.
Proof. apply map_sum_filter_le. lia. Qed.

(** ** The traversal *)

(** Every edge of a stored node leads to a stored node. *)
Definition closed (w : World) : Prop := ∀ d e, edge w d e → is_Some (node_file w e).

Definition refs (w : World) (roots : list Digest) (V : gset Digest) (d : Digest) : Z :=
  (Z.of_nat (occ d roots) + in_refs (visited_map w V) d)%Z.

Record count_inv (w : World) (roots : list Digest) (V : gset Digest) (Q : list Digest)
    (wl : World * gmap Digest Z) : Prop := {
  ci_store : store_inv wl.1;
  ci_disk : same_disk w wl.1;
  ci_explored : explored w roots V Q;
  ci_counts d : count_of wl.2 d = refs w roots V d;
  ci_dom d : is_Some (wl.2 !! d) → reachable w roots d;
}.

Section visit.
Variables (w : World) (roots : list Digest).
Hypothesis Hclosed : closed w.
Hypothesis Hbound : ∀ d, (Z.of_nat (occ d roots) + in_refs (node_map w) d < u64_mod)%Z.

Lemma refs_range V d : (0 ≤ refs w roots V d < u64_mod)%Z.
Proof.
  unfold refs. pose proof (in_refs_nonneg (visited_map w V) d). pose proof (in_refs_visited_le w V d).
  specialize (Hbound d). lia.
Qed.

Lemma count_start : count_inv w roots ∅ roots (w, count_all roots ∅) ↔ store_inv w.
Proof.
  assert (Hv : visited_map w ∅ = ∅).
  { apply map_eq. intros x. rewrite lookup_empty. apply map_lookup_filter_None. right. set_solver. }
  split; [by intros []|]. intros Hi. constructor; simpl; [done|done|apply explored_start| |].
  - intros d. pose proof (refs_range ∅ d) as Hr. unfold refs in *. rewrite Hv in *. unfold in_refs in *.
    rewrite map_sum_empty in *. assert (count_of ∅ d = 0%Z) as E0 by (unfold count_of; by rewrite lookup_empty).
    rewrite count_all_spec; rewrite E0; lia.
  - intros d [Hm|Hr]%count_all_dom; [by rewrite lookup_empty in Hm; destruct Hm|by apply reachable_root].
Qed.

Lemma count_visit V d Q wl w1 :
  count_inv w roots V (d :: Q) wl → d ∉ V → store_inv w1 → same_disk w w1 →
  count_inv w roots ({[d]} ∪ V) (Q ++ children w d) (w1, count_all (children w d) wl.2).
Proof.
  intros [Hst Hdi Hex Hco Hdo] Hd Hi1 Hd1. constructor; simpl; try done.
  - by apply explored_visit.
  - intros e. pose proof (refs_range V e). pose proof (refs_range ({[d]} ∪ V) e) as Hr.
    unfold refs in *. rewrite in_refs_visit in * by done.
    rewrite count_all_spec; rewrite Hco; lia.
  - intros e [Hm|Hc]%count_all_dom; [by apply Hdo|]. eapply reachable_step; [|exact Hc].
    apply (ex_sound _ _ _ _ Hex). right. left.
Qed.

Lemma recompute_body_spec V d Q wl :
  healthy w → (∀ e, ¬ corrupted_at w e) → d ∉ V → count_inv w roots V (d :: Q) wl →
  match recompute_body d wl with
  | (Ok more, wl') => length more ≤ length (children w d) ∧ count_inv w roots ({[d]} ∪ V) (Q ++ more) wl'
  | (Err e, wl') => False
  end.
Proof.
  intros Hh Hin Hd HP. destruct wl as [w1 m]. pose proof (ci_store _ _ _ _ _ HP) as Hs1.
  pose proof (ci_disk _ _ _ _ _ HP) as Hd1. simpl in Hs1, Hd1.
  unfold recompute_body, mbind, eff_bind, get_world. simpl.
  rewrite node_exists_spec, (same_disk_node w) by done. case_bool_decide as Hf.
  2: { apply eq_None_not_Some, children_missing in Hf. simpl. split; [lia|]. rewrite <- Hf.
       pose proof (count_visit V d Q (w1, m) w1 HP Hd Hs1 Hd1) as Hv. by rewrite Hf in *. }
  unfold try_eff, on_world. simpl. destruct (get_archived d w1) as [r w2] eqn:Eg.
  apply get_archived_spec in Eg as (Hs2 & Hd2 & Hr); [|done].
  pose proof (same_disk_trans _ _ _ Hd1 Hd2) as Hd12.
  rewrite (same_disk_archived w w1) in Hr by done.
  destruct Hr as [-> | [_ Hh1]]; [|by destruct Hh1; apply (same_disk_healthy w)].
  destruct (archived_result w d) as [n|e] eqn:Ea.
  2: { apply archived_result_Err in Ea as [[-> E]|[_ Hc]]; [rewrite E in Hf; by destruct Hf|by destruct (Hin d)]. }
  apply archived_result_Ok, children_node in Ea. unfold on_locals. simpl.
  assert (Hfi : filter (λ c, node_exists w2 c = true) (edges n) = edges n).
  { apply filter_all. intros c Hc. rewrite node_exists_spec, (same_disk_node w) by done.
    apply bool_decide_eq_true. apply (Hclosed d). unfold edge. by rewrite Ea. }
  rewrite Hfi, <- Ea. split; [done|]. by apply (count_visit V d Q (w1, m)).
Qed.

End visit.

(** ** Writing the counts *)

Lemma set_all_spec (l : list (Digest * Z)) w :
  healthy w → rc_wf w → NoDup l.*1 → (∀ d c, (d, c) ∈ l → is_u64 c) →
  ∃ w', for_each (λ '(d, c), set_refcount d c) l w = (Ok tt, w') ∧
    rc_frame (λ e, default (rc w e) ((list_to_map l : gmap Digest Z) !! e)) w w'.
Proof.
  revert w. induction l as [|[d c] l IH]; intros w Hh Hwf Hnd Hu; simpl.
  { exists w. split; [done|]. eapply rc_frame_ext; [|by apply rc_frame_refl]. intros e. by rewrite lookup_empty. }
  apply NoDup_cons in Hnd as [Hd Hnd].
  destruct (set_refcount_spec d c w Hh Hwf) as (w1 & E1 & Hf1); [apply (Hu d); left|].
  destruct (IH w1) as (w2 & E2 & Hf2); [by eapply rc_frame_healthy|apply Hf1|done| |].
  { intros d' c' Hin. apply (Hu d'). by right. }
  exists w2. rewrite (bind_ok _ _ _ _ _ E1), E2. split; [done|].
  eapply rc_frame_ext; [|by eapply rc_frame_trans]. intros e. simpl.
  rewrite (frame_rc _ _ _ Hf1). unfold set_fn. destruct (decide (e = d)) as [->|Hne].
  - rewrite lookup_insert_eq. by rewrite (not_elem_of_list_to_map_1 l d).
  - by rewrite lookup_insert_ne.
Qed.

(** The rebuilt count of a reachable digest is its references from the roots and
    from reachable nodes; other counts keep their value. *)
Lemma recompute_spec roots w :
  store_inv w → healthy w → rc_wf w → (∀ d, ¬ corrupted_at w d) → closed w →
  (∀ d, Z.of_nat (occ d roots) + in_refs (node_map w) d < u64_mod)%Z →
  ∃ V w', recompute_all_refcounts roots w = (Ok tt, w') ∧ (∀ d, d ∈ V ↔ reachable w roots d) ∧
    store_inv w' ∧ rc_wf w' ∧ healthy w' ∧ (∀ d, node_file w' d = node_file w d) ∧
    ∀ d, rc w' d = if decide (d ∈ V) then refs w roots V d else rc w d.
Proof.
  intros Hi Hh Hwf Hin Hcl Hb. unfold recompute_all_refcounts.
  pose proof (traverse_rule recompute_body w (count_inv w roots) (λ _ _, False)) as Ht.
  ospecialize (Ht _ _ roots (count_all roots ∅) _).
  { intros V d Q wl Hd []. constructor; try done. by eapply explored_skip. }
  { intros V d Q wl Hd HP. by apply recompute_body_spec. }
  { by apply count_start. }
  unfold mbind, eff_bind. fold (count_all roots ∅).
  destruct (traverse _ _ _ w) as [[counts|e] w1]; [|by destruct Ht].
  destruct Ht as (V & [Hi1 Hd1 Hex Hco Hdo]). simpl in *. pose proof (explored_done _ _ _ Hex) as HV.
  assert (Hrc1 : ∀ d, rc_file w1 d = rc_file w d) by (intros d; unfold rc_file; by destruct Hd1 as [-> ->]).
  destruct (set_all_spec (map_to_list counts) w1) as (w2 & E2 & Hf2).
  { by apply (same_disk_healthy w). }
  { intros d b. rewrite Hrc1. apply Hwf. }
  { apply NoDup_fst_map_to_list. }
  { intros d c Hc%elem_of_map_to_list. pose proof (refs_range w roots Hb V d) as Hr. rewrite <- Hco in Hr.
    unfold count_of in Hr. by rewrite Hc in Hr. }
  exists V, w2. split_and!; [done|done|by eapply rc_frame_inv|apply Hf2|..].
  - eapply rc_frame_healthy; [done|]. by apply (same_disk_healthy w).
  - intros d. rewrite (frame_node _ _ _ Hf2). by apply same_disk_node.
  - intros d. rewrite (frame_rc _ _ _ Hf2), list_to_map_to_list. unfold rc at 1. rewrite Hrc1. fold (rc w d).
    specialize (Hco d). unfold count_of in Hco. destruct (counts !! d) as [c|] eqn:Ec; simpl in *.
    + rewrite decide_True; [done|]. apply HV, Hdo. by rewrite Ec.
    + case_decide as Hd; [|done]. exfalso. unfold refs in Hco.
      pose proof (in_refs_nonneg (visited_map w V) d).
      apply HV in Hd as (r & Hr & [->|(p & Hp & He)]%rtc_inv_r); [apply occ_pos in Hr; lia|].
      assert (Hpv : p ∈ V) by (apply HV; by exists r). unfold edge in He. rewrite children_edges_of in He.
      destruct (node_file w p) as [b|] eqn:Eb; [|by apply not_elem_of_nil in He]. apply occ_pos in He.
      pose proof (map_sum_elem (λ b, Z.of_nat (occ d (edges_of b))) (visited_map w V) p b) as Hs.
      ospecialize (Hs _ _); [intros; simpl; lia| |unfold in_refs in *; simpl in Hs, He; lia].
      apply map_lookup_filter_Some. by rewrite node_map_lookup.
Qed.

(** Without garbage the counts are exact. *)
Lemma recompute_exact_spec roots w :
  store_inv w → healthy w → rc_wf w → (∀ d, ¬ corrupted_at w d) → closed w →
  (∀ d, Z.of_nat (occ d roots) + in_refs (node_map w) d < u64_mod)%Z →
  (∀ d, is_Some (node_file w d) → reachable w roots d) →
  (∀ d, ¬ reachable w roots d → rc w d = 0%Z) →
  ∃ w', recompute_all_refcounts roots w = (Ok tt, w') ∧ store_inv w' ∧ rc_wf w' ∧ healthy w' ∧
    (∀ d, node_file w' d = node_file w d) ∧ rc_exact roots w'.
Proof.
  intros Hi Hh Hwf Hin Hcl Hb Hng Hz.
  destruct (recompute_spec roots w) as (V & w' & E & HV & Hi' & Hwf' & Hh' & Hn & Hrc); [done..|].
  exists w'. split_and!; try done. intros d.
  assert (Hm : node_map w' = node_map w) by (apply map_eq; intros e; by rewrite !node_map_lookup).
  assert (Hv : visited_map w V = node_map w).
  { apply map_filter_id. intros e b He. simpl. apply HV, Hng. rewrite <- node_map_lookup. by rewrite He. }
  rewrite Hrc, Hm. unfold refs. rewrite Hv. case_decide as Hd; [done|].
  assert (Hnr : ¬ reachable w roots d) by (by rewrite <- HV). rewrite Hz by done.
  assert (occ d roots = 0) as ->.
  { destruct (decide (occ d roots = 0)); [done|]. destruct Hnr. apply reachable_root, occ_pos. lia. }
  pose proof (in_refs_nonneg (node_map w) d).
  destruct (decide (in_refs (node_map w) d = 0)%Z) as [->|Hpos]; [done|].
  exfalso. apply Hnr. destruct (in_refs_pos w d) as (p & He); [lia|].
  apply (reachable_step _ _ p); [|done]. by eapply Hng, edge_stored.
Qed.

End recompute.
