(* ===== verification/GcSpec.v ===== *)
(** * Properties of the garbage collector *)

From stdpp Require Import base gmap strings list relations.
From Stdlib Require Import ZArith Ascii Lia.
From S2P Require Import Prelude Strs Crates Node Fs Worklist Store StoreFacts.
From S2P Require Import GcFacts OpLock Gc RefcountFacts RemoveTag.

Section spec.
Context `{Hex, Sha2, Rkyv DagNode, !HexLaws}.

(** ** Garbage collection *)

(** C1: whatever happens in a run of the collector (success, any error, an I/O
    failure in the middle of the sweep), every node reachable from the roots keeps
    its node file and its blob file, and the store invariant holds afterwards. *)
Theorem collect_keeps_reachable g roots w r w' d :
  store_inv (gw_store w) → collect g roots w = (r, w') →
  reachable (gw_store w) roots d → is_Some (node_file (gw_store w) d) →
  node_file (gw_store w') d = node_file (gw_store w) d ∧
  blob_file (gw_store w') d = blob_file (gw_store w) d ∧ store_inv (gw_store w').
Proof. apply collect_keeps. Qed.

(** C2: a forced real run on a healthy store whose roots exist and whose reachable
    nodes parse succeeds, and afterwards a node is on disk exactly if it was on
    disk and is reachable from the roots: everything else is deleted. *)
Theorem collect_exact g roots w :
  store_inv (gw_store w) → healthy (gw_store w) → ops_fault (gw_ops w) = false →
  force g = true → dry_run g = false → roots ≠ [] →
  (∀ r, r ∈ roots → is_Some (node_file (gw_store w) r)) →
  (∀ d, reachable (gw_store w) roots d → ¬ corrupted_at (gw_store w) d) →
  ∃ rep w', collect g roots w = (Ok rep, w') ∧
    ∀ d, is_Some (node_file (gw_store w') d) ↔
         is_Some (node_file (gw_store w) d) ∧ reachable (gw_store w) roots d.
Proof.
  intros Hi Hh Hof Hfo Hdr Hne Hro Hin. destruct (collect g roots w) as [r w'] eqn:Ec.
  destruct (collect_outcome _ _ _ _ _ Hi Ec) as [e _ He _ _|all ns rep ? _ _ _ _|w1 all ns _ Hm Hsw Hgo Hok].
  - exfalso. destruct He as [| |? ?|?|x Hx Hn|x Hx Hc|x ?|p m x ?]; try congruence.
    + apply Hro in Hx. rewrite Hn in Hx. by destruct Hx.
    + by eapply Hin.
  - congruence.
  - destruct r as [rep|e]; [|by destruct (Hok e eq_refl)]. exists rep, w'. split; [done|]. intros d.
    pose proof (marked_disk _ _ _ _ _ Hm) as Hsd. split.
    + intros Hd.
      assert (Hd0 : is_Some (node_file (gw_store w) d)).
      { rewrite <- (same_disk_node _ _ d Hsd). unfold node_file in *. rewrite (swept_root _ _ _ Hsw) in Hd.
        destruct (swept_files _ _ _ Hsw (path_for (root (store w1)) d)) as [<-|[E _]]; [done|].
        rewrite E in Hd. by destruct Hd. }
      split; [done|]. destruct (decide (d ∈ ns)) as [?%(marked_reach _ _ _ _ _ Hm)|Hns]; [tauto|].
      destruct (Hgo rep eq_refl d) as [E _]; [|rewrite E in Hd; by destruct Hd].
      apply list_elem_of_filter. split; [done|]. by apply (marked_all _ _ _ _ _ Hm).
    + intros [Hd Hr]. assert (Hnd : d ∉ dead all ns).
      { intros Hin'. by apply (marked_dead_not_reachable _ _ _ _ _ _ Hm Hd) in Hin'. }
      rewrite <- (same_disk_node _ _ d Hsd) in Hd. unfold node_file in *. rewrite (swept_root _ _ _ Hsw).
      destruct (swept_files _ _ _ Hsw (path_for (root (store w1)) d)) as [->|(_ & e & He & [E|E])];
        [done| |].
      * apply path_for_inj in E. by subst.
      * by apply node_blob_ne in E.
Qed.

(** A run that does not delete (a dry run, or one that a guard stops) leaves
    every file as it was, and the error names its reason: fresh operation locks
    without [force], no roots, a root that is not stored, a corrupted reachable
    node, the size limit, or a failing system call. *)
Lemma collect_refusals g roots w r w' :
  store_inv (gw_store w) → collect g roots w = (r, w') →
  (dry_run g = true ∨ ∃ e, r = Err e ∧ ∀ i, e ≠ GcIo i) →
  os (gw_store w') = os (gw_store w) ∧ (∀ e, r = Err e → stop_reason g roots w e).
Proof.
  intros Hi Hc Hcase.
  destruct (collect_outcome _ _ _ _ _ Hi Hc) as [e -> He Hsd _|all ns rep _ -> [Hsd _ _ _ _ _] _ _|
    w1 all ns Hdr Hm Hsw Hgo Hok].
  - split; [apply Hsd|]. naive_solver.
  - split; [apply Hsd|]. naive_solver.
  - destruct Hcase as [?|(e & -> & Hni)]; [congruence|].
    destruct (Hok e eq_refl) as [_ [i ->]]. by destruct (Hni i).
Qed.

End spec.
