(* ===== verification/Vsock.v ===== *)
(** * The guest protocol: [runtime/pullrun-vsock/src/lib.rs]

    Frames between the host and the in-guest init: 4 bytes of payload length, one
    byte of type, the payload.  A decoder's state is what remains of its buffer;
    it fails with a protocol error or, where the source takes bytes without
    checking that they are there, panics. *)

From stdpp Require Import base gmap strings list.
From Stdlib Require Import ZArith Lia.
From S2P Require Import Prelude Strs Utf8 Crates.

Module FrameType.

Inductive t :=
| InitHello
| WorkloadSpec
| WorkloadStdout
| WorkloadStderr
| WorkloadStdin
| StdinEof
| WorkloadExit
| Error
| WindowSize.

(** The discriminants of the [repr(u8)] enum. *)
Definition to_u8 (ty : t) : Z :=
  match ty with
  | InitHello => 1
  | WorkloadSpec => 2
  | WorkloadStdout => 3
  | WorkloadStderr => 4
  | WorkloadStdin => 5
  | StdinEof => 6
  | WorkloadExit => 7
  | Error => 8
  | WindowSize => 9
  end.

Definition from_u8 (b : Z) : option t :=
  match b with
  | 1 => Some InitHello
  | 2 => Some WorkloadSpec
  | 3 => Some WorkloadStdout
  | 4 => Some WorkloadStderr
  | 5 => Some WorkloadStdin
  | 6 => Some StdinEof
  | 7 => Some WorkloadExit
  | 8 => Some Error
  | 9 => Some WindowSize
  | _ => None
  end%Z.

End FrameType.

Record VsockMount := MkVsockMount { tag : string; destination : string; read_only : bool }.

Inductive Frame :=
| InitHello (workload_id : string) (init_pid : Z)
| WorkloadSpec (command env : list string) (working_dir : string) (tty : bool) (rows cols : Z)
    (mounts : list VsockMount)
| WorkloadStdout (b : bytes)
| WorkloadStderr (b : bytes)
| WorkloadStdin (b : bytes)
| StdinEof
| WorkloadExit (exit_code signal : option Z)
| ErrorFrame (msg : string)
| WindowSize (rows cols : Z).

Definition frame_type (f : Frame) : FrameType.t :=
  match f with
  | InitHello _ _ => FrameType.InitHello
  | WorkloadSpec _ _ _ _ _ _ _ => FrameType.WorkloadSpec
  | WorkloadStdout _ => FrameType.WorkloadStdout
  | WorkloadStderr _ => FrameType.WorkloadStderr
  | WorkloadStdin _ => FrameType.WorkloadStdin
  | StdinEof => FrameType.StdinEof
  | WorkloadExit _ _ => FrameType.WorkloadExit
  | ErrorFrame _ => FrameType.Error
  | WindowSize _ _ => FrameType.WindowSize
  end.

(** [SocketIo] is an I/O error of the stream itself. *)
Inductive ProtocolError :=
| UnexpectedEof (ty : FrameType.t)
| PayloadTooLarge (size : Z)
| Truncated (ty : FrameType.t) (needed got : Z)
| BadUtf8 (ty : FrameType.t)
| SocketIo.

Inductive failure :=
| Protocol (e : ProtocolError)
| Panic.

Definition MAX_PAYLOAD : Z := 16 * 1024 * 1024.
Definition DEFAULT_VSOCK_PORT : Z := 42.

(** A reader of a buffer or of a stream. *)
Abbreviation reader := (eff bytes failure).

Definition remaining (b : bytes) : Z := Z.of_nat (length b).

Section codec.
Context `{ByteBuf}.

(** ** Encoding *)

(** [x as u32] of a length. *)
Definition len_u32 {A} (l : list A) : Z := wrap32 (Z.of_nat (length l)).

Definition write_length_prefixed_string (buf : bytes) (s : string) : bytes :=
  put_u32 buf (len_u32 (as_bytes s)) ++ as_bytes s.

Definition put_bool (buf : bytes) (b : bool) : bytes := put_u8 buf (if b then 1 else 0)%Z.

Definition write_mount (buf : bytes) (m : VsockMount) : bytes :=
  let buf := write_length_prefixed_string buf (tag m) in
  let buf := write_length_prefixed_string buf (destination m) in
  put_bool buf (read_only m).

Definition put_opt (buf : bytes) (o : option Z) : bytes :=
  match o with
  | Some z => put_i32 buf z
  | None => buf
  end.

Definition encode_payload (f : Frame) : bytes :=
  match f with
  | InitHello workload_id init_pid =>
    let buf := put_u32 [] init_pid in
    write_length_prefixed_string buf workload_id
  | WorkloadSpec command env working_dir tty rows cols mounts =>
    let buf := put_u32 [] (len_u32 command) in
    let buf := foldl write_length_prefixed_string buf command in
    let buf := put_u32 buf (len_u32 env) in
    let buf := foldl write_length_prefixed_string buf env in
    let buf := write_length_prefixed_string buf working_dir in
    let buf := put_bool buf tty in
    let buf := put_u32 buf rows in
    let buf := put_u32 buf cols in
    let buf := put_u32 buf (len_u32 mounts) in
    foldl write_mount buf mounts
  | WorkloadStdout b | WorkloadStderr b | WorkloadStdin b => b
  | StdinEof => []
  | WorkloadExit exit_code signal =>
    let flags := 0%Z in
    let flags := if bool_decide (is_Some exit_code) then Z.lor flags 1 else flags in
    let flags := if bool_decide (is_Some signal) then Z.lor flags 2 else flags in
    let buf := put_u8 [] flags in
    let buf := put_opt buf exit_code in
    put_opt buf signal
  | ErrorFrame msg => write_length_prefixed_string [] msg
  | WindowSize rows cols => put_u16 (put_u16 [] rows) cols
  end.

Definition encode (f : Frame) : bytes :=
  let payload := encode_payload f in
  let buf := put_u32 [] (len_u32 payload) in
  let buf := put_u8 buf (FrameType.to_u8 (frame_type f)) in
  buf ++ payload.

(** ** Decoding *)

(** A [Buf] getter, panicking when the bytes are not there. *)
Definition take_raw {A} (g : bytes → option (A * bytes)) : reader A := λ cur,
  match g cur with
  | Some (a, cur') => (Ok a, cur')
  | None => (Err Panic, cur)
  end.

(** [if cur.remaining() < needed { return Err(Truncated { .. }) }]. *)
Definition need (ty : FrameType.t) (needed : Z) : reader unit := λ cur,
  if decide (remaining cur < needed)%Z
  then (Err (Protocol (Truncated ty needed (remaining cur))), cur)
  else (Ok tt, cur).

(** [if cur.remaining() >= n { Some(get) } else { None }]. *)
Definition if_remaining {A} (n : Z) (r : reader A) : reader (option A) := λ cur,
  if decide (remaining cur >= n)%Z then (a ← r; mret (Some a)) cur else (Ok None, cur).

Definition copy_to_bytes (n : Z) : reader bytes := λ cur,
  if decide (remaining cur < n)%Z then (Err Panic, cur)
  else (Ok (take (Z.to_nat n) cur), drop (Z.to_nat n) cur).

Definition read_length_prefixed_string (ty : FrameType.t) : reader string :=
  need ty 4 ;;
  len ← take_raw get_u32;
  need ty len ;;
  b ← copy_to_bytes len;
  match from_utf8 b with
  | Some s => mret s
  | None => throw (Protocol (BadUtf8 ty))
  end.

(** [for _ in 0..n { v.push(r?) }]. *)
Fixpoint read_n {A} (n : nat) (r : reader A) : reader (list A) :=
  match n with
  | O => mret []
  | S n => a ← r; l ← read_n n r; mret (a :: l)
  end.

Definition read_mount (ty : FrameType.t) : reader VsockMount :=
  tag ← read_length_prefixed_string ty;
  destination ← read_length_prefixed_string ty;
  ro ← take_raw get_u8;
  mret (MkVsockMount tag destination (negb (bool_decide (ro = 0%Z)))).

Definition read_opt (ty : FrameType.t) (has : bool) : reader (option Z) :=
  if has then need ty 4 ;; z ← take_raw get_i32; mret (Some z) else mret None.

Definition decode_payload (ty : FrameType.t) : reader Frame :=
  match ty with
  | FrameType.InitHello =>
    need ty 4 ;;
    init_pid ← take_raw get_u32;
    workload_id ← read_length_prefixed_string ty;
    mret (InitHello workload_id init_pid)
  | FrameType.WorkloadSpec =>
    need ty 4 ;;
    n_cmd ← take_raw get_u32;
    command ← read_n (Z.to_nat n_cmd) (read_length_prefixed_string ty);
    need ty 4 ;;
    n_env ← take_raw get_u32;
    env ← read_n (Z.to_nat n_env) (read_length_prefixed_string ty);
    working_dir ← read_length_prefixed_string ty;
    tty ← if_remaining 1 (take_raw get_u8);
    rows ← if_remaining 4 (take_raw get_u32);
    cols ← if_remaining 4 (take_raw get_u32);
    mounts ← if_remaining 4 (n ← take_raw get_u32; read_n (Z.to_nat n) (read_mount ty));
    mret (WorkloadSpec command env working_dir
      (negb (bool_decide (default 0%Z tty = 0%Z))) (default 0%Z rows) (default 0%Z cols)
      (default [] mounts))
  | FrameType.WorkloadStdout => cur ← get_world; mret (WorkloadStdout cur)
  | FrameType.WorkloadStderr => cur ← get_world; mret (WorkloadStderr cur)
  | FrameType.WorkloadStdin => cur ← get_world; mret (WorkloadStdin cur)
  | FrameType.StdinEof => mret StdinEof
  | FrameType.WorkloadExit =>
    need ty 1 ;;
    flags ← take_raw get_u8;
    exit_code ← read_opt ty (negb (bool_decide (Z.land flags 1 = 0%Z)));
    signal ← read_opt ty (negb (bool_decide (Z.land flags 2 = 0%Z)));
    mret (WorkloadExit exit_code signal)
  | FrameType.Error =>
    msg ← read_length_prefixed_string ty;
    mret (ErrorFrame msg)
  | FrameType.WindowSize =>
    need ty 4 ;;
    rows ← take_raw get_u16;
    cols ← take_raw get_u16;
    mret (WindowSize rows cols)
  end.

Definition decode (payload : bytes) (ty : FrameType.t) : result failure Frame :=
  (decode_payload ty payload).1.

(** ** Streams *)

(** [read_exact] of [n] bytes, [e] being what a short stream gives. *)
Definition read_exact (n : nat) (e : ProtocolError) : reader bytes := λ s,
  if decide (n ≤ length s) then (Ok (take n s), drop n s) else (Err (Protocol e), []).

Definition lift_reader {A} (r : reader A) (b : bytes) : reader A := λ s, ((r b).1, s).

Definition read_frame : reader Frame :=
  hdr ← read_exact 5 (UnexpectedEof FrameType.InitHello);
  '(len, ty_byte) ← lift_reader (l ← take_raw get_u32; t ← take_raw get_u8; mret (l, t)) hdr;
  if decide (len > MAX_PAYLOAD)%Z then throw (Protocol (PayloadTooLarge len))
  else
    match FrameType.from_u8 ty_byte with
    | None => throw (Protocol (Truncated FrameType.InitHello 0 0))
    | Some ty =>
      payload ← read_exact (Z.to_nat len) SocketIo;
      lift_reader (decode_payload ty) payload
    end.

(** [write_all] of the encoding to the end of the stream. *)
Definition write_frame (f : Frame) : reader unit := modify_world (λ s, s ++ encode f).

End codec.

(** ** Readers that consume exactly an encoding *)

Definition reads {A} (r : reader A) (e : bytes) (a : A) : Prop := ∀ rest, r (e ++ rest) = (Ok a, rest).

Create HintDb reads discriminated.

Lemma reads_ret {A} (a : A) : reads (mret a) [] a.
Proof. done. Qed.

Lemma reads_bind {A B} (r : reader A) (k : A → reader B) e1 e2 a b :
  reads r e1 a → reads (k a) e2 b → reads (r ≫= k) (e1 ++ e2) b.
Proof. intros H1 H2 rest. rewrite <- app_assoc. erewrite bind_ok by apply H1. apply H2. Qed.

(** The last step of a reader, which consumes nothing. *)
Lemma reads_bind_ret {A B} (r : reader A) (f : A → B) e a :
  reads r e a → reads (x ← r; mret (f x)) e (f a).
Proof. intros Hr rest. by erewrite bind_ok by apply Hr. Qed.

Lemma reads_need {A} ty n (r : reader A) e a :
  (n ≤ Z.of_nat (length e))%Z → reads r e a → reads (need ty n ;; r) e a.
Proof.
  intros Hn Hr rest. unfold mbind, eff_bind, need, remaining.
  rewrite decide_False by (rewrite length_app; lia). apply Hr.
Qed.

Lemma reads_if_remaining {A} n (r : reader A) e a :
  (n ≤ Z.of_nat (length e))%Z → reads r e a → reads (if_remaining n r) e (Some a).
Proof.
  intros Hn Hr rest. unfold if_remaining, remaining.
  rewrite decide_True by (rewrite length_app; lia). by erewrite bind_ok by apply Hr.
Qed.

Lemma reads_n {A} (r : reader A) (enc : A → bytes) l :
  (∀ a, a ∈ l → reads r (enc a) a) → reads (read_n (length l) r) (mjoin (enc <$> l)) l.
Proof.
  induction l as [|a l IH]; intros Hr; [apply reads_ret|].
  change (mjoin (enc <$> a :: l)) with (enc a ++ mjoin (enc <$> l)).
  cbn [length read_n]. eapply reads_bind; [apply Hr; left|].
  apply (reads_bind_ret _ (cons a)). apply IH. intros x Hx. apply Hr. by right.
Qed.

Lemma reads_copy b : reads (copy_to_bytes (Z.of_nat (length b))) b b.
Proof.
  intros rest. unfold copy_to_bytes, remaining. rewrite decide_False by (rewrite length_app; lia).
  rewrite Nat2Z.id. by rewrite take_app_length, drop_app_length.
Qed.

Section laws.
Context `{ByteBuf, !ByteBufLaws}.

Lemma take_be n z rest : take n (be_bytes n z ++ rest) = be_bytes n z.
Proof. by rewrite take_app_length' by (by rewrite length_be_bytes). Qed.

Lemma drop_be n z rest : drop n (be_bytes n z ++ rest) = rest.
Proof. by rewrite drop_app_length' by (by rewrite length_be_bytes). Qed.

Lemma reads_u8 z : is_u8 z → reads (take_raw get_u8) (be_bytes 1 z) z.
Proof.
  intros Hz rest. unfold take_raw. rewrite get_u8_be, decide_True.
  - rewrite take_be, drop_be, from_be_bytes. unfold_widths. rewrite Z.mod_small by done. done.
  - rewrite length_app, length_be_bytes. lia.
Qed.

Lemma reads_u16 z : is_u16 z → reads (take_raw get_u16) (be_bytes 2 z) z.
Proof.
  intros Hz rest. unfold take_raw. rewrite get_u16_be, decide_True.
  - rewrite take_be, drop_be, from_be_bytes. unfold_widths. rewrite Z.mod_small by done. done.
  - rewrite length_app, length_be_bytes. lia.
Qed.

Lemma reads_u32 z : is_u32 z → reads (take_raw get_u32) (be_bytes 4 z) z.
Proof.
  intros Hz rest. unfold take_raw. rewrite get_u32_be, decide_True.
  - rewrite take_be, drop_be, from_be_bytes. unfold_widths. rewrite Z.mod_small by done. done.
  - rewrite length_app, length_be_bytes. lia.
Qed.

Definition is_i32 (z : Z) : Prop := (- 2 ^ 31 ≤ z < 2 ^ 31)%Z.

Lemma to_signed32_wrap z : is_i32 z → to_signed32 (z `mod` 2 ^ 32)%Z = z.
Proof.
  unfold is_i32, to_signed32. intros Hz. destruct (decide (0 ≤ z)%Z) as [Hp|Hn].
  - rewrite Z.mod_small by lia. destruct (Z.ltb_spec z (2 ^ 31)); lia.
  - assert (z `mod` 2 ^ 32 = z + 2 ^ 32)%Z as ->.
    { symmetry. apply (Z.mod_unique_pos _ _ (-1)); lia. }
    destruct (Z.ltb_spec (z + 2 ^ 32) (2 ^ 31)); lia.
Qed.

Lemma reads_i32 z : is_i32 z → reads (take_raw get_i32) (be_bytes 4 z) z.
Proof.
  intros Hz rest. unfold take_raw. rewrite get_i32_be, decide_True.
  - rewrite take_be, drop_be, from_be_bytes.
    change (u8_mod ^ Z.of_nat 4)%Z with (2 ^ 32)%Z. by rewrite to_signed32_wrap.
  - rewrite length_app, length_be_bytes. lia.
Qed.

(** ** Strings and mounts *)

Definition ok_str (s : string) : Prop := utf8 s ∧ (Z.of_nat (length (as_bytes s)) < u32_mod)%Z.

Definition enc_str (s : string) : bytes :=
  be_bytes 4 (Z.of_nat (length (as_bytes s))) ++ as_bytes s.

Lemma len_u32_small {A} (l : list A) :
  (Z.of_nat (length l) < u32_mod)%Z → len_u32 l = Z.of_nat (length l).
Proof. intros Hl. unfold len_u32. apply wrap32_small. unfold is_u32. lia. Qed.

Lemma write_string_enc buf s : ok_str s → write_length_prefixed_string buf s = buf ++ enc_str s.
Proof.
  intros [_ Hl]. unfold write_length_prefixed_string, enc_str.
  by rewrite put_u32_be, len_u32_small, app_assoc.
Qed.

Lemma reads_string ty s : ok_str s → reads (read_length_prefixed_string ty) (enc_str s) s.
Proof.
  intros [Hu Hl]. unfold read_length_prefixed_string, enc_str. set (b := as_bytes s) in *.
  apply reads_need; [rewrite length_app, length_be_bytes; lia|].
  eapply reads_bind; [apply reads_u32; unfold is_u32; lia|].
  apply reads_need; [lia|]. rewrite <- (app_nil_r b) at 2.
  eapply reads_bind; [apply reads_copy|]. unfold b. by rewrite from_utf8_as_bytes.
Qed.

Definition ok_mount (m : VsockMount) : Prop := ok_str (tag m) ∧ ok_str (destination m).

Definition bool_u8 (b : bool) : Z := if b then 1 else 0.

Definition enc_mount (m : VsockMount) : bytes :=
  enc_str (tag m) ++ enc_str (destination m) ++ be_bytes 1 (bool_u8 (read_only m)).

Lemma write_mount_enc buf m : ok_mount m → write_mount buf m = buf ++ enc_mount m.
Proof.
  intros [Ht Hd]. unfold write_mount, put_bool, enc_mount.
  by rewrite put_u8_be, !write_string_enc, <- !app_assoc.
Qed.

Lemma bool_u8_ok b : is_u8 (bool_u8 b) ∧ negb (bool_decide (bool_u8 b = 0%Z)) = b.
Proof. by destruct b. Qed.

Lemma reads_mount ty m : ok_mount m → reads (read_mount ty) (enc_mount m) m.
Proof.
  intros [Ht Hd]. unfold read_mount, enc_mount.
  eapply reads_bind; [by apply reads_string|]. eapply reads_bind; [by apply reads_string|].
  destruct m as [t d ro]. simpl. destruct (bool_u8_ok ro) as [Hu Hb].
  rewrite <- Hb at 2. apply (reads_bind_ret _ (λ x, MkVsockMount t d (negb (bool_decide (x = 0%Z))))).
  by apply reads_u8.
Qed.

(** Writing a list appends the encodings. *)
Lemma foldl_enc {A} (w : bytes → A → bytes) (enc : A → bytes) l buf :
  (∀ a buf, a ∈ l → w buf a = buf ++ enc a) → foldl w buf l = buf ++ mjoin (enc <$> l).
Proof.
  revert buf. induction l as [|a l IH]; intros buf Hw; [by rewrite app_nil_r|].
  cbn [foldl]. rewrite Hw, IH by set_solver.
  change (mjoin (enc <$> a :: l)) with (enc a ++ mjoin (enc <$> l)). by rewrite app_assoc.
Qed.

(** ** Frames *)

Definition ok_list {A} (ok : A → Prop) (l : list A) : Prop :=
  (∀ a, a ∈ l → ok a) ∧ (Z.of_nat (length l) < u32_mod)%Z.

(** What a value of the source's [Frame] satisfies by its types, with lengths that
    fit the 32-bit fields. *)
Definition frame_ok (f : Frame) : Prop :=
  match f with
  | InitHello workload_id init_pid => ok_str workload_id ∧ is_u32 init_pid
  | WorkloadSpec command env working_dir _ rows cols mounts =>
    ok_list ok_str command ∧ ok_list ok_str env ∧ ok_str working_dir ∧
    is_u32 rows ∧ is_u32 cols ∧ ok_list ok_mount mounts
  | WorkloadExit exit_code signal =>
    (∀ z, exit_code = Some z → is_i32 z) ∧ (∀ z, signal = Some z → is_i32 z)
  | ErrorFrame msg => ok_str msg
  | WindowSize rows cols => is_u16 rows ∧ is_u16 cols
  | _ => True
  end.

(** A counted list: the count, then the elements. *)
Lemma reads_counted {A B} (r : reader A) (enc : A → bytes) (ok : A → Prop) l
    (k : list A → reader B) e b :
  ok_list ok l → (∀ a, ok a → reads r (enc a) a) → reads (k l) e b →
  reads (n ← take_raw get_u32; x ← read_n (Z.to_nat n) r; k x)
    (be_bytes 4 (Z.of_nat (length l)) ++ mjoin (enc <$> l) ++ e) b.
Proof.
  intros [Hok Hl] Hr Hk. eapply reads_bind; [apply reads_u32; unfold is_u32; lia|].
  rewrite Nat2Z.id. eapply reads_bind; [|exact Hk]. apply reads_n. auto.
Qed.

Lemma reads_spec command env working_dir tty rows cols mounts :
  frame_ok (WorkloadSpec command env working_dir tty rows cols mounts) →
  reads (decode_payload FrameType.WorkloadSpec)
    (encode_payload (WorkloadSpec command env working_dir tty rows cols mounts))
    (WorkloadSpec command env working_dir tty rows cols mounts).
Proof.
  intros ([Hc Hcl] & [He Hel] & Hw & Hr & Hco & [Hm Hml]). unfold encode_payload.
  rewrite (foldl_enc write_mount enc_mount) by auto using write_mount_enc.
  unfold put_bool. fold (bool_u8 tty). rewrite !put_u32_be, put_u8_be, write_string_enc by done.
  rewrite !(foldl_enc write_length_prefixed_string enc_str) by auto using write_string_enc.
  rewrite !len_u32_small by done. rewrite app_nil_l, <- !app_assoc.
  unfold decode_payload.
  apply reads_need; [rewrite length_app, length_be_bytes; lia|].
  apply (reads_counted _ _ ok_str); [done|by apply reads_string|].
  apply reads_need; [rewrite length_app, length_be_bytes; lia|].
  apply (reads_counted _ _ ok_str); [done|by apply reads_string|].
  eapply reads_bind; [by apply reads_string|]. destruct (bool_u8_ok tty) as [Hu Hb].
  eapply reads_bind; [apply reads_if_remaining; [by rewrite length_be_bytes|by apply reads_u8]|].
  eapply reads_bind; [apply reads_if_remaining; [by rewrite length_be_bytes|by apply reads_u32]|].
  eapply reads_bind; [apply reads_if_remaining; [by rewrite length_be_bytes|by apply reads_u32]|].
  cbn [from_option]. unfold id. rewrite Hb.
  apply (reads_bind_ret _ (λ ms, WorkloadSpec command env working_dir tty rows cols (from_option (λ x, x) [] ms))
    _ (Some mounts)).
  apply reads_if_remaining; [rewrite length_app, length_be_bytes; lia|].
  eapply reads_bind; [apply reads_u32; unfold is_u32; lia|]. rewrite Nat2Z.id.
  apply reads_n. auto using reads_mount.
Qed.

Lemma reads_read_opt ty o :
  (∀ z, o = Some z → is_i32 z) →
  reads (read_opt ty (bool_decide (is_Some o))) (from_option (be_bytes 4) [] o) o.
Proof.
  intros Ho. unfold read_opt. destruct o as [z|]; simpl; [|apply reads_ret].
  apply reads_need; [by rewrite length_be_bytes|].
  apply (reads_bind_ret _ Some). apply reads_i32. auto.
Qed.

Lemma put_opt_enc buf o : put_opt buf o = buf ++ from_option (be_bytes 4) [] o.
Proof. destruct o; simpl; [apply put_i32_be|by rewrite app_nil_r]. Qed.

Lemma reads_exit exit_code signal :
  frame_ok (WorkloadExit exit_code signal) →
  reads (decode_payload FrameType.WorkloadExit) (encode_payload (WorkloadExit exit_code signal))
    (WorkloadExit exit_code signal).
Proof.
  intros [Hc Hs]. unfold encode_payload. rewrite !put_opt_enc, put_u8_be, app_nil_l.
  set (flags := if bool_decide (is_Some signal) then _ else _).
  assert (is_u8 flags ∧ negb (bool_decide (Z.land flags 1 = 0%Z)) = bool_decide (is_Some exit_code) ∧
    negb (bool_decide (Z.land flags 2 = 0%Z)) = bool_decide (is_Some signal)) as (Hf & H1 & H2).
  { unfold flags. by destruct exit_code, signal. }
  unfold decode_payload. rewrite <- app_assoc.
  apply reads_need; [rewrite length_app, length_be_bytes; lia|].
  eapply reads_bind; [by apply reads_u8|]. rewrite H1, H2.
  eapply reads_bind; [by apply reads_read_opt|].
  apply (reads_bind_ret _ (WorkloadExit exit_code)). by apply reads_read_opt.
Qed.

Lemma decode_encode_payload f :
  frame_ok f → (decode_payload (frame_type f) (encode_payload f)).1 = Ok f.
Proof.
  intros Hf. assert (Hr : ∀ e, reads (decode_payload (frame_type f)) e f →
    (decode_payload (frame_type f) e).1 = Ok f).
  { intros e He. specialize (He []). rewrite app_nil_r in He. by rewrite He. }
  destruct f as [id pid|cmd env wd tty rows cols ms|b|b|b| |c sg|msg|rows cols]; try done; apply Hr.
  - destruct Hf as [Hs Hp]. cbn [encode_payload frame_type]. rewrite write_string_enc, put_u32_be by done.
    apply reads_need; [rewrite !length_app, length_be_bytes; lia|].
    eapply reads_bind; [by apply reads_u32|]. apply (reads_bind_ret _ (λ s, InitHello s pid)).
    by apply reads_string.
  - by apply reads_spec.
  - by apply reads_exit.
  - cbn [encode_payload frame_type]. rewrite write_string_enc by done.
    apply (reads_bind_ret _ ErrorFrame). by apply reads_string.
  - destruct Hf. cbn [encode_payload frame_type]. rewrite !put_u16_be. cbn [app].
    apply reads_need; [rewrite length_app, !length_be_bytes; lia|].
    eapply reads_bind; [by apply reads_u16|]. apply (reads_bind_ret _ (WindowSize rows)).
    by apply reads_u16.
Qed.

Lemma from_u8_to_u8 ty : FrameType.from_u8 (FrameType.to_u8 ty) = Some ty.
Proof. by destruct ty. Qed.

Lemma encode_enc f :
  (Z.of_nat (length (encode_payload f)) < u32_mod)%Z →
  encode f = be_bytes 4 (Z.of_nat (length (encode_payload f))) ++
    be_bytes 1 (FrameType.to_u8 (frame_type f)) ++ encode_payload f.
Proof. intros Hl. unfold encode. by rewrite put_u8_be, put_u32_be, len_u32_small, <- !app_assoc. Qed.

Lemma reads_exact b e : reads (read_exact (length b) e) b b.
Proof.
  intros rest. unfold read_exact. rewrite decide_True by (rewrite length_app; lia).
  by rewrite take_app_length, drop_app_length.
Qed.

(** The header of a frame, from the stream. *)
Lemma read_header len ty rest :
  is_u32 len → is_u8 ty →
  ∀ {A} (k : Z → Z → reader A),
  (hdr ← read_exact 5 (UnexpectedEof FrameType.InitHello);
   '(len, ty_byte) ← lift_reader (l ← take_raw get_u32; t ← take_raw get_u8; mret (l, t)) hdr;
   k len ty_byte) (be_bytes 4 len ++ be_bytes 1 ty ++ rest) = k len ty rest.
Proof.
  intros Hl Ht A k. set (hdr := be_bytes 4 len ++ be_bytes 1 ty).
  assert (length hdr = 5) as H5 by (unfold hdr; by rewrite length_app, !length_be_bytes).
  rewrite app_assoc. fold hdr. rewrite <- H5. erewrite bind_ok by apply reads_exact.
  assert (reads (l ← take_raw get_u32; t ← take_raw get_u8; mret (l, t)) hdr (len, ty)) as Hr.
  { eapply reads_bind; [by apply reads_u32|]. apply (reads_bind_ret _ (pair len)). by apply reads_u8. }
  specialize (Hr []). rewrite app_nil_r in Hr.
  erewrite bind_ok by (unfold lift_reader; by rewrite Hr). done.
Qed.

End laws.

Section spec.
Context `{ByteBuf, !ByteBufLaws}.

Definition sendable (f : Frame) : Prop :=
  frame_ok f ∧ (Z.of_nat (length (encode_payload f)) ≤ MAX_PAYLOAD)%Z.

Lemma reads_frame f : sendable f → reads read_frame (encode f) f.
Proof.
  intros [Hf Hl] rest. unfold MAX_PAYLOAD in Hl.
  assert (Z.of_nat (length (encode_payload f)) < u32_mod)%Z by (unfold u32_mod; lia).
  rewrite encode_enc, <- !app_assoc by done. unfold read_frame.
  rewrite read_header; [|unfold is_u32; lia|by destruct f].
  rewrite decide_False by (unfold MAX_PAYLOAD; lia). rewrite from_u8_to_u8, Nat2Z.id.
  erewrite bind_ok by apply reads_exact. unfold lift_reader. by rewrite decode_encode_payload.
Qed.

(** C35: framing is faithful.  Writing frames one after the other to a stream and
    reading as many back gives the same frames in the same order and leaves
    whatever follows them, for frames whose strings and counts fit their fields
    and whose payload is within the limit. *)
Theorem stream_roundtrip fs rest :
  (∀ f, f ∈ fs → sendable f) →
  read_n (length fs) read_frame ((for_each write_frame fs []).2 ++ rest) = (Ok fs, rest).
Proof.
  intros Hfs. assert (Hw : ∀ s, (for_each write_frame fs s).2 = s ++ mjoin (encode <$> fs)).
  { clear. induction fs as [|f fs IH]; intros s; [by rewrite app_nil_r|].
    change (mjoin (encode <$> f :: fs)) with (encode f ++ mjoin (encode <$> fs)).
    cbn [for_each]. unfold mbind, eff_bind, write_frame at 1, modify_world. by rewrite IH, app_assoc. }
  rewrite Hw. apply reads_n. intros f Hf. apply reads_frame. auto.
Qed.

(** A receiver refuses a frame from its header alone.  A declared length above
    16 MiB gives [PayloadTooLarge] and an unknown type an error, whatever follows;
    in both cases nothing of the payload has been read. *)
Lemma read_frame_refuses len ty rest :
  is_u32 len → is_u8 ty →
  let s := be_bytes 4 len ++ be_bytes 1 ty ++ rest in
  ((len > MAX_PAYLOAD)%Z → read_frame s = (Err (Protocol (PayloadTooLarge len)), rest)) ∧
  ((len ≤ MAX_PAYLOAD)%Z → FrameType.from_u8 ty = None →
     read_frame s = (Err (Protocol (Truncated FrameType.InitHello 0 0)), rest)).
Proof.
  intros Hl Ht s. unfold s, read_frame. split.
  - intros Hgt. rewrite (read_header len ty rest Hl Ht). by rewrite decide_True.
  - intros Hle Hty. rewrite (read_header len ty rest Hl Ht). rewrite decide_False by lia. by rewrite Hty.
Qed.

(** ** Panics *)

Definition no_panic {A} (r : reader A) : Prop := ∀ cur, (r cur).1 ≠ Err Panic.

Lemma no_panic_bind {A B} (r : reader A) (k : A → reader B) :
  no_panic r → (∀ a, no_panic (k a)) → no_panic (r ≫= k).
Proof.
  intros Hr Hk cur. unfold mbind, eff_bind. specialize (Hr cur).
  destruct (r cur) as [[a|e] cur']; [apply Hk|]. simpl in *. congruence.
Qed.

Lemma no_panic_ret {A} (a : A) : no_panic (mret a).
Proof. done. Qed.

(** Checking the length first makes a getter safe. *)
Lemma no_panic_need {A B} ty n (g : bytes → option (A * bytes)) (k : A → reader B) :
  (∀ cur, (n ≤ remaining cur)%Z → is_Some (g cur)) → (∀ a, no_panic (k a)) →
  no_panic (need ty n ;; x ← take_raw g; k x).
Proof.
  intros Hg Hk cur. unfold mbind, eff_bind, need, take_raw. case_decide as Hn; [done|].
  destruct (Hg cur) as [[a cur'] ->]; [lia|]. apply Hk.
Qed.

Lemma get_u32_some cur : (4 ≤ remaining cur)%Z → is_Some (get_u32 cur).
Proof. unfold remaining. intros Hl. rewrite get_u32_be, decide_True by lia. done. Qed.

Lemma get_i32_some cur : (4 ≤ remaining cur)%Z → is_Some (get_i32 cur).
Proof. unfold remaining. intros Hl. rewrite get_i32_be, decide_True by lia. done. Qed.

Lemma get_u8_some cur : (1 ≤ remaining cur)%Z → is_Some (get_u8 cur).
Proof. unfold remaining. intros Hl. rewrite get_u8_be, decide_True by lia. done. Qed.

Lemma no_panic_string ty : no_panic (read_length_prefixed_string ty).
Proof.
  unfold read_length_prefixed_string. apply no_panic_need; [apply get_u32_some|].
  intros n cur. unfold mbind, eff_bind, need, copy_to_bytes. case_decide; [done|].
  rewrite decide_False by done. by destruct (from_utf8 _).
Qed.

Lemma no_panic_opt ty has : no_panic (read_opt ty has).
Proof.
  unfold read_opt. destruct has; [|apply no_panic_ret].
  apply no_panic_need; [apply get_i32_some|]. intros z. apply no_panic_ret.
Qed.

(** No payload of any frame type except [WorkloadSpec] makes the decoder
    panic: every shortage is an error. *)
Lemma decode_no_panic ty payload :
  ty ≠ FrameType.WorkloadSpec → decode payload ty ≠ Err Panic.
Proof.
  intros Hty. unfold decode. revert payload. change (no_panic (decode_payload ty)).
  destruct ty; try done; unfold decode_payload.
  - apply no_panic_need; [apply get_u32_some|]. intros pid.
    apply no_panic_bind; [apply no_panic_string|]. done.
  - apply no_panic_need; [apply get_u8_some|]. intros flags.
    apply no_panic_bind; [apply no_panic_opt|]. intros c.
    apply no_panic_bind; [apply no_panic_opt|]. done.
  - apply no_panic_bind; [apply no_panic_string|]. done.
  - intros cur. unfold mbind, eff_bind, need, take_raw, remaining. case_decide; [done|].
    rewrite get_u16_be, decide_True by lia. rewrite get_u16_be, length_drop, decide_True by lia. done.
Qed.

(** A [WorkloadSpec] payload that ends after the strings of its only mount. *)
Definition short_mount : bytes :=
  be_bytes 4 0 ++ be_bytes 4 0 ++ be_bytes 4 0 ++ be_bytes 1 0 ++ be_bytes 4 0 ++ be_bytes 4 0 ++
  be_bytes 4 1 ++ be_bytes 4 0 ++ be_bytes 4 0.

(** The exception is real.  A [WorkloadSpec] payload whose mount lacks its
    last byte, the read-only flag, makes the decoder panic instead of reporting a
    truncated frame. *)
Lemma decode_spec_panics : decode short_mount FrameType.WorkloadSpec = Err Panic.
Proof.
  assert (Hes : enc_str EmptyString = be_bytes 4 0) by (unfold enc_str; by rewrite app_nil_r).
  assert (Hs : reads (read_length_prefixed_string FrameType.WorkloadSpec) (be_bytes 4 0) EmptyString)
    by (rewrite <- Hes; by apply reads_string).
  assert (Hu : ∀ z, is_u32 z → reads (take_raw get_u32) (be_bytes 4 z) z) by apply reads_u32.
  assert (Hif : ∀ {A} n (r : reader A) e a, (n ≤ Z.of_nat (length e))%Z → reads r e a →
    reads (if_remaining n r) e (Some a)) by (intros; by apply reads_if_remaining).
  assert (Hm : (take_raw get_u32 ≫= λ n, read_n (Z.to_nat n) (read_mount FrameType.WorkloadSpec))
    (be_bytes 4 1 ++ be_bytes 4 0 ++ be_bytes 4 0) = (Err Panic, [])).
  { erewrite bind_ok by (apply Hu; done). change (Z.to_nat 1) with 1. cbn [read_n]. apply bind_err.
    unfold read_mount. erewrite bind_ok by apply Hs. rewrite <- (app_nil_r (be_bytes 4 0)).
    erewrite bind_ok by apply Hs. apply bind_err. unfold take_raw. by rewrite get_u8_be. }
  unfold decode, short_mount. cbn [decode_payload].
  assert (Hneed : ∀ {A} z rest (k : reader A), is_u32 z →
    (need FrameType.WorkloadSpec 4 ;; k) (be_bytes 4 z ++ rest) = k (be_bytes 4 z ++ rest)).
  { intros A z rest k _. unfold mbind, eff_bind, need, remaining.
    by rewrite decide_False by (rewrite length_app, length_be_bytes; lia). }
  rewrite Hneed by done. erewrite bind_ok by (apply Hu; done). erewrite bind_ok by done.
  rewrite Hneed by done. erewrite bind_ok by (apply Hu; done). erewrite bind_ok by done.
  erewrite bind_ok by apply Hs.
  erewrite bind_ok by (apply Hif; [by rewrite length_be_bytes|by apply reads_u8]).
  erewrite bind_ok by (apply Hif; [by rewrite length_be_bytes|by apply Hu]).
  erewrite bind_ok by (apply Hif; [by rewrite length_be_bytes|by apply Hu]).
  erewrite bind_err; [done|]. unfold if_remaining, remaining.
  rewrite decide_True by (rewrite !length_app, !length_be_bytes; lia). by apply bind_err.
Qed.

End spec.
