(* ===== verification/Ipam.v ===== *)
(** * Address management: [runtime/pullrun-net/src/ipam.rs]

    A range of IPv4 addresses (as [u32]), a counter for single addresses, and a
    second allocator that hands out one /24 per key and host addresses within it.
    The atomics and mutexes are the fields of the state; the compare-and-exchange
    loop of [allocate] is also given as a step relation of competing threads. *)

From stdpp Require Import base gmap strings list relations.
From Stdlib Require Import ZArith Ascii Lia.
From S2P Require Import Prelude Strs Utf8.

Record IpRange := MkIpRange { base : Z; size : Z }.

Inductive CidrError :=
| InvalidCidr (cidr : string)
| InvalidIp (s : string)
| InvalidPrefix (s : string)
| PrefixTooLong (prefix : Z).

(** [1u32 << n]: in a release build the shift amount is taken modulo 32. *)
Definition shl1 (n : Z) : Z := wrap32 (Z.shiftl 1 (n `mod` 32)).

Definition not32 (z : Z) : Z := (u32_mod - 1 - z)%Z.

Definition range_from_cidr (cidr : string) : result CidrError IpRange :=
  match split cidr "/"%char with
  | [addr; len] =>
    ip_int ← ok_or (parse_ipv4 addr) (InvalidIp addr);
    prefix ← ok_or (parse_u32 len) (InvalidPrefix len);
    if decide (prefix > 32)%Z then Err (PrefixTooLong prefix)
    else
      let mask := if decide (prefix = 0)%Z then 0%Z
                  else not32 (wrap32 (shl1 (32 - prefix) - 1)) in
      let base := Z.land ip_int mask in
      let size := shl1 (32 - prefix) in
      Ok (MkIpRange base size)
  | _ => Err (InvalidCidr cidr)
  end.

Definition to_ip (r : IpRange) (offset : Z) : Z := wrap32 (base r + offset).

Record Ipam := MkIpam {
  range : IpRange;
  next : Z;
  next_subnet : Z;
  subnets : gmap string IpRange;
  next_in_subnet : gmap Z Z;
}.

Definition Ipam_new (r : IpRange) : Ipam := MkIpam r 2 0 ∅ ∅.

Definition Ipam_from_cidr (cidr : string) : result CidrError Ipam :=
  r ← range_from_cidr cidr; Ok (Ipam_new r).

(** The copy shares nothing with the original: the counters are copied by value
    and the subnet maps start empty. *)
Definition Ipam_clone (i : Ipam) : Ipam := MkIpam (range i) (next i) (next_subnet i) ∅ ∅.

Definition exhausted (i : Ipam) (current : Z) : bool :=
  bool_decide (current >= wrap32 (size (range i) - 1))%Z.

(** [allocate], run without interference. *)
Definition allocate (i : Ipam) : option Z * Ipam :=
  let current := next i in
  if exhausted i current then (None, i)
  else (Some (wrap32 (base (range i) + current)),
        MkIpam (range i) (wrap32 (current + 1)) (next_subnet i) (subnets i) (next_in_subnet i)).

(** *** Routes of the host *)

(** [u32::swap_bytes]. *)
Definition swap_bytes (z : Z) : Z := from_le (be_bytes 4 z).

(** The /24 destinations of [/proc/net/route] inside the range. *)
Definition route_line (base size : Z) (line : string) : option Z :=
  let fields := split_whitespace line in
  if decide (length fields < 8) then None
  else
    dest ← from_str_radix 16 u32_mod (default EmptyString (fields !! 1));
    mask ← from_str_radix 16 u32_mod (default EmptyString (fields !! 7));
    let dest := swap_bytes dest in
    let mask := swap_bytes mask in
    if decide (mask = 0xFFFFFF00)%Z then
      if decide (dest >= base ∧ dest < wrap32 (base + size))%Z then Some dest else None
    else None.

Definition live_subnets_in_range (routes : option string) (base size : Z) : gset Z :=
  match routes with
  | None => ∅
  | Some contents => list_to_set (omap (route_line base size) (drop 1 (lines contents)))
  end.

(** *** Subnets *)

Definition subnet_size : Z := 256.

Definition with_next_subnet (n : Z) (i : Ipam) : Ipam :=
  MkIpam (range i) (next i) n (subnets i) (next_in_subnet i).

(** The [for _ in 0..64] loop: the first index whose /24 is free. *)
Fixpoint find_subnet (fuel : nat) (live : gset Z) (key : string) (i : Ipam) : option IpRange * Ipam :=
  match fuel with
  | O => (None, i)
  | S fuel =>
    let idx := next_subnet i in
    let i := with_next_subnet (wrap32 (idx + 1)) i in
    if decide (wrap32 (wrap32 (idx + 1) * subnet_size) > size (range i))%Z then (None, i)
    else
      let subnet := MkIpRange (wrap32 (base (range i) + wrap32 (idx * subnet_size))) subnet_size in
      if decide (base subnet ∈ live) then find_subnet fuel live key i
      else if bool_decide (map_Exists (λ _ s, base s = base subnet) (subnets i))
      then find_subnet fuel live key i
      else (Some subnet,
            MkIpam (range i) (next i) (next_subnet i) (<[key := subnet]> (subnets i))
              (next_in_subnet i))
  end.

Definition subnet_for (routes : option string) (key : string) (i : Ipam) : option IpRange * Ipam :=
  match subnets i !! key with
  | Some existing => (Some existing, i)
  | None =>
    let live := live_subnets_in_range routes (base (range i)) (size (range i)) in
    find_subnet 64 live key i
  end.

Definition allocate_in (subnet : IpRange) (i : Ipam) : option Z * Ipam :=
  let current := default 2%Z (next_in_subnet i !! base subnet) in
  let set n := MkIpam (range i) (next i) (next_subnet i) (subnets i)
                 (<[base subnet := n]> (next_in_subnet i)) in
  if decide (current >= wrap32 (size subnet - 1))%Z then (None, set current)
  else (Some (wrap32 (base subnet + current)), set (wrap32 (current + 1))).

Definition release (ip : Z) (i : Ipam) : Ipam := i.
Definition gateway (i : Ipam) : Z := wrap32 (base (range i) + 1).

(** ** [allocate] under competition

    Each thread loads the counter, then exchanges it against what it loaded and
    starts over if it has changed meanwhile. *)

Inductive thread :=
| Idle
| Loaded (current : Z)
| Got (ip : Z)
| Exhausted.

Record alloc_state := MkAlloc { counter : Z; threads : gmap nat thread }.

Inductive alloc_step (r : IpRange) : alloc_state → alloc_state → Prop :=
| step_load t c ts :
    ts !! t = Some Idle → (c < wrap32 (size r - 1))%Z →
    alloc_step r (MkAlloc c ts) (MkAlloc c (<[t := Loaded c]> ts))
| step_none t c ts :
    ts !! t = Some Idle → (c >= wrap32 (size r - 1))%Z →
    alloc_step r (MkAlloc c ts) (MkAlloc c (<[t := Exhausted]> ts))
| step_cas t c ts :
    ts !! t = Some (Loaded c) →
    alloc_step r (MkAlloc c ts)
      (MkAlloc (wrap32 (c + 1)) (<[t := Got (wrap32 (base r + c))]> ts))
| step_retry t c c' ts :
    ts !! t = Some (Loaded c') → c' ≠ c →
    alloc_step r (MkAlloc c ts) (MkAlloc c (<[t := Idle]> ts)).

(** A range of at least two addresses inside the address space. *)
Definition range_ok (r : IpRange) : Prop :=
  (0 ≤ base r ∧ 2 ≤ size r ∧ base r + size r ≤ u32_mod ∧ size r < u32_mod)%Z.

Lemma range_wraps r :
  range_ok r → wrap32 (size r - 1) = (size r - 1)%Z ∧
  ∀ c, (0 ≤ c < size r)%Z → wrap32 (base r + c) = (base r + c)%Z ∧ wrap32 (c + 1) = (c + 1)%Z.
Proof.
  intros (Hb & Hs & Hbs & Hlt). split; [apply wrap32_small; unfold is_u32; lia|].
  intros c Hc. split; apply wrap32_small; unfold is_u32; lia.
Qed.

(** ** Parsing a range *)

Lemma land_mask ip k :
  is_u32 ip → (0 ≤ k ≤ 32)%Z →
  Z.land ip (2 ^ 32 - 2 ^ k) = ((ip `div` 2 ^ k) * 2 ^ k)%Z.
Proof.
  intros Hip Hk. assert (Hp : (0 < 2 ^ k)%Z) by (apply Z.pow_pos_nonneg; lia).
  assert (2 ^ 32 = 2 ^ (32 - k) * 2 ^ k)%Z as Hsp by (rewrite <- Z.pow_add_r by lia; f_equal; lia).
  assert (2 ^ 32 - 2 ^ k = Z.ldiff (Z.ones 32) (Z.ones k))%Z as ->.
  { rewrite Z.ldiff_ones_r, Z.shiftl_mul_pow2, Z.shiftr_div_pow2 by lia.
    rewrite Z.ones_equiv. assert (Z.pred (2 ^ 32) `div` 2 ^ k = 2 ^ (32 - k) - 1)%Z as ->; [|lia].
    symmetry. apply (Z.div_unique_pos _ _ _ (2 ^ k - 1)); lia. }
  rewrite Z.ldiff_land, Z.land_assoc, Z.land_ones by lia. rewrite <- Z.ldiff_land.
  unfold is_u32, u32_mod in Hip. rewrite Z.mod_small by done.
  by rewrite Z.ldiff_ones_r, Z.shiftl_mul_pow2, Z.shiftr_div_pow2 by lia.
Qed.

Lemma shl1_pow n : (0 ≤ n < 32)%Z → shl1 n = (2 ^ n)%Z.
Proof.
  intros Hn. unfold shl1. rewrite Z.mod_small by lia. rewrite Z.shiftl_mul_pow2, Z.mul_1_l by lia.
  apply wrap32_small. unfold is_u32, u32_mod. split; [apply Z.pow_nonneg; lia|].
  apply Z.pow_lt_mono_r; lia.
Qed.

(** A parsed CIDR block with a prefix of 1 to 32 bits is the aligned block of
    [2^(32-prefix)] addresses that contains the written address; texts without
    exactly one slash, with a bad address or prefix, or a prefix above 32 are
    errors. *)
Lemma range_from_cidr_spec cidr r :
  range_from_cidr cidr = Ok r →
  ∃ addr len ip prefix, split cidr "/"%char = [addr; len] ∧ parse_ipv4 addr = Some ip ∧
    parse_u32 len = Some prefix ∧ (0 ≤ prefix ≤ 32)%Z ∧
    ((1 ≤ prefix)%Z → size r = (2 ^ (32 - prefix))%Z ∧ (base r `mod` size r = 0)%Z ∧
       (base r ≤ ip < base r + size r)%Z ∧ (base r + size r ≤ u32_mod)%Z).
Proof.
  unfold range_from_cidr. intros Hr. destruct (split cidr _) as [|addr [|len [|? ?]]]; try done.
  destruct (parse_ipv4 addr) as [ip|] eqn:Ei; simpl in Hr; [|done].
  destruct (parse_u32 len) as [prefix|] eqn:Ep; simpl in Hr; [|done].
  apply parse_ipv4_range in Ei as Hip. apply from_str_radix_range in Ep as Hp; [|done].
  case_decide as H32; [done|]. simplify_eq. exists addr, len, ip, prefix.
  split; [done|]. split; [done|]. split; [done|]. split; [lia|]. intros H1. simpl. rewrite decide_False by lia.
  rewrite !shl1_pow by lia. set (k := (32 - prefix)%Z).
  assert (Hk : (0 < 2 ^ k)%Z) by (apply Z.pow_pos_nonneg; lia).
  assert (2 ^ k * 2 ^ prefix = u32_mod)%Z as Hsp
    by (unfold u32_mod; rewrite <- Z.pow_add_r by lia; f_equal; lia).
  assert (Hpp : (2 ≤ 2 ^ prefix)%Z).
  { change 2%Z with (2 ^ 1)%Z at 1. apply Z.pow_le_mono_r; lia. }
  assert (not32 (wrap32 (2 ^ k - 1)) = 2 ^ 32 - 2 ^ k)%Z as ->.
  { unfold not32. rewrite wrap32_small by (unfold is_u32; nia). unfold u32_mod. lia. }
  rewrite land_mask by (try done; lia). unfold is_u32 in Hip.
  pose proof (Z.div_mod ip (2 ^ k) ltac:(lia)). pose proof (Z.mod_pos_bound ip (2 ^ k) Hk).
  assert (ip `div` 2 ^ k < 2 ^ prefix)%Z by (apply Z.div_lt_upper_bound; lia).
  split_and!; [done|by rewrite Z.mod_mul by lia|lia|lia|nia].
Qed.

(** ** Single addresses, by competing threads *)

Record alloc_inv (r : IpRange) (s : alloc_state) : Prop := {
  ai_counter : (2 ≤ counter s ≤ Z.max 2 (size r - 1))%Z;
  ai_loaded t c : threads s !! t = Some (Loaded c) → (2 ≤ c < size r - 1)%Z;
  ai_got t ip : threads s !! t = Some (Got ip) → (base r + 2 ≤ ip < base r + counter s)%Z;
  ai_unique t t' ip :
    threads s !! t = Some (Got ip) → threads s !! t' = Some (Got ip) → t = t';
}.

Ltac split_inserts :=
  constructor; simpl; [done|..]; intros;
  repeat match goal with
         | H : <[_ := _]> _ !! _ = Some _ |- _ => apply lookup_insert_Some in H as [[? ?]|[? ?]]
         end; simplify_eq; eauto.

Lemma alloc_inv_step r s s' : range_ok r → alloc_inv r s → alloc_step r s s' → alloc_inv r s'.
Proof.
  intros Hr [Hc Hl Hg Hu] Hst. destruct (range_wraps r Hr) as [Hw Hwc]. destruct Hr as (? & ? & ? & ?).
  destruct Hst as [t c ts Ht Hlt|t c ts Ht Hge|t c ts Ht|t c c' ts Ht Hne]; simpl in *.
  - rewrite Hw in Hlt. split_inserts. lia.
  - split_inserts.
  - pose proof (Hl _ _ Ht). destruct (Hwc c) as [-> ->]; [lia|].
    constructor; simpl; [lia|..].
    + intros t0 c0 [[_ [=]]|[_ ?]]%lookup_insert_Some. eauto.
    + intros t0 ip [[_ [= <-]]|[_ Hg0%Hg]]%lookup_insert_Some; lia.
    + intros t0 t' ip [[<- [= <-]]|[_ E1]]%lookup_insert_Some
        [[<- E]|[_ E2]]%lookup_insert_Some; [done| | |eauto].
      * apply Hg in E2. lia.
      * apply Hg in E1. simplify_eq. lia.
  - split_inserts.
Qed.

(** C36: however the threads interleave, two threads never get the same address,
    and every address handed out lies strictly between the gateway and the last
    address of the range. *)
Theorem allocate_unique r ts s t t' ip ip' :
  range_ok r → (∀ t th, ts !! t = Some th → th = Idle) →
  rtc (alloc_step r) (MkAlloc 2 ts) s →
  threads s !! t = Some (Got ip) → threads s !! t' = Some (Got ip') →
  (t ≠ t' → ip ≠ ip') ∧ (base r + 1 < ip < base r + size r - 1)%Z.
Proof.
  intros Hr Hidle Hsteps Hg Hg'.
  assert (alloc_inv r s) as [Hc _ Hgo Hu].
  { clear Hg Hg'. assert (alloc_inv r (MkAlloc 2 ts)) as H0.
    { constructor; simpl; [lia|..]; intros; exfalso; naive_solver. }
    clear Hidle. induction Hsteps; eauto using alloc_inv_step. }
  apply Hgo in Hg as Hb. destruct Hr as (? & ? & ? & ?). split; [|lia].
  intros Hne ->. by apply Hne, (Hu _ _ ip').
Qed.

(** ** Subnets *)

(** Every recorded subnet is an aligned /24 inside the range, and no two keys
    share one. *)
Record subnets_inv (i : Ipam) : Prop := {
  si_shape k s : subnets i !! k = Some s → size s = subnet_size ∧
    ∃ idx, (0 ≤ idx)%Z ∧ base s = (base (range i) + idx * subnet_size)%Z ∧
           ((idx + 1) * subnet_size ≤ size (range i))%Z;
  si_unique k k' s s' :
    subnets i !! k = Some s → subnets i !! k' = Some s' → base s = base s' → k = k';
}.

Lemma find_subnet_spec fuel live key i o i' :
  range_ok (range i) → (0 ≤ next_subnet i)%Z → (next_subnet i + Z.of_nat fuel < 2 ^ 24)%Z →
  subnets_inv i → subnets i !! key = None → find_subnet fuel live key i = (o, i') →
  range i' = range i ∧ subnets_inv i' ∧
  match o with
  | None => subnets i' = subnets i
  | Some s => subnets i' = <[key := s]> (subnets i) ∧ base s ∉ live
  end.
Proof.
  revert i. induction fuel as [|fuel IH]; intros i Hr Hn Hlt Hinv Hk; cbn [find_subnet].
  { by intros [= <- <-]. }
  set (idx := next_subnet i) in *.
  rewrite (wrap32_small (idx + 1)) by (unfold is_u32, u32_mod; lia).
  rewrite (wrap32_small ((idx + 1) * subnet_size)) by (unfold is_u32, u32_mod, subnet_size; lia).
  set (i1 := with_next_subnet (idx + 1) i).
  assert (Hinv1 : subnets_inv i1) by (by destruct Hinv; constructor).
  case_decide as Hfit; [by intros [= <- <-]|]. simpl in Hfit.
  assert (Hrec : find_subnet fuel live key i1 = (o, i') → range i' = range i ∧ subnets_inv i' ∧
    match o with None => subnets i' = subnets i | Some s => subnets i' = <[key := s]> (subnets i) ∧ base s ∉ live end).
  { intros E. apply (IH i1) in E; simpl; auto; lia. }
  set (subnet := MkIpRange _ _). case_decide as Hlive; [done|].
  case_bool_decide as Hused; [done|]. clear Hrec IH. intros [= <- <-]. simpl. split_and!; try done.
  destruct Hr as (? & ? & ? & ?).
  assert (Hb : base subnet = (base (range i) + idx * subnet_size)%Z).
  { simpl. unfold subnet_size, u32_mod in *. rewrite (wrap32_small (idx * 256)) by (unfold is_u32, u32_mod; lia).
    apply wrap32_small. unfold is_u32, u32_mod. lia. }
  constructor; simpl.
  - intros k s [[<- <-]|[_ Hs]]%lookup_insert_Some; [|by eapply si_shape].
    split; [done|]. exists idx. unfold subnet_size in *. split_and!; [lia|done|lia].
  - assert (Hfresh : ∀ k s, subnets i !! k = Some s → base s ≠ base subnet).
    { intros k s Hs E. apply Hused. by exists k, s. }
    intros k k' s s' [[<- <-]|[_ E1]]%lookup_insert_Some [[<- <-]|[_ E2]]%lookup_insert_Some E; try done.
    + by destruct (Hfresh _ _ E2).
    + by destruct (Hfresh _ _ E1).
    + by eapply (si_unique _ Hinv).
Qed.

(** The subnet of a key lies inside the range, is stable (asking again, with
    whatever routes, gives the same one), and a newly allocated one is neither
    routed on the host nor overlapping the subnet of any other key. *)
Lemma subnet_for_disjoint routes key i s i' :
  range_ok (range i) → (0 ≤ next_subnet i)%Z → (next_subnet i + 64 < 2 ^ 24)%Z → subnets_inv i →
  subnet_for routes key i = (Some s, i') →
  subnets_inv i' ∧ (base (range i) ≤ base s ∧ base s + size s ≤ base (range i) + size (range i))%Z ∧
  (∀ routes', subnet_for routes' key i' = (Some s, i')) ∧
  (subnets i !! key = None →
     base s ∉ live_subnets_in_range routes (base (range i)) (size (range i))) ∧
  (∀ k' s', k' ≠ key → subnets i' !! k' = Some s' →
     base s + size s ≤ base s' ∨ base s' + size s' ≤ base s)%Z.
Proof.
  intros Hr Hn Hlt Hinv Hs.
  assert (subnets_inv i' ∧ range i' = range i ∧ subnets i' !! key = Some s ∧
    (subnets i !! key = None →
       base s ∉ live_subnets_in_range routes (base (range i)) (size (range i)))) as (Hinv' & Hrg & Hk & Hl).
  { unfold subnet_for in Hs. destruct (subnets i !! key) as [e|] eqn:E.
    - simplify_eq. split_and!; done.
    - apply find_subnet_spec in Hs as (Hrg & Hinv' & Hsub & Hl); try done.
      split_and!; try done. by rewrite Hsub, lookup_insert_eq. }
  destruct (si_shape _ Hinv' key s Hk) as (Hsz & idx & Hidx & Hb & Hfit). rewrite Hrg in *.
  unfold subnet_size in *. split_and!; try done; [lia..| |].
  - intros routes'. unfold subnet_for. by rewrite Hk.
  - intros k' s' Hne Hk'. destruct (si_shape _ Hinv' k' s' Hk') as (Hsz' & idx' & _ & Hb' & _).
    assert (base s ≠ base s') by (intros E; by apply Hne, (si_unique _ Hinv' k' key s' s)).
    rewrite Hrg in *. unfold subnet_size in *. nia.
Qed.

(** ** Host addresses *)

(** Allocating from the subnets in [l], in that order. *)
Fixpoint allocate_all (l : list IpRange) (i : Ipam) : list Z * Ipam :=
  match l with
  | [] => ([], i)
  | s :: l =>
    let '(o, i) := allocate_in s i in
    let '(ips, i) := allocate_all l i in
    (match o with Some ip => ip :: ips | None => ips end, i)
  end.

(** A family of disjoint /24 blocks. *)
Definition blocks (B : IpRange → Prop) : Prop :=
  (∀ s, B s → size s = subnet_size ∧ (0 ≤ base s)%Z ∧ (base s + subnet_size ≤ u32_mod)%Z) ∧
  (∀ s s', B s → B s' → base s = base s' ∨
     (base s + subnet_size ≤ base s' ∨ base s' + subnet_size ≤ base s)%Z).

Definition next_host (i : Ipam) (b : Z) : Z := default 2%Z (next_in_subnet i !! b).

Lemma allocate_in_spec B s i o i' :
  blocks B → B s → (2 ≤ next_host i (base s) ≤ 255)%Z → allocate_in s i = (o, i') →
  (∀ b, b ≠ base s → next_host i' b = next_host i b) ∧
  (next_host i (base s) ≤ next_host i' (base s) ≤ 255)%Z ∧
  match o with
  | Some ip => ip = (base s + next_host i (base s))%Z ∧ (next_host i (base s) < 255)%Z ∧
               next_host i' (base s) = (next_host i (base s) + 1)%Z
  | None => True
  end.
Proof.
  intros [Hb _] Hs Hn. destruct (Hb s Hs) as (Hsz & Hb0 & Hb1).
  unfold allocate_in. rewrite Hsz. fold (next_host i (base s)). unfold subnet_size in *.
  assert (wrap32 (256 - 1) = 255)%Z as -> by done.
  assert (Hnext : ∀ n b, next_host (MkIpam (range i) (next i) (next_subnet i) (subnets i)
    (<[base s := n]> (next_in_subnet i))) b = if decide (base s = b) then n else next_host i b).
  { intros n b. unfold next_host. simpl. rewrite lookup_insert. by case_decide. }
  case_decide; intros [= <- <-]; rewrite Hnext, decide_True by done.
  - split_and!; [|lia|lia|done]. intros b Hne. rewrite Hnext. by rewrite decide_False.
  - rewrite !wrap32_small by (unfold is_u32, u32_mod in *; lia). split_and!; try lia.
    intros b Hne. rewrite Hnext. by rewrite decide_False.
Qed.

Lemma allocate_all_spec B l i ips i' :
  blocks B → (∀ s, s ∈ l → B s) → (∀ b, 2 ≤ next_host i b ≤ 255)%Z →
  allocate_all l i = (ips, i') →
  NoDup ips ∧ ∀ ip, ip ∈ ips → ∃ s c, s ∈ l ∧ ip = (base s + c)%Z ∧ (next_host i (base s) ≤ c < 255)%Z.
Proof.
  intros HB. revert i ips i'. induction l as [|s l IH]; intros i ips i' Hl Hn; simpl.
  { intros [= <- <-]. split; [constructor|]. by intros ip ?%not_elem_of_nil. }
  destruct (allocate_in s i) as [o i1] eqn:E1. destruct (allocate_all l i1) as [ips1 i2] eqn:E2.
  apply (allocate_in_spec B) in E1 as (Hother & Hmono & Ho); [|done|apply Hl; left|done].
  apply IH in E2 as [Hnd Hin].
  2: { intros s' Hs'. apply Hl. by right. }
  2: { intros b. destruct (decide (b = base s)) as [->|Hne]; [pose proof (Hn (base s)); lia|].
    rewrite Hother by done. apply Hn. }
  assert (Hin' : ∀ ip, ip ∈ ips1 → ∃ s' c, s' ∈ s :: l ∧ ip = (base s' + c)%Z ∧
    (next_host i (base s') ≤ c < 255)%Z).
  { intros ip Hip. destruct (Hin ip Hip) as (s' & c & Hs' & -> & Hc). exists s', c.
    split; [by right|]. split; [done|]. destruct (decide (base s' = base s)) as [E|Hne].
    - rewrite E in *. lia.
    - by rewrite <- Hother. }
  destruct o as [ip|]; intros [= <- <-]; [|done]. destruct Ho as (-> & Hlt & Hnx). split.
  - constructor; [|done]. intros Hip. destruct (Hin _ Hip) as (s' & c & Hs' & E & Hc).
    destruct HB as [_ Hdis]. pose proof (Hn (base s)).
    destruct (Hdis s s') as [Eb|Hd]; [apply Hl; left|apply Hl; by right| |].
    + rewrite <- Eb in *. lia.
    + assert (base s ≠ base s') by (unfold subnet_size in *; lia). rewrite Hother in Hc by done.
      pose proof (Hn (base s')). unfold subnet_size in *. lia.
  - intros ip [->|Hip]%elem_of_cons; [|auto]. exists s, (next_host i (base s)).
    split; [left|]. split; [done|]. lia.
Qed.

(** Host addresses are unique.  Allocating any sequence of hosts from disjoint
    /24 subnets of a fresh allocator never repeats an address and never hands out
    a subnet's network address, gateway or broadcast address. *)
Lemma allocate_in_unique B r l ips i' :
  blocks B → (∀ s, s ∈ l → B s) → allocate_all l (Ipam_new r) = (ips, i') →
  NoDup ips ∧ ∀ ip, ip ∈ ips → ∃ s, s ∈ l ∧ (base s + 2 ≤ ip < base s + 255)%Z.
Proof.
  intros HB Hl Ha. apply (allocate_all_spec B) in Ha as [Hnd Hin]; [|done..|].
  - split; [done|]. intros ip Hip. destruct (Hin ip Hip) as (s & c & Hs & -> & Hc).
    exists s. split; [done|]. unfold next_host in Hc. simpl in Hc. rewrite lookup_empty in Hc. simpl in Hc. lia.
  - intros b. unfold next_host. simpl. rewrite lookup_empty. simpl. lia.
Qed.

(** The two allocators of one [Ipam] are not kept apart.  On a fresh one, the
    first single address and the first host address of the first subnet are the
    same address whenever the range holds a /24. *)
Lemma allocators_overlap r :
  range_ok r → (subnet_size ≤ size r)%Z →
  let i := Ipam_new r in
  let '(a, i) := allocate i in
  let '(s, i) := subnet_for None "br0" i in
  ∃ subnet, s = Some subnet ∧ (allocate_in subnet i).1 = a ∧ a = Some (base r + 2)%Z.
Proof.
  intros Hr Hs. destruct (range_wraps r Hr) as [Hw Hwc]. destruct Hr as (? & ? & ? & ?).
  unfold subnet_size in *. simpl. unfold allocate, exhausted. simpl. rewrite Hw.
  rewrite bool_decide_eq_false_2 by lia. destruct (Hwc 2%Z) as [-> _]; [lia|].
  unfold subnet_for. cbn [subnets range lookup]. rewrite lookup_empty.
  change 64%nat with (S 63). generalize 63%nat. intros fuel. cbn [find_subnet next_subnet with_next_subnet range base size subnets].
  change (wrap32 (wrap32 (0 + 1) * subnet_size)) with 256%Z. rewrite decide_False by lia.
  change (wrap32 (0 * subnet_size)) with 0%Z. destruct (Hwc 0%Z) as [-> _]; [lia|].
  cbn [live_subnets_in_range]. rewrite decide_False by set_solver.
  rewrite bool_decide_eq_false_2 by (intros (k & s & E & _); by rewrite lookup_empty in E).
  eexists. split; [done|]. unfold allocate_in. cbn [next_in_subnet with_next_subnet base size].
  rewrite lookup_empty. cbn [from_option]. change (wrap32 (subnet_size - 1)) with 255%Z.
  rewrite decide_False by lia. cbn [fst]. rewrite Z.add_0_r. destruct (Hwc 2%Z) as [-> _]; [lia|]. done.
Qed.
