(* ===== verification/Dns.v ===== *)
(** * The DNS proxy: [runtime/pullrun-net/src/dns.rs]

    Local records answered from a table, other [A] queries forwarded upstream.  The
    socket loop is outside; [handle_query] is the whole of what it does with a
    datagram, the upstream server being a function. *)

From stdpp Require Import base gmap strings list.
From Stdlib Require Import ZArith Ascii Lia.
From S2P Require Import Prelude Strs Utf8.

Record DnsProxy := MkDnsProxy {
  listen_addr : string;
  upstream : string;
  records : gmap string string;
}.

Definition DnsProxy_new (listen_addr upstream : string) : DnsProxy := MkDnsProxy listen_addr upstream ∅.
Definition with_default_upstream (listen_addr : string) : DnsProxy :=
  DnsProxy_new listen_addr "8.8.8.8:53".

Definition with_records (p : DnsProxy) (m : gmap string string) : DnsProxy :=
  MkDnsProxy (listen_addr p) (upstream p) m.

Definition add_record (name ip : string) (p : DnsProxy) : DnsProxy :=
  with_records p (<[name := ip]> (records p)).
Definition remove_record (name : string) (p : DnsProxy) : DnsProxy :=
  with_records p (delete name (records p)).
Definition resolve_local (name : string) (p : DnsProxy) : option string := records p !! name.

(** The labels up to a zero length byte (or the end), joined with dots.  Every
    iteration consumes a byte, so the length is fuel enough. *)
Fixpoint parse_qname_loop (fuel : nat) (name : string) (buf : bytes) : option string :=
  match fuel, buf with
  | S fuel, b :: rest =>
    let len := Z.to_nat (u8_of b) in
    if decide (len = 0) then Some name
    else if decide (length rest < len) then None
    else
      let name := if decide (name = EmptyString) then name else name +:+ "." in
      label ← from_utf8 (take len rest);
      parse_qname_loop fuel (name +:+ label) (drop len rest)
  | _, _ => Some name
  end.

Definition parse_qname (buf : bytes) : option string := parse_qname_loop (length buf) EmptyString buf.

(** [resp[i] = v]. *)
Definition set_byte (i : nat) (v : Z) (l : bytes) : bytes := <[i := byte_of v]> l.

Definition encode_label (label : string) : bytes :=
  byte_of (Z.of_nat (length (as_bytes label))) :: as_bytes label.

Definition encode_name (name : string) : bytes := mjoin (encode_label <$> split name "."%char).

Definition octets (ip : Z) : bytes := be_bytes 4 ip.

Definition build_a_response (query : bytes) (name ip : string) : bytes :=
  if decide (length query < 12) then query
  else
    let resp := set_byte 3 0x80 (set_byte 2 0x81 query) in
    let ip_addr := default 0%Z (parse_ipv4 ip) in
    let answer :=
      encode_name name ++ [byte_of 0] ++ (byte_of <$> [0; 1]%Z) ++ (byte_of <$> [0; 1]%Z) ++
      (byte_of <$> [0; 0; 0; 60]%Z) ++ (byte_of <$> [0; 4]%Z) ++ octets ip_addr in
    resp ++ answer.

Definition build_servfail_response (query : bytes) : bytes :=
  if decide (4 ≤ length query) then set_byte 3 0x82 (set_byte 2 0x81 query) else query.

Definition build_refused_response (query : bytes) : bytes :=
  if decide (4 ≤ length query) then set_byte 3 0x05 (set_byte 2 0x81 query) else query.

Definition byte_at (l : bytes) (i : nat) : Z := from_option u8_of 0%Z (l !! i).

(** [forward] is the answer of the upstream server, [None] for a failed exchange. *)
Definition handle_query (forward : bytes → option bytes) (p : DnsProxy) (query : bytes) : option bytes :=
  if decide (length query < 12) then None
  else
    qname ← parse_qname (drop 12 query);
    let n := length query in
    let qtype := Z.lor (Z.shiftl (byte_at query (n - 4)) 8) (byte_at query (n - 3)) in
    match resolve_local qname p with
    | Some ip => Some (build_a_response query qname ip)
    | None =>
      if decide (qtype ≠ 1)%Z then Some (build_refused_response query)
      else
        match forward query with
        | Some response => Some response
        | None => Some (build_servfail_response query)
        end
    end.

(** ** Names on the wire *)

(** A label as DNS has it: not empty, no dot, at most 255 bytes (here any that fits
    the length byte), text. *)
Definition ok_label (l : string) : Prop :=
  l ≠ EmptyString ∧ contains_char l "."%char = false ∧ length (as_bytes l) < 256 ∧ utf8 l.

Definition dotted (labels : list string) : string := join "." labels.

Lemma split_app_sep s c t : contains_char s c = false → split (s +:+ String c t) c = s :: split t c.
Proof.
  induction s as [|a s IH].
  - intros _. change ("" +:+ String c t) with (String c t). cbn [split]. by rewrite decide_True.
  - rewrite str_app_cons. cbn [contains_char split]. intros [Ha Hs]%orb_false_iff.
    apply bool_decide_eq_false in Ha. rewrite decide_False by done. by rewrite IH.
Qed.

Lemma join_cons2 sep x y l : join sep (x :: y :: l) = x +:+ sep +:+ join sep (y :: l).
Proof. done. Qed.

Lemma split_labels_join labels :
  labels ≠ [] → (∀ l, l ∈ labels → contains_char l "."%char = false) →
  split (dotted labels) "."%char = labels.
Proof.
  unfold dotted. induction labels as [|x [|y labels] IH]; intros Hne Hl; [done| |].
  - apply split_no_sep. apply Hl. left.
  - rewrite join_cons2. change ("." +:+ join "." (y :: labels)) with (String "."%char (join "." (y :: labels))).
    rewrite split_app_sep by (apply Hl; left). rewrite IH; [done|done|]. intros l Hin. apply Hl. by right.
Qed.
