(* ===== verification/Net.v ===== *)
(** * Workload networking: [runtime/pullrun-net/src/{lib,proxy,loopback}.rs]

    The rules of a workload, the proxy network that opens a listener per inbound
    rule, and the loopback network.  A background task is the handle its listener
    is known by; dropping a handle leaves the task running, aborting it closes the
    listener. *)

From stdpp Require Import base gmap strings list pretty.
From Stdlib Require Import ZArith Ascii Lia.
From S2P Require Import Prelude Strs Utf8 Ipam.

(** ** Rules *)

Inductive Direction :=
| Inbound
| Outbound.

Inductive Protocol :=
| Tcp
| Udp.

#[export] Instance direction_eq_dec : EqDecision Direction.
Proof. solve_decision. Defined.
#[export] Instance protocol_eq_dec : EqDecision Protocol.
Proof. solve_decision. Defined.

Definition direction_as_str (d : Direction) : string :=
  match d with
  | Inbound => "inbound"
  | Outbound => "outbound"
  end.

Definition protocol_as_str (p : Protocol) : string :=
  match p with
  | Tcp => "tcp"
  | Udp => "udp"
  end.

Record NetworkRule := MkRule {
  direction : Direction;
  protocol : Protocol;
  port : Z;
  host_port : Z;
  to_host : option string;
  from_cidrs : option (list string);
}.

Definition outbound_tcp (to_host : string) (port : Z) : NetworkRule :=
  MkRule Outbound Tcp port 0 (Some to_host) None.
Definition inbound (port : Z) : NetworkRule := MkRule Inbound Tcp port 0 None None.
Definition inbound_mapped (host_port container_port : Z) : NetworkRule :=
  MkRule Inbound Tcp container_port host_port None None.

Record NetworkEndpoint := MkEndpoint {
  internal_ip : string;
  host_port_mappings : list (Z * Z);
  namespace_path : option string;
}.

(** The text of a [SetupFailed]: the values its message is formatted from. *)
Inductive setup_message :=
| BindFailed (port : Z)
| OutboundDenied (target workload_id : string).

Inductive NetError :=
| Io
| SetupFailed (message : setup_message)
| NoAvailableIps
| PortInUse (port : Z).

(** ** The proxy network *)

Definition BRIDGE_NAME : string := "pullrun-br0".
Definition CIDR : string := "10.42.0.0/16".
Definition GATEWAY_IP : string := "10.42.0.1".

(** A spawned task: an inbound listener with the port it holds, or the outbound task. *)
Inductive handle :=
| Listener (bound_port : Z) (target_ip : string) (target_port : Z)
| OutboundTask.

(** Of the host: [bound] are the ports that cannot be bound (they are taken or not
    permitted), [ephemeral] is the port the kernel picks for a bind to port 0, given
    the ports that are taken. *)
Record ProxyNetwork := MkProxy {
  ipam : Ipam;
  active_sessions : gmap string (list handle);
  bound : gset Z;
  ephemeral : gset Z → option Z;
}.

Abbreviation net_eff := (eff ProxyNetwork NetError).

Definition ProxyNetwork_new (bound : gset Z) (ephemeral : gset Z → option Z)
    : result CidrError ProxyNetwork :=
  i ← Ipam_from_cidr CIDR; Ok (MkProxy i ∅ bound ephemeral).

Definition with_shared_ipam (i : Ipam) (bound : gset Z) (ephemeral : gset Z → option Z) : ProxyNetwork :=
  MkProxy i ∅ bound ephemeral.

Definition with_bound (b : gset Z) (n : ProxyNetwork) : ProxyNetwork :=
  MkProxy (ipam n) (active_sessions n) b (ephemeral n).
Definition with_sessions (m : gmap string (list handle)) (n : ProxyNetwork) : ProxyNetwork :=
  MkProxy (ipam n) m (bound n) (ephemeral n).
Definition with_ipam (i : Ipam) (n : ProxyNetwork) : ProxyNetwork :=
  MkProxy i (active_sessions n) (bound n) (ephemeral n).

(** [TcpListener::bind]: the port the listener gets, if any. *)
Definition bind_port (p : Z) (n : ProxyNetwork) : option Z :=
  if decide (p = 0)%Z then ephemeral n (bound n)
  else if decide (p ∈ bound n) then None else Some p.

Definition start_inbound_proxy (p : Z) (target_ip : string) (target_port : Z) : net_eff handle :=
  n ← get_world;
  match bind_port p n with
  | None => throw (SetupFailed (BindFailed p))
  | Some q =>
    modify_world (λ n, with_bound ({[q]} ∪ bound n) n) ;;
    mret (Listener q target_ip target_port)
  end.

(** The task only logs the outbound rules. *)
Definition start_outbound_proxy : net_eff handle := mret OutboundTask.

(** The loop over the inbound rules. *)
Fixpoint start_listeners (ip : string) (rules : list NetworkRule)
    (acc : list handle * list (Z * Z)) : net_eff (list handle * list (Z * Z)) :=
  match rules with
  | [] => mret acc
  | rule :: rules =>
    if decide (direction rule = Inbound) then
      if decide (protocol rule = Tcp) then
        let target_port := port rule in
        let p := if decide (host_port rule ≠ 0)%Z then host_port rule else port rule in
        h ← start_inbound_proxy p ip target_port;
        start_listeners ip rules (acc.1 ++ [h], acc.2 ++ [(p, target_port)])
      else start_listeners ip rules acc
    else start_listeners ip rules acc
  end.

Definition register_endpoint (workload_id ip : string) (rules : list NetworkRule)
    : net_eff NetworkEndpoint :=
  '(handles, mappings) ← start_listeners ip rules ([], []);
  outbound ← try_eff start_outbound_proxy;
  let handles := match outbound with
                 | Ok h => handles ++ [h]
                 | Err _ => handles
                 end in
  modify_world (λ n, with_sessions (<[workload_id := handles]> (active_sessions n)) n) ;;
  mret (MkEndpoint ip mappings None).

Definition start_outbound_session (workload_id target : string) (rules : list NetworkRule)
    : result NetError unit :=
  let host := default EmptyString (head (split target ":"%char)) in
  let allowed := existsb (λ r, bool_decide (direction r = Outbound) &&
                   bool_decide (to_host r = Some host)) rules in
  if allowed then Ok tt else Err (SetupFailed (OutboundDenied target workload_id)).

(** [Ipv4Addr::to_string]. *)
Definition ipv4_to_string (ip : Z) : string :=
  let o k := pretty (Z.to_N ((ip `div` 2 ^ k) `mod` 256)) in
  o 24%Z +:+ "." +:+ o 16%Z +:+ "." +:+ o 8%Z +:+ "." +:+ o 0%Z.

Definition setup (workload_id : string) (rules : list NetworkRule) : net_eff NetworkEndpoint :=
  n ← get_world;
  let '(o, i) := allocate (ipam n) in
  modify_world (with_ipam i) ;;
  match o with
  | None => throw NoAvailableIps
  | Some ip => register_endpoint workload_id (ipv4_to_string ip) rules
  end.

(** The port a handle keeps bound. *)
Definition handle_port (h : handle) : option Z :=
  match h with
  | Listener p _ _ => Some p
  | OutboundTask => None
  end.

Definition session_ports (hs : list handle) : gset Z := list_to_set (omap handle_port hs).

(** Aborting the tasks of a session closes their listeners. *)
Definition teardown (workload_id : string) : net_eff unit :=
  n ← get_world;
  match active_sessions n !! workload_id with
  | Some handles =>
    modify_world (λ n, with_sessions (delete workload_id (active_sessions n)) n) ;;
    modify_world (λ n, with_bound (bound n ∖ session_ports handles) n)
  | None => mret tt
  end.

(** ** The loopback network *)

Definition loopback_setup (workload_id : string) (rules : list NetworkRule)
    : result NetError NetworkEndpoint :=
  Ok (MkEndpoint "127.0.0.1" [] None).
Definition loopback_teardown (workload_id : string) : result NetError unit := Ok tt.
