(* ===== verification/Firewall.v ===== *)
(** * Outbound NAT: [runtime/pullrun-net/src/firewall.rs]

    The two backends drive the host's [iptables] and [nft] programs.  The programs
    are a parameter: what a command with given arguments and input does to the
    host and how it exits. *)

From stdpp Require Import base gmap strings list.
From Stdlib Require Import ZArith Ascii Lia.
From S2P Require Import Prelude Strs.

(** [Command::output]: not found, another I/O error, or an exit status with the
    text the program wrote. *)
Inductive CmdResult :=
| CmdNotFound
| CmdIo
| CmdExit (success : bool) (stdout : string).

Class Host (H : Type) := spawn : string → list string → string → H → CmdResult * H.

(** The message of a failed command is not modelled. *)
Inductive FirewallError :=
| CommandFailed (command : string) (args : list string)
| CommandNotFound (command : string)
| FirewallIo.

Definition command {H} `{Host H} (cmd : string) (args : list string) (stdin : string) :
  eff H FirewallError CmdResult := λ h,
  let '(r, h') := spawn cmd args stdin h in (Ok r, h').

Module Iptables.
Section iptables.
Context {H : Type} `{Host H}.

Abbreviation fw_eff := (eff H FirewallError).

Definition check (args : list string) : fw_eff bool :=
  r ← command "iptables" args EmptyString;
  match r with
  | CmdNotFound => throw (CommandNotFound "iptables")
  | CmdIo => throw (CommandFailed "iptables" args)
  | CmdExit success _ => mret success
  end.

Definition run (args : list string) : fw_eff unit :=
  r ← command "iptables" args EmptyString;
  match r with
  | CmdNotFound => throw (CommandNotFound "iptables")
  | CmdIo => throw (CommandFailed "iptables" args)
  | CmdExit success _ => if success then mret tt else throw (CommandFailed "iptables" args)
  end.

(** A rule: the table (none for [filter]) and the arguments after the command
    letter, chain first. *)
Record rule := MkRule { table : list string; spec : list string }.

Definition args_of (letter : string) (r : rule) : list string := table r ++ letter :: spec r.

Definition masquerade (bridge_cidr outbound_iface : string) : rule :=
  MkRule ["-t"; "nat"]
    ["POSTROUTING"; "-s"; bridge_cidr; "!"; "-d"; bridge_cidr; "-o"; outbound_iface; "-j"; "MASQUERADE"].

Definition forward_out (bridge_name outbound_iface : string) : rule :=
  MkRule [] ["FORWARD"; "-i"; bridge_name; "-o"; outbound_iface; "-j"; "ACCEPT"].

Definition forward_in (bridge_name outbound_iface : string) : rule :=
  MkRule [] ["FORWARD"; "-i"; outbound_iface; "-o"; bridge_name; "-m"; "state"; "--state";
             "RELATED,ESTABLISHED"; "-j"; "ACCEPT"].

Definition nat_rules (bridge_name bridge_cidr outbound_iface : string) : list rule :=
  [masquerade bridge_cidr outbound_iface; forward_out bridge_name outbound_iface;
   forward_in bridge_name outbound_iface].

(** [if check(-C)? {} else { run(-A)?; installed = true; }]. *)
Definition ensure (installed : bool) (r : rule) : fw_eff bool :=
  present ← check (args_of "-C" r);
  if present : bool then mret installed else run (args_of "-A" r) ;; mret true.

Definition enable_nat (bridge_name bridge_cidr outbound_iface : string) : fw_eff bool :=
  installed ← ensure false (masquerade bridge_cidr outbound_iface);
  installed ← ensure installed (forward_out bridge_name outbound_iface);
  ensure installed (forward_in bridge_name outbound_iface).

Definition disable_nat (bridge_name bridge_cidr outbound_iface : string) : fw_eff unit :=
  ignore_eff (run (args_of "-D" (masquerade bridge_cidr outbound_iface))) ;;
  ignore_eff (run (args_of "-D" (forward_out bridge_name outbound_iface))) ;;
  ignore_eff (run (args_of "-D" (forward_in bridge_name outbound_iface))).

Definition rules_present (bridge_name bridge_cidr outbound_iface : string) : fw_eff bool :=
  check (args_of "-C" (masquerade bridge_cidr outbound_iface)).

End iptables.
End Iptables.

Module Nftables.
Section nftables.
Context {H : Type} `{Host H}.

Abbreviation fw_eff := (eff H FirewallError).

Definition table_name : string := "pullrun".

Definition quote (s : string) : string := String "034"%char (s +:+ String "034"%char EmptyString).
Definition newline : string := String "010"%char EmptyString.

Definition run_transaction (script : string) : fw_eff unit :=
  r ← command "nft" ["-f"; "-"] script;
  match r with
  | CmdNotFound => throw (CommandNotFound "nft")
  | CmdIo => throw FirewallIo
  | CmdExit success _ => if success then mret tt else throw (CommandFailed "nft" [])
  end.

Definition rule_exists (pattern : string) : fw_eff bool :=
  r ← command "nft" ["list"; "ruleset"] EmptyString;
  match r with
  | CmdExit _ stdout => mret (contains stdout pattern)
  | _ => throw FirewallIo
  end.

Definition masq_pattern (bridge_cidr outbound_iface : string) : string :=
  "oifname " +:+ quote outbound_iface +:+ " ip saddr " +:+ bridge_cidr +:+ " masquerade".

Definition script_lines (bridge_name bridge_cidr outbound_iface : string) : list string :=
  [EmptyString;
   "table inet " +:+ table_name +:+ " {";
   "    chain postrouting {";
   "        type nat hook postrouting priority 100; policy accept;";
   "        oifname " +:+ quote outbound_iface +:+ " ip saddr " +:+ bridge_cidr +:+ " masquerade";
   "    }";
   "    chain forward {";
   "        type filter hook forward priority 0; policy accept;";
   "        iifname " +:+ quote bridge_name +:+ " oifname " +:+ quote outbound_iface +:+ " accept";
   "        iifname " +:+ quote outbound_iface +:+ " oifname " +:+ quote bridge_name +:+
     " ct state established,related accept";
   "    }";
   "}";
   EmptyString].

Definition enable_nat (bridge_name bridge_cidr outbound_iface : string) : fw_eff bool :=
  present ← rule_exists (masq_pattern bridge_cidr outbound_iface);
  if present : bool then mret false
  else
    run_transaction (join newline (script_lines bridge_name bridge_cidr outbound_iface)) ;;
    mret true.

Definition disable_nat : fw_eff unit :=
  ignore_eff (run_transaction ("delete table inet " +:+ table_name)).

Definition rules_present (bridge_cidr outbound_iface : string) : fw_eff bool :=
  rule_exists (masq_pattern bridge_cidr outbound_iface).

End nftables.
End Nftables.

Inductive backend :=
| BackendNft
| BackendIptables.

(** [Command::new(cmd).arg("--version").output().is_ok()]. *)
Section detect.
Context {H : Type} `{Host H}.

Definition command_exists (cmd : string) : eff H FirewallError bool :=
  r ← command cmd ["--version"] EmptyString;
  mret match r with
       | CmdExit _ _ => true
       | _ => false
       end.

Definition detect_backend : eff H FirewallError (option backend) :=
  nft ← command_exists "nft";
  if nft : bool then mret (Some BackendNft)
  else
    ipt ← command_exists "iptables";
    mret (if ipt : bool then Some BackendIptables else None).

End detect.
