(* ===== verification/NetSpec.v ===== *)
(** * Properties of the DNS proxy, of workload networking and of the firewall backends *)

From stdpp Require Import base gmap strings list.
From Stdlib Require Import ZArith Ascii Lia.
From S2P Require Import Dns Utf8 Ipam Net Prelude Strs Firewall.

Definition add_label (name label : string) : string :=
  (if decide (name = EmptyString) then name else name +:+ ".") +:+ label.

Lemma str_app_empty_inv a b : a +:+ b = EmptyString → a = EmptyString ∧ b = EmptyString.
Proof. destruct a; [|done]. change ("" +:+ b) with b. done. Qed.

Lemma foldl_add_label name labels :
  name ≠ EmptyString → labels ≠ [] → foldl add_label name labels = name +:+ "." +:+ join "." labels.
Proof.
  revert name. induction labels as [|x [|y labels] IH]; intros name Hn Hl; [done| |]; cbn [foldl].
  - unfold add_label. rewrite decide_False by done. by rewrite <- str_app_assoc.
  - change (foldl add_label (add_label (add_label name x) y) labels)
      with (foldl add_label (add_label name x) (y :: labels)).
    assert (add_label name x = name +:+ "." +:+ x) as ->.
    { unfold add_label. rewrite decide_False by done. by rewrite <- str_app_assoc. }
    rewrite IH; [rewrite join_cons2; by rewrite <- !str_app_assoc| |done].
    intros E. apply Hn. by apply str_app_empty_inv in E as [-> _].
Qed.

Lemma foldl_dotted labels :
  (∀ l, l ∈ labels → l ≠ EmptyString) → foldl add_label EmptyString labels = dotted labels.
Proof.
  destruct labels as [|x [|y labels]]; intros Hl; [done|done|]. cbn [foldl].
  change (foldl add_label (add_label (add_label "" x) y) labels)
    with (foldl add_label (add_label "" x) (y :: labels)).
  change (add_label "" x) with x. unfold dotted. rewrite join_cons2. apply foldl_add_label; [|done].
  apply Hl. left.
Qed.

Lemma encode_label_head l :
  ok_label l → ∃ n, u8_of (byte_of (Z.of_nat (length (as_bytes l)))) = Z.of_nat n ∧
    n = length (as_bytes l) ∧ n ≠ 0.
Proof.
  intros (Hne & _ & Hlen & _). exists (length (as_bytes l)). rewrite u8_of_byte_of.
  unfold u8_mod. rewrite Z.mod_small by lia. split_and!; [done..|].
  destruct l; [done|]. simpl. lia.
Qed.

Lemma parse_labels fuel name labels rest :
  length labels < fuel → (∀ l, l ∈ labels → ok_label l) →
  parse_qname_loop fuel name (mjoin (encode_label <$> labels) ++ byte_of 0 :: rest) =
    Some (foldl add_label name labels).
Proof.
  revert fuel name. induction labels as [|l labels IH]; intros fuel name Hf Hl;
    destruct fuel as [|fuel]; try (simpl in Hf; lia).
  - done.
  - change (mjoin (encode_label <$> l :: labels)) with
      (encode_label l ++ mjoin (encode_label <$> labels)).
    unfold encode_label at 1. cbn [app parse_qname_loop].
    destruct (encode_label_head l) as (n & -> & Hn & Hnz); [apply Hl; left|].
    rewrite Nat2Z.id, decide_False by done. rewrite <- app_assoc.
    rewrite decide_False by (rewrite length_app; lia).
    rewrite Hn, take_app_length, drop_app_length. rewrite from_utf8_as_bytes by (apply Hl; left).
    cbn [mbind option_bind]. rewrite IH; [done|simpl in Hf; lia|]. intros x Hx. apply Hl. by right.
Qed.

Lemma encode_name_dotted labels :
  labels ≠ [] → (∀ l, l ∈ labels → ok_label l) →
  encode_name (dotted labels) = mjoin (encode_label <$> labels).
Proof.
  intros Hne Hl. unfold encode_name. rewrite split_labels_join; [done..|].
  intros l Hin. by apply Hl.
Qed.

Lemma mjoin_labels_length labels : length labels ≤ length (mjoin (encode_label <$> labels)).
Proof.
  induction labels as [|l labels IH]; [done|].
  change (mjoin (encode_label <$> l :: labels)) with (encode_label l ++ mjoin (encode_label <$> labels)).
  rewrite length_app. unfold encode_label at 1. simpl. lia.
Qed.

Lemma parse_encoded_name labels rest :
  labels ≠ [] → (∀ l, l ∈ labels → ok_label l) →
  parse_qname (encode_name (dotted labels) ++ byte_of 0 :: rest) = Some (dotted labels).
Proof.
  intros Hne Hl. unfold parse_qname. rewrite encode_name_dotted by done. rewrite parse_labels; [|..|done].
  - f_equal. apply foldl_dotted. intros l Hin. by apply Hl.
  - rewrite length_app. pose proof (mjoin_labels_length labels). simpl. lia.
Qed.

(** Names survive the wire.  The encoding the proxy writes for a dotted name of
    proper labels is read back by its own parser as that name, whatever follows
    the terminating zero. *)
Lemma qname_roundtrip labels rest :
  labels ≠ [] → (∀ l, l ∈ labels → ok_label l) →
  parse_qname (encode_name (dotted labels) ++ byte_of 0 :: rest) = Some (dotted labels).
Proof. apply parse_encoded_name. Qed.

(** A query for a recorded name is answered locally, never forwarded.  The
    answer repeats the query (identifier and question included) with the response
    flags set, followed by one [A] record for the queried name with the recorded
    address.  The record count in the header (bytes 4 to 11) is left as the query
    had it. *)
Lemma local_answer forward p header labels tail ip addr :
  length header = 12 → labels ≠ [] → (∀ l, l ∈ labels → ok_label l) →
  records p !! dotted labels = Some ip → parse_ipv4 ip = Some addr →
  let query := header ++ encode_name (dotted labels) ++ byte_of 0 :: tail in
  ∃ resp, handle_query forward p query = Some resp ∧
    (∀ i, i < length query → i ≠ 2 → i ≠ 3 → resp !! i = query !! i) ∧
    (resp !! 2 = Some (byte_of 0x81) ∧ resp !! 3 = Some (byte_of 0x80)) ∧
    drop (length query) resp =
      encode_name (dotted labels) ++ (byte_of <$> [0; 0; 1; 0; 1; 0; 0; 0; 60; 0; 4]%Z) ++ octets addr.
Proof.
  intros Hh Hne Hl Hrec Hip query. assert (Hlen : 12 < length query).
  { unfold query. rewrite !length_app. simpl. lia. }
  assert (Hq : parse_qname (drop 12 query) = Some (dotted labels)).
  { unfold query. rewrite <- Hh, drop_app_length. by apply parse_encoded_name. }
  unfold handle_query. rewrite decide_False by lia. rewrite Hq. cbn [mbind option_bind].
  unfold resolve_local. rewrite Hrec. eexists. split; [done|]. unfold build_a_response.
  rewrite decide_False by lia. rewrite Hip. cbn [from_option].
  set (r := set_byte 3 0x80 (set_byte 2 0x81 query)).
  assert (Hr : length r = length query) by (unfold r, set_byte; by rewrite !length_insert).
  split_and!.
  - intros i Hi H2 H3. rewrite lookup_app_l by lia. unfold r, set_byte.
    by rewrite !list_lookup_insert_ne by lia.
  - rewrite lookup_app_l by lia. unfold r, set_byte.
    rewrite list_lookup_insert_ne, list_lookup_insert_eq by lia. done.
  - rewrite lookup_app_l by lia. unfold r, set_byte.
    rewrite list_lookup_insert_eq by (rewrite length_insert; lia). done.
  - rewrite <- Hr, drop_app_length. done.
Qed.

(** The port pair a rule asks for. *)
Definition mapping (r : NetworkRule) : option (Z * Z) :=
  if decide (direction r = Inbound ∧ protocol r = Tcp)
  then Some (if decide (host_port r ≠ 0)%Z then host_port r else port r, port r) else None.

(** The kernel picks a port that is not taken. *)
Definition ephemeral_ok (n : ProxyNetwork) : Prop :=
  ∀ b q, ephemeral n b = Some q → q ∉ b.

(** Sessions own the ports they listen on, each its own. *)
Record net_inv (n : ProxyNetwork) : Prop := {
  net_owned w hs : active_sessions n !! w = Some hs → session_ports hs ⊆ bound n;
  net_disjoint w w' hs hs' : w ≠ w' → active_sessions n !! w = Some hs →
    active_sessions n !! w' = Some hs' → session_ports hs ## session_ports hs';
  net_ephemeral : ephemeral_ok n;
}.

Lemma session_ports_app hs hs' : session_ports (hs ++ hs') = session_ports hs ∪ session_ports hs'.
Proof. unfold session_ports. by rewrite omap_app, list_to_set_app_L. Qed.

Lemma bind_port_free p n q : ephemeral_ok n → bind_port p n = Some q → q ∉ bound n.
Proof. intros He. unfold bind_port. repeat case_decide; [apply He|done|naive_solver]. Qed.

Lemma start_inbound_bind p ip tp n q : bind_port p n = Some q →
  start_inbound_proxy p ip tp n = (Ok (Listener q ip tp), with_bound ({[q]} ∪ bound n) n).
Proof. intros Hq. unfold start_inbound_proxy, mbind, eff_bind, get_world. by rewrite Hq. Qed.

Lemma start_inbound_spec p ip tp n r n' :
  ephemeral_ok n → start_inbound_proxy p ip tp n = (r, n') →
  ipam n' = ipam n ∧ active_sessions n' = active_sessions n ∧ ephemeral n' = ephemeral n ∧
  match r with
  | Ok h => bound n' = session_ports [h] ∪ bound n ∧ session_ports [h] ## bound n
  | Err e => n' = n
  end.
Proof.
  intros He. unfold start_inbound_proxy, mbind, eff_bind, get_world, mret, eff_ret, throw, modify_world.
  destruct (bind_port p n) as [q|] eqn:Hq; intros [= <- <-]; [|done].
  apply bind_port_free in Hq; [|done]. unfold session_ports. simpl. split_and!; set_solver.
Qed.

Lemma start_listeners_spec ip rules acc n r n' :
  ephemeral_ok n → start_listeners ip rules acc n = (r, n') →
  ipam n' = ipam n ∧ active_sessions n' = active_sessions n ∧ ephemeral n' = ephemeral n ∧
  bound n ⊆ bound n' ∧
  ∀ res, r = Ok res → ∃ hs, res = (acc.1 ++ hs, acc.2 ++ omap mapping rules) ∧
    bound n' = session_ports hs ∪ bound n ∧ session_ports hs ## bound n.
Proof.
  revert acc n. induction rules as [|rule rules IH]; intros acc n He; cbn [start_listeners].
  { unfold mret, eff_ret. intros [= <- <-]. split_and!; try done. intros res [= <-]. exists [].
    simpl. rewrite !app_nil_r. destruct acc. unfold session_ports. simpl. set_solver. }
  assert (Hskip : mapping rule = None → start_listeners ip rules acc n = (r, n') →
    ipam n' = ipam n ∧ active_sessions n' = active_sessions n ∧ ephemeral n' = ephemeral n ∧
    bound n ⊆ bound n' ∧ ∀ res, r = Ok res → ∃ hs, res = (acc.1 ++ hs, acc.2 ++ omap mapping (rule :: rules)) ∧
      bound n' = session_ports hs ∪ bound n ∧ session_ports hs ## bound n).
  { intros Hm Hs. simpl. rewrite Hm. by apply IH. }
  case_decide as Hd; [|apply Hskip; unfold mapping; rewrite decide_False by tauto; done].
  case_decide as Hp; [|apply Hskip; unfold mapping; rewrite decide_False by tauto; done].
  clear Hskip. assert (Hm : mapping rule =
    Some (if decide (host_port rule ≠ 0)%Z then host_port rule else port rule, port rule)).
  { unfold mapping. by rewrite decide_True. }
  set (p := if decide (host_port rule ≠ 0)%Z then host_port rule else port rule) in *.
  unfold mbind, eff_bind. destruct (start_inbound_proxy p ip (port rule) n) as [r1 n1] eqn:E1.
  apply start_inbound_spec in E1 as (Hi1 & Hs1 & He1 & Hr1); [|done]. destruct r1 as [h|e].
  2: { rewrite Hr1. by intros [= <- <-]. }
  destruct Hr1 as (Hb1 & Hd1).
  intros (Hi & Hs & He' & Hb & Hr)%IH; [|unfold ephemeral_ok; rewrite He1; exact He].
  split_and!; [congruence..|set_solver|]. intros res Hres. destruct (Hr res Hres) as (hs & -> & Hb2 & Hd2).
  exists (h :: hs). simpl. rewrite Hm. rewrite <- !app_assoc. simpl.
  change (h :: hs) with ([h] ++ hs). rewrite session_ports_app. clear - Hb1 Hd1 Hb2 Hd2.
  split_and!; [done|rewrite Hb2, Hb1; set_solver|]. rewrite Hb1 in Hd2. set_solver.
Qed.

(** A registration maps exactly the inbound TCP rules, in order, keeps every session's
    ports its own, and tearing the workload down gives back exactly the ports it took. *)
Lemma register_teardown w ip rules n ep n' :
  net_inv n → active_sessions n !! w = None → register_endpoint w ip rules n = (Ok ep, n') →
  host_port_mappings ep = omap mapping rules ∧ net_inv n' ∧
  ∃ n'', teardown w n' = (Ok tt, n'') ∧ net_inv n'' ∧ bound n'' = bound n ∧
    active_sessions n'' = active_sessions n.
Proof.
  intros [Ho Hdj He] Hw. unfold register_endpoint, mbind, eff_bind, get_world, modify_world.
  destruct (start_listeners _ _ _ _) as [[res|e] n1] eqn:E1; [|done].
  apply start_listeners_spec in E1 as (_ & Hs1 & He1 & _ & Hr); [|exact He]. destruct (Hr res eq_refl) as (hs & -> & Hb & Hd).
  simpl in *. unfold try_eff, start_outbound_proxy, mret, eff_ret. intros [= <- <-]. simpl. set (hs' := hs ++ [OutboundTask]).
  assert (Hp : session_ports hs' = session_ports hs).
  { unfold hs'. rewrite session_ports_app. unfold session_ports at 2. simpl. set_solver. }
  assert (Hinv' : net_inv (with_sessions (<[w := hs']> (active_sessions n1)) n1)).
  { constructor; simpl; rewrite Hs1.
    - intros w' hs0 [[<- <-]|[_ Hin]]%lookup_insert_Some; [set_solver|].
      apply Ho in Hin. set_solver.
    - intros w1 w2 h1 h2 Hne [[<- <-]|[_ Hin1]]%lookup_insert_Some
        [[<- <-]|[_ Hin2]]%lookup_insert_Some; [done| | |by eapply Hdj].
      + apply Ho in Hin2. set_solver.
      + apply Ho in Hin1. set_solver.
    - unfold ephemeral_ok. simpl. rewrite He1. exact He. }
  split_and!; [done|done|]. unfold teardown, mbind, eff_bind, get_world, modify_world. simpl.
  rewrite lookup_insert_eq. eexists. split; [done|]. simpl.
  rewrite delete_insert_eq, Hs1, delete_id by done.
  assert (Hbb : bound n1 ∖ session_ports hs' = bound n) by set_solver.
  split_and!; try done. constructor; simpl; [by rewrite Hbb|done|].
  unfold ephemeral_ok. simpl. rewrite He1. exact He.
Qed.

(** A successful setup does so too: the host and the other sessions are as before. *)
Lemma setup_teardown w rules n ep n' :
  net_inv n → active_sessions n !! w = None → setup w rules n = (Ok ep, n') →
  host_port_mappings ep = omap mapping rules ∧ net_inv n' ∧
  ∃ n'', teardown w n' = (Ok tt, n'') ∧ net_inv n'' ∧ bound n'' = bound n ∧
    active_sessions n'' = active_sessions n.
Proof.
  intros [Ho Hdj He] Hw. unfold setup, mbind, eff_bind, get_world, modify_world.
  destruct (allocate (ipam n)) as [[ip|] i]; [|done]. intros E.
  apply (register_teardown _ _ _ (with_ipam i n)) in E; [exact E|by constructor|done].
Qed.

(** Outbound sessions are refused unless a rule allows them: a target is allowed
    exactly when some outbound rule names the part of it before the first colon. *)
Lemma outbound_allowed w target rules :
  start_outbound_session w target rules = Ok tt ↔
  ∃ r, r ∈ rules ∧ direction r = Outbound ∧
       to_host r = Some (default EmptyString (head (split target ":"%char))).
Proof.
  unfold start_outbound_session. set (host := default _ _).
  destruct (existsb _ rules) eqn:E; split; try done.
  - intros _. apply existsb_exists in E as (r & Hr & Hb). apply andb_true_iff in Hb as [H1 H2].
    apply bool_decide_eq_true in H1, H2. exists r. split; [by apply list_elem_of_In|done].
  - intros (r & Hr & H1 & H2). exfalso. eapply eq_true_false_abs; [|exact E].
    apply existsb_exists. exists r. split; [by apply list_elem_of_In|].
    by rewrite !bool_decide_true.
Qed.

(** A failed registration leaks its listeners.  If the first of two inbound
    rules binds and the second finds its port taken, the registration fails, no
    session is recorded, yet the first port stays bound; tearing the workload down
    does not release it. *)
Lemma failed_setup_leaks w ip p q n :
  (p ≠ 0)%Z → (q ≠ 0)%Z → p ∉ bound n → q ∈ bound n → p ≠ q → active_sessions n !! w = None →
  ∃ n', register_endpoint w ip [inbound p; inbound q] n = (Err (SetupFailed (BindFailed q)), n') ∧
    active_sessions n' = active_sessions n ∧ p ∈ bound n' ∧ teardown w n' = (Ok tt, n').
Proof.
  intros Hp Hq Hpb Hqb Hpq Hw. exists (with_bound ({[p]} ∪ bound n) n).
  split_and!; [|done|simpl; set_solver|].
  - unfold register_endpoint. apply bind_err. cbn [start_listeners].
    rewrite !decide_True by done.
    erewrite bind_ok; [|apply (start_inbound_bind _ _ _ _ p); change (bind_port p n = Some p);
      unfold bind_port; by rewrite !decide_False].
    apply bind_err. unfold start_inbound_proxy, mbind, eff_bind, get_world. cbv beta iota.
    change (bind_port _ _) with (bind_port q (with_bound ({[p]} ∪ bound n) n)).
    replace (bind_port _ _) with (None : option Z); [done|].
    unfold bind_port. simpl. by rewrite decide_False, decide_True by set_solver.
  - unfold teardown, mbind, eff_bind, get_world. simpl. by rewrite Hw.
Qed.

#[export] Instance rule_eq_dec : EqDecision Iptables.rule.
Proof. solve_decision. Defined.

(** Deleting a rule by its specification removes its first occurrence. *)
Fixpoint remove_first {A} `{EqDecision A} (x : A) (l : list A) : list A :=
  match l with
  | [] => []
  | y :: l => if decide (x = y) then l else y :: remove_first x l
  end.

Lemma remove_first_app {A} `{EqDecision A} (x : A) l k : x ∉ l → remove_first x (l ++ x :: k) = l ++ k.
Proof.
  induction l as [|y l IH]; simpl; intros Hx; [by rewrite decide_True|].
  apply not_elem_of_cons in Hx as [? ?]. rewrite decide_False by done. by rewrite IH.
Qed.

(** What iptables(8) documents of [-C], [-A] and [-D] for the rules of one bridge, run
    with the privileges they need: [installed h] is the host's rule list. *)
Record iptables_laws {H} `{Host H} (installed : H → list Iptables.rule) (b c o : string) : Prop := {
  law_check h r : r ∈ Iptables.nat_rules b c o →
    ∃ out, spawn "iptables" (Iptables.args_of "-C" r) EmptyString h =
      (CmdExit (bool_decide (r ∈ installed h)) out, h);
  law_append h r : r ∈ Iptables.nat_rules b c o →
    ∃ out h', spawn "iptables" (Iptables.args_of "-A" r) EmptyString h = (CmdExit true out, h') ∧
      installed h' = installed h ++ [r];
  law_delete h r : r ∈ Iptables.nat_rules b c o →
    ∃ out h', spawn "iptables" (Iptables.args_of "-D" r) EmptyString h =
        (CmdExit (bool_decide (r ∈ installed h)) out, h') ∧
      installed h' = remove_first r (installed h)
}.

Section iptables.
Context {H : Type} `{Host H} (installed : H → list Iptables.rule) (b c o : string).
Context (laws : iptables_laws installed b c o).
Implicit Types h : H.

Abbreviation nat_rules := (Iptables.nat_rules b c o).
Abbreviation masq := (Iptables.masquerade c o).
Abbreviation fwd_out := (Iptables.forward_out b o).
Abbreviation fwd_in := (Iptables.forward_in b o).

Lemma masq_in : masq ∈ nat_rules.
Proof. left. Qed.
Lemma fwd_out_in : fwd_out ∈ nat_rules.
Proof. right; left. Qed.
Lemma fwd_in_in : fwd_in ∈ nat_rules.
Proof. right; right; left. Qed.

Lemma nat_rules_NoDup : NoDup nat_rules.
Proof.
  unfold Iptables.nat_rules. rewrite !NoDup_cons, !not_elem_of_cons.
  split_and!; try done; try apply not_elem_of_nil; apply NoDup_nil_2.
Qed.

Lemma check_spec h r : r ∈ nat_rules →
  Iptables.check (Iptables.args_of "-C" r) h = (Ok (bool_decide (r ∈ installed h)), h).
Proof.
  intros Hr. destruct (law_check _ _ _ _ laws h r Hr) as (out & E).
  unfold Iptables.check. erewrite bind_ok by (unfold command; rewrite E; reflexivity). done.
Qed.

Lemma ensure_spec h r i : r ∈ nat_rules →
  ∃ h', Iptables.ensure i r h = (Ok (i || negb (bool_decide (r ∈ installed h))), h') ∧
    installed h' = installed h ++ filter (λ r, r ∉ installed h) [r] ∧ (r ∈ installed h → h' = h).
Proof.
  intros Hr. unfold Iptables.ensure. erewrite bind_ok by by apply check_spec.
  case_bool_decide as Hin.
  - exists h. rewrite orb_false_r, filter_cons_False, app_nil_r by tauto. done.
  - destruct (law_append _ _ _ _ laws h r Hr) as (out & h' & E & Hi).
    exists h'. split; [|by rewrite filter_cons_True].
    erewrite bind_ok; [by rewrite orb_true_r|].
    unfold Iptables.run. erewrite bind_ok by (unfold command; rewrite E; reflexivity). done.
Qed.

Lemma run_delete h r : r ∈ nat_rules →
  ∃ h', ignore_eff (F := FirewallError) (Iptables.run (Iptables.args_of "-D" r)) h = (Ok tt, h') ∧
    installed h' = remove_first r (installed h).
Proof.
  intros Hr. destruct (law_delete _ _ _ _ laws h r Hr) as (out & h' & E & Hi).
  exists h'. split; [|done]. unfold ignore_eff, Iptables.run.
  erewrite bind_ok by (unfold command; rewrite E; reflexivity). by case_bool_decide.
Qed.

Definition missing h (l : list Iptables.rule) : list Iptables.rule := filter (λ r, r ∉ installed h) l.

Fixpoint ensure_all (i : bool) (l : list Iptables.rule) : eff H FirewallError bool :=
  match l with
  | [] => mret i
  | r :: l => i' ← Iptables.ensure i r; ensure_all i' l
  end.

Lemma ensure_all_spec l h i : l ⊆ nat_rules → NoDup l →
  ∃ h', ensure_all i l h = (Ok (i || bool_decide (missing h l ≠ [])), h') ∧
    installed h' = installed h ++ missing h l ∧ (missing h l = [] → h' = h).
Proof.
  revert h i. induction l as [|r l IH]; intros h i Hl Hd.
  { exists h. rewrite bool_decide_false by tauto. by rewrite orb_false_r, app_nil_r. }
  apply NoDup_cons in Hd as [Hr Hd].
  destruct (ensure_spec h r i (Hl r ltac:(left))) as (h1 & E1 & R1 & I1).
  destruct (IH h1 (i || negb (bool_decide (r ∈ installed h))) (λ x Hx, Hl x ltac:(by right)) Hd)
    as (h2 & E2 & R2 & I2).
  assert (Hm : missing h1 l = missing h l).
  { apply filter_ext_in. intros x Hx. rewrite R1, elem_of_app, list_elem_of_filter, list_elem_of_singleton.
    split; [tauto|]. intros ? [?|[_ ->]]; done. }
  rewrite Hm in *. exists h2. simpl. rewrite (bind_ok _ _ _ _ _ E1), E2, R2, R1. unfold missing in *.
  destruct (decide (r ∈ installed h)) as [Hin|Hin].
  - rewrite !filter_cons_False, bool_decide_true, filter_nil by tauto. rewrite orb_false_r, app_nil_r.
    split_and!; try done. intros E. by rewrite I2, I1.
  - rewrite !filter_cons_True, (bool_decide_false (r ∈ _)), (bool_decide_true (_ :: _ ≠ [])) by done.
    by rewrite <- app_assoc, <- orb_assoc, orb_true_l.
Qed.

Lemma enable_nat_spec h :
  ∃ h', Iptables.enable_nat b c o h = (Ok (bool_decide (missing h nat_rules ≠ [])), h') ∧
    installed h' = installed h ++ missing h nat_rules ∧ (missing h nat_rules = [] → h' = h).
Proof.
  destruct (ensure_all_spec nat_rules h false (reflexivity _) nat_rules_NoDup) as (h' & E & ?).
  exists h'. split; [|done]. rewrite <- (orb_false_l (bool_decide _)), <- E. unfold Iptables.enable_nat.
  simpl. unfold mbind, eff_bind. by repeat case_match; simplify_eq.
Qed.

(** With iptables behaving as documented, [enable_nat] succeeds on every host:
    it appends exactly the bridge's rules that were missing, never a second copy, it
    reports [true] iff one was missing, and calling it again reports [false] and
    changes nothing. *)
Lemma enable_nat_idempotent h :
  ∃ h', Iptables.enable_nat b c o h = (Ok (bool_decide (missing h nat_rules ≠ [])), h') ∧
    installed h' = installed h ++ missing h nat_rules ∧
    Iptables.enable_nat b c o h' = (Ok false, h').
Proof.
  destruct (enable_nat_spec h) as (h' & E & R & _). exists h'. split_and!; try done.
  assert (Hn : missing h' nat_rules = []).
  { apply filter_none. intros r Hr Hx. rewrite R, elem_of_app in Hx.
    apply Hx. destruct (decide (r ∈ installed h)); [by left|right]. by apply list_elem_of_filter. }
  destruct (enable_nat_spec h') as (h2 & E2 & _ & I2). by rewrite E2, I2, Hn by done.
Qed.

(** [disable_nat] undoes [enable_nat]: on a host that had none of the bridge's
    rules, enabling and then disabling leaves the rule list it started with, every
    other rule in its place. *)
Lemma enable_disable_nat h : (∀ r, r ∈ nat_rules → r ∉ installed h) →
  ∃ h1 h2, Iptables.enable_nat b c o h = (Ok true, h1) ∧
    Iptables.disable_nat b c o h1 = (Ok tt, h2) ∧
    installed h1 = installed h ++ nat_rules ∧ installed h2 = installed h.
Proof.
  intros Hno. destruct (enable_nat_spec h) as (h1 & E & R & _).
  assert (Hm : missing h nat_rules = nat_rules) by (by apply filter_all).
  rewrite Hm in *.
  destruct (run_delete h1 masq masq_in) as (h2 & E2 & R2).
  destruct (run_delete h2 fwd_out fwd_out_in) as (h3 & E3 & R3).
  destruct (run_delete h3 fwd_in fwd_in_in) as (h4 & E4 & R4).
  exists h1, h4. rewrite bool_decide_true in E by done. split_and!; try done.
  - unfold Iptables.disable_nat. by rewrite (bind_ok _ _ _ _ _ E2), (bind_ok _ _ _ _ _ E3).
  - rewrite R4, R3, R2, R. unfold Iptables.nat_rules.
    rewrite !remove_first_app by (apply Hno; first [apply masq_in | apply fwd_out_in | apply fwd_in_in]).
    by rewrite app_nil_r.
Qed.

(** [rules_present] answers for the MASQUERADE rule alone: with it installed
    and a FORWARD rule missing it reports [true], although not all expected rules are
    present and [enable_nat] still has a rule to install. *)
Lemma rules_present_partial h :
  masq ∈ installed h → fwd_out ∉ installed h →
  Iptables.rules_present b c o h = (Ok true, h) ∧
  (Iptables.enable_nat b c o h).1 = Ok true.
Proof.
  intros Hm Hf. unfold Iptables.rules_present. rewrite check_spec by apply masq_in.
  rewrite bool_decide_true by done. split; [done|].
  destruct (enable_nat_spec h) as (h1 & -> & _). simpl. rewrite bool_decide_true; [done|].
  intros E. by eapply (filter_nil_not_elem_of _ _ fwd_out) in E; [apply E, fwd_out_in|].
Qed.

End iptables.
