(* ===== verification/OciTypes.v ===== *)
(** * OCI image data: the types of [runtime/pullrun-oci/src/puller.rs]

    Field names carry a prefix for their struct where two structs of the source
    have a field of the same name.  The attributes that steer serde's JSON
    encoding are part of the JSON parameter of [Puller.v]. *)

From stdpp Require Import base gmap strings list.
From Stdlib Require Import ZArith.
From S2P Require Import Prelude Strs Crates Node Fs Store.

(** [serde_json::Value]; a number is its text. *)
Inductive Value :=
| VNull
| VBool (b : bool)
| VNumber (n : string)
| VString (s : string)
| VArray (l : list Value)
| VObject (l : list (string * Value)).

Module media_types.

Definition DESCRIPTOR : string := "application/vnd.oci.descriptor.v1+json".
Definition LAYOUT_HEADER : string := "application/vnd.oci.layout.header.v1+json".
Definition IMAGE_INDEX : string := "application/vnd.oci.image.index.v1+json".
Definition IMAGE_MANIFEST : string := "application/vnd.oci.image.manifest.v1+json".
Definition IMAGE_CONFIG : string := "application/vnd.oci.image.config.v1+json".
Definition EMPTY_JSON : string := "application/vnd.oci.empty.v1+json".
Definition LAYER_TAR : string := "application/vnd.oci.image.layer.v1.tar".
Definition LAYER_TAR_GZIP : string := "application/vnd.oci.image.layer.v1.tar+gzip".
Definition LAYER_TAR_ZSTD : string := "application/vnd.oci.image.layer.v1.tar+zstd".
Definition LAYER_NONDIST_TAR : string := "application/vnd.oci.image.layer.nondistributable.v1.tar".
Definition LAYER_NONDIST_GZIP : string :=
  "application/vnd.oci.image.layer.nondistributable.v1.tar+gzip".
Definition LAYER_NONDIST_ZSTD : string :=
  "application/vnd.oci.image.layer.nondistributable.v1.tar+zstd".

End media_types.

Inductive CompressionFormat :=
| Gzip
| Zstd.

Definition media_type (f : CompressionFormat) : string :=
  match f with
  | Gzip => media_types.LAYER_TAR_GZIP
  | Zstd => media_types.LAYER_TAR_ZSTD
  end.

Record OciPlatform := MkPlatform {
  p_architecture : string;
  p_os : string;
  p_os_version : option string;
  p_os_features : option (list string);
  p_variant : option string;
}.

Record OciDescriptor := MkDescriptor {
  d_media_type : string;
  digest : string;
  d_size : Z;
  urls : option (list string);
  d_annotations : option (gmap string string);
  data : option string;
  platform : option OciPlatform;
  d_artifact_type : option string;
}.

Definition empty_json_descriptor : OciDescriptor :=
  MkDescriptor media_types.EMPTY_JSON
    "sha256:44136fa355b3678a1146ad16f7e8649e94fb4fc21fe77e8310c060f61caaff8a"
    2 None None None None None.

Definition EMPTY_JSON_BYTES : bytes := as_bytes "{}".

Record OciManifest := MkManifest {
  schema_version : Z;
  m_media_type : string;
  m_artifact_type : option string;
  m_config : OciDescriptor;
  layers : list OciDescriptor;
  subject : option OciDescriptor;
  m_annotations : option (gmap string string);
}.

Record OciRuntimeConfig := MkRuntimeConfig {
  user : option string;
  exposed_ports : option (gmap string Value);
  env : option (list string);
  entrypoint : option (list string);
  cmd : option (list string);
  volumes : option (gmap string Value);
  working_dir : option string;
  labels : option (gmap string string);
  stop_signal : option string;
  args_escaped : bool;
}.

Record OciRootFs := MkRootFs { fs_type : string; diff_ids : list string }.

Record OciHistoryEntry := MkHistory {
  h_created : option string;
  created_by : option string;
  comment : option string;
  empty_layer : option bool;
}.

Record OciImageConfig := MkImageConfig {
  created : option string;
  author : option string;
  architecture : string;
  os_name : string;
  os_version : option string;
  os_features : option (list string);
  variant : option string;
  runtime_config : option OciRuntimeConfig;
  rootfs : OciRootFs;
  history : option (list OciHistoryEntry);
}.

Record OciImageIndex := MkIndex {
  i_schema_version : Z;
  i_media_type : string;
  i_artifact_type : option string;
  i_manifests : list OciDescriptor;
  i_subject : option OciDescriptor;
  i_annotations : option (gmap string string);
}.

Record OciAuth := MkAuth {
  username : option string;
  password : option string;
  registry_token : option string;
}.

Record PulledImage := MkPulledImage {
  manifest : OciManifest;
  config : OciImageConfig;
  config_digest : Digest;
  layer_blobs : list (Digest * bytes * string);
}.

Record PulledImageList := MkPulledImageList {
  images : list PulledImage;
  list_bytes : bytes;
  child_descriptors : list OciDescriptor;
}.

(** The texts of [InvalidManifest] and [Other]: what each message is made from. *)
Inductive manifest_message :=
| ManifestFetchFailed (body : bytes)
| ListFetchFailed (body : bytes)
| NotAManifestList
| ListParse
| NoChildManifest
| ManifestParse
| ConfigParse
| NotAManifest (d : Digest)
| ManifestDataParse.

Inductive other_message :=
| InvalidConfigDigest (e : DigestError)
| InvalidLayerDigest (e : DigestError)
| InvalidBlobDigest (digest : string) (e : DigestError)
| AuthenticationFailed (registry repository : string) (status : Z)
| WalkFailed (e : StoreError)
| ReadNode (d : Digest) (e : StoreError)
| ReadBlob (d : Digest) (e : StoreError)
| InvalidArchiveDigest (e : DigestError)
| NodeDigestMismatch (expected : string) (computed : Digest)
| InvalidNode (digest : string)
| ArchiveManifestMissing
| ZstdError
| GzipError
| CorruptManifest (d : Digest) (e : StoreError)
| CorruptLayer (d : Digest) (e : StoreError)
| CorruptWhiteout (d : Digest) (e : StoreError)
| CorruptTree (d : Digest) (e : StoreError)
| Canonicalize
| StoreTree (e : StoreError)
| CorruptBlob (d : Digest)
| NoLocation
| BlobUploadFailed (digest : string) (body : bytes)
| ManifestUploadFailed (reference : string) (body : bytes)
| NotAnImage (d : Digest).

Module OciError.

(** [OutOfFuel] is not in the source: the depth of nested image indexes that is
    followed is bounded here. *)
Inductive t :=
| Http
| StoreE (e : StoreError)
| Io
| Json
| InvalidManifest (m : manifest_message)
| LayerNotFound (s : string)
| UnsupportedMediaType (s : string)
| DigestMismatch (digest : string) (e : DigestError)
| Other (m : other_message)
| OutOfFuel.

End OciError.
