(* ===== verification/HostFs.v ===== *)
(** * The host's file system

    Directories, files and symbolic links with their attributes, and the calls of
    [std::fs] with which image layers are unpacked.  A path is the list of its
    components, [..] included; the root directory is the empty list and always
    exists.  Symbolic links are followed as the kernel follows them: at most
    [MAXSYMLINKS] of them in one resolution.  An operation fails with an [errno]
    where the kernel's does; faults of the disk are not modelled here. *)

From stdpp Require Import base gmap strings list.
From Stdlib Require Import ZArith Ascii Lia.
From S2P Require Import Prelude Strs Fs.

Record Meta := MkMeta {
  fmode : Z;
  fuid : Z;
  fgid : Z;
  fmtime : Z;
  fxattrs : gmap string bytes;
}.

Inductive content :=
| Dir
| File (data : bytes)
| Symlink (target : string).

#[export] Instance content_eq_dec : EqDecision content.
Proof. solve_decision. Defined.

(** What a process of the runtime creates, with the usual [umask] 022. *)
Definition default_meta (c : content) : Meta :=
  MkMeta match c with Dir => 493 | File _ => 420 | Symlink _ => 511 end 0 0 0 ∅.

Record inode := MkInode { icontent : content; imeta : Meta }.

Abbreviation HostFs := (gmap path inode).

Inductive errno :=
| ENOENT
| EEXIST
| ENOTDIR
| EISDIR
| ENOTEMPTY
| ELOOP
| EINVAL.

Abbreviation host_eff := (eff HostFs errno).

(** ** Paths *)

(** The components of a path text: empty ones and [.] carry no meaning. *)
Definition components (s : string) : path :=
  filter (λ c, c ≠ EmptyString ∧ c ≠ ".") (split s "/"%char).

Definition is_absolute (s : string) : bool := starts_with s "/".

(** [base.join(s)]: an absolute path replaces the base. *)
Definition path_join (base : path) (s : string) : path :=
  if is_absolute s then components s else base ++ components s.

Definition content_at (fs : HostFs) (p : path) : option content :=
  if decide (p = []) then Some Dir else icontent <$> fs !! p.

Definition MAXSYMLINKS : nat := 40.

(** The loop over components, [cur] being resolved already; [follow] says whether a
    link in the last place is followed, [expand] continues after a link. *)
Fixpoint walk_components (fs : HostFs) (follow : bool) (expand : path → path → result errno path)
    (cur todo : path) : result errno path :=
  match todo with
  | [] => Ok cur
  | c :: rest =>
    if decide (c = "..") then walk_components fs follow expand (parent cur) rest
    else
      let p := cur ++ [c] in
      match content_at fs p with
      | Some (Symlink t) =>
        if bool_decide (rest = []) && negb follow then Ok p
        else expand (if is_absolute t then [] else cur) (components t ++ rest)
      | Some Dir => walk_components fs follow expand p rest
      | Some (File _) => if bool_decide (rest = []) then Ok p else Err ENOTDIR
      | None => if bool_decide (rest = []) then Ok p else Err ENOENT
      end
  end.

Fixpoint resolve_from (links : nat) (fs : HostFs) (follow : bool) (cur todo : path) : result errno path :=
  walk_components fs follow
    (match links with
     | O => λ _ _, Err ELOOP
     | S links => resolve_from links fs follow
     end) cur todo.

(** The path of the file that [p] names; the file need not exist, its directory must. *)
Definition resolve (follow : bool) (p : path) : host_eff path := λ fs,
  (resolve_from MAXSYMLINKS fs follow [] p, fs).

(** ** Queries *)

(** [Path::is_dir], [Path::exists]. *)
Definition is_dir (p : path) (fs : HostFs) : bool :=
  match (resolve true p fs).1 with
  | Ok q => bool_decide (content_at fs q = Some Dir)
  | Err _ => false
  end.

Definition children_of (fs : HostFs) (p : path) : list path :=
  filter (λ q, q ≠ [] ∧ parent q = p) (map_to_list fs).*1.

Definition below_dir (p q : path) : bool :=
  match strip_dir p q with
  | Some (_ :: _) => true
  | _ => false
  end.

(** [std::fs::read_dir]: the paths are those of the entries under the given name. *)
Definition read_dir (p : path) : host_eff (list path) :=
  q ← resolve true p;
  fs ← get_world;
  match content_at fs q with
  | Some Dir => mret ((λ c, p ++ [file_name c]) <$> children_of fs q)
  | Some _ => throw ENOTDIR
  | None => throw ENOENT
  end.

(** ** Changes *)

Definition put_inode (p : path) (c : content) : host_eff unit :=
  modify_world <[p := MkInode c (default_meta c)]>.

Definition mkdir (m : Z) (p : path) : host_eff unit :=
  q ← resolve false p;
  fs ← get_world;
  match content_at fs q with
  | Some _ => throw EEXIST
  | None => modify_world <[q := MkInode Dir (MkMeta m 0 0 0 ∅)]>
  end.

(** [DirBuilder::recursive]: try the directory itself, then its ancestors. *)
Fixpoint create_dir_all_loop (m : Z) (n : nat) (p : path) : host_eff unit :=
  if decide (p = []) then mret tt
  else
    r ← try_eff (mkdir m p);
    fs ← get_world;
    match r with
    | Ok _ => mret tt
    | Err ENOENT =>
      match n with
      | O => throw ENOENT
      | S n =>
        create_dir_all_loop m n (parent p) ;;
        r ← try_eff (mkdir m p);
        fs ← get_world;
        match r with
        | Ok _ => mret tt
        | Err e => if is_dir p fs then mret tt else throw e
        end
      end
    | Err e => if is_dir p fs then mret tt else throw e
    end.

(** [std::fs::create_dir_all]; a path has as many ancestors as components. *)
Definition create_dir_all (p : path) : host_eff unit := create_dir_all_loop 493 (length p) p.

(** [std::fs::write], and the target side of [std::fs::copy]. *)
Definition write_host (p : path) (data : bytes) : host_eff unit :=
  q ← resolve true p;
  fs ← get_world;
  match content_at fs q with
  | Some Dir => throw EISDIR
  | Some (Symlink _) => throw ELOOP
  | Some (File _) =>
    modify_world (alter (λ i, MkInode (File data) (imeta i)) q)
  | None => put_inode q (File data)
  end.

(** [std::fs::remove_file]. *)
Definition unlink (p : path) : host_eff unit :=
  q ← resolve false p;
  fs ← get_world;
  match content_at fs q with
  | Some Dir => throw EISDIR
  | Some _ => modify_world (delete q)
  | None => throw ENOENT
  end.

(** [std::fs::remove_dir]. *)
Definition rmdir (p : path) : host_eff unit :=
  q ← resolve false p;
  fs ← get_world;
  match content_at fs q with
  | Some Dir =>
    if bool_decide (q = [] ∨ children_of fs q ≠ []) then throw ENOTEMPTY else modify_world (delete q)
  | Some _ => throw ENOTDIR
  | None => throw ENOENT
  end.

(** [std::fs::remove_dir_all]: a link is removed itself, not what it names. *)
Definition remove_dir_all (p : path) : host_eff unit :=
  q ← resolve false p;
  fs ← get_world;
  match content_at fs q with
  | Some Dir => modify_world (filter (λ kv, kv.1 ≠ q ∧ below_dir q kv.1 = false))
  | Some (Symlink _) => modify_world (delete q)
  | Some (File _) => throw ENOTDIR
  | None => throw ENOENT
  end.

(** [std::os::unix::fs::symlink]. *)
Definition symlink (target : string) (p : path) : host_eff unit :=
  q ← resolve false p;
  fs ← get_world;
  match content_at fs q with
  | Some _ => throw EEXIST
  | None => put_inode q (Symlink target)
  end.

(** [OpenOptions::new().write(true).create_new(true).mode(m).open(p)]: the path of the
    new file; a link in its place is not followed.  [write_fd] writes to it. *)
Definition open_new (p : path) (m : Z) : host_eff path :=
  q ← resolve false p;
  fs ← get_world;
  match content_at fs q with
  | Some _ => throw EEXIST
  | None =>
    modify_world <[q := MkInode (File []) (MkMeta m 0 0 0 ∅)]> ;;
    mret q
  end.

Definition write_fd (q : path) (data : bytes) : host_eff unit :=
  modify_world (alter (λ i, MkInode (File data) (imeta i)) q).

(** [std::fs::read]. *)
Definition read_host (p : path) : host_eff bytes :=
  q ← resolve true p;
  fs ← get_world;
  match content_at fs q with
  | Some (File data) => mret data
  | Some _ => throw EISDIR
  | None => throw ENOENT
  end.

(** [std::fs::read_link]. *)
Definition read_link (p : path) : host_eff string :=
  q ← resolve false p;
  fs ← get_world;
  match content_at fs q with
  | Some (Symlink t) => mret t
  | Some _ => throw EINVAL
  | None => throw ENOENT
  end.

(** [Path::canonicalize]. *)
Definition canonicalize (p : path) : host_eff path :=
  q ← resolve true p;
  fs ← get_world;
  match content_at fs q with
  | Some _ => mret q
  | None => throw ENOENT
  end.

(** [Path::exists]. *)
Definition path_exists (p : path) (fs : HostFs) : bool :=
  match (resolve true p fs).1 with
  | Ok q => bool_decide (is_Some (content_at fs q))
  | Err _ => false
  end.

(** [std::fs::metadata]. *)
Definition metadata (p : path) : host_eff inode :=
  q ← resolve true p;
  fs ← get_world;
  match fs !! q with
  | Some i => mret i
  | None => if decide (q = []) then mret (MkInode Dir (default_meta Dir)) else throw ENOENT
  end.

(** ** Attributes *)

Definition update_meta (follow : bool) (f : Meta → Meta) (p : path) : host_eff unit :=
  q ← resolve follow p;
  fs ← get_world;
  match content_at fs q with
  | Some _ => modify_world (alter (λ i, MkInode (icontent i) (f (imeta i))) q)
  | None => throw ENOENT
  end.

(** [set_permissions], [chown] and [filetime::set_file_mtime] follow links,
    [xattr::set] does not. *)
Definition chmod (p : path) (m : Z) : host_eff unit :=
  update_meta true (λ i, MkMeta m (fuid i) (fgid i) (fmtime i) (fxattrs i)) p.
Definition chown (p : path) (u g : Z) : host_eff unit :=
  update_meta true (λ i, MkMeta (fmode i) u g (fmtime i) (fxattrs i)) p.
Definition set_file_mtime (p : path) (t : Z) : host_eff unit :=
  update_meta true (λ i, MkMeta (fmode i) (fuid i) (fgid i) t (fxattrs i)) p.
Definition setxattr (p : path) (name : string) (value : bytes) : host_eff unit :=
  update_meta false (λ i, MkMeta (fmode i) (fuid i) (fgid i) (fmtime i) (<[name := value]> (fxattrs i))) p.
