(* ===== verification/Exec.v ===== *)
(** * Executors: JSON values, types and interface: [runtime/pullrun-exec/src]

    serde_json's [Value]: values, the accessors the runtime calls on them, and the
    printer and parser as parameters.  An object is a [BTreeMap]: a list of members in the order of their
    keys.  Floating-point numbers are kept as their bits; no accessor used here looks
    at them.  Then the data of a workload, the interface that every executor has, and the
    seccomp profiles. *)

From stdpp Require Import base gmap strings list.
From Stdlib Require Import ZArith Ascii String.
From S2P Require Import Prelude Strs Node Fs Store OciTypes HostFs Net.

#[warnings="-register-all"]
Inductive Json :=
| JNull
| JBool (b : bool)
| JNum (z : Z)
| JFloat (bits : Z)
| JStr (s : string)
| JArr (l : list Json)
| JObj (l : list (string * Json)).

(** [BTreeMap::insert], [BTreeMap::get]. *)
Fixpoint obj_insert (k : string) (v : Json) (l : list (string * Json)) : list (string * Json) :=
  match l with
  | [] => [(k, v)]
  | (k', v') :: l' =>
    match String.compare k k' with
    | Lt => (k, v) :: l
    | Eq => (k, v) :: l'
    | Gt => (k', v') :: obj_insert k v l'
    end
  end.

Fixpoint obj_get (k : string) (l : list (string * Json)) : option Json :=
  match l with
  | [] => None
  | (k', v) :: l => if decide (k' = k) then Some v else obj_get k l
  end.

(** [json!({ k: v, ... })]. *)
Definition obj (l : list (string * Json)) : Json :=
  JObj (fold_left (λ acc kv, obj_insert kv.1 kv.2 acc) l []).

Definition strs (l : list string) : Json := JArr (JStr <$> l).

Definition as_object (v : Json) : option (list (string * Json)) :=
  match v with JObj l => Some l | _ => None end.
Definition as_array (v : Json) : option (list Json) :=
  match v with JArr l => Some l | _ => None end.
Definition as_str (v : Json) : option string :=
  match v with JStr s => Some s | _ => None end.
Definition json_i64 (v : Json) : option Z :=
  match v with JNum z => if decide (- 2 ^ 63 ≤ z < 2 ^ 63)%Z then Some z else None | _ => None end.
Definition is_object (v : Json) : bool :=
  match v with JObj _ => true | _ => false end.

(** [Value::get] with a key; [v["k"]] gives [Null] where this gives [None]. *)
Definition jget (k : string) (v : Json) : option Json := l ← as_object v; obj_get k l.

(** A member at a path of keys. *)
Definition jpath (ks : list string) (v : Json) : option Json :=
  foldl (λ o k, w ← o; jget k w) (Some v) ks.

(** [if let Some(o) = v.as_object_mut() { o.insert(k, x); }]. *)
Definition jset (k : string) (x v : Json) : Json :=
  match v with
  | JObj l => JObj (obj_insert k x l)
  | v => v
  end.

(** [if let Some(x) = v.get_mut(k) { f(x) }]. *)
Definition jalter (k : string) (f : Json → Json) (v : Json) : Json :=
  match jget k v with
  | Some x => jset k (f x) v
  | None => v
  end.

(** [to_string_pretty], [from_slice]. *)
Class JsonText := {
  json_to_string_pretty : Json → bytes;
  json_from_slice : bytes → option Json;
}.

(** ** Lemmas *)

Lemma str_compare_eq a b : String.compare a b = Eq ↔ a = b.
Proof.
  split; [apply String.compare_eq_iff|]. intros ->.
  pose proof (String.compare_antisym b b) as E. destruct (String.compare b b); simpl in E; congruence.
Qed.

Lemma obj_get_insert k k' v l :
  obj_get k' (obj_insert k v l) = if decide (k = k') then Some v else obj_get k' l.
Proof.
  induction l as [|[k1 v1] l IH]; simpl; [by repeat case_decide|].
  destruct (String.compare k k1) eqn:E; simpl.
  - apply str_compare_eq in E as ->. by repeat case_decide.
  - done.
  - rewrite IH. repeat case_decide; subst; try done.
    rewrite (proj2 (str_compare_eq k' k') eq_refl) in E. done.
Qed.

Lemma jget_jset k k' x l :
  jget k' (jset k x (JObj l)) = if decide (k = k') then Some x else jget k' (JObj l).
Proof. apply obj_get_insert. Qed.

Lemma jget_jalter k k' f v :
  jget k' (jalter k f v) = if decide (k = k') then f <$> jget k' v else jget k' v.
Proof.
  unfold jalter. destruct (jget k v) as [x|] eqn:E.
  - destruct v; try done. rewrite jget_jset. case_decide; subst; [by rewrite E|done].
  - case_decide; subst; [by rewrite E|done].
Qed.

Lemma jset_object k x v : is_object (jset k x v) = is_object v.
Proof. by destruct v. Qed.

Lemma jalter_object k f v : is_object (jalter k f v) = is_object v.
Proof. unfold jalter. destruct (jget k v); [apply jset_object|done]. Qed.

Lemma obj_get_obj k l :
  jget k (obj l) = snd <$> List.find (λ kv, bool_decide (kv.1 = k)) (reverse l).
Proof.
  unfold obj, jget, as_object. change (mbind _ (Some ?x)) with (obj_get k x). simpl.
  induction l as [|[k1 v1] l IH] using rev_ind; [done|].
  rewrite fold_left_app, reverse_app. cbn [fold_left reverse]. rewrite obj_get_insert.
  change (reverse [(k1, v1)]) with [(k1, v1)]. cbn [app List.find]. simpl.
  destruct (decide (k1 = k)); [by rewrite bool_decide_true|by rewrite bool_decide_false, IH].
Qed.

(** [str::to_lowercase]. *)
Class Lowercase := to_lowercase : string → string.

(** ** Types *)

Module RestartPolicy.
Inductive t :=
| No
| OnFailure
| Always
| UnlessStopped.
#[global] Instance t_eq_dec : EqDecision t.
Proof. solve_decision. Defined.
End RestartPolicy.

Record Mount := MkMount {
  mt_type : string;
  mt_source : string;
  mt_destination : string;
  mt_options : list string;
}.

Definition Mount_bind (source destination : string) : Mount :=
  MkMount "bind" source destination ["rbind"; "rprivate"].
Definition with_option (m : Mount) (opt : string) : Mount :=
  MkMount (mt_type m) (mt_source m) (mt_destination m) (mt_options m ++ [opt]).
Definition read_only (m : Mount) : Mount := with_option m "ro".

Record DnsConfig := MkDns {
  nameservers : list string;
  searches : list string;
  dns_options : list string;
}.

Module NetworkMode.
Inductive t :=
| Loopback
| Bridge
| Host
| Slirp
| Container (target : string).
#[global] Instance t_eq_dec : EqDecision t.
Proof. solve_decision. Defined.
End NetworkMode.

Module Backend.
Inductive t :=
| Container
| ContainerRootless
| Vm
| Sandbox.
#[global] Instance t_eq_dec : EqDecision t.
Proof. solve_decision. Defined.

Definition as_str (b : t) : string :=
  match b with
  | Container => "container"
  | ContainerRootless => "container-rootless"
  | Vm => "vm"
  | Sandbox => "sandbox"
  end.

(** The error carries the name that is not known. *)
Definition from_str `{Lowercase} (s : string) : result string t :=
  let s := to_lowercase s in
  if decide (s = "container") then Ok Container
  else if decide (s = "container-rootless") then Ok ContainerRootless
  else if decide (s = "vm" ∨ s = "firecracker") then Ok Vm
  else if decide (s = "sandbox") then Ok Sandbox
  else Err s.
End Backend.

Record HealthCheck := MkHealthCheck {
  hc_test : list string;
  interval_seconds : Z;
  timeout_seconds : Z;
  retries : Z;
  start_period_seconds : Z;
}.

Record WorkloadSpec := MkSpec {
  ws_id : string;
  ws_image_root : Digest;
  ws_backend : Backend.t;
  ws_command : list string;
  ws_env : gmap string string;
  ws_cpu_millicores : option Z;
  ws_memory_bytes : option Z;
  ws_network_mode : NetworkMode.t;
  ws_network_rules : list NetworkRule;
  ws_kernel_path : option path;
  ws_bridge_name : option string;
  ws_mounts : list Mount;
  ws_health_check : option HealthCheck;
  ws_restart_policy : RestartPolicy.t;
  ws_readonly_rootfs : bool;
  ws_no_new_privileges : bool;
  ws_seccomp_profile : option string;
  ws_allowed_syscalls : list string;
  ws_privileged : bool;
  ws_dns : DnsConfig;
}.

(** [WorkloadSpec::builder(id, image_root).build()]; the builder's methods replace
    one field each. *)
Definition spec_builder (id : string) (image_root : Digest) : WorkloadSpec :=
  MkSpec id image_root Backend.Container [] ∅ None None NetworkMode.Loopback [] None None [] None
    RestartPolicy.No false false None [] false (MkDns [] [] []).

Record ProcessHandle := MkHandle {
  ph_id : string;
  ph_pid : option Z;
  ph_internal_ip : option string;
  ph_gateway : option string;
  ph_host_ports : list (Z * Z);
  ph_backend : string;
  ph_bridge_name : option string;
  ph_network_join : option string;
}.

(** [cpu_usage_percent] is the number of microseconds the source divides by 10^6. *)
Record WorkloadStats := MkStats {
  st_id : string;
  st_cpu_usec : Z;
  st_memory_bytes : Z;
  st_disk_bytes : Z;
  st_network_rx_bytes : Z;
  st_network_tx_bytes : Z;
}.

Record ExitStatus := MkExitStatus { es_exit_code : Z; es_signal : option Z }.

Record ExecOutput := MkExecOutput { eo_exit_code : Z; eo_stdout : bytes; eo_stderr : bytes }.

(** What the message of a failed execution names. *)
Inductive exec_failure :=
| IpCommandMissing
| IpLinkAdd (link : string)
| IpLinkUp (link : string)
| RuncStateFailed
| ParseRuncState
| NoPid
| VethFailed
| ProxyRegister (e : NetError)
| SeccompProfile (what : string)
| RuncRunFailed (id : string)
| InvalidInternalIp (ip : string)
| StillRunning (id status : string)
| RuncUpdateFailed
| RuncExecFailed
| TargetNotRunning (target : string)
| ConfigUnreadable
| ConfigMissing
| SpawnError
| VmStep (step : string).

Inductive ExecError :=
| ExecNotFound (id : string)
| BackendNotAvailable (what : string)
| ExecutionFailed (what : exec_failure)
| ExecIo
| ExecStore (e : StoreError)
| ExecOci (e : OciError.t).

(** ** The interface of the executors

    Operations on the state [X] of the host. *)
Record Executor (X : Type) := MkExecutor {
  ex_create : WorkloadSpec → eff X ExecError ProcessHandle;
  ex_start : ProcessHandle → eff X ExecError ProcessHandle;
  ex_stop : string → eff X ExecError unit;
  ex_wait : string → eff X ExecError ExitStatus;
  ex_status : string → eff X ExecError string;
  ex_update : string → option Z → option Z → eff X ExecError unit;
  ex_stats : string → eff X ExecError WorkloadStats;
  ex_exec : string → list string → Z → eff X ExecError ExecOutput;
}.

Arguments ex_create {X}.
Arguments ex_start {X}.
Arguments ex_stop {X}.
Arguments ex_wait {X}.
Arguments ex_status {X}.
Arguments ex_update {X}.
Arguments ex_stats {X}.
Arguments ex_exec {X}.

(** ** Seccomp profiles *)

Definition DEFAULT_ALLOWED_SYSCALLS : list string :=
  ["accept4"; "access"; "arch_prctl"; "bind"; "brk"; "capget"; "capset"; "chdir"; "clock_getres";
   "clock_gettime"; "clock_nanosleep"; "clone"; "clone3"; "close"; "connect"; "dup"; "dup2"; "dup3";
   "epoll_create1"; "epoll_ctl"; "epoll_pwait"; "epoll_wait"; "eventfd2"; "execve"; "execveat"; "exit";
   "exit_group"; "faccessat"; "faccessat2"; "fchdir"; "fchmod"; "fchmodat"; "fchown"; "fchownat"; "fcntl";
   "fdatasync"; "flock"; "fork"; "fsync"; "ftruncate"; "futex"; "getcwd"; "getdents64"; "getegid";
   "geteuid"; "getgid"; "getgroups"; "getpeername"; "getpid"; "getppid"; "getrandom"; "getrlimit";
   "getsockname"; "getsockopt"; "gettid"; "gettimeofday"; "getuid"; "ioctl"; "kill"; "link"; "linkat";
   "listen"; "lseek"; "lstat"; "madvise"; "memfd_create"; "mkdir"; "mkdirat"; "mknod"; "mknodat"; "mmap";
   "mprotect"; "mq_getsetattr"; "mq_notify"; "mq_open"; "mq_timedreceive"; "mq_timedsend"; "mq_unlink";
   "mremap"; "msync"; "munmap"; "nanosleep"; "newfstatat"; "open"; "openat"; "pause"; "pipe"; "pipe2";
   "poll"; "ppoll"; "prctl"; "pread64"; "prlimit64"; "pselect6"; "pwrite64"; "read"; "readlink";
   "readlinkat"; "readv"; "recvfrom"; "recvmsg"; "rename"; "renameat"; "renameat2"; "rmdir";
   "rt_sigaction"; "rt_sigpending"; "rt_sigprocmask"; "rt_sigqueueinfo"; "rt_sigreturn"; "rt_sigsuspend";
   "rt_sigtimedwait"; "sched_getaffinity"; "sched_getparam"; "sched_getscheduler"; "sched_setaffinity";
   "sched_setparam"; "sched_setscheduler"; "sched_yield"; "select"; "sendfile"; "sendmsg"; "sendto";
   "set_robust_list"; "set_tid_address"; "setgid"; "setgroups"; "sethostname"; "setitimer"; "setpgid";
   "setresgid"; "setresuid"; "setrlimit"; "setsid"; "setsockopt"; "setuid"; "shutdown"; "sigaltstack";
   "socket"; "socketpair"; "stat"; "statfs"; "statx"; "symlink"; "symlinkat"; "sysinfo"; "tee"; "tgkill";
   "time"; "timer_create"; "timer_delete"; "timer_settime"; "tkill"; "truncate"; "umask"; "uname";
   "unlink"; "unlinkat"; "utimensat"; "wait4"; "waitid"; "write"; "writev"].

(** A profile that fails every system call that is not listed. *)
Definition seccomp_allowlist (syscalls : list string) : Json :=
  obj [("defaultAction", JStr "SCMP_ACT_ERRNO");
       ("architectures", strs ["SCMP_ARCH_X86_64"; "SCMP_ARCH_X86"; "SCMP_ARCH_AARCH64"; "SCMP_ARCH_ARM"]);
       ("syscalls", JArr [obj [("names", strs syscalls); ("action", JStr "SCMP_ACT_ALLOW")]])].

Definition build_seccomp `{JsonText} (profile : option string) (allowed_syscalls : list string)
    : result exec_failure (option Json) :=
  match profile with
  | None => Ok None
  | Some p =>
    if decide (p = "unconfined") then Ok None
    else if decide (p = "default") then
      Ok (Some (seccomp_allowlist match allowed_syscalls with [] => DEFAULT_ALLOWED_SYSCALLS | l => l end))
    else
      match strip_prefix "pullrun:" p with
      | Some json =>
        match json_from_slice (as_bytes json) with
        | None => Err (SeccompProfile json)
        | Some v => if is_object v then Ok (Some v) else Err (SeccompProfile json)
        end
      | None => Err (SeccompProfile p)
      end
  end.
