(* ===== verification/Workload.v ===== *)
(** * The state of a workload: [runtime/pullrun-runtime/src/{service,events}.rs]

    [WorkloadState] with its checkpoint file format, the functions that check and
    translate the fields of requests, and events. *)

From stdpp Require Import base gmap strings list pretty.
From Stdlib Require Import ZArith Ascii Lia.
From S2P Require Import Prelude Strs Utf8 Node Fs HostFs Net Exec.

(** ** The state *)

Record WorkloadState := MkState {
  status : string;
  start_time : Z;
  exit_time : Z;
  exit_code : option Z;
  backend : string;
  internal_ip : option string;
  pid : Z;
  image_root : string;
  command : list string;
  network_rules : list NetworkRule;
  policy_decisions : gmap string string;
  kernel_image_ref : string;
  kernel_image_digest : string;
  working_dir : string;
  rootfs_dir : option path;
  health_check : option HealthCheck;
  health : string;
  health_failures : Z;
  health_last_success : Z;
  restart_policy : RestartPolicy.t;
  restart_count : Z;
  env : gmap string string;
  cpu_millicores : option Z;
  memory_bytes : option Z;
  bridge_name : option string;
  network_mode : string;
  mounts : list Mount;
  privileged : bool;
  readonly_rootfs : bool;
  no_new_privileges : bool;
  seccomp_profile : option string;
  allowed_syscalls : list string;
  dns : DnsConfig;
  console_log_path : option path;
}.

(** Assignments to the fields that change after a workload was recorded. *)
Definition set_exit (st : string) (time : Z) (code : option Z) (s : WorkloadState) : WorkloadState :=
  MkState st (start_time s) time code (backend s) (internal_ip s) (pid s) (image_root s) (command s)
    (network_rules s) (policy_decisions s) (kernel_image_ref s) (kernel_image_digest s) (working_dir s) (rootfs_dir s)
    (health_check s) (health s) (health_failures s) (health_last_success s) (restart_policy s) (restart_count s)
    (env s) (cpu_millicores s) (memory_bytes s) (bridge_name s) (network_mode s) (mounts s) (privileged s)
    (readonly_rootfs s) (no_new_privileges s) (seccomp_profile s) (allowed_syscalls s) (dns s) (console_log_path s).

Definition set_restarted (now : Z) (p : Z) (ip : option string) (s : WorkloadState) : WorkloadState :=
  MkState "running" now 0 None (backend s) ip p (image_root s) (command s)
    (network_rules s) (policy_decisions s) (kernel_image_ref s) (kernel_image_digest s) (working_dir s) (rootfs_dir s)
    (health_check s) (health s) (health_failures s) (health_last_success s) (restart_policy s)
    (wrap32 (restart_count s + 1))
    (env s) (cpu_millicores s) (memory_bytes s) (bridge_name s) (network_mode s) (mounts s) (privileged s)
    (readonly_rootfs s) (no_new_privileges s) (seccomp_profile s) (allowed_syscalls s) (dns s) (console_log_path s).

Definition set_health (h : string) (failures last : Z) (s : WorkloadState) : WorkloadState :=
  MkState (status s) (start_time s) (exit_time s) (exit_code s) (backend s) (internal_ip s) (pid s) (image_root s)
    (command s) (network_rules s) (policy_decisions s) (kernel_image_ref s) (kernel_image_digest s) (working_dir s)
    (rootfs_dir s) (health_check s) h failures last (restart_policy s) (restart_count s)
    (env s) (cpu_millicores s) (memory_bytes s) (bridge_name s) (network_mode s) (mounts s) (privileged s)
    (readonly_rootfs s) (no_new_privileges s) (seccomp_profile s) (allowed_syscalls s) (dns s) (console_log_path s).

Definition set_kernel_digest (d : string) (s : WorkloadState) : WorkloadState :=
  MkState (status s) (start_time s) (exit_time s) (exit_code s) (backend s) (internal_ip s) (pid s) (image_root s)
    (command s) (network_rules s) (policy_decisions s) (kernel_image_ref s) d (working_dir s)
    (rootfs_dir s) (health_check s) (health s) (health_failures s) (health_last_success s) (restart_policy s)
    (restart_count s) (env s) (cpu_millicores s) (memory_bytes s) (bridge_name s) (network_mode s) (mounts s)
    (privileged s) (readonly_rootfs s) (no_new_privileges s) (seccomp_profile s) (allowed_syscalls s) (dns s)
    (console_log_path s).

(** The JSON of a checkpoint. *)
Class StateJson := {
  state_to_string_pretty : WorkloadState → option bytes;
  state_from_str : bytes → option WorkloadState;
}.

(** A record of strings, numbers and maps with text keys can be written, and reads back. *)
Class StateJsonLaws `{StateJson} : Prop := {
  state_to_string_total s : is_Some (state_to_string_pretty s);
  state_roundtrip s b : state_to_string_pretty s = Some b → state_from_str b = Some s;
}.

(** ** Fields of requests *)

(** The text after the first occurrence of [pat]. *)
Fixpoint find_after (pat s : string) : option string :=
  if starts_with s pat then Some (str_drop (String.length pat) s)
  else match s with
       | EmptyString => None
       | String _ s => find_after pat s
       end.

Definition is_ascii_digit (c : ascii) : bool := in_range "0" "9" c.

(** The digits at the front, if something follows them. *)
Fixpoint digits_before (s : string) : option string :=
  match s with
  | EmptyString => None
  | String c s' => if is_ascii_digit c then String c <$> digits_before s' else Some EmptyString
  end.

(** The exit code in the status text of an executor; [128 + signal] wraps. *)
Definition parse_exit_code (s : string) : option Z :=
  match strip_prefix "exit_code=" s with
  | Some rest => w ← head (split_whitespace rest); parse_u32 w
  | None =>
    match (rest ← find_after "exited(" s; split_once rest ")") with
    | Some (code, _) => parse_u32 code
    | None =>
      rest ← find_after "signal " s;
      digits ← digits_before rest;
      sig ← parse_u32 digits;
      Some (wrap32 (128 + sig))
    end
  end.

Definition parse_restart_policy (p : Z) : RestartPolicy.t :=
  if decide (p = 2)%Z then RestartPolicy.OnFailure
  else if decide (p = 3)%Z then RestartPolicy.Always
  else if decide (p = 4)%Z then RestartPolicy.UnlessStopped
  else RestartPolicy.No.

(** The number of a policy on the wire. *)
Definition restart_proto (p : RestartPolicy.t) : Z :=
  match p with
  | RestartPolicy.OnFailure => 2
  | RestartPolicy.Always => 3
  | RestartPolicy.UnlessStopped => 4
  | RestartPolicy.No => 1
  end.

Inductive id_error :=
| IdEmpty
| IdTooLong
| IdChars.

Definition is_ascii_alphanumeric (c : ascii) : bool :=
  in_range "0" "9" c || in_range "a" "z" c || in_range "A" "Z" c.

Definition id_char (c : ascii) : bool :=
  is_ascii_alphanumeric c || bool_decide (c = "-"%char) || bool_decide (c = "_"%char) || bool_decide (c = "."%char).

Definition validate_workload_id (id : string) : result id_error unit :=
  if decide (id = EmptyString) then Err IdEmpty
  else if (128 <? String.length id)%nat then Err IdTooLong
  else if str_all id_char id then Ok tt
  else Err IdChars.

Definition parse_network_mode (s : string) (has_inbound_ports : bool) : NetworkMode.t :=
  match strip_prefix "container:" s with
  | Some target => NetworkMode.Container target
  | None =>
    if decide (s = "bridge") then NetworkMode.Bridge
    else if decide (s = "host") then NetworkMode.Host
    else if decide (s = "slirp") then NetworkMode.Slirp
    else if has_inbound_ports then NetworkMode.Bridge
    else NetworkMode.Loopback
  end.

Definition network_mode_str (m : NetworkMode.t) : string :=
  match m with
  | NetworkMode.Container target => "container:" +:+ target
  | NetworkMode.Bridge => "bridge"
  | NetworkMode.Host => "host"
  | NetworkMode.Slirp => "slirp"
  | NetworkMode.Loopback => "isolated"
  end.

Definition is_network_isolated (s : WorkloadState) : bool :=
  let m := network_mode s in
  if decide (m = "bridge" ∨ m = "host" ∨ m = "slirp") then false
  else if starts_with m "container:" then false
  else if decide (m = EmptyString) then bool_decide (internal_ip s = None)
  else true.

Definition dns_from_req (d : option DnsConfig) : DnsConfig := default (MkDns [] [] []) d.

(** ** Bind mounts *)

Inductive mount_error :=
| EmptySource
| HostRoot
| StoreRoot
| UnsupportedType (t : string)
| RelativeDestination (d : string)
| ParentInDestination (d : string).

(** [Path::starts_with]: by components. *)
Definition path_starts_with (p base : path) : bool := bool_decide (take (length base) p = base).

(** [fs] is the host's file system, [cwd] the daemon's working directory.  A source that
    cannot be resolved is taken as it is; the flag says whether the result is absolute. *)
Definition canonical_source (fs : HostFs) (cwd : path) (source : string) : bool * path :=
  match (canonicalize (path_join cwd source) fs).1 with
  | Ok p => (true, p)
  | Err _ => (is_absolute source, components source)
  end.

Definition sanitize_mount (fs : HostFs) (cwd store_root : path) (m : Mount) : result mount_error unit :=
  (if decide (mt_type m = "bind") then
     if decide (mt_source m = EmptyString) then Err EmptySource
     else
       let '(absolute, canonical) := canonical_source fs cwd (mt_source m) in
       if absolute && bool_decide (canonical = []) then Err HostRoot
       else if absolute && path_starts_with canonical store_root then Err StoreRoot
       else Ok tt
   else if decide (mt_type m = "tmpfs" ∨ mt_type m = "volume") then Ok tt
   else Err (UnsupportedType (mt_type m))) ;;
  if negb (is_absolute (mt_destination m)) then Err (RelativeDestination (mt_destination m))
  else if bool_decide (".." ∈ components (mt_destination m)) then Err (ParentInDestination (mt_destination m))
  else Ok tt.

Fixpoint sanitize_mounts (fs : HostFs) (cwd store_root : path) (l : list Mount) : result mount_error unit :=
  match l with
  | [] => Ok tt
  | m :: l => sanitize_mount fs cwd store_root m ;; sanitize_mounts fs cwd store_root l
  end.

(** ** Events *)

Module EventKind.
Inductive t :=
| ImagePulled
| ImageDeduped
| WorkloadStarted
| WorkloadStopped
| WorkloadExited
| BackendSelected
| PolicyDenied
| PolicyAllowed.

#[global] Instance t_eq_dec : EqDecision t.
Proof. solve_decision. Defined.

Definition as_str (k : t) : string :=
  match k with
  | ImagePulled => "IMAGE_PULLED"
  | ImageDeduped => "IMAGE_DEDUPED"
  | WorkloadStarted => "WORKLOAD_STARTED"
  | WorkloadStopped => "WORKLOAD_STOPPED"
  | WorkloadExited => "WORKLOAD_EXITED"
  | BackendSelected => "BACKEND_SELECTED"
  | PolicyDenied => "POLICY_DENIED"
  | PolicyAllowed => "POLICY_ALLOWED"
  end.

Definition parse (s : string) : option t :=
  if decide (s = "IMAGE_PULLED") then Some ImagePulled
  else if decide (s = "IMAGE_DEDUPED") then Some ImageDeduped
  else if decide (s = "WORKLOAD_STARTED") then Some WorkloadStarted
  else if decide (s = "WORKLOAD_STOPPED") then Some WorkloadStopped
  else if decide (s = "WORKLOAD_EXITED") then Some WorkloadExited
  else if decide (s = "BACKEND_SELECTED") then Some BackendSelected
  else if decide (s = "POLICY_DENIED") then Some PolicyDenied
  else if decide (s = "POLICY_ALLOWED") then Some PolicyAllowed
  else None.
End EventKind.

(** The texts of errors in the metadata are left out. *)
Record Event := MkEvent {
  ev_id : string;
  ev_kind : EventKind.t;
  ev_timestamp : Z;
  ev_metadata : gmap string string;
}.

Definition Event_new (now : Z) (id : string) (kind : EventKind.t) : Event := MkEvent id kind now ∅.
Definition with_metadata (key value : string) (e : Event) : Event :=
  MkEvent (ev_id e) (ev_kind e) (ev_timestamp e) (<[key := value]> (ev_metadata e)).

(** The events a stream with a filter passes on. *)
Definition stream_allows (event_types : list string) (e : Event) : bool :=
  let allow := filter (λ s, s ≠ EmptyString) event_types in
  bool_decide (allow = []) || bool_decide (EventKind.as_str (ev_kind e) ∈ allow).
