(* ===== verification/Images.v ===== *)
(** * Images in the runtime service: [runtime/pullrun-runtime/src/service.rs]

    The table of tagged images with its file [image_tags.json], the handlers that
    tag and remove images and collect garbage, and the start-up of the daemon.  Of
    the service's state this has what these handlers use. *)

From stdpp Require Import base gmap strings list.
From Stdlib Require Import ZArith Lia.
From S2P Require Import Prelude Strs Crates Node Fs Worklist Store OpLock Gc Workload.

(** [std::fs::write] replaces the file, or fails and leaves the old one or a part
    that does not parse. *)
Inductive save_outcome :=
| Saved
| KeptOld
| LeftUnreadable.

Record ImageService := MkImages {
  im_gc : GcWorld;
  image_tags : gmap string string;
  workloads : gmap string WorkloadState;
  (** The map [image_tags.json] holds, if it can be opened and parsed. *)
  saved_tags : option (gmap string string);
  (** What the next write of the file will do. *)
  next_save : save_outcome;
  (** Whether the write guard of the lock around [image_tags] is held. *)
  tags_writer : bool;
}.

Inductive Status :=
| InvalidRootDigest (e : DigestError)
| ImageNotFound (root_digest : string)
| ImageInUse (workload : string)
| NoRoots
| FailedPrecondition (e : GcError)
| Internal (e : GcError)
(** Not a status: the task waits for a guard that is never dropped. *)
| WaitsForever.

Abbreviation image_eff := (eff ImageService Status).

Definition im_store (s : ImageService) : World := gw_store (im_gc s).

Definition with_gc (g : GcWorld) (s : ImageService) : ImageService :=
  MkImages g (image_tags s) (workloads s) (saved_tags s) (next_save s) (tags_writer s).
Definition with_tags (t : gmap string string) (s : ImageService) : ImageService :=
  MkImages (im_gc s) t (workloads s) (saved_tags s) (next_save s) (tags_writer s).
Definition with_workloads (m : gmap string WorkloadState) (s : ImageService) : ImageService :=
  MkImages (im_gc s) (image_tags s) m (saved_tags s) (next_save s) (tags_writer s).
Definition with_writer (b : bool) (s : ImageService) : ImageService :=
  MkImages (im_gc s) (image_tags s) (workloads s) (saved_tags s) (next_save s) b.

(** ** The lock

    tokio's [RwLock]: a reader or writer waits until the write guard is dropped.  A
    guard taken and dropped within one step leaves no trace in the state. *)

Definition acquire_tags : image_eff unit :=
  s ← get_world;
  if tags_writer s then throw WaitsForever else mret tt.

Definition read_tags : image_eff (gmap string string) :=
  acquire_tags ;;
  s ← get_world;
  mret (image_tags s).

Definition write_tags (f : gmap string string → gmap string string) : image_eff unit :=
  acquire_tags ;;
  modify_world (λ s, with_tags (f (image_tags s)) s).

(** A store operation whose result the handler looks at. *)
Definition on_image_store {A} (m : store_eff A) : image_eff (result StoreError A) := λ s,
  let '(r, w) := m (im_store s) in (Ok r, with_gc (MkGcWorld w (gw_ops (im_gc s))) s).

Definition written (o : save_outcome) (old : option (gmap string string))
    (tags : gmap string string) : option (gmap string string) :=
  match o with
  | Saved => Some tags
  | KeptOld => old
  | LeftUnreadable => None
  end.

Definition save_image_tags : image_eff unit :=
  tags ← read_tags;
  modify_world (λ s, MkImages (im_gc s) (image_tags s) (workloads s)
    (written (next_save s) (saved_tags s) tags) (next_save s) (tags_writer s)).

Section images.
Context `{Hex, Sha2, Rkyv DagNode}.

(** ** Tagging *)

(** The look-up at the start of a pull: an entry with that reference.  The order of
    a [HashMap] is not specified; here it is that of the map's list. *)
Definition local_tag (image_ref : string) : image_eff (option string) :=
  tags ← read_tags;
  mret (fst <$> List.find (λ kv, bool_decide (kv.2 = image_ref)) (map_to_list tags)).

(** What a pull and a build do with the root they made. *)
Definition tag_image (root_digest : Digest) (image_ref : string) : image_eff unit :=
  write_tags <[as_hex root_digest := image_ref]> ;;
  on_image_store (increment_refcount root_digest) ;;
  save_image_tags.

(** What a commit does: the write guard [tags] lives to the end of the block. *)
Definition tag_commit (manifest_digest : Digest) (tag : string) : image_eff unit :=
  if decide (tag = EmptyString) then mret tt
  else
    acquire_tags ;;
    modify_world (with_writer true) ;;
    modify_world (λ s, with_tags (<[as_hex manifest_digest := tag]> (image_tags s)) s) ;;
    on_image_store (increment_refcount manifest_digest) ;;
    save_image_tags ;;
    modify_world (with_writer false).

(** ** Removing *)

(** [total_freed] over [entry_count] removals, errors skipped. *)
Fixpoint remove_tags (n : nat) (d : Digest) (total_freed : Z) : image_eff Z :=
  match n with
  | O => mret total_freed
  | S n =>
    r ← on_image_store (remove_tag d);
    remove_tags n d match r with
                    | Ok freed => wrap64 (total_freed + freed)
                    | Err _ => total_freed
                    end
  end.

Definition remove_image (root_digest : string) : image_eff Z :=
  d ← lift_result (map_err InvalidRootDigest (from_hex root_digest));
  tags ← read_tags;
  let entry_count := length (filter (λ kv, kv.1 = root_digest) (map_to_list tags)) in
  if decide (entry_count = 0) then throw (ImageNotFound root_digest)
  else
    s ← get_world;
    match List.find (λ kv, bool_decide (image_root kv.2 = root_digest)) (map_to_list (workloads s)) with
    | Some (id, _) => throw (ImageInUse id)
    | None =>
      total_freed ← remove_tags entry_count d 0%Z;
      write_tags (filter (λ kv, kv.1 ≠ root_digest)) ;;
      save_image_tags ;;
      mret (as_i64 total_freed)
    end.

(** ** Collecting *)

Definition non_empty_hex (s : string) : option Digest :=
  if decide (s = EmptyString) then None else ok (from_hex s).

Definition workload_roots (ws : WorkloadState) : list Digest :=
  omap non_empty_hex [image_root ws; kernel_image_digest ws].

Definition tag_roots (tags : gmap string string) : list Digest :=
  omap (λ kv, ok (from_hex kv.1)) (map_to_list tags).

Definition gc_roots (tags : gmap string string) (wl : gmap string WorkloadState) : list Digest :=
  tag_roots tags ++ (kv ← map_to_list wl; workload_roots kv.2).

Definition enumerate_gc_roots : image_eff (list Digest) :=
  tags ← read_tags;
  s ← get_world;
  mret (gc_roots tags (workloads s)).

Definition gc_error_to_status (e : GcError) : Status :=
  match e with
  | ActiveOpLocks | EmptyRootSet | RootDigestMissing _ | WouldFreeTooMuch _ _ _ => FailedPrecondition e
  | CorruptedNodeDuringWalk _ | GcIo _ | GcStore _ => Internal e
  end.

Definition gc (dry_run force : bool) : image_eff GcReport :=
  roots ← enumerate_gc_roots;
  if bool_decide (roots = []) then throw NoRoots
  else λ s,
    let collector := with_force force (with_dry_run dry_run GarbageCollector_new) in
    let '(r, g) := collect collector roots (im_gc s) in
    (map_err gc_error_to_status r, with_gc g s).

(** ** Start-up *)

Definition load_image_tags (s : ImageService) : ImageService := with_tags (default ∅ (saved_tags s)) s.

Definition migrate_workload (tags : gmap string string) (ws : WorkloadState) : WorkloadState :=
  if decide (kernel_image_ref ws ≠ EmptyString ∧ kernel_image_digest ws = EmptyString) then
    match List.find (λ kv, bool_decide (kv.2 = kernel_image_ref ws)) (map_to_list tags) with
    | Some (d, _) => set_kernel_digest d ws
    | None => ws
    end
  else ws.

(** When a workload changed, [Watcher.write_migrated] writes the checkpoints. *)
Definition migrate_kernel_digests (s : ImageService) : ImageService :=
  with_workloads (migrate_workload (image_tags s) <$> workloads s) s.

(** The roots of the count rebuild: the tags and the images of the workloads. *)
Definition wl_roots (wl : gmap string WorkloadState) : list Digest :=
  omap (λ kv, ok (from_hex (image_root kv.2))) (map_to_list wl).

(** The service is not reachable before the roots are collected, so nothing holds
    the lock. *)
Definition startup_roots : image_eff (list Digest) :=
  modify_world load_image_tags ;;
  modify_world migrate_kernel_digests ;;
  modify_world (λ s, with_gc (MkGcWorld (im_store s) (clean_stale_op_locks (gw_ops (im_gc s))).2) s) ;;
  s ← get_world;
  mret (tag_roots (image_tags s) ++ wl_roots (workloads s)).

(** The background task; requests may be served before it runs. *)
Definition rebuild_counts (all_roots : list Digest) : image_eff unit :=
  if bool_decide (all_roots = []) then mret tt
  else on_image_store (recompute_all_refcounts all_roots) ;; mret tt.

Definition startup : image_eff unit :=
  all_roots ← startup_roots;
  rebuild_counts all_roots.

End images.
