(* ===== verification/ImagesSpec.v ===== *)
(** * Properties of the image table of the runtime service *)

From stdpp Require Import base gmap strings list relations.
From Stdlib Require Import ZArith Lia.
From S2P Require Import Prelude Strs Crates Node Fs Worklist Store StoreFacts.
From S2P Require Import GcFacts OpLock Gc RefcountFacts RemoveTag Workload Images.

Section spec.
Context `{Hex, Sha2, Rkyv DagNode, !HexLaws, !RkyvLaws DagNode}.

(** The invariant of the service: a sound store whose counts are those of the
    stored edges, of the tags and of the further references [T]. *)
Record images_ok (T : list Digest) (s : ImageService) : Prop := {
  ok_inv : store_inv (im_store s);
  ok_healthy : healthy (im_store s);
  ok_wf : rc_wf (im_store s);
  ok_intact : intact (im_store s);
  ok_exact : rc_exact (tag_roots (image_tags s) ++ T) (im_store s);
  ok_lock : tags_writer s = false;
}.

Lemma rc_exact_perm T T' w : T ≡ₚ T' → rc_exact T w → rc_exact T' w.
Proof. intros HT Hex d. rewrite (Hex d). do 2 f_equal. by apply occ_perm. Qed.

(** ** The table *)

Lemma tag_roots_insert tags k v d :
  tags !! k = None → from_hex k = Ok d → tag_roots (<[k := v]> tags) ≡ₚ d :: tag_roots tags.
Proof. intros Hk Hd. unfold tag_roots. rewrite map_to_list_insert by done. simpl. by rewrite Hd. Qed.

Lemma tag_roots_delete tags k v d :
  tags !! k = Some v → from_hex k = Ok d → tag_roots tags ≡ₚ d :: tag_roots (delete k tags).
Proof.
  intros Hk Hd. rewrite <- (tag_roots_insert (delete k tags) k v d) by (done || apply lookup_delete_eq).
  by rewrite insert_delete_id.
Qed.

Lemma tag_roots_overwrite tags k v v' d :
  tags !! k = Some v → from_hex k = Ok d → tag_roots (<[k := v']> tags) ≡ₚ tag_roots tags.
Proof.
  intros Hk Hd. rewrite <- insert_delete_eq, (tag_roots_insert _ _ _ d), <- tag_roots_delete;
    (done || apply lookup_delete_eq).
Qed.

Lemma elem_of_tag_roots tags d : d ∈ tag_roots tags ↔ ∃ k v, tags !! k = Some v ∧ from_hex k = Ok d.
Proof.
  unfold tag_roots. rewrite list_elem_of_omap. split.
  - intros ([k v] & Hk%elem_of_map_to_list & Hd). simpl in Hd. exists k, v. split; [done|].
    destruct (from_hex k); by simplify_eq/=.
  - intros (k & v & Hk & Hd). exists (k, v). rewrite elem_of_map_to_list. simpl. by rewrite Hd.
Qed.

Lemma no_entry (tags : gmap string string) k :
  tags !! k = None → filter (λ kv, kv.1 = k) (map_to_list tags) = [].
Proof.
  intros Hk. destruct (filter _ _) as [|[k' v] l] eqn:E; [done|].
  assert (Hin : (k', v) ∈ filter (λ kv, kv.1 = k) (map_to_list tags)) by (rewrite E; left).
  apply list_elem_of_filter in Hin as [Hk' Hin%elem_of_map_to_list]. simpl in Hk'. congruence.
Qed.

(** At most one entry has a given digest. *)
Lemma entry_count_spec (tags : gmap string string) k :
  length (filter (λ kv, kv.1 = k) (map_to_list tags)) = if tags !! k is Some _ then 1 else 0.
Proof.
  destruct (tags !! k) as [v|] eqn:Hk; [|by rewrite no_entry].
  rewrite <- (insert_delete_id tags k v), map_to_list_insert by (done || apply lookup_delete_eq).
  rewrite filter_cons_True by done. simpl. by rewrite no_entry by apply lookup_delete_eq.
Qed.

Lemma retain_delete (tags : gmap string string) k : filter (λ kv, kv.1 ≠ k) tags = delete k tags.
Proof.
  rewrite <- (map_filter_delete_not _ tags k) by naive_solver. apply map_filter_id.
  intros i x [? _]%lookup_delete_Some. naive_solver.
Qed.

(** ** Tagging *)

(** The result of saving: only the file changes. *)
Definition saved (s : ImageService) : ImageService :=
  MkImages (im_gc s) (image_tags s) (workloads s)
    (written (next_save s) (saved_tags s) (image_tags s)) (next_save s) (tags_writer s).

Lemma save_image_tags_spec s : tags_writer s = false → save_image_tags s = (Ok tt, saved s).
Proof.
  intros Hl. unfold save_image_tags, read_tags, acquire_tags, mbind, eff_bind, get_world. simpl.
  by rewrite Hl.
Qed.

Lemma write_tags_spec f s :
  tags_writer s = false → write_tags f s = (Ok tt, with_tags (f (image_tags s)) s).
Proof. intros Hl. unfold write_tags, acquire_tags, mbind, eff_bind, get_world. simpl. by rewrite Hl. Qed.

Lemma read_tags_spec s : tags_writer s = false → read_tags s = (Ok (image_tags s), s).
Proof. intros Hl. unfold read_tags, acquire_tags, mbind, eff_bind, get_world. simpl. by rewrite Hl. Qed.

Lemma on_image_store_spec {A} (m : store_eff A) s r w :
  m (im_store s) = (r, w) →
  on_image_store m s = (Ok r, with_gc (MkGcWorld w (gw_ops (im_gc s))) s).
Proof. intros E. unfold on_image_store. by rewrite E. Qed.

(** Tagging an image.  It succeeds, stores the entry and saves the table,
    leaves every node and blob as it is and keeps the service's invariant.  A digest
    tagged before has one entry but one more reference, that no entry stands for. *)
Lemma tag_image_counts d image_ref T s :
  images_ok T s → (rc (im_store s) d + 1 < u64_mod)%Z →
  ∃ s', tag_image d image_ref s = (Ok tt, s') ∧
    image_tags s' = <[as_hex d := image_ref]> (image_tags s) ∧
    saved_tags s' = written (next_save s) (saved_tags s) (image_tags s') ∧
    images_ok (if image_tags s !! as_hex d is Some _ then d :: T else T) s' ∧
    (∀ e, node_file (im_store s') e = node_file (im_store s) e).
Proof.
  intros [Hi Hh Hwf Hin Hex Hl] Hlt. unfold tag_image.
  erewrite bind_ok by (by apply write_tags_spec).
  destruct (increment_spec d (im_store s) Hh Hwf Hlt) as (w' & E & Hf).
  erewrite bind_ok by (apply on_image_store_spec; exact E).
  rewrite save_image_tags_spec by done. eexists. split_and!; [done..| |apply Hf].
  constructor; simpl; [by eapply rc_frame_inv|by eapply rc_frame_healthy|apply Hf| | |done].
  - intros e (b & He & Hc). apply (Hin e). exists b. by rewrite <- (frame_node _ _ _ Hf).
  - apply (rc_exact_perm (d :: tag_roots (image_tags s) ++ T)).
    + destruct (image_tags s !! as_hex d) as [v|] eqn:Ev.
      * rewrite (tag_roots_overwrite _ _ v _ d) by (done || apply from_hex_as_hex).
        by rewrite Permutation_middle.
      * by rewrite (tag_roots_insert _ _ _ d) by (done || apply from_hex_as_hex).
    + intros e. change (im_store _) with w'. rewrite (frame_rc _ _ _ Hf), (node_map_frame _ _ _ Hf).
      unfold set_fn. rewrite occ_cons. pose proof (Hex e). repeat case_decide; subst; congruence || lia.
Qed.

(** ** Removing *)

Lemma find_none_workload (x : string) (wl : gmap string WorkloadState) :
  (∀ id ws, wl !! id = Some ws → image_root ws ≠ x) →
  List.find (λ kv, bool_decide (image_root kv.2 = x)) (map_to_list wl) = None.
Proof.
  intros Hwl. destruct (List.find _ _) as [[id ws]|] eqn:E; [|done].
  apply List.find_some in E as [E%list_elem_of_In%elem_of_map_to_list Hx%bool_decide_eq_true].
  by apply Hwl in E.
Qed.

(** C23: removing an image.  If the image is tagged and no workload runs from it,
    the request succeeds, drops the entry from the table and from its file, keeps
    every node that the other tags or the further references [T] reach, with its
    blob, adds nothing, and keeps the service's invariant. *)
Theorem remove_image_exact x d v T s :
  images_ok T s → from_hex x = Ok d → image_tags s !! x = Some v →
  (∀ id ws, workloads s !! id = Some ws → image_root ws ≠ x) →
  ∃ freed s', remove_image x s = (Ok freed, s') ∧
    image_tags s' = delete x (image_tags s) ∧
    saved_tags s' = written (next_save s) (saved_tags s) (image_tags s') ∧
    images_ok T s' ∧
    (∀ e, reachable (im_store s) (tag_roots (image_tags s') ++ T) e →
      node_file (im_store s') e = node_file (im_store s) e ∧
      blob_file (im_store s') e = blob_file (im_store s) e) ∧
    (∀ e b, node_file (im_store s') e = Some b → node_file (im_store s) e = Some b).
Proof.
  intros [Hi Hh Hwf Hin Hex Hl] Hd Hv Hwl. unfold remove_image. rewrite Hd.
  erewrite bind_ok by done. erewrite bind_ok by (by apply read_tags_spec).
  rewrite entry_count_spec, Hv. rewrite decide_False by done.
  erewrite bind_ok by done. rewrite find_none_workload by done.
  apply (rc_exact_perm _ (d :: tag_roots (delete x (image_tags s)) ++ T)) in Hex;
    [|by rewrite (tag_roots_delete _ x v d)].
  destruct (remove_tag_spec d _ _ Hi Hh Hwf Hin Hex) as (freed & w' & E & Hu).
  simpl remove_tags. erewrite bind_ok.
  2: { erewrite bind_ok by (apply on_image_store_spec; exact E). done. }
  erewrite bind_ok by (by apply write_tags_spec). rewrite retain_delete.
  erewrite bind_ok by (by apply save_image_tags_spec).
  destruct Hu as [Hi' Hh' Hwf' Hex' Hsub Hkeep _].
  eexists _, _. split_and!; [done..| |apply Hkeep|apply Hsub]. constructor; try done.
  intros e (b & He & Hc). apply (Hin e). exists b. split; [by apply Hsub|done].
Qed.

(** The requests for a removal that are refused, each with its error, change nothing. *)
Lemma remove_image_refusals x T s :
  images_ok T s →
  match from_hex x, image_tags s !! x with
  | Err e, _ => remove_image x s = (Err (InvalidRootDigest e), s)
  | Ok _, None => remove_image x s = (Err (ImageNotFound x), s)
  | Ok _, Some _ => ∀ id ws, workloads s !! id = Some ws → image_root ws = x →
      ∃ id' ws', workloads s !! id' = Some ws' ∧ image_root ws' = x ∧
        remove_image x s = (Err (ImageInUse id'), s)
  end.
Proof.
  intros [_ _ _ _ _ Hl]. unfold remove_image. destruct (from_hex x) as [d|e]; [|done].
  erewrite bind_ok by done. erewrite bind_ok by (by apply read_tags_spec).
  rewrite entry_count_spec. destruct (image_tags s !! x) as [v|]; [|done].
  intros id ws Hws Hx. rewrite decide_False by done. erewrite bind_ok by done.
  destruct (List.find _ _) as [[id' ws']|] eqn:E.
  - apply List.find_some in E as [E%list_elem_of_In%elem_of_map_to_list Hx'%bool_decide_eq_true].
    by exists id', ws'.
  - eapply List.find_none in E; [|by apply list_elem_of_In, elem_of_map_to_list].
    by apply bool_decide_eq_false in E.
Qed.

(** ** Collecting *)

(** The digests that a request for collection must spare: the tagged images and the
    images and kernel images of the workloads. *)
Definition in_use (s : ImageService) (d : Digest) : Prop :=
  (∃ x v, image_tags s !! x = Some v ∧ from_hex x = Ok d) ∨
  (∃ id ws x, workloads s !! id = Some ws ∧ x ∈ [image_root ws; kernel_image_digest ws] ∧
    from_hex x = Ok d).

Lemma from_hex_empty d : from_hex EmptyString ≠ Ok d.
Proof. intros E. apply from_hex_sound in E. apply (f_equal String.length) in E. by rewrite as_hex_length in E. Qed.

Lemma non_empty_hex_spec x d : non_empty_hex x = Some d ↔ from_hex x = Ok d.
Proof.
  unfold non_empty_hex. case_decide as E; [subst; split; [done|by intros ?%from_hex_empty]|].
  destruct (from_hex x); simpl; split; congruence.
Qed.

Lemma elem_of_gc_roots s d : d ∈ gc_roots (image_tags s) (workloads s) ↔ in_use s d.
Proof.
  unfold gc_roots, in_use. rewrite elem_of_app, elem_of_tag_roots, list_elem_of_bind. f_equiv. split.
  - intros ([id ws] & (x & Hx & Hd)%list_elem_of_omap & Hws%elem_of_map_to_list).
    exists id, ws, x. by rewrite <- non_empty_hex_spec.
  - intros (id & ws & x & Hws & Hx & Hd). exists (id, ws). rewrite elem_of_map_to_list. split; [|done].
    apply list_elem_of_omap. exists x. by rewrite non_empty_hex_spec.
Qed.

(** Collecting keeps what an image in use reaches. *)
Lemma gc_keeps dry_run force s r s' u d :
  store_inv (im_store s) → tags_writer s = false → gc dry_run force s = (r, s') →
  in_use s u → rtc (edge (im_store s)) u d → is_Some (node_file (im_store s) d) →
  node_file (im_store s') d = node_file (im_store s) d ∧
  blob_file (im_store s') d = blob_file (im_store s) d.
Proof.
  intros Hi Hl. unfold gc.
  erewrite bind_ok by (unfold enumerate_gc_roots; by erewrite bind_ok by (by apply read_tags_spec)).
  case_bool_decide as Hr; [by intros [= <- <-]|].
  destruct (collect _ _ (im_gc s)) as [r0 g] eqn:Ec. intros [= <- <-] Hu Hp Hd.
  destruct (collect_keeps _ _ _ _ _ d Hi Ec) as (? & ? & _); try done. exists u. by rewrite elem_of_gc_roots.
Qed.

(** C24: a request for collection is safe.  Whatever it answers, it leaves the
    tables alone and every stored node that an image in use reaches keeps its node
    file and its blob file; with nothing in use it is refused. *)
Theorem gc_request_safe dry_run force s r s' :
  store_inv (im_store s) → tags_writer s = false → gc dry_run force s = (r, s') →
  image_tags s' = image_tags s ∧ workloads s' = workloads s ∧
  ((∀ d, ¬ in_use s d) → r = Err NoRoots ∧ s' = s) ∧
  ∀ u d, in_use s u → rtc (edge (im_store s)) u d → is_Some (node_file (im_store s) d) →
    node_file (im_store s') d = node_file (im_store s) d ∧
    blob_file (im_store s') d = blob_file (im_store s) d.
Proof.
  intros Hi Hl E. cut (image_tags s' = image_tags s ∧ workloads s' = workloads s ∧
    ((∀ d, ¬ in_use s d) → r = Err NoRoots ∧ s' = s)).
  { intros (Ht & Hw & Hn). split_and!; [done..|]. intros u d. by eapply gc_keeps. }
  revert E. unfold gc. erewrite bind_ok.
  2: { unfold enumerate_gc_roots. erewrite bind_ok by (by apply read_tags_spec). done. }
  case_bool_decide as Hr.
  - intros [= <- <-]. split_and!; try done.
  - destruct (collect _ _ (im_gc s)) as [r0 g] eqn:Ec. intros [= <- <-]. split_and!; try done.
    intros Hn. destruct Hr. apply elem_of_nil_inv. intros d. rewrite elem_of_gc_roots. apply Hn.
Qed.

(** ** Start-up *)

Lemma wl_roots_migrate tags wl : wl_roots (migrate_workload tags <$> wl) ≡ₚ wl_roots wl.
Proof.
  unfold wl_roots. rewrite map_to_list_fmap. erewrite list_omap_ext; [done|].
  apply Forall2_fmap_l, Forall_Forall2_diag, Forall_forall. intros [id ws] _. simpl.
  unfold migrate_workload. case_decide; [|done]. by destruct (List.find _ _) as [[]|].
Qed.

Lemma reachable_perm w T T' d : T ≡ₚ T' → reachable w T d → reachable w T' d.
Proof. intros HT (r & Hr & Hp). exists r. by rewrite <- HT. Qed.

(** An empty store has exact counts. *)
Lemma no_roots_exact w :
  (∀ d, is_Some (node_file w d) → reachable w [] d) → (∀ d, rc w d = 0%Z) → rc_exact [] w.
Proof.
  intros Hng Hz d. rewrite Hz. pose proof (in_refs_nonneg (node_map w) d).
  destruct (decide (in_refs (node_map w) d = 0)%Z) as [->|]; [done|].
  destruct (in_refs_pos w d) as (p & He); [lia|]. apply edge_stored, Hng in He.
  by destruct He as (r & ?%not_elem_of_nil & _).
Qed.

(** The background task, on any order of the roots. *)
Lemma rebuild_counts_spec roots s :
  let w := im_store s in
  store_inv w → healthy w → rc_wf w → intact w → closed w →
  (∀ d, Z.of_nat (occ d roots) + in_refs (node_map w) d < u64_mod)%Z →
  (∀ d, is_Some (node_file w d) → reachable w roots d) →
  (∀ d, ¬ reachable w roots d → rc w d = 0%Z) →
  ∃ w', rebuild_counts roots s = (Ok tt, with_gc (MkGcWorld w' (gw_ops (im_gc s))) s) ∧
    store_inv w' ∧ rc_wf w' ∧ healthy w' ∧ (∀ d, node_file w' d = node_file w d) ∧ rc_exact roots w'.
Proof.
  intros w Hi Hh Hwf Hin Hcl Hb Hng Hz. unfold rebuild_counts. case_bool_decide as Hr.
  - subst roots. exists w. split_and!; try done; [by destruct s as [[]]|].
    apply no_roots_exact; [done|]. intros d. apply Hz. by intros (r & ?%not_elem_of_nil & _).
  - destruct (recompute_exact_spec roots w) as (w' & E & ?); [done..|]. exists w'. split; [|done].
    erewrite bind_ok by (apply on_image_store_spec; exact E). done.
Qed.

(** C25: the start-up rebuilds the counts.  Whatever counts a crash left on the
    nodes that the saved tags and the workloads' images reach, the start-up loads
    the saved table, keeps every node and ends in the service's invariant, with one
    further reference for each workload.  The store must hold the children of its
    nodes and nothing that these roots do not reach. *)
Theorem startup_counts_exact s :
  let w := im_store s in
  let tags := default ∅ (saved_tags s) in
  let roots := tag_roots tags ++ wl_roots (workloads s) in
  store_inv w → healthy w → rc_wf w → intact w → closed w → tags_writer s = false →
  (∀ d, Z.of_nat (occ d roots) + in_refs (node_map w) d < u64_mod)%Z →
  (∀ d, is_Some (node_file w d) → reachable w roots d) →
  (∀ d, ¬ reachable w roots d → rc w d = 0%Z) →
  ∃ s', startup s = (Ok tt, s') ∧ image_tags s' = tags ∧
    images_ok (wl_roots (workloads s)) s' ∧
    ∀ d, node_file (im_store s') d = node_file w d.
Proof.
  intros w tags roots Hi Hh Hwf Hin Hcl Hl Hb Hng Hz. unfold startup, startup_roots.
  set (s1 := migrate_kernel_digests (load_image_tags s)).
  set (s2 := with_gc (MkGcWorld w (clean_stale_op_locks (gw_ops (im_gc s))).2) s1).
  set (roots' := tag_roots tags ++ wl_roots (workloads s1)).
  erewrite (bind_ok _ _ _ roots' s2) by done.
  assert (HT : wl_roots (workloads s1) ≡ₚ wl_roots (workloads s)) by apply wl_roots_migrate.
  assert (HR : roots ≡ₚ roots') by (unfold roots, roots'; by rewrite HT).
  destruct (rebuild_counts_spec roots' s2) as (w' & E & Hi' & Hwf' & Hh' & Hn & Hex); try done.
  - intros d. by rewrite <- (occ_perm d _ _ HR).
  - intros d Hd. by apply (reachable_perm _ _ _ _ HR), Hng.
  - intros d Hd. apply Hz. by intros Hr%(reachable_perm _ _ _ _ HR).
  - eexists. split_and!; [exact E|done| |exact Hn]. constructor; try done.
    + intros d (b & Hd & Hc). apply (Hin d). exists b. by rewrite <- Hn.
    + by apply (rc_exact_perm roots').
Qed.

(** ** Committing *)

Lemma read_tags_waits s : tags_writer s = true → read_tags s = (Err WaitsForever, s).
Proof. intros Hl. unfold read_tags, acquire_tags, mbind, eff_bind, get_world. simpl. by rewrite Hl. Qed.

(** A commit with a tag never returns: it waits for the table's lock, whose
    write guard it holds itself.  From then on every pull, removal and collection
    waits as well. *)
Lemma tag_commit_deadlock d tag s :
  tag ≠ EmptyString → tags_writer s = false → ∃ s', tag_commit d tag s = (Err WaitsForever, s') ∧
    (∀ image_ref, (local_tag image_ref s').1 = Err WaitsForever) ∧
    (∀ x e, from_hex x = Ok e → (remove_image x s').1 = Err WaitsForever) ∧
    (∀ dry_run force, (gc dry_run force s').1 = Err WaitsForever).
Proof.
  intros Ht Hl. unfold tag_commit. rewrite decide_False by done.
  erewrite bind_ok by (unfold acquire_tags, mbind, eff_bind, get_world; by rewrite Hl).
  do 2 erewrite bind_ok by done.
  destruct (increment_refcount d (im_store s)) as [r w] eqn:E.
  erewrite bind_ok by (apply on_image_store_spec; exact E).
  erewrite bind_err by (unfold save_image_tags; by erewrite bind_err by (by apply read_tags_waits)).
  eexists. split_and!; [done| | |].
  - intros x. unfold local_tag. by erewrite bind_err by (by apply read_tags_waits).
  - intros x e Hx. unfold remove_image. rewrite Hx. erewrite bind_ok by done.
    by erewrite bind_err by (by apply read_tags_waits).
  - intros dr f. unfold gc, enumerate_gc_roots.
    by erewrite bind_err by (by erewrite bind_err by (by apply read_tags_waits)).
Qed.
End spec.
