(* ===== verification/Archive.v ===== *)
(** * DAG archives: [runtime/pullrun-oci/src/{dag_export,dag_import}.rs]

    [pullrun save] writes every node and blob that an image reaches to a tar
    archive, and [pullrun load] reads such an archive into a store.  The tar format
    and the JSON text of the manifest are parameters. *)

From stdpp Require Import base gmap strings list relations.
From Stdlib Require Import ZArith Ascii Lia.
From S2P Require Import Prelude Strs Crates Node Fs Worklist Store StoreFacts.
From S2P Require Import GcFacts RefcountFacts OciTypes OpLock Gc Images ImagesSpec Tasks.

(** ** The tar crate *)

(** An entry as the reader yields it; the path or the data may be unreadable. *)
Record TarItem := MkTarItem { item_path : option string; item_data : option bytes }.

(** [Builder::append_data] of each member and [finish], into a buffer; and
    [Archive::entries], which may fail as a whole or at an entry. *)
Class Tar := {
  tar_build : list (string * bytes) → bytes;
  tar_entries : bytes → option (list (option TarItem));
}.

Definition tar_name (p : string) : bool :=
  negb (bool_decide (p = EmptyString)) && negb (starts_with p "/") && negb (contains p "..").

(** An archive gives back the members it was built from, in order. *)
Class TarLaws `{Tar} : Prop := {
  tar_entries_build l :
    Forall (λ kv, tar_name kv.1 = true) l →
    tar_entries (tar_build l) = Some ((λ kv, Some (MkTarItem (Some kv.1) (Some kv.2))) <$> l);
}.

(** ** The manifest *)

Record ExportManifest := MkExportManifest {
  em_root_digest : string;
  em_format : string;
  em_node_count : nat;
  em_blob_count : nat;
}.

Class ExportJson := {
  export_manifest_to_vec : ExportManifest → option bytes;
  export_manifest_from_slice : bytes → option ExportManifest;
}.

Class ExportJsonLaws `{ExportJson} : Prop := {
  export_manifest_roundtrip m b :
    export_manifest_to_vec m = Some b → export_manifest_from_slice b = Some m;
}.

Abbreviation archive_eff := (eff World OciError.t).

Section archive.
Context `{Hex, Sha2, Rkyv DagNode, Tar, ExportJson}.

Definition from_io {A} (m : eff Os IoError A) : archive_eff A := map_err_eff (λ _, OciError.Io) (on_os m).

Definition other {A} (f : StoreError → other_message) (m : store_eff A) : archive_eff A :=
  map_err_eff (λ e, OciError.Other (f e)) m.

(** ** Export *)

Definition MANIFEST_PATH : string := "pullrun-manifest.json".
Definition node_member (d : Digest) : string := "pullrun-nodes/" +:+ as_hex d.
Definition blob_member (d : Digest) : string := "pullrun-blobs/" +:+ as_hex d.

Definition walk_dag_collect (root_digest : string) : store_eff (list Digest * list Digest) :=
  r ← lift_result (map_err (λ _, ArchiveValidation) (from_hex root_digest));
  walk_reachable [r].

Definition export_node (d : Digest) : archive_eff (string * bytes) :=
  data ← other (ReadNode d) (get d);
  mret (node_member d, data).

Definition export_blob (d : Digest) : archive_eff (string * bytes) :=
  data ← other (ReadBlob d) (get_blob d);
  mret (blob_member d, data).

Definition export_dag_to_tar (root_digest : string) : archive_eff bytes :=
  '(node_digests, blob_digests) ← other WalkFailed (walk_dag_collect root_digest);
  manifest_json ← lift_result (ok_or (export_manifest_to_vec
    (MkExportManifest root_digest "dag" (length node_digests) (length blob_digests))) OciError.Json);
  nodes ← map_eff export_node node_digests;
  blobs ← map_eff export_blob blob_digests;
  mret (tar_build ((MANIFEST_PATH, manifest_json) :: nodes ++ blobs)).

(** ** Import *)

Record ImportState := MkImport {
  im_root_digest : string;
  bytes_stored : Z;
  bytes_dedup : Z;
  found_manifest : bool;
}.

(** [bytes += data.len() as i64]. *)
Definition add_len (z : Z) (data : bytes) : Z := as_i64 (wrap64 (z + len data)).

Definition add_bytes (already_exists : bool) (data : bytes) (st : ImportState) : ImportState :=
  if already_exists then
    MkImport (im_root_digest st) (bytes_stored st) (add_len (bytes_dedup st) data) (found_manifest st)
  else MkImport (im_root_digest st) (add_len (bytes_stored st) data) (bytes_dedup st) (found_manifest st).

Definition archive_digest (s : string) : archive_eff Digest :=
  lift_result (map_err (λ e, OciError.Other (InvalidArchiveDigest e)) (from_hex s)).

(** The node is written in place, not through [write_atomically]. *)
Definition import_node (digest_str : string) (data : bytes) (st : ImportState) : archive_eff ImportState :=
  digest ← archive_digest digest_str;
  let computed := compute data in
  if decide (computed = digest) then
    _ ← lift_result (ok_or (check_archived_root (A := DagNode) data) (OciError.Other (InvalidNode digest_str)));
    w ← get_world;
    let already_exists := exists_ w digest in
    (if already_exists then mret tt
     else
       let node_path := path_for (root (store w)) digest in
       from_io (touch_dir (parent node_path)) ;;
       from_io (write_file node_path data)) ;;
    mret (add_bytes already_exists data st)
  else throw (OciError.Other (NodeDigestMismatch digest_str computed)).

Definition import_blob (digest_str : string) (data : bytes) (st : ImportState) : archive_eff ImportState :=
  digest ← archive_digest digest_str;
  w ← get_world;
  let already_exists := blob_exists w digest in
  map_err_eff OciError.StoreE (put_blob digest data) ;;
  mret (add_bytes already_exists data st).

Definition import_member (path : string) (data : bytes) (st : ImportState) : archive_eff ImportState :=
  if decide (path = MANIFEST_PATH) then
    m ← lift_result (ok_or (export_manifest_from_slice data) OciError.Json);
    mret (MkImport (em_root_digest m) (bytes_stored st) (bytes_dedup st) true)
  else
    match strip_prefix "pullrun-nodes/" path with
    | Some digest_str => import_node digest_str data st
    | None =>
      match strip_prefix "pullrun-blobs/" path with
      | Some digest_str => import_blob digest_str data st
      | None => mret st
      end
    end.

Definition import_item (st : ImportState) (i : option TarItem) : archive_eff ImportState :=
  item ← lift_result (ok_or i OciError.Io);
  match item_path item with
  | None => mret st
  | Some path =>
    data ← lift_result (ok_or (item_data item) OciError.Io);
    import_member path data st
  end.

Definition import_dag_from_tar (reader : bytes) : archive_eff (string * Z * Z) :=
  items ← lift_result (ok_or (tar_entries reader) OciError.Io);
  st ← fold_eff import_item (MkImport EmptyString 0 0 false) items;
  if found_manifest st then mret (im_root_digest st, bytes_stored st, bytes_dedup st)
  else throw (OciError.Other ArchiveManifestMissing).

End archive.

Section spec.
Context `{Hex, Sha2, Rkyv DagNode, Tar, ExportJson, !HexLaws, !TarLaws, !ExportJsonLaws}.

(** Nodes are stored under the digest of their bytes. *)
Definition addressed (w : World) : Prop := ∀ d b, node_file w d = Some b → compute b = d.

(** The blob cache agrees with the files. *)
Definition blobs_coherent (w : World) : Prop :=
  ∀ d b, cache (blob_cache (store w)) !! d = Some b → blob_file w d = Some b.

(** ** Export *)

Lemma get_blob_cache d w : blob_cache (store (get d w).2) = blob_cache (store w).
Proof.
  unfold get, mbind, eff_bind, get_world. destruct (cache _ !! d); [done|].
  unfold load_node_from_disk, mbind, eff_bind, get_world. destruct (node_exists w d); [|done].
  rewrite on_os_read. by destruct (read_file _ (os w)) as [[b|e] s].
Qed.

Lemma get_archived_blob_cache d w : blob_cache (store (get_archived d w).2) = blob_cache (store w).
Proof.
  unfold get_archived, mbind, eff_bind. pose proof (get_blob_cache d w).
  by destruct (get d w) as [[b|e] w'].
Qed.

Lemma walk_blob_cache roots w : blob_cache (store (walk_reachable roots w).2) = blob_cache (store w).
Proof.
  apply (traverse_preserves _ (λ w', blob_cache (store w') = blob_cache (store w))); [|done].
  intros d [w1 [ns bs]] <-. unfold walk_reachable_body, mbind, eff_bind, get_world.
  simpl. destruct (exists_ w1 d); [|done]. unfold on_locals, try_eff, on_world. simpl.
  pose proof (get_archived_blob_cache d w1) as E.
  destruct (get_archived d w1) as [[n|e] w2]; [done|]. by destruct e.
Qed.

Lemma walk_reachable_ok w r :
  store_inv w → healthy w → (∀ d, reachable w [r] d → ¬ corrupted_at w d) →
  ∃ ns bs w', walk_reachable [r] w = (Ok (ns, bs), w') ∧ store_inv w' ∧ same_disk w w' ∧ NoDup ns ∧
    (∀ d, d ∈ ns ↔ reachable w [r] d ∧ is_Some (node_file w d)) ∧
    (∀ d, d ∈ bs ↔ d ∈ ns ∧ is_Some (blob_file w d)).
Proof.
  intros Hi Hh Hin. pose proof (walk_reachable_spec w [r] Hi) as Hw.
  destruct (walk_reachable [r] w) as [[[ns bs]|e] w'].
  - destruct Hw as [V [Hs Hd He Hnd Hn Hb _]]. simpl in *. exists ns, bs, w'. split_and!; try done.
    + intros d. rewrite Hn. by rewrite (explored_done _ _ _ He).
    + intros d. rewrite Hb, list_elem_of_filter, blob_exists_spec, bool_decide_eq_true. naive_solver.
  - destruct Hw as [l (_ & _ & [(d & _ & Hr & Hc)|[_ ?]])]; [by destruct (Hin d Hr)|done].
Qed.

Lemma export_node_spec d b w :
  store_inv w → healthy w → node_file w d = Some b →
  ∃ w', export_node d w = (Ok (node_member d, b), w') ∧ store_inv w' ∧ same_disk w w' ∧
    blob_cache (store w') = blob_cache (store w).
Proof.
  intros Hi Hh Hd. unfold export_node, other, map_err_eff, mbind, eff_bind.
  pose proof (get_blob_cache d w) as Hc. destruct (get d w) as [r w'] eqn:Eg.
  apply get_spec in Eg as (Hi' & Hs & [-> |[_ ?]]); [|done|done].
  unfold get_result. rewrite Hd. simpl. by exists w'.
Qed.

Lemma export_blob_spec d b w :
  store_inv w → healthy w → blobs_coherent w → blob_file w d = Some b →
  ∃ w', export_blob d w = (Ok (blob_member d, b), w') ∧ store_inv w' ∧ same_disk w w' ∧
    blobs_coherent w'.
Proof.
  intros Hi Hh Hco Hd. unfold export_blob, other, map_err_eff, mbind, eff_bind.
  destruct (get_blob d w) as [r w'] eqn:Eg.
  pose proof Eg as (Hi' & Hs & Hv & Hr)%get_blob_frame; [|done].
  assert (Hview : ∀ e c, blob_view w e c → blob_file w e = Some c) by (intros e c [?|?]; auto).
  assert (r = Ok b) as ->.
  { destruct r as [c|e]; [f_equal; specialize (Hview d c (Hr c eq_refl)); congruence|].
    exfalso. unfold get_blob, mbind, eff_bind, get_world in Eg. destruct (cache _ !! d); [done|].
    unfold load_blob_from_disk, mbind, eff_bind, get_world in Eg.
    rewrite blob_exists_spec, Hd, bool_decide_true in Eg by done.
    rewrite on_os_read in Eg. unfold read_file in Eg. rewrite not_faulty in Eg by done.
    fold (blob_file w d) in Eg. by rewrite Hd in Eg. }
  exists w'. split_and!; try done. intros e c He. rewrite (same_disk_blob_file _ _ _ Hs).
  apply Hview, Hv. by right.
Qed.

(** What an archive of [ns] and [bs] holds. *)
Definition node_members (w : World) (ns : list Digest) : list (string * bytes) :=
  omap (λ d, (λ b, (node_member d, b)) <$> node_file w d) ns.
Definition blob_members (w : World) (bs : list Digest) : list (string * bytes) :=
  omap (λ d, (λ b, (blob_member d, b)) <$> blob_file w d) bs.

Lemma export_nodes_spec w0 ns w :
  store_inv w → healthy w → same_disk w0 w → (∀ d, d ∈ ns → is_Some (node_file w0 d)) →
  ∃ w', map_eff export_node ns w = (Ok (node_members w0 ns), w') ∧ store_inv w' ∧ same_disk w0 w' ∧
    blob_cache (store w') = blob_cache (store w).
Proof.
  revert w. induction ns as [|d ns IH]; intros w Hi Hh Hs Hn; [by exists w|].
  destruct (Hn d) as [b Hb]; [left|]. simpl.
  destruct (export_node_spec d b w) as (w1 & E & Hi1 & Hs1 & Hc1); [done..| |].
  { by rewrite (same_disk_node w0). }
  destruct (IH w1) as (w2 & E2 & Hi2 & Hs2 & Hc2); [done| | | |].
  { by eapply same_disk_healthy. } { by eapply same_disk_trans. } { set_solver. }
  exists w2. erewrite bind_ok by exact E. erewrite bind_ok by exact E2. rewrite Hb.
  split_and!; try done. congruence.
Qed.

Lemma export_blobs_spec w0 bs w :
  store_inv w → healthy w → same_disk w0 w → blobs_coherent w → (∀ d, d ∈ bs → is_Some (blob_file w0 d)) →
  ∃ w', map_eff export_blob bs w = (Ok (blob_members w0 bs), w') ∧ same_disk w0 w'.
Proof.
  revert w. induction bs as [|d bs IH]; intros w Hi Hh Hs Hc Hn; [by exists w|].
  destruct (Hn d) as [b Hb]; [left|]. simpl.
  destruct (export_blob_spec d b w) as (w1 & E & Hi1 & Hs1 & Hc1); [done..| |].
  { by rewrite (same_disk_blob_file w0). }
  destruct (IH w1) as (w2 & E2 & Hs2); [done| | |done| |].
  { by eapply same_disk_healthy. } { by eapply same_disk_trans. } { set_solver. }
  exists w2. erewrite bind_ok by exact E. erewrite bind_ok by exact E2. by rewrite Hb.
Qed.

Lemma export_spec root r mj w :
  store_inv w → healthy w → blobs_coherent w → from_hex root = Ok r →
  (∀ d, reachable w [r] d → ¬ corrupted_at w d) →
  (∀ n b, export_manifest_to_vec (MkExportManifest root "dag" n b) = Some (mj n b)) →
  ∃ ns bs w', export_dag_to_tar root w =
    (Ok (tar_build ((MANIFEST_PATH, mj (length ns) (length bs)) :: node_members w ns ++ blob_members w bs)), w') ∧
    same_disk w w' ∧ NoDup ns ∧
    (∀ d, d ∈ ns ↔ reachable w [r] d ∧ is_Some (node_file w d)) ∧
    (∀ d, d ∈ bs ↔ d ∈ ns ∧ is_Some (blob_file w d)).
Proof.
  intros Hi Hh Hco Hr Hin Hm.
  destruct (walk_reachable_ok w r Hi Hh Hin) as (ns & bs & w1 & Ew & Hi1 & Hs1 & Hnd & Hns & Hbs).
  pose proof (walk_blob_cache [r] w) as Hc1. rewrite Ew in Hc1. simpl in Hc1.
  assert (Hh1 : healthy w1) by (by eapply same_disk_healthy).
  destruct (export_nodes_spec w ns w1) as (w2 & E2 & Hi2 & Hs2 & Hc2); [done..|naive_solver|].
  destruct (export_blobs_spec w bs w2) as (w3 & E3 & Hs3); [done| |done| |naive_solver|].
  { by eapply same_disk_healthy. }
  { intros d b. rewrite Hc2, Hc1, (same_disk_blob_file _ _ _ Hs2). apply Hco. }
  exists ns, bs, w3. split; [|by split_and!].
  unfold export_dag_to_tar. erewrite bind_ok.
  2: { unfold other, map_err_eff, walk_dag_collect. rewrite Hr.
       erewrite bind_ok by done. by rewrite Ew. }
  cbv beta iota.
  erewrite bind_ok by (unfold lift_result; by rewrite Hm).
  erewrite bind_ok by exact E2. by erewrite bind_ok by exact E3.
Qed.

(** ** Import *)

Definition item (kv : string * bytes) : option TarItem := Some (MkTarItem (Some kv.1) (Some kv.2)).

(** What an import changes: nodes and blobs, but no cache and no reference count. *)
Record import_frame (nodes blobs : Digest → option bytes) (w w' : World) : Prop := {
  imp_store : store w' = store w;
  imp_bad : io_bad (os w') = io_bad (os w);
  imp_node e : node_file w' e = nodes e;
  imp_blob e : blob_file w' e = blobs e;
  imp_rc e : rc_file w' e = rc_file w e;
}.

Lemma import_frame_refl w : import_frame (node_file w) (blob_file w) w w.
Proof. done. Qed.

Lemma import_frame_healthy f g w w' : import_frame f g w w' → healthy w → healthy w'.
Proof. intros [_ Hb _ _ _]. unfold healthy. by rewrite Hb. Qed.

(** Nodes are only added, so the cache stays coherent. *)
Lemma import_frame_inv f g w w' :
  import_frame f g w w' → (∀ e b, node_file w e = Some b → f e = Some b) → store_inv w → store_inv w'.
Proof.
  intros [Hs _ Hn _ _] Hf [Hnc Hbc Hco]. constructor; rewrite Hs; [done..|].
  intros d b Hd. rewrite Hn. by apply Hf, Hco.
Qed.

Definition same_manifest (st st' : ImportState) : Prop :=
  found_manifest st' = found_manifest st ∧ im_root_digest st' = im_root_digest st.

Lemma add_bytes_manifest b data st : same_manifest st (add_bytes b data st).
Proof. by destruct b. Qed.

Lemma write_file_node d b w :
  healthy w →
  ∃ w', (from_io (touch_dir (parent (path_for (root (store w)) d))) ;;
         from_io (write_file (path_for (root (store w)) d) b)) w = (Ok tt, w') ∧
    import_frame (λ e, if decide (e = d) then Some b else node_file w e) (blob_file w) w w'.
Proof.
  intros Hh. unfold from_io, map_err_eff, on_os, mbind, eff_bind, touch_dir, write_file.
  rewrite bool_decide_eq_false_2 by (rewrite Hh; set_solver). simpl.
  rewrite not_faulty by done. simpl. eexists. split; [done|]. constructor; simpl; [done..|intros e| |].
  - unfold node_file. simpl. case_decide as E; [subst; apply lookup_insert_eq|].
    apply lookup_insert_ne. by intros ?%path_for_inj.
  - intros e. unfold blob_file. simpl. apply lookup_insert_ne, node_blob_ne.
  - intros e. unfold rc_file. simpl. apply lookup_insert_ne, node_rc_ne.
Qed.

Lemma import_item_member st p b w : import_item st (item (p, b)) w = import_member p b st w.
Proof. done. Qed.

Lemma import_node_item d b st w :
  store_inv w → healthy w → compute b = d → is_Some (check_archived_root (A := DagNode) b) →
  node_file w d = None ∨ node_file w d = Some b →
  ∃ st' w', import_item st (item (node_member d, b)) w = (Ok st', w') ∧ same_manifest st st' ∧
    import_frame (λ e, if decide (e = d) then Some b else node_file w e) (blob_file w) w w'.
Proof.
  intros Hi Hh Hb [n Hn] Hd. rewrite import_item_member. unfold import_member.
  rewrite decide_False by done.
  unfold node_member at 1. rewrite strip_prefix_app. unfold import_node.
  erewrite bind_ok by (unfold archive_digest; by rewrite from_hex_as_hex).
  rewrite decide_True by done. erewrite bind_ok by (unfold lift_result; by rewrite Hn).
  erewrite bind_ok by done. rewrite exists_spec by done. destruct Hd as [Hd|Hd]; rewrite Hd.
  - rewrite bool_decide_false by (by intros []).
    destruct (write_file_node d b w Hh) as (w' & E & Hf).
    erewrite bind_ok by exact E. eexists _, w'. split; [done|]. split; [apply add_bytes_manifest|done].
  - rewrite bool_decide_true by done. erewrite bind_ok by done. eexists _, w. split; [done|].
    split; [apply add_bytes_manifest|]. constructor; try done. intros e. by case_decide; subst.
Qed.

Lemma import_blob_item d b st w :
  healthy w → blob_file w d = None ∨ blob_file w d = Some b →
  ∃ st' w', import_item st (item (blob_member d, b)) w = (Ok st', w') ∧ same_manifest st st' ∧
    import_frame (node_file w) (λ e, if decide (e = d) then Some b else blob_file w e) w w'.
Proof.
  intros Hh Hd. rewrite import_item_member. unfold import_member. rewrite decide_False by done.
  assert (strip_prefix "pullrun-nodes/" (blob_member d) = None) as -> by done.
  unfold blob_member at 1. rewrite strip_prefix_app. unfold import_blob.
  erewrite bind_ok by (unfold archive_digest; by rewrite from_hex_as_hex).
  erewrite bind_ok by done. destruct Hd as [Hd|Hd].
  - destruct (put_blob_new d b w Hh Hd) as (w' & E & Hs & Hbad & Hn & Hr & Hbl).
    erewrite bind_ok by (unfold map_err_eff; by rewrite E).
    eexists _, w'. split; [done|]. split; [apply add_bytes_manifest|]. by constructor.
  - erewrite bind_ok by (unfold map_err_eff; by rewrite put_blob_known by (by rewrite Hd)).
    eexists _, w. split; [done|]. split; [apply add_bytes_manifest|].
    constructor; try done. intros e. by case_decide; subst.
Qed.

Lemma same_manifest_trans a b c : same_manifest a b → same_manifest b c → same_manifest a c.
Proof. unfold same_manifest. intros [] []. split; congruence. Qed.

Lemma import_frame_trans f g f' g' w1 w2 w3 :
  import_frame f g w1 w2 → import_frame f' g' w2 w3 → import_frame f' g' w1 w3.
Proof. intros [] []. constructor; intros; congruence. Qed.

Lemma import_frame_ext f g f' g' w w' :
  (∀ e, f e = f' e) → (∀ e, g e = g' e) → import_frame f g w w' → import_frame f' g' w w'.
Proof. intros Hf Hg []. constructor; intros; rewrite <- ?Hf, <- ?Hg; auto. Qed.

Lemma import_nodes src ns st w :
  store_inv w → healthy w → addressed src →
  (∀ d, d ∈ ns → is_Some (node_at src d)) →
  (∀ d, d ∈ ns → node_file w d = None ∨ node_file w d = node_file src d) →
  ∃ st' w', fold_eff import_item st (item <$> node_members src ns) w = (Ok st', w') ∧
    same_manifest st st' ∧ store_inv w' ∧
    import_frame (λ e, if decide (e ∈ ns) then node_file src e else node_file w e) (blob_file w) w w'.
Proof.
  intros Hi Hh Had. revert st w Hi Hh. induction ns as [|d ns IH]; intros st w Hi Hh Hn Hag.
  { exists st, w. by split_and!. }
  destruct (Hn d) as [n Hd]; [left|]. unfold node_at in Hd.
  destruct (node_file src d) as [b|] eqn:Eb; [|done]. simpl in Hd.
  assert (Hag' : node_file w d = None ∨ node_file w d = Some b) by (rewrite <- Eb; apply Hag; left).
  destruct (import_node_item d b st w) as (st1 & w1 & E1 & Hm1 & Hf1); try done; [by apply Had|].
  assert (Hi1 : store_inv w1).
  { eapply import_frame_inv; [done| |done]. intros e c He. simpl.
    case_decide; [subst; destruct Hag'; congruence|done]. }
  assert (Hh1 : healthy w1) by (by eapply import_frame_healthy).
  destruct (IH st1 w1 Hi1 Hh1) as (st2 & w2 & E2 & Hm2 & Hi2 & Hf2).
  { intros e He. apply Hn. by right. }
  { intros e He. rewrite (imp_node _ _ _ _ Hf1). case_decide; [subst; by right|apply Hag; by right]. }
  exists st2, w2. split_and!; [|by eapply same_manifest_trans|done|].
  - unfold node_members. cbn [omap list_omap]. rewrite Eb. cbn [fmap option_fmap option_map list_fmap fold_eff].
    erewrite bind_ok by exact E1. exact E2.
  - eapply import_frame_trans; [exact Hf1|]. eapply import_frame_ext; [..|exact Hf2].
    + intros e. simpl. rewrite (imp_node _ _ _ _ Hf1).
      destruct (decide (e = d)) as [->|Hne].
      * rewrite (decide_True (P := d ∈ d :: ns)) by left. case_decide; congruence.
      * apply decide_ext. rewrite elem_of_cons. naive_solver.
    + intros e. apply Hf1.
Qed.

Lemma import_blobs src bs st w :
  healthy w → (∀ d, d ∈ bs → is_Some (blob_file src d)) →
  (∀ d, d ∈ bs → blob_file w d = None ∨ blob_file w d = blob_file src d) →
  ∃ st' w', fold_eff import_item st (item <$> blob_members src bs) w = (Ok st', w') ∧
    same_manifest st st' ∧
    import_frame (node_file w) (λ e, if decide (e ∈ bs) then blob_file src e else blob_file w e) w w'.
Proof.
  revert st w. induction bs as [|d bs IH]; intros st w Hh Hn Hag.
  { exists st, w. by split_and!. }
  destruct (Hn d) as [b Eb]; [left|].
  destruct (import_blob_item d b st w Hh) as (st1 & w1 & E1 & Hm1 & Hf1).
  { rewrite <- Eb. apply Hag. left. }
  destruct (IH st1 w1) as (st2 & w2 & E2 & Hm2 & Hf2).
  { by eapply import_frame_healthy. } { intros e He. apply Hn. by right. }
  { intros e He. rewrite (imp_blob _ _ _ _ Hf1). case_decide; [subst; by right|apply Hag; by right]. }
  exists st2, w2. split_and!; [|by eapply same_manifest_trans|].
  - unfold blob_members. cbn [omap list_omap]. rewrite Eb. cbn [fmap option_fmap option_map list_fmap fold_eff].
    erewrite bind_ok by exact E1. exact E2.
  - eapply import_frame_trans; [exact Hf1|]. eapply import_frame_ext; [..|exact Hf2].
    + intros e. apply Hf1.
    + intros e. simpl. rewrite (imp_blob _ _ _ _ Hf1).
      destruct (decide (e = d)) as [->|Hne].
      * rewrite (decide_True (P := d ∈ d :: bs)) by left. case_decide; congruence.
      * apply decide_ext. rewrite elem_of_cons. naive_solver.
Qed.

Lemma fold_eff_app {W E A B} (f : A → B → eff W E A) a l k w :
  fold_eff f a (l ++ k) w = (fold_eff f a l ≫= λ a, fold_eff f a k) w.
Proof.
  revert a w. induction l as [|x l IH]; intros a w; [done|]. cbn [app fold_eff].
  unfold mbind, eff_bind. destruct (f a x w) as [[a'|e] w']; [|done]. apply IH.
Qed.

Lemma members_named src ns bs mj :
  Forall (λ kv, tar_name kv.1 = true) ((MANIFEST_PATH, mj) :: node_members src ns ++ blob_members src bs).
Proof.
  assert (Hx : ∀ d, contains_char (as_hex d) "."%char = false).
  { intros d. by apply (str_all_contains is_lower_hex); [apply hex_encode_lower|]. }
  constructor; [done|]. apply Forall_app. split; apply Forall_forall;
    intros kv (d & _ & (b & _ & ->)%fmap_Some)%list_elem_of_omap; unfold tar_name; simpl;
    rewrite contains_no_char; try done; by rewrite contains_char_app, Hx.
Qed.

(** An archive round-trips.  Exporting an image and importing the archive into
    any store that does not hold different contents for the same digests succeeds,
    returns the root, and leaves every node and blob that the image reaches as the
    first store has it, everything else and every reference count unchanged. *)
Lemma export_import root r mj w1 w2 :
  store_inv w1 → healthy w1 → blobs_coherent w1 → addressed w1 → from_hex root = Ok r →
  (∀ d, reachable w1 [r] d → ¬ corrupted_at w1 d) →
  (∀ n b, export_manifest_to_vec (MkExportManifest root "dag" n b) = Some (mj n b)) →
  store_inv w2 → healthy w2 →
  (∀ d, reachable w1 [r] d → node_file w2 d = None ∨ node_file w2 d = node_file w1 d) →
  (∀ d, reachable w1 [r] d → blob_file w2 d = None ∨ blob_file w2 d = blob_file w1 d) →
  ∃ tar w1' stored dedup w2',
    export_dag_to_tar root w1 = (Ok tar, w1') ∧ same_disk w1 w1' ∧
    import_dag_from_tar tar w2 = (Ok (root, stored, dedup), w2') ∧ store_inv w2' ∧
    (∀ d, reachable w1 [r] d → is_Some (node_file w1 d) →
      node_file w2' d = node_file w1 d ∧ blob_file w2' d = blob_file w1 d) ∧
    (∀ d, ¬ (reachable w1 [r] d ∧ is_Some (node_file w1 d)) →
      node_file w2' d = node_file w2 d ∧ blob_file w2' d = blob_file w2 d) ∧
    (∀ d, rc_file w2' d = rc_file w2 d).
Proof.
  intros Hi1 Hh1 Hco Had Hr Hin Hm Hi2 Hh2 Hagn Hagb.
  destruct (export_spec root r mj w1) as (ns & bs & w1' & Ex & Hs1 & _ & Hns & Hbs); [done..|].
  set (st0 := MkImport root 0 0 true).
  destruct (import_nodes w1 ns st0 w2) as (st1 & w3 & E3 & Hm3 & Hi3 & Hf3); [done..| | |].
  { intros d [Hd [b Hb]]%Hns. unfold node_at. rewrite Hb. simpl.
    destruct (check_archived_root b) eqn:E; [done|]. destruct (Hin d Hd). by exists b. }
  { intros d [Hd _]%Hns. by apply Hagn. }
  destruct (import_blobs w1 bs st1 w3) as (st2 & w4 & E4 & Hm4 & Hf4).
  { by eapply import_frame_healthy. } { by intros d [_ ?]%Hbs. }
  { intros d [[Hd _]%Hns _]%Hbs. rewrite (imp_blob _ _ _ _ Hf3). by apply Hagb. }
  eexists _, w1', (bytes_stored st2), (bytes_dedup st2), w4. split; [exact Ex|]. split; [done|].
  split_and!.
  - unfold import_dag_from_tar. erewrite bind_ok by (unfold lift_result; by rewrite tar_entries_build by apply members_named).
    change (λ kv, Some _) with item. rewrite fmap_cons, fmap_app.
    erewrite bind_ok.
    2: { cbn [fold_eff]. erewrite bind_ok.
         2: { rewrite import_item_member. unfold import_member. rewrite decide_True by done.
              unfold mbind, eff_bind, lift_result.
              by erewrite export_manifest_roundtrip by (apply Hm). }
         change (MkImport _ _ _ _) with st0. rewrite fold_eff_app. erewrite bind_ok by exact E3. exact E4. }
    destruct Hm3 as [Hm3 Hr3], Hm4 as [Hm4 Hr4]. rewrite Hm4, Hm3. simpl. by rewrite Hr4, Hr3.
  - eapply import_frame_inv; [done| |done]. done.
  - intros d Hd Hsome. rewrite (imp_node _ _ _ _ Hf4), (imp_blob _ _ _ _ Hf4), (imp_node _ _ _ _ Hf3),
      (imp_blob _ _ _ _ Hf3). rewrite decide_True by (by apply Hns). split; [done|].
    case_decide as Hb; [done|]. destruct (Hagb d Hd) as [Hn|Hn]; [|done].
    destruct (blob_file w1 d) eqn:E; [|done]. destruct Hb. apply Hbs. rewrite E. split; [by apply Hns|done].
  - intros d Hd. rewrite (imp_node _ _ _ _ Hf4), (imp_blob _ _ _ _ Hf4), (imp_node _ _ _ _ Hf3),
      (imp_blob _ _ _ _ Hf3). rewrite <- Hns in Hd. rewrite decide_False by done.
    rewrite decide_False; [done|]. by rewrite Hbs; intros [].
  - intros d. by rewrite (imp_rc _ _ _ _ Hf4), (imp_rc _ _ _ _ Hf3).
Qed.

(** ** Untrusted archives *)

(** What an archive can do to a store, whatever it holds. *)
Record import_safe (w w' : World) : Prop := {
  safe_store : store w' = store w;
  safe_keeps e b : node_file w e = Some b → node_file w' e = Some b;
  safe_new e b : node_file w' e = Some b →
    node_file w e = Some b ∨ compute b = e ∧ is_Some (check_archived_root (A := DagNode) b);
  safe_blobs e b : blob_file w e = Some b → blob_file w' e = Some b;
  safe_rc e : rc_file w' e = rc_file w e;
}.

Lemma import_safe_refl w : import_safe w w.
Proof. constructor; auto. Qed.

Lemma import_safe_trans w1 w2 w3 : import_safe w1 w2 → import_safe w2 w3 → import_safe w1 w3.
Proof.
  intros [Hs1 Hk1 Hn1 Hb1 Hr1] [Hs2 Hk2 Hn2 Hb2 Hr2]. constructor; [congruence|auto| |auto|congruence].
  intros e b [?|?]%Hn2; [by apply Hn1|by right].
Qed.

Lemma import_safe_inv w w' : import_safe w w' → store_inv w → store_inv w'.
Proof. intros [Hs Hk _ _ _] [Hn Hb Hco]. constructor; rewrite Hs; auto. Qed.

Lemma put_blob_safe d data w r w' : put_blob d data w = (r, w') → import_safe w w'.
Proof.
  intros E. destruct (blob_file w d) as [b0|] eqn:Ed.
  { rewrite put_blob_known in E by (by rewrite Ed). injection E as <- <-. apply import_safe_refl. }
  unfold put_blob, mbind, eff_bind, get_world in E. rewrite blob_exists_spec, Ed in E.
  rewrite bool_decide_false in E by (by intros []). unfold on_os in E.
  destruct (write_atomically _ data (os w)) as [r0 s0] eqn:Ew. injection E as _ <-.
  apply write_atomically_frame in Ew as [_ Ho _ _].
  constructor; simpl; [done|intros e b; unfold node_file; simpl..| |intros e; unfold rc_file; simpl].
  - rewrite Ho; [done|apply path_for_tmp|apply node_blob_ne].
  - rewrite Ho; [by left|apply path_for_tmp|apply node_blob_ne].
  - intros e b He. unfold blob_file. simpl. rewrite Ho; [done|apply path_for_blob_tmp|].
    intros ->%path_for_blob_inj. congruence.
  - rewrite Ho; [done|apply refcount_path_tmp|apply not_eq_sym, blob_rc_ne].
Qed.

Lemma write_node_safe d b w r w' :
  (from_io (touch_dir (parent (path_for (root (store w)) d))) ;;
   from_io (write_file (path_for (root (store w)) d) b)) w = (r, w') →
  compute b = d → is_Some (check_archived_root (A := DagNode) b) → node_file w d = None → import_safe w w'.
Proof.
  intros E Hb Hc Hd. unfold from_io, map_err_eff, on_os, mbind, eff_bind, touch_dir, write_file in E.
  destruct (bool_decide _); simpl in E; [injection E as _ <-; by destruct w; apply import_safe_refl|].
  destruct (faulty _ _); simpl in E; injection E as _ <-; [by destruct w; apply import_safe_refl|].
  constructor; simpl; [done|intros e c; unfold node_file; simpl..|intros e c|intros e].
  - intros He. rewrite lookup_insert_ne; [done|]. intros ->%path_for_inj. unfold node_file in *. congruence.
  - intros [[E1 ->]|[_ ?]]%lookup_insert_Some; [|by left]. right. apply path_for_inj in E1. by subst.
  - unfold blob_file. simpl. rewrite lookup_insert_ne; [done|apply node_blob_ne].
  - unfold rc_file. simpl. rewrite lookup_insert_ne; [done|apply node_rc_ne].
Qed.

Lemma import_node_safe x b st w r w' : store_inv w → import_node x b st w = (r, w') → import_safe w w'.
Proof.
  intros Hi [(d & w1 & [-> _]%lift_frame & E)|(e & [-> _]%lift_frame & _)]%bind_cases;
    [|apply import_safe_refl].
  cbv beta zeta in E. case_decide as Hc; [|injection E as _ <-; apply import_safe_refl].
  apply bind_cases in E as [(n & w1 & [-> Hn]%lift_frame & E)|(e & [-> _]%lift_frame & _)];
    [|apply import_safe_refl].
  apply bind_cases in E as [(w0 & w1 & [= <- <-] & E)|(e & [=] & _)].
  cbv beta zeta in E. rewrite exists_spec in E by done. case_bool_decide as Hd.
  { injection E as _ <-. apply import_safe_refl. }
  apply eq_None_not_Some in Hd.
  assert (Hck : is_Some (check_archived_root (A := DagNode) b)).
  { destruct (check_archived_root b); [done|discriminate Hn]. }
  apply bind_cases in E as [(a & w1 & Ew & [= _ <-])|(e & Ew & _)]; by eapply write_node_safe.
Qed.

Lemma import_item_safe st i w r w' : store_inv w → import_item st i w = (r, w') → import_safe w w'.
Proof.
  intros Hi [(j & w1 & [-> _]%lift_frame & E)|(e & [-> _]%lift_frame & _)]%bind_cases;
    [|apply import_safe_refl].
  destruct (item_path j) as [p|]; [|injection E as _ <-; apply import_safe_refl].
  apply bind_cases in E as [(b & w1 & [-> _]%lift_frame & E)|(e & [-> _]%lift_frame & _)];
    [|apply import_safe_refl].
  unfold import_member in E. case_decide.
  { apply bind_cases in E as [(m & w1 & [-> _]%lift_frame & [= _ <-])|(e & [-> _]%lift_frame & _)];
      apply import_safe_refl. }
  destruct (strip_prefix "pullrun-nodes/" p); [by eapply import_node_safe|].
  destruct (strip_prefix "pullrun-blobs/" p); [|injection E as _ <-; apply import_safe_refl].
  apply bind_cases in E as [(d & w1 & [-> _]%lift_frame & E)|(e & [-> _]%lift_frame & _)];
    [|apply import_safe_refl].
  apply bind_cases in E as [(w0 & w1 & [= <- <-] & E)|(e & [=] & _)].
  apply bind_cases in E as [(a & w1 & Ep & [= _ <-])|(e & Ep & _)]; unfold map_err_eff in Ep;
    destruct (put_blob d b w) as [r1 w2] eqn:E2; injection Ep as _ ->; by eapply put_blob_safe.
Qed.

Lemma import_items_safe l st w r w' :
  store_inv w → fold_eff import_item st l w = (r, w') → import_safe w w'.
Proof.
  revert st w. induction l as [|i l IH]; intros st w Hi E.
  { injection E as _ <-. apply import_safe_refl. }
  apply bind_cases in E as [(st1 & w1 & E1 & E)|(e & E1 & _)]; apply import_item_safe in E1; try done.
  eapply import_safe_trans; [done|]. eapply IH; [|done]. by eapply import_safe_inv.
Qed.


End spec.

(** ** The handlers: [export_image] and [import_image] of [service.rs] *)

Inductive TransferError :=
| StreamError
| TransferOpLock
| ImportFailed (e : OciError.t)
| InvalidRoot (e : DigestError)
| TransferTags (e : Images.Status).

Abbreviation transfer_eff := (eff ImageService TransferError).

(** [buf.chunks(n)]. *)
Fixpoint chunk_bytes (fuel n : nat) (l : bytes) : list bytes :=
  match fuel, l with
  | S fuel, _ :: _ => take n l :: chunk_bytes fuel n (drop n l)
  | _, _ => []
  end.

Definition CHUNK : nat := Z.to_nat (64 * 1024).

Section handlers.
Context `{Hex, Sha2, Rkyv DagNode, Tar, ExportJson}.

Definition transfer_store {E A} (m : eff World E A) : eff ImageService E A := λ s,
  let '(r, w) := m (im_store s) in (r, with_gc (MkGcWorld w (gw_ops (im_gc s))) s).

Definition transfer_ops {A} (m : ops_eff A) : transfer_eff A := λ s,
  let '(r, o) := m (gw_ops (im_gc s)) in (map_err (λ _, TransferOpLock) r, with_gc (MkGcWorld (im_store s) o) s).

(** The messages of the stream: the archive in pieces, or the error. *)
Definition export_image (root_digest : string) : eff ImageService Images.Status (list (result OciError.t bytes)) :=
  r ← try_eff (transfer_store (export_dag_to_tar root_digest));
  mret match r with
       | Ok buf => Ok <$> chunk_bytes (length buf) CHUNK buf
       | Err e => [Err e]
       end.

(** [message().await?] until the end of the stream. *)
Fixpoint read_stream {E} (stream : list (result E bytes)) (buf : bytes) : result TransferError bytes :=
  match stream with
  | [] => Ok buf
  | Ok data :: stream => read_stream stream (buf ++ data)
  | Err _ :: _ => Err StreamError
  end.

Definition pin_import (root_digest_str : string) : transfer_eff unit :=
  root ← lift_result (map_err InvalidRoot (from_hex root_digest_str));
  map_err_eff TransferTags (write_tags <[root_digest_str := "load:" +:+ str_take 12 root_digest_str]>) ;;
  ignore_eff (on_image_store (increment_refcount root)) ;;
  map_err_eff TransferTags save_image_tags.

(** The lock file goes away with [op_lock]. *)
Definition import_image {E} (stream : list (result E bytes)) : transfer_eff (string * Z * Z) :=
  buf ← lift_result (read_stream stream []);
  op_lock ← transfer_ops OpLock_new;
  r ← try_eff (
    '(root_digest_str, stored, deduplicated) ← map_err_eff ImportFailed (transfer_store (import_dag_from_tar buf));
    pin_import root_digest_str ;;
    mret (root_digest_str, stored, deduplicated));
  ignore_eff (transfer_ops (remove op_lock)) ;;
  lift_result r.

Definition dag_store_info (s : ImageService) : string * Z :=
  ("/var/lib/pullrun/dag", as_i64 (store_total_bytes (store (im_store s)))).

End handlers.

(** ** A transfer between two daemons *)

Lemma chunk_bytes_spec n fuel l :
  0 < n → length l ≤ fuel → concat (chunk_bytes fuel n l) = l ∧ Forall (λ c, 0 < length c ≤ n) (chunk_bytes fuel n l).
Proof.
  intros Hn. revert l. induction fuel as [|fuel IH]; intros [|b l] Hl; simpl in *; try done; [lia|].
  destruct n as [|n]; [lia|]. simpl. destruct (IH (drop n l)) as [Ec Hf]; [rewrite length_drop; lia|].
  rewrite Ec. split; [by rewrite take_drop|]. constructor; [|done]. simpl. rewrite length_take. lia.
Qed.

Lemma read_chunks {E} (l : list bytes) buf : read_stream (E := E) (Ok <$> l) buf = Ok (buf ++ concat l).
Proof.
  revert buf. induction l as [|c l IH]; intros buf; simpl; [by rewrite app_nil_r|]. by rewrite IH, <- app_assoc.
Qed.

Section transfer.
Context `{Hex, Sha2, Rkyv DagNode, Tar, ExportJson, !HexLaws, !TarLaws, !ExportJsonLaws}.

(** What is reachable in one store is reachable in every store with the same nodes
    there. *)
Lemma rtc_edge_same w1 w2 r d :
  (∀ x, rtc (edge w1) r x → is_Some (node_file w1 x) → node_file w2 x = node_file w1 x) →
  rtc (edge w1) r d → rtc (edge w2) r d.
Proof.
  intros Hn Hp. revert Hp. apply (rtc_ind_r (λ x, rtc (edge w2) r x)); [done|].
  intros x y Hrx Hxy IH. eapply rtc_r; [done|]. revert Hxy. unfold edge. rewrite !children_edges_of.
  destruct (node_file w1 x) as [b|] eqn:Eb; [|by intros ?%not_elem_of_nil].
  by rewrite (Hn x Hrx ltac:(by rewrite Eb)), Eb.
Qed.

Lemma pin_import_spec x d s :
  tags_writer s = false → from_hex x = Ok d →
  ∃ s', pin_import x s = (Ok tt, s') ∧ node_frame (im_store s) (im_store s') ∧ tags_writer s' = false ∧
    image_tags s' !! x = Some ("load:" +:+ str_take 12 x).
Proof.
  intros Hl Hx. unfold pin_import. erewrite bind_ok by (unfold lift_result; by rewrite Hx).
  erewrite bind_ok by (unfold map_err_eff; by rewrite write_tags_spec).
  destruct (increment_refcount d (im_store s)) as [r w] eqn:E.
  rewrite ignore_bind. erewrite on_image_store_spec by exact E. unfold map_err_eff.
  erewrite save_image_tags_spec by done. eexists. split; [done|]. split_and!; [by apply increment_frame in E|done|].
  simpl. by rewrite lookup_insert_eq.
Qed.

Lemma node_frame_inv w w' : node_frame w w' → store_inv w → store_inv w'.
Proof. intros (Hs & _ & Hn & _) [Hc Hb Hco]. constructor; rewrite Hs; [done..|]. intros d b. rewrite Hn. apply Hco. Qed.

(** An import whose archive is read pins the root. *)
Lemma import_run chunks tar root r stored dedup s w' :
  tags_writer s = false → ops_fault (gw_ops (im_gc s)) = false → from_hex root = Ok r → concat chunks = tar →
  import_dag_from_tar tar (im_store s) = (Ok (root, stored, dedup), w') →
  ∃ s', import_image (E := OciError.t) (Ok <$> chunks) s = (Ok (root, stored, dedup), s') ∧
    node_frame w' (im_store s') ∧ tags_writer s' = false ∧ image_tags s' !! root = Some ("load:" +:+ str_take 12 root).
Proof.
  intros Hl Hf Hr <- Ei. unfold import_image. erewrite bind_ok by (unfold lift_result; by rewrite read_chunks).
  cbv beta. erewrite bind_ok.
  2: { unfold transfer_ops, OpLock_new, ops_access, mbind, eff_bind. rewrite Hf. reflexivity. }
  cbv beta. rewrite try_bind, ignore_bind. simpl app.
  match goal with |- context [with_gc (MkGcWorld _ ?o) s] => set (s1 := with_gc (MkGcWorld (im_store s) o) s) end.
  destruct (pin_import_spec root r (with_gc (MkGcWorld w' (gw_ops (im_gc s1))) s1)) as (s2 & Ep & Hfr & Hl2 & Ht); [done..|].
  erewrite bind_ok by (unfold map_err_eff, transfer_store; change (im_store s1) with (im_store s); by rewrite Ei).
  cbv beta iota. erewrite bind_ok by exact Ep. simpl. unfold lift_result. eexists. split; [done|].
  unfold transfer_ops. destruct (remove _ (gw_ops (im_gc s2))) as [? o]. done.
Qed.

(** C16: an image moves from one daemon to another.  The messages of an export hold
    at most 64 KiB each; importing them succeeds, and a collection that the other
    daemon runs then, whatever it answers, leaves every node and blob that the image
    reaches as the first daemon has it. *)
Theorem image_transfer root r mj s1 s2 :
  store_inv (im_store s1) → healthy (im_store s1) → blobs_coherent (im_store s1) → addressed (im_store s1) →
  from_hex root = Ok r → (∀ d, reachable (im_store s1) [r] d → ¬ corrupted_at (im_store s1) d) →
  (∀ n b, export_manifest_to_vec (MkExportManifest root "dag" n b) = Some (mj n b)) →
  store_inv (im_store s2) → healthy (im_store s2) → tags_writer s2 = false → ops_fault (gw_ops (im_gc s2)) = false →
  (∀ d, reachable (im_store s1) [r] d →
     node_file (im_store s2) d = None ∨ node_file (im_store s2) d = node_file (im_store s1) d) →
  (∀ d, reachable (im_store s1) [r] d →
     blob_file (im_store s2) d = None ∨ blob_file (im_store s2) d = blob_file (im_store s1) d) →
  ∃ chunks s1' stored dedup s2',
    export_image root s1 = (Ok (Ok <$> chunks), s1') ∧ Forall (λ c, 0 < length c ≤ CHUNK) chunks ∧
    import_image (E := OciError.t) (Ok <$> chunks) s2 = (Ok (root, stored, dedup), s2') ∧
    image_tags s2' !! root = Some ("load:" +:+ str_take 12 root) ∧
    ∀ dry_run force res s3 d, gc dry_run force s2' = (res, s3) →
      reachable (im_store s1) [r] d → is_Some (node_file (im_store s1) d) →
      node_file (im_store s3) d = node_file (im_store s1) d ∧ blob_file (im_store s3) d = blob_file (im_store s1) d.
Proof.
  intros Hi1 Hh1 Hco Had Hr Hin Hm Hi2 Hh2 Hl Hf Hagn Hagb.
  destruct (export_import root r mj (im_store s1) (im_store s2)) as
    (tar & w1' & stored & dedup & w2' & Ee & _ & Ei & Hi2' & Hsame & _); [done..|].
  destruct (chunk_bytes_spec CHUNK (length tar) tar) as [Hc Hsz]; [unfold CHUNK; lia|done|].
  set (chunks := chunk_bytes (length tar) CHUNK tar) in *.
  destruct (import_run chunks tar root r stored dedup s2 w2') as (s2' & Es & Hfr & Hl' & Ht); [done..|].
  exists chunks, (export_image root s1).2, stored, dedup, s2'. split_and!; [|done..|].
  { unfold export_image. rewrite try_bind. unfold transfer_store. by rewrite Ee. }
  intros dry_run force res s3 d Eg [r' [->%list_elem_of_singleton Hp]] Hd. pose proof Hfr as (_ & _ & Hn & Hb).
  assert (Hnode : ∀ x, rtc (edge (im_store s1)) r x → is_Some (node_file (im_store s1) x) →
    node_file (im_store s2') x = node_file (im_store s1) x ∧ blob_file (im_store s2') x = blob_file (im_store s1) x).
  { intros x Hx Hsx. rewrite Hn, Hb. apply Hsame; [|done]. exists r. split; [by left|done]. }
  destruct (Hnode d Hp Hd) as [<- <-]. eapply gc_keeps; [|done|exact Eg| | |].
  - by eapply node_frame_inv.
  - left. by exists root, ("load:" +:+ str_take 12 root).
  - eapply rtc_edge_same; [|exact Hp]. intros. by apply Hnode.
  - by rewrite (proj1 (Hnode d Hp Hd)).
Qed.

End transfer.
