(* ===== verification/Puller.v ===== *)
(** * The registry client: [runtime/pullrun-oci/src/puller.rs]

    [OciPuller] resolves an image reference, follows image indexes to the manifest
    of a platform, and downloads its configuration and layers.  The HTTP exchange
    is a parameter over a state of its own (what a registry answers may change
    between requests), and so are serde's JSON decoders, gzip and base64. *)

From stdpp Require Import base gmap strings list pretty.
From Stdlib Require Import ZArith Ascii Lia.
From S2P Require Import Prelude Strs Crates Node OciTypes.

Record Request := MkRequest { url : string; accept : list string; authorization : option string }.

(** [body] is [None] when reading it fails. *)
Record Response := MkResponse {
  status : Z;
  content_type : option string;
  content_encoding : option string;
  body : option bytes;
}.

(** [None]: the request could not be sent. *)
Class HttpClient (H : Type) := send : Request → H → option Response * H.

Class OciJson := {
  parse_manifest : bytes → option OciManifest;
  parse_config : bytes → option OciImageConfig;
  parse_index : bytes → option OciImageIndex;
  (** The [manifests] of a [ManifestList]. *)
  parse_manifest_list : bytes → option (list OciDescriptor);
  (** Whether the bytes are a JSON value with a [manifests] member. *)
  has_manifests : bytes → bool;
  (** The [token] and [access_token] members. *)
  parse_token : bytes → option (option string * option string);
}.

Class GzDecoder := gz_decode : bytes → option bytes.
Class Base64 := base64_encode : string → string.

Record OciPuller := MkPuller { auth : option OciAuth; insecure_registries : gset string }.

Definition OciPuller_new (a : option OciAuth) : OciPuller := MkPuller a ∅.
Definition with_insecure_registries (a : option OciAuth) (i : gset string) : OciPuller := MkPuller a i.

(** ** References *)

Definition scheme (p : OciPuller) (registry : string) : string :=
  if decide (registry ∈ insecure_registries p) then "http:" else "https:".

Definition is_registry (first : string) : bool :=
  contains_char first "."%char || contains_char first ":"%char || bool_decide (first = "localhost").

Definition registry_for (image_ref : string) (explicit_registry : option string) : string :=
  let parts := split image_ref "/"%char in
  let first := default EmptyString (head parts) in
  if contains_char image_ref "/"%char && is_registry first then first
  else default "registry-1.docker.io" explicit_registry.

Definition is_docker_hub (registry : string) : bool :=
  bool_decide (registry = "registry-1.docker.io") || bool_decide (registry = "docker.io").

(** [s.splitn(2, c)]: the text before the first separator, and what follows it if
    there is one. *)
Definition splitn2 (s : string) (c : ascii) : string * option string :=
  match split_once s c with
  | Some (x, y) => (x, Some y)
  | None => (s, None)
  end.

Definition image_parts (image_ref registry : string) : string * string :=
  let parts := split image_ref "/"%char in
  let first := default EmptyString (head parts) in
  let after_registry :=
    if bool_decide (1 < length parts) && is_registry first then join "/" (tail parts)
    else image_ref in
  let '(seg, tag) := splitn2 after_registry ":"%char in
  let name :=
    if contains_char seg "/"%char then seg
    else if is_docker_hub registry then "library/" +:+ seg
    else seg in
  (name, default "latest" tag).

(** [{}//{registry}/v2/{repository}/<kind>/{reference}] with Docker Hub's host. *)
Definition v2_url (p : OciPuller) (kind registry repository reference : string) : string :=
  (if is_docker_hub registry then "https://index.docker.io" else scheme p registry +:+ "//" +:+ registry)
  +:+ "/v2/" +:+ repository +:+ "/" +:+ kind +:+ "/" +:+ reference.

Definition manifest_url (p : OciPuller) := v2_url p "manifests".
Definition blob_url (p : OciPuller) := v2_url p "blobs".
Definition referrers_url (p : OciPuller) := v2_url p "referrers".

(** [current_arch] for the target the runtime is compiled for. *)
Definition current_arch (ARCH : string) : string :=
  if decide (ARCH = "x86_64") then "amd64"
  else if decide (ARCH = "aarch64") then "arm64"
  else if decide (ARCH = "powerpc64") then "ppc64le"
  else ARCH.

Definition non_empty (o : option string) : option string :=
  s ← o; if decide (s = EmptyString) then None else Some s.

Definition parse_platform (platform : string) : string * string :=
  let '(os, arch) := splitn2 platform "/"%char in
  (default "amd64" (non_empty arch), default "linux" (non_empty (Some os))).

(** The child of an image index for a platform: an exact match, else the first that
    is not an attestation, else the first. *)
Definition matches_platform (arch os : string) (m : OciDescriptor) : bool :=
  match platform m with
  | Some p => eq_ignore_ascii_case (p_os p) os && eq_ignore_ascii_case (p_architecture p) arch
  | None => false
  end.

Definition not_attestation (m : OciDescriptor) : bool :=
  match platform m with
  | Some p => bool_decide (p_os p ≠ "unknown") && bool_decide (p_architecture p ≠ "unknown")
  | None => true
  end.

Definition pick_child (arch os : string) (l : list OciDescriptor) : option OciDescriptor :=
  match List.find (matches_platform arch os) l with
  | Some c => Some c
  | None =>
    match List.find not_attestation l with
    | Some c => Some c
    | None => head l
    end
  end.

(** ** Requests *)

Section puller.
Context {H : Type} `{HttpClient H, OciJson, GzDecoder, Base64, Hex, Sha2}.
Context (ARCH : string) (puller : OciPuller).

Abbreviation oci_eff := (eff H OciError.t).

Definition bearer (token : option string) : option string := (λ t, "Bearer " +:+ t) <$> token.

Definition http (r : Request) : oci_eff Response := λ h,
  match send r h with
  | (Some resp, h') => (Ok resp, h')
  | (None, h') => (Err OciError.Http, h')
  end.

Definition or_else {A} (o : option A) (e : OciError.t) : oci_eff A := lift_result (ok_or o e).

Definition decode_body (encoding : string) (data : bytes) : result OciError.t bytes :=
  if contains (to_ascii_lowercase encoding) "gzip" then ok_or (gz_decode data) OciError.Io
  else Ok data.

(** [resp.bytes()?] and [decode_body]. *)
Definition read_body (resp : Response) : oci_eff bytes :=
  raw ← or_else (body resp) OciError.Http;
  lift_result (decode_body (default EmptyString (content_encoding resp)) raw).

Definition is_success (resp : Response) : bool := bool_decide (200 ≤ status resp < 300)%Z.

Definition basic_auth : option string :=
  a ← auth puller;
  user ← username a;
  pass ← password a;
  Some ("Basic " +:+ base64_encode (user +:+ ":" +:+ pass)).

Definition get_token (registry repository : string) : oci_eff (option string) :=
  let u :=
    if is_docker_hub registry
    then "https://auth.docker.io/token?service=registry.docker.io&scope=repository:" +:+ repository +:+ ":pull"
    else scheme puller registry +:+ "//" +:+ registry +:+ "/token?scope=repository:" +:+ repository +:+ ":pull" in
  resp ← http (MkRequest u [] basic_auth);
  if is_success resp then
    b ← or_else (body resp) OciError.Http;
    t ← or_else (parse_token b) OciError.Http;
    mret match t.1 with
         | Some t => Some t
         | None => t.2
         end
  else if decide (status resp = 404)%Z then mret None
  else throw (OciError.Other (AuthenticationFailed registry repository (status resp))).

Definition verify (data : bytes) (claimed : string) : oci_eff unit :=
  lift_result (map_err (OciError.DigestMismatch claimed) (verify_oci data claimed)).

Definition from_hex_or (e : DigestError → other_message) (s : string) : oci_eff Digest :=
  lift_result (map_err (λ x, OciError.Other (e x)) (from_hex s)).

Definition fetch_blob (registry repository d : string) (token : option string) : oci_eff bytes :=
  resp ← http (MkRequest (blob_url puller registry repository d) [] (bearer token));
  data ← read_body resp;
  verify data d ;;
  mret data.

Definition fetch_blob_by_digest := fetch_blob.

Definition fetch_config (registry repository d : string) (token : option string)
    : oci_eff OciImageConfig :=
  resp ← http (MkRequest (blob_url puller registry repository d) [] (bearer token));
  data ← read_body resp;
  verify data d ;;
  or_else (parse_config data) (OciError.InvalidManifest ConfigParse).

Definition docker_manifest : string := "application/vnd.docker.distribution.manifest.v2+json".
Definition docker_list : string := "application/vnd.docker.distribution.manifest.list.v2+json".

Definition is_manifest_list (resp : Response) (b : bytes) : bool :=
  let ct := default EmptyString (content_type resp) in
  contains ct "manifest.list" || contains ct "image.index" ||
  (has_manifests b && bool_decide (parse_manifest b = None)).

(** The request part shared by the two manifest fetchers. *)
Definition get_manifest_bytes (accept : list string) (failed : bytes → manifest_message)
    (registry repository reference : string) (token : option string) : oci_eff (Response * bytes) :=
  resp ← http (MkRequest (manifest_url puller registry repository reference) accept (bearer token));
  if is_success resp then
    b ← read_body resp; mret (resp, b)
  else throw (OciError.InvalidManifest (failed (default [] (body resp)))).

Definition fetch_raw_list (registry repository reference : string) (token : option string)
    : oci_eff (bytes * list OciDescriptor) :=
  '(resp, b) ← get_manifest_bytes
    [media_types.IMAGE_INDEX; docker_list; media_types.IMAGE_MANIFEST; docker_manifest]
    ListFetchFailed registry repository reference token;
  if is_manifest_list resp b then
    l ← or_else (parse_manifest_list b) (OciError.InvalidManifest ListParse);
    mret (b, l)
  else throw (OciError.InvalidManifest NotAManifestList).

(** [fuel] bounds the depth of nested indexes. *)
Fixpoint fetch_manifest_with_platform (fuel : nat) (registry repository reference : string)
    (token platform : option string) : oci_eff OciManifest :=
  match fuel with
  | O => throw OciError.OutOfFuel
  | S fuel =>
    '(resp, b) ← get_manifest_bytes
      [media_types.IMAGE_MANIFEST; media_types.IMAGE_INDEX; docker_manifest; docker_list]
      ManifestFetchFailed registry repository reference token;
    (if contains_char reference ":"%char then verify b reference else mret tt) ;;
    if is_manifest_list resp b then
      l ← or_else (parse_manifest_list b) (OciError.InvalidManifest ListParse);
      let '(target_arch, target_os) :=
        match platform with
        | Some p => parse_platform p
        | None => (current_arch ARCH, "linux")
        end in
      child ← or_else (pick_child target_arch target_os l) (OciError.InvalidManifest NoChildManifest);
      fetch_manifest_with_platform fuel registry repository (digest child) token platform
    else or_else (parse_manifest b) (OciError.InvalidManifest ManifestParse)
  end.

Definition fetch_layer (registry repository : string) (token : option string) (layer : OciDescriptor)
    : oci_eff (Digest * bytes * string) :=
  blob ← fetch_blob registry repository (digest layer) token;
  d ← from_hex_or InvalidLayerDigest (digest layer);
  mret (d, blob, d_media_type layer).

(** The configuration and the layers of a fetched manifest. *)
Definition fetch_image (registry repository : string) (token : option string) (m : OciManifest)
    : oci_eff PulledImage :=
  c ← fetch_config registry repository (digest (m_config m)) token;
  cd ← from_hex_or InvalidConfigDigest (digest (m_config m));
  blobs ← map_eff (fetch_layer registry repository token) (layers m);
  mret (MkPulledImage m c cd blobs).

Definition pull_with_platform (fuel : nat) (image_ref : string)
    (explicit_registry platform : option string) : oci_eff PulledImage :=
  let registry := registry_for image_ref explicit_registry in
  let '(repository, tag) := image_parts image_ref registry in
  token ← get_token registry repository;
  m ← fetch_manifest_with_platform fuel registry repository tag token platform;
  fetch_image registry repository token m.

Definition pull (fuel : nat) (image_ref : string) (explicit_registry : option string)
    : oci_eff PulledImage :=
  pull_with_platform fuel image_ref explicit_registry None.

Definition pull_all (fuel : nat) (image_ref : string) (explicit_registry : option string)
    : oci_eff PulledImageList :=
  let registry := registry_for image_ref explicit_registry in
  let '(repository, tag) := image_parts image_ref registry in
  token ← get_token registry repository;
  '(list_bytes, children) ← fetch_raw_list registry repository tag token;
  images ← map_eff (λ child,
      m ← fetch_manifest_with_platform fuel registry repository (digest child) token None;
      fetch_image registry repository token m) children;
  mret (MkPulledImageList images list_bytes children).

Record resolved := MkResolved {
  r_manifest : OciManifest;
  r_config : OciImageConfig;
  r_config_digest : string;
  r_registry : string;
  r_repository : string;
  r_token : option string;
}.

Definition resolve_image (fuel : nat) (image_ref : string) (explicit_registry platform : option string)
    : oci_eff resolved :=
  let registry := registry_for image_ref explicit_registry in
  let '(repository, tag) := image_parts image_ref registry in
  token ← get_token registry repository;
  m ← fetch_manifest_with_platform fuel registry repository tag token platform;
  c ← fetch_config registry repository (digest (m_config m)) token;
  mret (MkResolved m c (digest (m_config m)) registry repository token).

Definition fetch_referrers (registry repository d : string) (artifact_type token : option string)
    : oci_eff OciImageIndex :=
  let u := referrers_url puller registry repository d in
  let u := match artifact_type with
           | Some at_ => u +:+ "?artifactType=" +:+ at_
           | None => u
           end in
  resp ← http (MkRequest u [] (bearer token));
  b ← read_body resp;
  or_else (parse_index b) OciError.Json.

End puller.

(** ** Digests *)

Section digests.
Context `{Hex, Sha2, !HexLaws}.

Lemma hex_decode_no_colon s b : hex_decode s = Some b → contains_char s ":"%char = false.
Proof.
  intros Hd%hex_decode_lower. destruct (contains_char s ":"%char) eqn:E; [|done].
  apply (str_map_contains ascii_lower) in E. fold to_ascii_lowercase in E. rewrite <- Hd in E.
  by rewrite (str_all_contains is_lower_hex _ (ascii_lower ":"%char)) in E
    by (apply hex_encode_lower || reflexivity).
Qed.

(** Bytes verified against a digest text are the bytes of the digest it denotes. *)
Lemma verified_digest data s d : verify_oci data s = Ok tt → from_hex s = Ok d → compute data = d.
Proof.
  intros Hv Hd. pose proof (from_hex_sound _ _ Hd) as Hs. unfold verify_oci in Hv.
  destruct (strip_prefix "sha256:" s) as [t|] eqn:E.
  - apply strip_prefix_Some in E as ->. change ("sha256:" +:+ t) with ("sha256" +:+ String ":"%char t) in Hv.
    rewrite split_once_app, decide_True in Hv by done. case_decide as Ht; [|done].
    apply as_hex_inj. rewrite Hs. unfold as_hex, compute. simpl. rewrite <- Ht.
    by apply hex_decode_lower, hex_decode_encode.
  - unfold from_hex in Hd. rewrite E in Hd. simpl in Hd.
    destruct (hex_decode s) as [b|] eqn:Eb; [|done]. apply hex_decode_no_colon in Eb.
    by rewrite split_once_None in Hv.
Qed.

Lemma verify_sha256 data : verify_oci data ("sha256:" +:+ as_hex (compute data)) = Ok tt.
Proof.
  unfold verify_oci.
  change ("sha256:" +:+ as_hex (compute data)) with ("sha256" +:+ String ":"%char (as_hex (compute data))).
  rewrite split_once_app, decide_True by done. by rewrite decide_True.
Qed.

End digests.

(** ** Effects over lists *)

Lemma map_eff_Forall2 {W E A B} (R : A → B → Prop) (f : A → eff W E B) l w bs w' :
  (∀ a b w w', f a w = (Ok b, w') → R a b) → map_eff f l w = (Ok bs, w') → Forall2 R l bs.
Proof.
  intros HR. revert w bs. induction l as [|a l IH]; intros w bs; simpl.
  - by intros [= <- <-].
  - intros (b & w1 & Hb & Hm)%bind_inv_ok. apply bind_inv_ok in Hm as (bs' & w2 & Hbs & Hm).
    injection Hm as <- <-. constructor; [by eapply HR|by eapply IH].
Qed.

Lemma map_eff_pure {W E A B} (f : A → eff W E B) (g : A → B) l w :
  (∀ a, a ∈ l → f a w = (Ok (g a), w)) → map_eff f l w = (Ok (g <$> l), w).
Proof.
  induction l as [|a l IH]; intros Hf; [done|]. simpl. rewrite (bind_ok _ _ _ _ _ (Hf a ltac:(left))).
  by rewrite (bind_ok _ _ _ _ _ (IH (λ x Hx, Hf x ltac:(by right)))).
Qed.

Lemma lift_ok {W E A} (r : result E A) (w : W) a w' : lift_result r w = (Ok a, w') → r = Ok a ∧ w' = w.
Proof. unfold lift_result. by intros [= -> ->]. Qed.

Section integrity.
Context {H : Type} `{HttpClient H, OciJson, GzDecoder, Base64, Hex, Sha2, !HexLaws}.
Context (ARCH : string) (puller : OciPuller).

Lemma verify_ok data s (h : H) u h' : verify data s h = (Ok u, h') → verify_oci data s = Ok tt.
Proof.
  intros [Hv _]%lift_ok. destruct (verify_oci data s) as [[]|]; done.
Qed.

Lemma from_hex_or_ok m s (h : H) d h' : from_hex_or m s h = (Ok d, h') → from_hex s = Ok d.
Proof. intros [Hv _]%lift_ok. destruct (from_hex s); simpl in *; naive_solver. Qed.

Lemma or_else_ok {A} (o : option A) e (h : H) a h' : or_else o e h = (Ok a, h') → o = Some a.
Proof. intros [Hv _]%lift_ok. destruct o; simpl in *; naive_solver. Qed.

Lemma fetch_blob_ok registry repository d token h data h' :
  fetch_blob puller registry repository d token h = (Ok data, h') → verify_oci data d = Ok tt.
Proof.
  intros (resp & h1 & _ & (raw & h2 & _ & (u & h3 & Hv & [= <- <-])%bind_inv_ok)%bind_inv_ok)%bind_inv_ok.
  by eapply verify_ok.
Qed.

Definition verified_layer (layer : OciDescriptor) (b : Digest * bytes * string) : Prop :=
  from_hex (digest layer) = Ok b.1.1 ∧ compute b.1.2 = b.1.1 ∧ b.2 = d_media_type layer.

Lemma fetch_layer_ok registry repository token layer b h h' :
  fetch_layer puller registry repository token layer h = (Ok b, h') → verified_layer layer b.
Proof.
  intros (data & h1 & Hv%fetch_blob_ok & (d & h2 & Hd%from_hex_or_ok & [= <- <-])%bind_inv_ok)%bind_inv_ok.
  split_and!; [done| |done]. by eapply verified_digest.
Qed.

(** A configuration that was decoded from bytes with the digest the manifest names. *)
Definition verified_config (m : OciManifest) (c : OciImageConfig) (cd : Digest) : Prop :=
  from_hex (digest (m_config m)) = Ok cd ∧ ∃ b, compute b = cd ∧ parse_config b = Some c.

Lemma fetch_config_ok registry repository d token h c h' :
  fetch_config puller registry repository d token h = (Ok c, h') →
  ∃ b, verify_oci b d = Ok tt ∧ parse_config b = Some c.
Proof.
  intros (resp & h1 & _ & (b & h2 & _ & (u & h3 & Hv%verify_ok & Hc%or_else_ok)%bind_inv_ok)%bind_inv_ok)%bind_inv_ok.
  by exists b.
Qed.

Definition verified_image (img : PulledImage) : Prop :=
  verified_config (manifest img) (config img) (config_digest img) ∧
  Forall2 verified_layer (layers (manifest img)) (layer_blobs img).

Lemma fetch_image_ok registry repository token m h img h' :
  fetch_image puller registry repository token m h = (Ok img, h') → manifest img = m ∧ verified_image img.
Proof.
  intros (c & h1 & (b & Hb & Hc)%fetch_config_ok &
    (cd & h2 & Hcd%from_hex_or_ok & (blobs & h3 & Hl & [= <- <-])%bind_inv_ok)%bind_inv_ok)%bind_inv_ok.
  split; [done|]. split.
  - split; [done|]. exists b. split; [by eapply verified_digest|done].
  - eapply map_eff_Forall2, Hl. intros *. apply fetch_layer_ok.
Qed.

(** The manifest a reference leads to: every document on the way that was asked for
    by a digest has that digest, and each step goes to a child of an index. *)
Inductive digest_chain : string → OciManifest → Prop :=
| chain_manifest reference b m :
    (contains_char reference ":"%char = true → verify_oci b reference = Ok tt) →
    parse_manifest b = Some m → digest_chain reference m
| chain_index reference b l child m :
    (contains_char reference ":"%char = true → verify_oci b reference = Ok tt) →
    parse_manifest_list b = Some l → child ∈ l →
    digest_chain (digest child) m → digest_chain reference m.

Lemma find_elem {A} (f : A → bool) l x : List.find f l = Some x → x ∈ l.
Proof. intros [? _]%find_some. by apply list_elem_of_In. Qed.

Lemma pick_child_elem arch os l c : pick_child arch os l = Some c → c ∈ l.
Proof.
  unfold pick_child. destruct (List.find (matches_platform arch os) l) eqn:E1.
  { intros [= <-]. by eapply find_elem. }
  destruct (List.find not_attestation l) eqn:E2.
  { intros [= <-]. by eapply find_elem. }
  destruct l; [done|]. intros [= ->]. left.
Qed.

Lemma fetch_manifest_chain fuel registry repository reference token plat h m h' :
  fetch_manifest_with_platform ARCH puller fuel registry repository reference token plat h = (Ok m, h') →
  digest_chain reference m.
Proof.
  revert reference h. induction fuel as [|fuel IH]; intros reference h; cbn [fetch_manifest_with_platform];
    [done|].
  intros ([resp b] & h1 & _ & Hm)%bind_inv_ok. apply bind_inv_ok in Hm as (u & h2 & Hv & Hm).
  assert (Hver : contains_char reference ":"%char = true → verify_oci b reference = Ok tt).
  { intros E. rewrite E in Hv. by eapply verify_ok. }
  destruct (is_manifest_list resp b).
  - apply bind_inv_ok in Hm as (l & h3 & Hl%or_else_ok & Hm).
    destruct (match plat with Some p => _ | None => _ end) as [arch os].
    apply bind_inv_ok in Hm as (child & h4 & Hc%or_else_ok & Hm).
    eapply chain_index; [done|done|by eapply pick_child_elem|by eapply IH].
  - apply or_else_ok in Hm. by eapply chain_manifest.
Qed.


End integrity.

(** ** Availability *)

Section availability.
Context {H : Type} `{HttpClient H, OciJson, GzDecoder, Base64, Hex, Sha2, !HexLaws}.
Context (ARCH : string) (puller : OciPuller).

(** A registry that answers each request in one way. *)
Context (serve : Request → option Response) (Hserve : ∀ r (h : H), send r h = (serve r, h)).

Definition served (r : Request) (resp : Response) (b : bytes) : Prop :=
  serve r = Some resp ∧ ∃ raw, body resp = Some raw ∧
    decode_body (default EmptyString (content_encoding resp)) raw = Ok b.

Definition sha256_of (b : bytes) : string := "sha256:" +:+ as_hex (compute b).

Definition blob_request (registry repository d : string) (token : option string) : Request :=
  MkRequest (blob_url puller registry repository d) [] (bearer token).

Definition manifest_request (registry repository reference : string) (token : option string) : Request :=
  MkRequest (manifest_url puller registry repository reference)
    [media_types.IMAGE_MANIFEST; media_types.IMAGE_INDEX; docker_manifest; docker_list] (bearer token).

Definition target (plat : option string) : string * string :=
  match plat with
  | Some p => parse_platform p
  | None => (current_arch ARCH, "linux")
  end.

(** The reference leads to the manifest through at most [n - 1] indexes. *)
Inductive leads_to (registry repository : string) (token plat : option string)
    : nat → string → OciManifest → Prop :=
| leads_manifest n reference resp b m :
    served (manifest_request registry repository reference token) resp b → is_success resp = true →
    (contains_char reference ":"%char = true → verify_oci b reference = Ok tt) →
    is_manifest_list resp b = false → parse_manifest b = Some m →
    leads_to registry repository token plat (S n) reference m
| leads_index n reference resp b l child m :
    served (manifest_request registry repository reference token) resp b → is_success resp = true →
    (contains_char reference ":"%char = true → verify_oci b reference = Ok tt) →
    is_manifest_list resp b = true → parse_manifest_list b = Some l →
    pick_child (target plat).1 (target plat).2 l = Some child →
    leads_to registry repository token plat n (digest child) m →
    leads_to registry repository token plat (S n) reference m.

Lemma http_served r resp b (h : H) : served r resp b →
  http r h = (Ok resp, h) ∧ read_body resp h = (Ok b, h).
Proof.
  intros [E (raw & Hb & Hd)]. unfold http. rewrite Hserve, E. split; [done|].
  unfold read_body, or_else. rewrite Hb. erewrite bind_ok by reflexivity. unfold lift_result. by rewrite Hd.
Qed.

Lemma verify_step b d (h : H) : verify_oci b d = Ok tt → verify b d h = (Ok tt, h).
Proof. unfold verify, lift_result. by intros ->. Qed.

Lemma get_manifest_served accept failed registry repository reference token resp b (h : H) :
  served (MkRequest (manifest_url puller registry repository reference) accept (bearer token)) resp b →
  is_success resp = true →
  get_manifest_bytes puller accept failed registry repository reference token h = (Ok (resp, b), h).
Proof.
  intros [Hh Hb]%(http_served _ _ _ h) Hs. unfold get_manifest_bytes.
  rewrite (bind_ok _ _ _ _ _ Hh), Hs. by rewrite (bind_ok _ _ _ _ _ Hb).
Qed.

Lemma fetch_manifest_leads registry repository token plat n reference m (h : H) :
  leads_to registry repository token plat n reference m →
  fetch_manifest_with_platform ARCH puller n registry repository reference token plat h = (Ok m, h).
Proof.
  induction 1 as [n reference resp b m Hsv Hs Hv Hl Hm|n reference resp b l child m Hsv Hs Hv Hl Hp Hc Ht IH];
    cbn [fetch_manifest_with_platform];
    (erewrite bind_ok by by apply get_manifest_served); cbv beta iota;
    (erewrite (bind_ok _ _ _ tt h) by (destruct (contains_char _ _); [by apply verify_step, Hv|done]));
    rewrite Hl.
  - unfold or_else. by rewrite Hm.
  - unfold or_else. rewrite Hp. erewrite bind_ok by reflexivity. fold (target plat).
    destruct (target plat) as [arch os]. simpl in Hc. rewrite Hc. erewrite bind_ok by reflexivity. exact IH.
Qed.

Lemma fetch_blob_served registry repository token resp b (h : H) :
  served (blob_request registry repository (sha256_of b) token) resp b →
  fetch_blob puller registry repository (sha256_of b) token h = (Ok b, h).
Proof.
  intros [Hh Hb]%(http_served _ _ _ h). unfold fetch_blob.
  rewrite (bind_ok _ _ _ _ _ Hh), (bind_ok _ _ _ _ _ Hb).
  by rewrite (bind_ok _ _ _ _ _ (verify_step _ _ _ (verify_sha256 b))).
Qed.

Lemma fetch_config_served registry repository token resp b c (h : H) :
  served (blob_request registry repository (sha256_of b) token) resp b → parse_config b = Some c →
  fetch_config puller registry repository (sha256_of b) token h = (Ok c, h).
Proof.
  intros [Hh Hb]%(http_served _ _ _ h) Hc. unfold fetch_config.
  rewrite (bind_ok _ _ _ _ _ Hh), (bind_ok _ _ _ _ _ Hb).
  rewrite (bind_ok _ _ _ _ _ (verify_step _ _ _ (verify_sha256 b))). unfold or_else. by rewrite Hc.
Qed.

Lemma from_hex_or_sha256 m b (h : H) : from_hex_or m (sha256_of b) h = (Ok (compute b), h).
Proof. unfold from_hex_or, sha256_of. by rewrite from_hex_prefixed. Qed.

Definition pulled_layer (blob : OciDescriptor → bytes) (l : OciDescriptor) : Digest * bytes * string :=
  (compute (blob l), blob l, d_media_type l).

(** A registry that has the image delivers it.  If the reference leads to a
    manifest through fewer than [fuel] indexes, and the configuration and every
    layer are served under their sha256 digests, the pull succeeds and returns
    exactly that manifest, configuration and layers, in order. *)
Lemma pull_complete fuel image_ref explicit plat token m c cb blob (h : H) :
  let registry := registry_for image_ref explicit in
  let '(repository, tag) := image_parts image_ref registry in
  get_token puller registry repository h = (Ok token, h) →
  leads_to registry repository token plat fuel tag m →
  digest (m_config m) = sha256_of cb → parse_config cb = Some c →
  (∃ resp, served (blob_request registry repository (sha256_of cb) token) resp cb) →
  (∀ l, l ∈ layers m → digest l = sha256_of (blob l) ∧
     ∃ resp, served (blob_request registry repository (sha256_of (blob l)) token) resp (blob l)) →
  pull_with_platform ARCH puller fuel image_ref explicit plat h =
    (Ok (MkPulledImage m c (compute cb) (pulled_layer blob <$> layers m)), h).
Proof.
  intros registry. unfold pull_with_platform. fold registry.
  destruct (image_parts image_ref registry) as [repository tag].
  intros Htok Hm Hcd Hc [resp Hr] Hl. rewrite (bind_ok _ _ _ _ _ Htok).
  rewrite (bind_ok _ _ _ _ _ (fetch_manifest_leads _ _ _ _ _ _ _ h Hm)).
  unfold fetch_image. rewrite Hcd.
  rewrite (bind_ok _ _ _ _ _ (fetch_config_served _ _ _ _ _ _ h Hr Hc)).
  rewrite (bind_ok _ _ _ _ _ (from_hex_or_sha256 _ cb h)).
  erewrite (bind_ok _ _ h); [reflexivity|]. apply map_eff_pure.
  intros l [Hd [r Hs]]%Hl. unfold fetch_layer. rewrite Hd.
  rewrite (bind_ok _ _ _ _ _ (fetch_blob_served _ _ _ _ _ h Hs)).
  by rewrite (bind_ok _ _ _ _ _ (from_hex_or_sha256 _ (blob l) h)).
Qed.

End availability.

(** ** References *)

(** An image pinned by digest is not looked up by digest.  Of [name@sha256:hex]
    the part before the colon becomes the repository and the bare hexadecimal
    string the tag, which is then fetched without being verified. *)
Lemma digest_reference_split name hex :
  contains_char name "/"%char = false → contains_char name ":"%char = false →
  contains_char hex "/"%char = false → contains_char hex ":"%char = false →
  image_parts (name +:+ "@sha256:" +:+ hex) "docker.io" = ("library/" +:+ name +:+ "@sha256", hex).
Proof.
  intros Hn1 Hn2 Hh1 Hh2. unfold image_parts.
  assert (Hs : contains_char (name +:+ "@sha256:" +:+ hex) "/"%char = false).
  { rewrite !contains_char_app, Hn1, Hh1. done. }
  rewrite (split_no_sep _ _ Hs). simpl.
  change ("@sha256:" +:+ hex) with ("@sha256" +:+ String ":"%char hex). rewrite str_app_assoc.
  unfold splitn2. rewrite split_once_app by (rewrite contains_char_app, Hn2; done).
  by rewrite contains_char_app, Hn1.
Qed.
