(* ===== verification/Convert.v ===== *)
(** * Image layers to DAG nodes: [runtime/pullrun-oci/src/converter.rs]

    [OciToDagConverter] unpacks each layer of a pulled image into blob, tree and
    layer nodes and puts a manifest node above them.  The tar format, the
    decompressors and serde's JSON texts are parameters. *)

From stdpp Require Import base gmap strings list.
From Stdlib Require Import ZArith Ascii Lia.
From S2P Require Import Prelude Strs Utf8 Crates Node Fs Worklist Store OciTypes Archive Puller.

Definition SMALL_FILE_THRESHOLD : Z := 4096.

(** ** Directory entries *)

(** [SerializedEntry] has the same fields and serves for their JSON text only. *)
Record DirectoryEntry := MkEntry {
  de_name : string;
  de_digest : Digest;
  de_mode : Z;
  de_size : Z;
  de_uid : Z;
  de_gid : Z;
  de_mtime : Z;
  de_is_dir : bool;
  de_is_symlink : bool;
  de_symlink_target : option string;
  de_xattrs : gmap string bytes;
}.

Record ManifestData := MkManifestData {
  md_entrypoint : list string;
  md_cmd : list string;
  md_env : list string;
  md_working_dir : option string;
  md_architecture : string;
  md_os : string;
  md_annotations : option (gmap string string);
  md_subject : option OciDescriptor;
  md_user : option string;
  md_stop_signal : option string;
  md_exposed_ports : option (list string);
  md_volumes : option (list string);
  md_variant : option string;
}.

(** serde_json's [to_vec] and [from_slice]; [json_object] is [to_vec] of an object
    built with [json!]. *)
Class EntryJson := {
  entry_to_vec : DirectoryEntry → bytes;
  entry_from_slice : bytes → option DirectoryEntry;
  json_object : list (string * Value) → bytes;
  manifest_data_to_vec : ManifestData → option bytes;
  manifest_data_from_slice : bytes → option ManifestData;
}.

Definition newline : byte := Byte.x0a.

(** The members that serde requires of a [SerializedEntry]. *)
Definition required_members : list string :=
  ["name"; "digest"; "mode"; "size"; "uid"; "gid"; "mtime"; "is_dir"; "is_symlink"].

(** JSON text is on one line, values come back, and an object that lacks a required
    member is refused. *)
Class EntryJsonLaws `{EntryJson} : Prop := {
  entry_line e : (newline ∉ entry_to_vec e) ∧ entry_to_vec e ≠ [];
  entry_roundtrip e : entry_from_slice (entry_to_vec e) = Some e;
  json_object_line l : newline ∉ json_object l;
  json_object_missing l m :
    m ∈ required_members → m ∉ l.*1 → entry_from_slice (json_object l) = None;
  manifest_data_roundtrip m b :
    manifest_data_to_vec m = Some b → manifest_data_from_slice b = Some m;
}.

(** [data.split(|b| *b == sep)]. *)
Fixpoint split_bytes (sep : byte) (l : bytes) : list bytes :=
  match l with
  | [] => [[]]
  | b :: l =>
    if decide (b = sep) then [] :: split_bytes sep l
    else match split_bytes sep l with
         | [] => [[b]]
         | x :: xs => (b :: x) :: xs
         end
  end.

(** ** The tar crate, for layers *)

Inductive EntryType :=
| TDirectory
| TSymlink
| THardLink
| TOther.

#[export] Instance entry_type_eq_dec : EqDecision EntryType.
Proof. solve_decision. Defined.

(** A member of a layer.  A header field is [None] when it cannot be read; the path
    and the link are the texts [to_string_lossy] gives. *)
Record LayerItem := MkLayerItem {
  li_path : option string;
  li_type : EntryType;
  li_mode : option Z;
  li_size : option Z;
  li_uid : option Z;
  li_gid : option Z;
  li_mtime : option Z;
  li_link : option (option string);
  li_pax : list (option (bytes * bytes));
  li_data : option bytes;
}.

Class LayerTar := layer_entries : bytes → option (list (option LayerItem)).
Class ZstdDecoder := zstd_decode : bytes → option bytes.

Abbreviation oci_store_eff := (eff World OciError.t).

Inductive WhiteoutEntry :=
| WDelete (p : string)
| WOpaqueDir (p : string).

Record RawEntry := MkRaw {
  r_path : string;
  r_parent : string;
  r_name : string;
  r_mode : Z;
  r_size : Z;
  r_uid : Z;
  r_gid : Z;
  r_mtime : Z;
  r_is_dir : bool;
  r_is_symlink : bool;
  r_symlink_target : option string;
  r_is_hardlink : bool;
  r_hardlink_target : option string;
  r_blob_digest : Digest;
  r_xattrs : gmap string bytes;
}.

Definition with_blob_digest (d : Digest) (r : RawEntry) : RawEntry :=
  MkRaw (r_path r) (r_parent r) (r_name r) (r_mode r) (r_size r) (r_uid r) (r_gid r) (r_mtime r)
    (r_is_dir r) (r_is_symlink r) (r_symlink_target r) (r_is_hardlink r) (r_hardlink_target r) d
    (r_xattrs r).

Definition split_path (p : string) : string * string :=
  let p := trim_end_matches p "/"%char in
  match rsplit_once p "/"%char with
  | Some (parent, name) => (parent, name)
  | None => (EmptyString, p)
  end.

(** [Digest([0u8; 32])]. *)
Definition zero_digest : Digest := MkDigest (exist _ (replicate 32 Byte.x00) I).

Section convert.
Context `{Hex, Sha2, Rkyv DagNode, EntryJson, LayerTar, GzDecoder, ZstdDecoder}.

Definition oci_store {A} (m : store_eff A) : oci_store_eff A := map_err_eff OciError.StoreE m.

Definition io {A} (o : option A) : oci_store_eff A := lift_result (ok_or o OciError.Io).

Definition to_inline_bytes (e : DirectoryEntry) : bytes := entry_to_vec e ++ [newline].

Definition from_inline_bytes (data : bytes) : list DirectoryEntry :=
  omap (λ line, if decide (line = []) then None else entry_from_slice line) (split_bytes newline data).

(** ** Reading a layer *)

Definition decompress_layer (blob : bytes) (media_type : string) : result OciError.t bytes :=
  if contains media_type "+zstd" || contains media_type ".tar.zstd" then
    ok_or (zstd_decode blob) (OciError.Other ZstdError)
  else if contains media_type "+gzip" || contains media_type ".tar.gzip" then
    ok_or (gz_decode blob) (OciError.Other GzipError)
  else Ok blob.

(** [SCHILY.xattr.<name>] extensions. *)
Definition pax_xattr (ext : option (bytes * bytes)) : option (string * bytes) :=
  '(key, val) ← ext;
  name ← strip_prefix "SCHILY.xattr." (str_of_bytes key);
  name ← from_utf8 (as_bytes name);
  Some (name, val).

Definition pax_xattrs (l : list (option (bytes * bytes))) : gmap string bytes :=
  foldl (λ m ext, match pax_xattr ext with
                  | Some (k, v) => <[k := v]> m
                  | None => m
                  end) ∅ l.

Definition whiteout_of (parent name : string) : WhiteoutEntry :=
  if decide (name = ".wh..wh..opq") then
    WOpaqueDir (if decide (parent = EmptyString) then "/" else parent)
  else
    let deleted_name := default name (strip_prefix ".wh." name) in
    WDelete (if decide (parent = EmptyString) then deleted_name else parent +:+ "/" +:+ deleted_name).

(** The loop's variables. *)
Record Extracted := MkExtracted {
  ex_raw : list RawEntry;
  ex_digests : gmap string Digest;
  ex_whiteouts : list WhiteoutEntry;
}.

(** The data of a file as a blob node, and as a blob file when it is large. *)
Definition store_file (size : Z) (data : bytes) : oci_store_eff Digest :=
  blob_digest ← oci_store (put (DagNode.blob data));
  (if decide (size > SMALL_FILE_THRESHOLD)%Z then oci_store (put_blob blob_digest data) else mret tt) ;;
  mret blob_digest.

Definition skipped_path (p : string) : bool :=
  bool_decide (p = ".") || bool_decide (p = EmptyString) || contains p "..".

(** An entry of the archive in the first pass. *)
Definition extract_item (x : Extracted) (i : option LayerItem) : oci_store_eff Extracted :=
  item ← io i;
  path_str ← io (li_path item);
  if skipped_path path_str then mret x
  else
    let is_dir := bool_decide (li_type item = TDirectory) in
    let is_symlink := bool_decide (li_type item = TSymlink) in
    let is_hardlink := bool_decide (li_type item = THardLink) in
    mode ← io (li_mode item);
    size ← io (li_size item);
    uid ← io (li_uid item);
    gid ← io (li_gid item);
    mtime ← io (li_mtime item);
    symlink_target ← (if is_symlink then io (li_link item) else mret None);
    hardlink_target ← (if is_hardlink then io (li_link item) else mret None);
    let '(parent, name) := split_path path_str in
    if negb is_dir && starts_with name ".wh." then
      mret (MkExtracted (ex_raw x) (ex_digests x) (ex_whiteouts x ++ [whiteout_of parent name]))
    else
      '(blob_digest, digests) ←
        (if is_dir || is_symlink then mret (zero_digest, ex_digests x)
         else
           file_data ← io (li_data item);
           d ← store_file size file_data;
           mret (d, <[path_str := d]> (ex_digests x)));
      let raw := MkRaw path_str parent name mode size (wrap32 uid) (wrap32 gid) (as_i64 mtime)
                   is_dir is_symlink symlink_target is_hardlink hardlink_target blob_digest
                   (pax_xattrs (li_pax item)) in
      mret (MkExtracted (ex_raw x ++ [raw]) digests (ex_whiteouts x)).

(** The second pass: hard links to entries whose digest is known. *)
Fixpoint resolve_hardlinks (idx : nat) (raws : list RawEntry) (digests : gmap string Digest)
    : list RawEntry * gmap string Digest * list nat :=
  match raws with
  | [] => ([], digests, [])
  | r :: raws =>
    if r_is_hardlink r then
      match r_hardlink_target r with
      | Some target =>
        match digests !! target with
        | Some d =>
          let '(rs, m, deferred) := resolve_hardlinks (S idx) raws (<[r_path r := d]> digests) in
          (with_blob_digest d r :: rs, m, deferred)
        | None =>
          let '(rs, m, deferred) := resolve_hardlinks (S idx) raws digests in
          (r :: rs, m, idx :: deferred)
        end
      | None =>
        let '(rs, m, deferred) := resolve_hardlinks (S idx) raws digests in (r :: rs, m, deferred)
      end
    else
      let '(rs, m, deferred) := resolve_hardlinks (S idx) raws digests in (r :: rs, m, deferred)
  end.

(** One round of the third pass over the deferred links. *)
Fixpoint retry_round (digests : gmap string Digest) (deferred : list nat) (raws : list RawEntry)
    : list RawEntry * list nat :=
  match deferred with
  | [] => (raws, [])
  | idx :: deferred =>
    match raws !! idx ≫= r_hardlink_target with
    | Some target =>
      match digests !! target with
      | Some d => retry_round digests deferred (alter (with_blob_digest d) idx raws)
      | None => let '(rs, still) := retry_round digests deferred raws in (rs, idx :: still)
      end
    | None => retry_round digests deferred raws
    end
  end.

Fixpoint retry_hardlinks (retries : nat) (digests : gmap string Digest) (deferred : list nat)
    (raws : list RawEntry) : list RawEntry :=
  match retries with
  | O => raws
  | S retries =>
    if decide (deferred = []) then raws
    else
      let '(raws, deferred) := retry_round digests deferred raws in
      retry_hardlinks retries digests deferred raws
  end.

Definition index_push (k : string) (i : nat) (m : gmap string (list nat)) : gmap string (list nat) :=
  <[k := default [] (m !! k) ++ [i]]> m.
(** [m.entry(k).or_default()]. *)
Definition index_default (k : string) (m : gmap string (list nat)) : gmap string (list nat) :=
  <[k := default [] (m !! k)]> m.

Definition final_entry (r : RawEntry) (d : Digest) : DirectoryEntry :=
  MkEntry (r_name r) d (r_mode r) (r_size r) (r_uid r) (r_gid r) (r_mtime r) (r_is_dir r)
    (r_is_symlink r) (r_symlink_target r) (r_xattrs r).

Definition index_entry (idx : nat) (r : RawEntry) (dir_index : gmap string (list nat))
    : gmap string (list nat) :=
  let m := index_push (r_parent r) idx dir_index in
  if r_is_dir r then
    let full_dir_path := if ends_with (r_path r) "/" then r_path r else r_path r +:+ "/" in
    index_default full_dir_path (index_default (r_path r) m)
  else m.

(** Entries whose digest is still zero get the empty blob. *)
Definition build_entry (acc : list DirectoryEntry * gmap string (list nat)) (r : RawEntry)
    : oci_store_eff (list DirectoryEntry * gmap string (list nat)) :=
  let '(entries, dir_index) := acc in
  blob_digest ← (if decide (r_blob_digest r = zero_digest) then oci_store (put (DagNode.blob []))
                 else mret (r_blob_digest r));
  mret (entries ++ [final_entry r blob_digest], index_entry (length entries) r dir_index).

Definition resolve_links (x : Extracted) : list RawEntry :=
  let '(raws, digests, deferred) := resolve_hardlinks 0 (ex_raw x) (ex_digests x) in
  retry_hardlinks (length deferred) digests deferred raws.

Definition extract_tar_entries_sync (blob : bytes)
    : oci_store_eff (list DirectoryEntry * gmap string (list nat) * list WhiteoutEntry) :=
  items ← io (layer_entries blob);
  x ← fold_eff extract_item (MkExtracted [] ∅ []) items;
  '(entries, dir_index) ← fold_eff build_entry ([], ∅) (resolve_links x);
  mret (entries, dir_index, ex_whiteouts x).

(** ** Writing the nodes *)

Definition whiteout_node (w : WhiteoutEntry) : DagNode :=
  match w with
  | WDelete p => DagNode.whiteout (as_bytes p)
  | WOpaqueDir p => DagNode.opaque_dir (as_bytes p)
  end.

Definition sub_path (current name : string) : string :=
  if decide (current = EmptyString) then name else current +:+ "/" +:+ name.

Definition layer_inline (l : list DirectoryEntry) : bytes := concat (to_inline_bytes <$> l).

(** The recursion has no bound in the source; [fuel] is the depth. *)
Fixpoint store_trees (fuel : nat) (dir_index : gmap string (list nat)) (entries : list DirectoryEntry)
    (current_path : string) : oci_store_eff Digest :=
  match fuel with
  | O => throw OciError.OutOfFuel
  | S fuel =>
    let child_entries := omap (entries !!.) (default [] (dir_index !! current_path)) in
    child_digests ← map_eff (λ e,
      if de_is_dir e then store_trees fuel dir_index entries (sub_path current_path (de_name e))
      else mret (de_digest e)) child_entries;
    tree_digest ← oci_store (put (DagNode.tree child_digests (layer_inline child_entries)));
    oci_store (put (DagNode.layer [tree_digest] (as_bytes current_path)))
  end.

Definition convert_layer (fuel : nat) (blob : bytes) (media_type : string) : oci_store_eff Digest :=
  decompressed ← lift_result (decompress_layer blob media_type);
  '(entries, dir_index, whiteouts) ← extract_tar_entries_sync decompressed;
  whiteout_digests ← map_eff (λ w, oci_store (put (whiteout_node w))) whiteouts;
  layer_digest ← store_trees fuel dir_index entries EmptyString;
  if decide (whiteout_digests = []) then mret layer_digest
  else
    layer_node ← oci_store (get_deserialized layer_digest);
    oci_store (put (MkDagNode (kind layer_node) (edges layer_node ++ whiteout_digests)
                      (inline_data layer_node))).

Definition config_field {A} (config : OciImageConfig) (f : OciRuntimeConfig → option A) : option A :=
  c ← runtime_config config; f c.

Definition manifest_data (config : OciImageConfig) (annotations : option (gmap string string))
    (subject : option OciDescriptor) : ManifestData :=
  MkManifestData (default [] (config_field config entrypoint)) (default [] (config_field config cmd)) (default [] (config_field config env))
    (config_field config working_dir) (architecture config) (os_name config) annotations subject
    (config_field config user) (config_field config stop_signal)
    ((λ m, (map_to_list m).*1) <$> config_field config exposed_ports) ((λ m, (map_to_list m).*1) <$> config_field config volumes)
    (variant config).

Definition create_manifest_node (config : OciImageConfig) (layer_digests : list Digest)
    (annotations : option (gmap string string)) (subject : option OciDescriptor) : oci_store_eff Digest :=
  let inline := default [] (manifest_data_to_vec (manifest_data config annotations subject)) in
  oci_store (put (DagNode.manifest layer_digests inline)).

Definition convert (fuel : nat) (image : PulledImage) : oci_store_eff Digest :=
  layer_digests ← map_eff (λ '(_, blob, media_type), convert_layer fuel blob media_type) (layer_blobs image);
  create_manifest_node (config image) layer_digests (m_annotations (manifest image)) (subject (manifest image)).

Definition convert_list (fuel : nat) (l : PulledImageList) : oci_store_eff Digest :=
  manifest_digests ← map_eff (convert fuel) (images l);
  oci_store (put (DagNode.manifest_list manifest_digests (list_bytes l))).

End convert.
