(* ===== verification/Materialize.v ===== *)
(** * DAG nodes to a root file system: [runtime/pullrun-oci/src/materializer.rs]

    [OciMaterializer] unpacks the layers below a manifest node into a directory and
    writes the runtime's configuration.  The store it reads and the directory it
    writes are two parts of the state: the target lies outside the store. *)

From stdpp Require Import base gmap strings list.
From Stdlib Require Import ZArith Ascii Lia.
From S2P Require Import Prelude Strs Utf8 Crates Node Fs Worklist Store OciTypes.
From S2P Require Import Puller HostFs Convert.

Record MatWorld := MkMat { mw_store : World; mw_host : HostFs }.

Abbreviation mat_eff := (eff MatWorld OciError.t).

(** The runtime configuration that is written as JSON; the constant members (the
    version, the namespaces, the mount options) are part of the text. *)
Record OciSpec := MkOciSpec {
  sp_uid : Z;
  sp_gid : Z;
  sp_args : list string;
  sp_env : list string;
  sp_cwd : string;
  sp_root : path;
  sp_annotations : gmap string string;
  sp_mounts : list string;
}.

Class SpecJson := oci_spec_to_string : OciSpec → bytes.

Record MaterializedBundle := MkBundle {
  rootfs_path : path;
  config_path : path;
  b_entrypoint : list string;
  b_cmd : list string;
  b_env : list string;
  b_working_dir : option string;
}.

Definition on_mat_store {E A} (m : eff World E A) : eff MatWorld E A := λ w,
  let '(r, s) := m (mw_store w) in (r, MkMat s (mw_host w)).

Definition on_host {A} (m : host_eff A) : mat_eff A := λ w,
  let '(r, fs) := m (mw_host w) in (map_err (λ _, OciError.Io) r, MkMat (mw_store w) fs).

(** ** Attributes *)

Definition entry_mode (e : DirectoryEntry) : Z :=
  if de_is_dir e then if decide (de_mode e = 0)%Z then 493 else de_mode e
  else if de_is_symlink e then 511
  else if decide (de_mode e = 0)%Z then 420 else de_mode e.

Definition set_owner (p : path) (uid gid : Z) : host_eff unit :=
  fs ← get_world;
  match (resolve true p fs).1 with
  | Ok q =>
    match fs !! q with
    | Some i =>
      if bool_decide (fuid (imeta i) ≠ uid) || bool_decide (fgid (imeta i) ≠ gid)
      then ignore_eff (chown p uid gid) else mret tt
    | None => mret tt
    end
  | Err _ => mret tt
  end.

Definition set_mtime (p : path) (mtime : Z) : host_eff unit :=
  if decide (mtime < 0)%Z then mret tt else ignore_eff (set_file_mtime p mtime).

Definition apply_unix_attributes (p : path) (e : DirectoryEntry) : host_eff unit :=
  ignore_eff (chmod p (entry_mode e)) ;;
  set_owner p (de_uid e) (de_gid e) ;;
  set_mtime p (de_mtime e) ;;
  for_each (λ '(name, value), ignore_eff (setxattr p name value)) (map_to_list (de_xattrs e)).

(** ** The user of the configuration *)

Definition parse_user_string (user : option string) : Z * Z :=
  match user with
  | None => (0, 0)
  | Some user_str =>
    let user_str := trim user_str in
    if decide (user_str = EmptyString) then (0, 0)
    else
      match split_once user_str ":"%char with
      | Some (uid_str, gid_str) => (default 0 (parse_u32 uid_str), default 0 (parse_u32 gid_str))
      | None => match parse_u32 user_str with
                | Some uid => (uid, 0)
                | None => (0, 0)
                end
      end
  end%Z.

(** [annotations.entry(k).or_insert_with(v)]. *)
Definition or_insert (k v : string) (m : gmap string string) : gmap string string :=
  <[k := default v (m !! k)]> m.

Definition spec_annotations (d : ManifestData) : gmap string string :=
  let m := default ∅ (md_annotations d) in
  let m := or_insert "org.opencontainers.image.os" (md_os d) m in
  let m := or_insert "org.opencontainers.image.architecture" (md_architecture d) m in
  let m := match md_variant d with
           | Some v => or_insert "org.opencontainers.image.variant" v m
           | None => m
           end in
  let m := match md_stop_signal d with
           | Some s => or_insert "org.opencontainers.image.stopSignal" s m
           | None => m
           end in
  match md_exposed_ports d with
  | Some (p :: ps) => or_insert "org.opencontainers.image.exposedPorts" (join "," (p :: ps)) m
  | _ => m
  end.

Definition oci_spec (d : ManifestData) (rootfs : path) : OciSpec :=
  let '(uid, gid) := parse_user_string (md_user d) in
  MkOciSpec uid gid
    (match md_entrypoint d with [] => md_cmd d | _ => md_entrypoint d ++ md_cmd d end)
    (md_env d) (default "/" (md_working_dir d)) rootfs (spec_annotations d) (default [] (md_volumes d)).

Section materialize.
Context `{Hex, Sha2, Rkyv DagNode, EntryJson, SpecJson}.

Definition archived_or (f : Digest → StoreError → other_message) (d : Digest) : mat_eff DagNode :=
  map_err_eff (λ e, OciError.Other (f d e)) (on_mat_store (get_archived d)).

(** ** Trees *)

(** A file of the image: its blob file, or the data of its blob node. *)
Definition write_file_entry (full_path : path) (d : Digest) : mat_eff unit :=
  on_host (create_dir_all (parent full_path)) ;;
  w ← get_world;
  if blob_exists (mw_store w) d then
    data ← map_err_eff (λ _, OciError.Io)
             (on_mat_store (on_os (read_file (path_for_blob (root (store (mw_store w))) d))));
    on_host (write_host full_path data)
  else
    r ← try_eff (on_mat_store (get_archived d));
    match r with
    | Ok blob_node => on_host (write_host full_path (inline_data blob_node))
    | Err _ => mret tt
    end.

Definition materialize_entry (rootfs : path) (base_path : string) (e : DirectoryEntry) : mat_eff unit :=
  let full_path := path_join rootfs (sub_path base_path (de_name e)) in
  (if de_is_dir e then on_host (create_dir_all full_path)
   else if de_is_symlink e then
     match de_symlink_target e with
     | Some target =>
       on_host (ignore_eff (unlink full_path)) ;;
       on_host (ignore_eff (symlink target full_path))
     | None => mret tt
     end
   else write_file_entry full_path (de_digest e)) ;;
  on_host (apply_unix_attributes full_path e).

(** The recursion follows edges of a DAG; [fuel] is its depth. *)
Fixpoint materialize_tree (fuel : nat) (d : Digest) (rootfs : path) (base_path : string) : mat_eff unit :=
  match fuel with
  | O => throw OciError.OutOfFuel
  | S fuel =>
    tree_node ← archived_or CorruptTree d;
    if DagNode.is_layer tree_node then
      let layer_path := from_utf8_lossy (inline_data tree_node) in
      for_each (λ child, materialize_tree fuel child rootfs layer_path) (edges tree_node)
    else if negb (DagNode.is_tree tree_node) then mret tt
    else
      for_each (materialize_entry rootfs base_path) (from_inline_bytes (inline_data tree_node)) ;;
      for_each (λ child,
        r ← try_eff (on_mat_store (get child));
        match r with
        | Ok _ => materialize_tree fuel child rootfs base_path
        | Err _ => mret tt
        end) (edges tree_node)
  end.

(** ** Layers *)

Definition whiteout_target (rootfs : path) (layer_path target : string) : path :=
  if decide (layer_path = EmptyString) then path_join rootfs target
  else path_join (path_join rootfs layer_path) target.

(** An opaque directory: everything in it goes. *)
Definition clear_dir (dir : path) : host_eff unit :=
  fs ← get_world;
  if is_dir dir fs then
    entries ← read_dir dir;
    for_each (λ p,
      fs ← get_world;
      if is_dir p fs then remove_dir_all p else unlink p) entries
  else mret tt.

Definition apply_whiteout (rootfs : path) (layer_path : string) (wd : Digest * bool) : mat_eff unit :=
  let '(d, is_opaque) := wd in
  whiteout_node ← archived_or CorruptWhiteout d;
  let target := whiteout_target rootfs layer_path (from_utf8_lossy (inline_data whiteout_node)) in
  if is_opaque : bool then on_host (clear_dir target)
  else
    on_host (ignore_eff (unlink target)) ;;
    on_host (ignore_eff (rmdir target)).

(** Tree edges, and whiteout edges with whether they are opaque. *)
Definition classify_edge (acc : list Digest * list (Digest * bool)) (d : Digest)
    : mat_eff (list Digest * list (Digest * bool)) :=
  let '(trees, whiteouts) := acc in
  r ← try_eff (on_mat_store (get_archived d));
  mret match r with
       | Ok child =>
         if DagNode.is_whiteout child || DagNode.is_opaque_dir child
         then (trees, whiteouts ++ [(d, DagNode.is_opaque_dir child)])
         else (trees ++ [d], whiteouts)
       | Err _ => (trees ++ [d], whiteouts)
       end.

Definition materialize_layer (fuel : nat) (d : Digest) (rootfs : path) : mat_eff unit :=
  layer_node ← archived_or CorruptLayer d;
  if negb (DagNode.is_layer layer_node) then mret tt
  else
    let layer_path := from_utf8_lossy (inline_data layer_node) in
    '(tree_edges, whiteout_edges) ← fold_eff classify_edge ([], []) (edges layer_node);
    for_each (apply_whiteout rootfs layer_path) whiteout_edges ;;
    for_each (λ child, materialize_tree fuel child rootfs layer_path) tree_edges.

(** ** Manifests *)

Definition materialize_manifest (d : Digest) : mat_eff ManifestData :=
  manifest_node ← archived_or CorruptManifest d;
  if DagNode.is_manifest manifest_node then
    lift_result (ok_or (manifest_data_from_slice (inline_data manifest_node))
                   (OciError.InvalidManifest ManifestDataParse))
  else throw (OciError.InvalidManifest (NotAManifest d)).

Definition materialize_into (fuel : nat) (d : Digest) (target_dir : path) : mat_eff unit :=
  on_host (create_dir_all target_dir) ;;
  manifest_node ← archived_or CorruptManifest d;
  for_each (λ layer, materialize_layer fuel layer target_dir) (edges manifest_node).

Definition write_oci_config (config_path : path) (d : ManifestData) (rootfs : path) : mat_eff unit :=
  on_host (write_host config_path (oci_spec_to_string (oci_spec d rootfs))).

Definition materialize_bundle (fuel : nat) (d : Digest) (output_dir : path) : mat_eff MaterializedBundle :=
  let rootfs := output_dir ++ ["rootfs"] in
  on_host (create_dir_all rootfs) ;;
  data ← materialize_manifest d;
  manifest_node ← archived_or CorruptManifest d;
  for_each (λ layer, materialize_layer fuel layer rootfs) (edges manifest_node) ;;
  let config := output_dir ++ ["config.json"] in
  write_oci_config config data rootfs ;;
  mret (MkBundle rootfs config (md_entrypoint data) (md_cmd data) (md_env data) (md_working_dir data)).

End materialize.
