(* ===== verification/ConvertSpec.v ===== *)
(** * What the conversion of a layer stores

    The nodes of a converted layer are those of a tree of directory entries.  A
    readable layer is a list of members; its raw entries, whiteouts, index and
    entries are functions of that list, and converting it stores exactly the nodes
    of the tree they form. *)

From stdpp Require Import base gmap strings list relations.
From Stdlib Require Import ZArith Ascii Lia.
From S2P Require Import GcFacts RefcountFacts Prelude Strs Utf8 Crates Node Fs Worklist Store StoreFacts.
From S2P Require Import OciTypes Puller Archive Convert.

(** The entries of a directory in order, each directory with its own. *)
Inductive ltree :=
| LNil
| LFile (e : DirectoryEntry) (rest : ltree)
| LDir (e : DirectoryEntry) (sub rest : ltree).

Fixpoint entries_of (t : ltree) : list DirectoryEntry :=
  match t with
  | LNil => []
  | LFile e r | LDir e _ r => e :: entries_of r
  end.

Section facts.
Context `{Hex, Sha2, Rkyv DagNode, EntryJson, !HexLaws, !RkyvLaws DagNode, !EntryJsonLaws}.

(** ** Nodes and digests of a tree *)

Definition dig (n : DagNode) : Digest := compute (default [] (rkyv_to_bytes n)).

Definition layer_node (base : string) (tree : Digest) : DagNode := DagNode.layer [tree] (as_bytes base).

Fixpoint child_digests (t : ltree) (base : string) : list Digest :=
  match t with
  | LNil => []
  | LFile e r => de_digest e :: child_digests r base
  | LDir e s r =>
    let b := sub_path base (de_name e) in
    dig (layer_node b (dig (DagNode.tree (child_digests s b) (layer_inline (entries_of s)))))
      :: child_digests r base
  end.

Definition tree_node (t : ltree) (base : string) : DagNode :=
  DagNode.tree (child_digests t base) (layer_inline (entries_of t)).

Definition layer_digest (t : ltree) (base : string) : Digest :=
  dig (layer_node base (dig (tree_node t base))).

Fixpoint sub_nodes (t : ltree) (base : string) : list DagNode :=
  match t with
  | LNil => []
  | LFile _ r => sub_nodes r base
  | LDir e s r =>
    let b := sub_path base (de_name e) in
    sub_nodes s b ++ [tree_node s b; layer_node b (dig (tree_node s b))] ++ sub_nodes r base
  end.

Definition tree_nodes (t : ltree) (base : string) : list DagNode :=
  sub_nodes t base ++ [tree_node t base; layer_node base (dig (tree_node t base))].

Lemma sub_nodes_dir e s r base :
  sub_nodes (LDir e s r) base = tree_nodes s (sub_path base (de_name e)) ++ sub_nodes r base.
Proof. unfold tree_nodes. by rewrite <- app_assoc. Qed.

Lemma tree_nodes_not_blob t base data : DagNode.blob data ∉ tree_nodes t base.
Proof.
  assert (Hs : DagNode.blob data ∉ sub_nodes t base).
  { revert base. induction t as [|e r IH|e s IHs r IHr]; intros base; simpl; [by intros ?%elem_of_nil|done|].
    rewrite elem_of_app, !elem_of_cons. intros [?|[?|[?|?]]]; try done; [by eapply IHs|by eapply IHr]. }
  unfold tree_nodes. rewrite elem_of_app, !elem_of_cons. intros [?|[?|[?|?%elem_of_nil]]]; done.
Qed.

(** ** Storing without collisions *)

(** [N] can be stored in [w]: each node serializes, no two of them share a digest,
    and no other contents are stored under their digests, as nodes or as blobs. *)
Record storable (N : DagNode → Prop) (w : World) : Prop := {
  st_inv : store_inv w;
  st_healthy : healthy w;
  st_serial n : N n → is_Some (rkyv_to_bytes n);
  st_free n b : N n → rkyv_to_bytes n = Some b →
    node_file w (compute b) = None ∨ node_file w (compute b) = Some b;
  st_blob data : N (DagNode.blob data) →
    blob_file w (dig (DagNode.blob data)) = None ∨ blob_file w (dig (DagNode.blob data)) = Some data;
  st_inj n m : N n → N m → dig n = dig m → rkyv_to_bytes n = rkyv_to_bytes m;
}.

Definition holds (w : World) (n : DagNode) : Prop := node_at w (dig n) = Some n.

(** Nothing stored changes. *)
Definition grows (w w' : World) : Prop :=
  (∀ d b, node_file w d = Some b → node_file w' d = Some b) ∧
  (∀ d b, blob_file w d = Some b → blob_file w' d = Some b).

Lemma grows_refl w : grows w w.
Proof. by split. Qed.

Lemma grows_trans w1 w2 w3 : grows w1 w2 → grows w2 w3 → grows w1 w3.
Proof. intros [G1 B1] [G2 B2]. split; auto. Qed.

Lemma grows_holds w w' n : grows w w' → holds w n → holds w' n.
Proof.
  intros [Hg _]. unfold holds, node_at. destruct (node_file w (dig n)) as [b|] eqn:E; [|done].
  by rewrite (Hg _ _ E).
Qed.

Lemma put_storable N n w :
  storable N w → N n →
  ∃ w', put n w = (Ok (dig n), w') ∧ holds w' n ∧ grows w w' ∧ storable N w'.
Proof.
  intros [Hi Hh Hs Hf Hbl Hj] Hn. destruct (Hs n Hn) as [b Hb].
  assert (Hd : dig n = compute b) by (unfold dig; by rewrite Hb).
  assert (Hold : ∀ w', node_file w' (compute b) = Some b → holds w' n).
  { intros w' E. unfold holds, node_at. rewrite Hd, E. simpl. by apply check_to_bytes. }
  destruct (put n w) as [r w'] eqn:Ep. assert (Hi' : store_inv w') by (by eapply put_inv).
  unfold put in Ep. rewrite Hb in Ep. unfold mbind, eff_bind, get_world in Ep.
  rewrite node_exists_spec in Ep. destruct (Hf n b Hn Hb) as [E|E]; rewrite E in Ep.
  - rewrite bool_decide_false in Ep by (by intros []).
    destruct (write_node_spec (compute b) b w Hh) as (w1 & E1 & Hs1 & Hi1 & Hn1 & Hb1 & _).
    rewrite E1 in Ep. destruct (for_each _ _ w1) as [r2 w2] eqn:E2. pose proof E2 as E2'.
    apply increments_frame in E2 as (-> & Hs2 & Hio & Hn2 & Hb2). unfold mret, eff_ret in Ep. simplify_eq.
    assert (Hfile : ∀ d, node_file w' d = if decide (d = compute b) then Some b else node_file w d).
    { intros d. by rewrite Hn2, Hn1. }
    exists w'. split_and!; [by rewrite Hd| | |].
    + apply Hold. by rewrite Hfile, decide_True.
    + split; [|intros d c; by rewrite Hb2, Hb1].
      intros d c Hc. rewrite Hfile. case_decide; [subst; congruence|done].
    + constructor; [done| |done| | |done].
      * unfold healthy in *. congruence.
      * intros m c Hm Hc. rewrite Hfile. case_decide as Hmd; [|by eapply Hf].
        right. assert (dig m = dig n) as Hdm by (unfold dig; rewrite Hb, Hc; done).
        apply Hj in Hdm; [congruence|done..].
      * intros data. rewrite Hb2, Hb1. apply Hbl.
  - rewrite bool_decide_true in Ep by done. unfold mret, eff_ret in Ep. simplify_eq.
    exists w'. split_and!; [by rewrite Hd|auto|apply grows_refl|done].
Qed.

(** Storing the data of a file. *)
Definition file_at (w : World) (d : Digest) (data : bytes) : Prop :=
  node_at w d = Some (DagNode.blob data) ∧ (blob_file w d = None ∨ blob_file w d = Some data).

Lemma put_blob_storable N data w :
  storable N w → N (DagNode.blob data) →
  ∃ w', put_blob (dig (DagNode.blob data)) data w = (Ok tt, w') ∧ grows w w' ∧ storable N w'.
Proof.
  intros Hs Hn. destruct (st_blob _ _ Hs data Hn) as [E|E].
  - destruct (put_blob_new (dig (DagNode.blob data)) data w (st_healthy _ _ Hs) E)
      as (w' & Ep & Hst & Hio & Hnf & _ & Hbf).
    exists w'. split; [done|]. destruct Hs as [Hi Hh Hse Hf Hbl Hj]. split.
    + split; [intros d b; by rewrite Hnf|]. intros d b Hb. rewrite Hbf. case_decide; [subst; congruence|done].
    + constructor; [by eapply put_blob_inv| |done| | |done].
      * unfold healthy in *. congruence.
      * intros m b. rewrite Hnf. apply Hf.
      * intros data' Hd'. rewrite Hbf. case_decide as He; [|by apply Hbl]. right.
        apply Hj in He; [|done..]. destruct (Hse _ Hn) as [b Eb].
        assert (Some (DagNode.blob data') = Some (DagNode.blob data)) as [=]; [|by subst].
        rewrite <- (check_to_bytes (DagNode.blob data) b Eb). symmetry. apply check_to_bytes. congruence.
  - exists w. rewrite put_blob_known by (by eexists). split_and!; [done|apply grows_refl|done].
Qed.

Lemma oci_store_ok {A} (m : store_eff A) w x w' :
  m w = (Ok x, w') → oci_store m w = (Ok x, w').
Proof. intros E. unfold oci_store, map_err_eff. by rewrite E. Qed.

Lemma put_oci N n w :
  storable N w → N n →
  ∃ w', oci_store (put n) w = (Ok (dig n), w') ∧ holds w' n ∧ grows w w' ∧ storable N w'.
Proof.
  intros Hs Hn. destruct (put_storable N n w Hs Hn) as (w' & E & ?). exists w'. by rewrite (oci_store_ok _ _ _ _ E).
Qed.

Lemma store_file_storable N size data w :
  storable N w → N (DagNode.blob data) →
  ∃ w', store_file size data w = (Ok (dig (DagNode.blob data)), w') ∧ holds w' (DagNode.blob data) ∧
    grows w w' ∧ storable N w'.
Proof.
  intros Hs Hn. destruct (put_oci N _ w Hs Hn) as (w1 & E1 & P1 & G1 & S1).
  destruct (put_blob_storable N data w1 S1 Hn) as (w2 & E2 & G2 & S2).
  unfold store_file. setoid_rewrite (bind_ok _ _ _ _ _ E1). case_decide.
  - exists w2. erewrite bind_ok by (by apply oci_store_ok). split_and!; eauto using grows_trans, grows_holds.
  - exists w1. by erewrite bind_ok by done.
Qed.

Lemma holds_file N w data :
  storable N w → N (DagNode.blob data) → holds w (DagNode.blob data) →
  file_at w (dig (DagNode.blob data)) data.
Proof. intros Hs Hn Hh. split; [done|]. by apply (st_blob _ _ Hs). Qed.

(** ** The tree of an index *)

(** The directories [f] gives for the sub-directories of a list of entries. *)
Fixpoint build_list (f : string → option ltree) (p : string) (l : list DirectoryEntry) : option ltree :=
  match l with
  | [] => Some LNil
  | e :: l =>
    if de_is_dir e then
      s ← f (sub_path p (de_name e));
      LDir e s <$> build_list f p l
    else LFile e <$> build_list f p l
  end.

Definition child_entries (dir_index : gmap string (list nat)) (entries : list DirectoryEntry) (p : string) :=
  omap (entries !!.) (default [] (dir_index !! p)).

Fixpoint build_tree (fuel : nat) (dir_index : gmap string (list nat)) (entries : list DirectoryEntry)
    (p : string) : option ltree :=
  match fuel with
  | O => None
  | S fuel => build_list (build_tree fuel dir_index entries) p (child_entries dir_index entries p)
  end.

Lemma build_list_entries f p l t : build_list f p l = Some t → entries_of t = l.
Proof.
  revert t. induction l as [|e l IH]; intros t; simpl; [by intros [= <-]|].
  destruct (de_is_dir e); [destruct (f _); simpl; [|done]|];
    destruct (build_list f p l) as [r|]; simpl; intros; simplify_eq; simpl; by rewrite IH.
Qed.

(** The loop over the children of a directory. *)
Lemma store_children_spec N (g : string → oci_store_eff Digest) (f : string → option ltree) p l t w :
  (∀ q s w, f q = Some s → storable N w → (∀ n, n ∈ tree_nodes s q → N n) →
     ∃ w', g q w = (Ok (layer_digest s q), w') ∧ grows w w' ∧ storable N w' ∧ Forall (holds w') (tree_nodes s q)) →
  build_list f p l = Some t → storable N w → (∀ n, n ∈ sub_nodes t p → N n) →
  ∃ w', map_eff (λ e, if de_is_dir e then g (sub_path p (de_name e)) else mret (de_digest e)) l w
        = (Ok (child_digests t p), w') ∧
    grows w w' ∧ storable N w' ∧ Forall (holds w') (sub_nodes t p).
Proof.
  intros Hg. revert t w. induction l as [|e l IH]; intros t w; simpl.
  { intros [= <-] ? _. exists w. split_and!; [done|apply grows_refl|done|constructor]. }
  destruct (de_is_dir e) eqn:Ed.
  - destruct (f _) as [s|] eqn:Ef; simpl; [|done].
    destruct (build_list f p l) as [r|] eqn:Er; simpl; [|done]. intros [= <-] Hs HN. simpl in HN.
    destruct (Hg _ _ w Ef Hs) as (w1 & E1 & G1 & S1 & F1).
    { intros n Hn. apply HN. unfold tree_nodes in Hn. set_solver. }
    destruct (IH r w1 eq_refl S1) as (w2 & E2 & G2 & S2 & F2); [intros n Hn; apply HN; set_solver|].
    exists w2. erewrite bind_ok by exact E1. erewrite bind_ok by exact E2. split_and!; [done|by eapply grows_trans|done|].
    rewrite sub_nodes_dir. apply Forall_app. split; [|done].
    eapply Forall_impl; [exact F1|]. intros. by eapply grows_holds.
  - destruct (build_list f p l) as [r|] eqn:Er; simpl; [|done]. intros [= <-] Hs HN. simpl in HN.
    destruct (IH r w eq_refl Hs HN) as (w2 & E2 & G2 & S2 & F2).
    exists w2. erewrite bind_ok by done. erewrite bind_ok by exact E2. by split_and!.
Qed.

Lemma store_trees_spec N fuel dir_index entries p t w :
  build_tree fuel dir_index entries p = Some t → storable N w → (∀ n, n ∈ tree_nodes t p → N n) →
  ∃ w', store_trees fuel dir_index entries p w = (Ok (layer_digest t p), w') ∧
    grows w w' ∧ storable N w' ∧ Forall (holds w') (tree_nodes t p).
Proof.
  revert p t w. induction fuel as [|fuel IH]; intros p t w; simpl; [done|].
  intros Hb Hs HN. pose proof (build_list_entries _ _ _ _ Hb) as He.
  destruct (store_children_spec N (store_trees fuel dir_index entries) _ p _ t w IH Hb Hs)
    as (w1 & E1 & G1 & S1 & F1); [intros n Hn; apply HN; unfold tree_nodes; set_solver|].
  erewrite bind_ok by exact E1.
  fold (child_entries dir_index entries p). rewrite <- He. fold (tree_node t p).
  destruct (put_oci N (tree_node t p) w1 S1) as (w2 & E2 & P2 & G2 & S2);
    [apply HN; unfold tree_nodes; set_solver|].
  erewrite bind_ok by exact E2.
  destruct (put_oci N (layer_node p (dig (tree_node t p))) w2 S2) as (w3 & E3 & P3 & G3 & S3);
    [apply HN; unfold tree_nodes; set_solver|].
  exists w3. split_and!; [exact E3|eauto using grows_trans|done|].
  apply Forall_app. split; [|by repeat constructor; eauto using grows_holds].
  eapply Forall_impl; [exact F1|]. intros. eauto using grows_holds, grows_trans.
Qed.

(** ** Termination *)

(** With every directory name non-empty each step lengthens the path. *)
Definition named_dirs (entries : list DirectoryEntry) : Prop :=
  ∀ e, e ∈ entries → de_is_dir e = true → de_name e ≠ EmptyString.

Lemma sub_path_longer p n : n ≠ EmptyString → String.length p < String.length (sub_path p n).
Proof.
  intros Hn. unfold sub_path. case_decide as Hp.
  - subst. destruct n; [done|]. simpl. lia.
  - rewrite str_length_app. simpl. lia.
Qed.

Lemma child_entries_in dir_index entries p e : e ∈ child_entries dir_index entries p → e ∈ entries.
Proof. unfold child_entries. rewrite list_elem_of_omap. intros (i & _ & ?). by eapply list_elem_of_lookup_2. Qed.

Lemma child_entries_long dir_index entries p :
  (∀ k, k ∈ dom dir_index → String.length k < String.length p) → child_entries dir_index entries p = [].
Proof.
  intros Hk. unfold child_entries. destruct (dir_index !! p) eqn:E; [|done].
  apply elem_of_dom_2 in E. apply Hk in E. lia.
Qed.

Lemma build_list_total f p l :
  (∀ e, e ∈ l → de_is_dir e = true → is_Some (f (sub_path p (de_name e)))) → is_Some (build_list f p l).
Proof.
  induction l as [|e l IH]; intros Hf; simpl; [by eexists|].
  destruct IH as [r Hr]; [intros; apply Hf; [by right|done]|]. rewrite Hr.
  destruct (de_is_dir e) eqn:Ed; [|by eexists].
  destruct (Hf e) as [s ->]; [by left|done|]. by eexists.
Qed.

Lemma build_tree_total fuel dir_index entries p L :
  named_dirs entries → (∀ k, k ∈ dom dir_index → String.length k < L) → 0 < fuel → L < String.length p + fuel →
  is_Some (build_tree fuel dir_index entries p).
Proof.
  intros Hn Hk. revert p. induction fuel as [|fuel IH]; intros p Hpos HL; [lia|]. simpl.
  apply build_list_total. intros e He Hd.
  pose proof (sub_path_longer p (de_name e) (Hn e (child_entries_in _ _ _ _ He) Hd)).
  apply IH; [|lia]. destruct fuel; [|lia]. rewrite child_entries_long in He; [by apply elem_of_nil in He|].
  intros k ?%Hk. lia.
Qed.

End facts.

(** ** Members *)

(** A member all of whose fields can be read. *)
Record member := MkMember {
  m_path : string;
  m_type : EntryType;
  m_mode : Z;
  m_size : Z;
  m_uid : Z;
  m_gid : Z;
  m_mtime : Z;
  m_link : option string;
  m_pax : list (option (bytes * bytes));
  m_data : bytes;
}.

Definition item_of (m : member) : LayerItem :=
  MkLayerItem (Some (m_path m)) (m_type m) (Some (m_mode m)) (Some (m_size m)) (Some (m_uid m))
    (Some (m_gid m)) (Some (m_mtime m)) (Some (m_link m)) (m_pax m) (Some (m_data m)).

Definition m_parent (m : member) : string := (split_path (m_path m)).1.
Definition m_name (m : member) : string := (split_path (m_path m)).2.
Definition m_is_dir (m : member) : bool := bool_decide (m_type m = TDirectory).
Definition m_is_symlink (m : member) : bool := bool_decide (m_type m = TSymlink).
Definition m_is_whiteout (m : member) : bool := negb (m_is_dir m) && starts_with (m_name m) ".wh.".
Definition m_is_file (m : member) : bool := negb (m_is_dir m || m_is_symlink m).

Definition kept (m : member) : bool := negb (skipped_path (m_path m)) && negb (m_is_whiteout m).

Section layers.
Context `{Hex, Sha2, Rkyv DagNode, EntryJson, LayerTar, GzDecoder, ZstdDecoder}.
Context `{!HexLaws, !RkyvLaws DagNode, !EntryJsonLaws}.

Definition m_digest (m : member) : Digest :=
  if m_is_file m then dig (DagNode.blob (m_data m)) else zero_digest.

Definition raw_of (m : member) : RawEntry :=
  MkRaw (m_path m) (m_parent m) (m_name m) (m_mode m) (m_size m) (wrap32 (m_uid m)) (wrap32 (m_gid m))
    (as_i64 (m_mtime m)) (m_is_dir m) (m_is_symlink m) (if m_is_symlink m then m_link m else None)
    (bool_decide (m_type m = THardLink)) (if bool_decide (m_type m = THardLink) then m_link m else None)
    (m_digest m) (pax_xattrs (m_pax m)).

Definition layer_raws (ms : list member) : list RawEntry :=
  omap (λ m, if kept m then Some (raw_of m) else None) ms.

Definition layer_whiteouts (ms : list member) : list WhiteoutEntry :=
  omap (λ m, if negb (skipped_path (m_path m)) && m_is_whiteout m
             then Some (whiteout_of (m_parent m) (m_name m)) else None) ms.

Definition add_digest (d : gmap string Digest) (m : member) : gmap string Digest :=
  if kept m && m_is_file m then <[m_path m := m_digest m]> d else d.

Definition layer_digests (ms : list member) : gmap string Digest := foldl add_digest ∅ ms.

(** The entries after the links are resolved, and their index. *)
Definition layer_links (ms : list member) : list RawEntry :=
  resolve_links (MkExtracted (layer_raws ms) (layer_digests ms) (layer_whiteouts ms)).

Definition entry_of (r : RawEntry) : DirectoryEntry :=
  final_entry r (if decide (r_blob_digest r = zero_digest) then dig (DagNode.blob []) else r_blob_digest r).

Fixpoint index_from (i : nat) (rs : list RawEntry) (m : gmap string (list nat)) : gmap string (list nat) :=
  match rs with
  | [] => m
  | r :: rs => index_from (S i) rs (index_entry i r m)
  end.

(** ** The first pass *)

Lemma extract_member N x m w :
  storable N w → (m_is_file m = true → N (DagNode.blob (m_data m))) →
  ∃ w', extract_item x (Some (item_of m)) w
        = (Ok (MkExtracted (ex_raw x ++ layer_raws [m]) (add_digest (ex_digests x) m)
                 (ex_whiteouts x ++ layer_whiteouts [m])), w') ∧ grows w w' ∧ storable N w' ∧
    (kept m = true → m_is_file m = true → holds w' (DagNode.blob (m_data m))).
Proof.
  intros Hs Hn. unfold extract_item, layer_raws, layer_whiteouts, add_digest, kept. cbn [omap list_omap].
  unfold io, lift_result, ok_or, mbind, eff_bind, mret, eff_ret, item_of; cbn [li_path].
  destruct (skipped_path (m_path m)) eqn:Esk.
  { exists w. rewrite !app_nil_r. split_and!; [by destruct x|apply grows_refl|done|done]. }
  cbn [li_mode li_size li_uid li_gid li_mtime li_link li_type li_data li_pax].
  fold (m_is_dir m) (m_is_symlink m).
  assert (Hi : ∀ (b : bool) (A B : oci_store_eff (option string)), (if b then A else B) w = if b then A w else B w)
    by (by intros []).
  rewrite Hi. replace (if m_is_symlink m then _ else _) with
    (Ok (E := OciError.t) (if m_is_symlink m then m_link m else None), w) by (by destruct (m_is_symlink m)).
  rewrite Hi. replace (if bool_decide (m_type m = THardLink) then _ else _) with
    (Ok (E := OciError.t) (if bool_decide (m_type m = THardLink) then m_link m else None), w)
    by (by case_bool_decide).
  rewrite (surjective_pairing (split_path (m_path m))). fold (m_parent m) (m_name m).
  fold (m_is_whiteout m). destruct (m_is_whiteout m) eqn:Ew; cbn [negb andb].
  { exists w. rewrite app_nil_r. split_and!; [done|apply grows_refl|done|done]. }
  fold (m_is_file m). rewrite app_nil_r. unfold raw_of, m_digest.
  destruct (m_is_file m) eqn:Ef; unfold m_is_file in Ef.
  - apply negb_true_iff in Ef. rewrite Ef.
    destruct (store_file_storable N (m_size m) (m_data m) w Hs (Hn eq_refl)) as (w1 & E1 & P1 & G1 & S1).
    rewrite E1. exists w1. by split_and!.
  - apply negb_false_iff in Ef. rewrite Ef. exists w. split_and!; [done|apply grows_refl|done|done].
Qed.

Lemma layer_raws_cons m ms : layer_raws (m :: ms) = layer_raws [m] ++ layer_raws ms.
Proof. apply (omap_app _ [m]). Qed.

Lemma layer_whiteouts_cons m ms : layer_whiteouts (m :: ms) = layer_whiteouts [m] ++ layer_whiteouts ms.
Proof. apply (omap_app _ [m]). Qed.

Lemma extract_members N ms x w :
  storable N w → (∀ m, m ∈ ms → m_is_file m = true → N (DagNode.blob (m_data m))) →
  ∃ w', fold_eff extract_item x ((λ m, Some (item_of m)) <$> ms) w
        = (Ok (MkExtracted (ex_raw x ++ layer_raws ms) (foldl add_digest (ex_digests x) ms)
                 (ex_whiteouts x ++ layer_whiteouts ms)), w') ∧ grows w w' ∧ storable N w' ∧
    ∀ m, m ∈ ms → kept m = true → m_is_file m = true → holds w' (DagNode.blob (m_data m)).
Proof.
  revert x w. induction ms as [|m ms IH]; intros x w Hs Hn.
  { exists w. simpl. rewrite !app_nil_r.
    split_and!; [by destruct x|apply grows_refl|done|]. by intros m ?%elem_of_nil. }
  destruct (extract_member N x m w Hs) as (w1 & E1 & G1 & S1 & P1); [apply Hn; by left|].
  destruct (IH (MkExtracted (ex_raw x ++ layer_raws [m]) (add_digest (ex_digests x) m)
                  (ex_whiteouts x ++ layer_whiteouts [m])) w1 S1) as (w2 & E2 & G2 & S2 & P2);
    [intros; apply Hn; [by right|done]|].
  exists w2. cbn [fmap list_fmap fold_eff]. erewrite bind_ok by exact E1. rewrite E2. cbn [ex_raw ex_digests ex_whiteouts].
  rewrite (layer_raws_cons m ms), (layer_whiteouts_cons m ms), !app_assoc. split_and!; [done|by eapply grows_trans|done|].
  intros m' [->|Hm']%elem_of_cons Hk Hf; [|by apply P2]. eapply grows_holds; [done|by apply P1].
Qed.

(** ** Links *)

(** Resolving links changes digests only. *)
Definition same_entry (r s : RawEntry) : Prop := ∃ d, s = with_blob_digest d r.

#[local] Instance same_entry_refl : Reflexive same_entry.
Proof. intros r. exists (r_blob_digest r). by destruct r. Qed.

#[local] Instance same_entry_trans : Transitive same_entry.
Proof. intros r s t [d ->] [e ->]. by exists e. Qed.

Section links.
Context (P : Digest → Prop).

Let good (l : list RawEntry) : Prop := Forall (λ r, P (r_blob_digest r)) l.

Lemma resolve_hardlinks_good i rs m :
  good rs → map_Forall (λ _, P) m →
  let '(rs', m', _) := resolve_hardlinks i rs m in
  Forall2 same_entry rs rs' ∧ good rs' ∧ map_Forall (λ _, P) m'.
Proof.
  revert i m. induction rs as [|r rs IH]; intros i m Hg Hm; simpl; [by repeat constructor|].
  inversion_clear Hg as [|?? Hr Hrs]. assert (IHs := λ i m, IH i m Hrs). clear IH.
  assert (Hrefl : same_entry r r) by done.
  destruct (r_is_hardlink r); [destruct (r_hardlink_target r) as [t|]; [destruct (m !! t) as [d|] eqn:Ed|]|].
  - specialize (IHs (S i) (<[r_path r := d]> m)). destruct (resolve_hardlinks _ _ _) as [[rs' m'] df].
    destruct IHs as (? & ? & ?); [apply map_Forall_insert_2; [by eapply Hm|done]|].
    split_and!; [constructor; [by exists d|done]|constructor; [by eapply Hm|done]|done].
  - specialize (IHs (S i) m Hm). destruct (resolve_hardlinks _ _ _) as [[rs' m'] df].
    destruct IHs as (? & ? & ?). by split_and!; [constructor|constructor|].
  - specialize (IHs (S i) m Hm). destruct (resolve_hardlinks _ _ _) as [[rs' m'] df].
    destruct IHs as (? & ? & ?). by split_and!; [constructor|constructor|].
  - specialize (IHs (S i) m Hm). destruct (resolve_hardlinks _ _ _) as [[rs' m'] df].
    destruct IHs as (? & ? & ?). by split_and!; [constructor|constructor|].
Qed.

Lemma alter_digest_good d i rs :
  good rs → P d → Forall2 same_entry rs (alter (with_blob_digest d) i rs) ∧ good (alter (with_blob_digest d) i rs).
Proof.
  revert i. induction rs as [|r rs IH]; intros i Hg Hd; [by repeat constructor|].
  inversion_clear Hg as [|?? Hr Hrs]. destruct i as [|i]; simpl.
  - split; constructor; [by exists d|reflexivity|done|done].
  - destruct (IH i Hrs Hd) as []. by split; constructor.
Qed.

Lemma retry_round_good m df rs :
  good rs → map_Forall (λ _, P) m →
  Forall2 same_entry rs (retry_round m df rs).1 ∧ good (retry_round m df rs).1.
Proof.
  intros Hg Hm. revert rs Hg. induction df as [|i df IH]; intros rs Hg; simpl; [by split|].
  destruct (rs !! i ≫= r_hardlink_target) as [t|]; [destruct (m !! t) as [d|] eqn:Ed|]; [| |by apply IH].
  - destruct (alter_digest_good d i rs Hg (Hm _ _ Ed)) as [Hse Hg'].
    destruct (IH _ Hg') as [Hse' ?]. split; [by etrans|done].
  - specialize (IH rs Hg). by destruct (retry_round m df rs).
Qed.

Lemma retry_hardlinks_good n m df rs :
  good rs → map_Forall (λ _, P) m →
  Forall2 same_entry rs (retry_hardlinks n m df rs) ∧ good (retry_hardlinks n m df rs).
Proof.
  intros Hg Hm. revert df rs Hg. induction n as [|n IH]; intros df rs Hg; simpl; [by split|].
  case_decide; [by split|]. destruct (retry_round_good m df rs Hg Hm) as [Hse Hg'].
  destruct (retry_round m df rs) as [rs' df']. destruct (IH df' rs' Hg'). split; [by etrans|done].
Qed.

Lemma resolve_links_good x :
  good (ex_raw x) → map_Forall (λ _, P) (ex_digests x) →
  Forall2 same_entry (ex_raw x) (resolve_links x) ∧ good (resolve_links x).
Proof.
  intros Hg Hm. unfold resolve_links. pose proof (resolve_hardlinks_good 0 _ _ Hg Hm) as Hr.
  destruct (resolve_hardlinks _ _ _) as [[rs m] df]. destruct Hr as (? & Hg' & Hm').
  destruct (retry_hardlinks_good (length df) m df rs Hg' Hm'). split; [by etrans|done].
Qed.

End links.

(** A digest that the first pass may have given: none, or that of a stored file. *)
Definition known_digest (ms : list member) (d : Digest) : Prop :=
  d = zero_digest ∨ ∃ m, m ∈ ms ∧ kept m = true ∧ m_is_file m = true ∧ d = dig (DagNode.blob (m_data m)).

Lemma member_digest ms m : m ∈ ms → kept m = true → known_digest ms (m_digest m).
Proof. intros Hm Hk. unfold m_digest. destruct (m_is_file m) eqn:Ef; [right; eauto|by left]. Qed.

Lemma foldl_known ms l a :
  (∀ m, m ∈ l → m ∈ ms) → map_Forall (λ _ : string, known_digest ms) a →
  map_Forall (λ _ : string, known_digest ms) (foldl add_digest a l).
Proof.
  revert a. induction l as [|m l IH]; intros a Hl Ha; simpl; [done|].
  apply IH; [intros; apply Hl; by right|]. unfold add_digest.
  destruct (kept m) eqn:Ek; [|done]. destruct (m_is_file m); [|done]. simpl.
  apply map_Forall_insert_2; [|done]. apply member_digest; [apply Hl; by left|done].
Qed.

Lemma layer_links_spec ms :
  Forall2 same_entry (layer_raws ms) (layer_links ms) ∧
  Forall (λ r, known_digest ms (r_blob_digest r)) (layer_links ms).
Proof.
  unfold layer_links. apply (resolve_links_good (known_digest ms) (MkExtracted _ _ _)); cbn [ex_raw ex_digests].
  - apply Forall_forall. intros r (m & Hm & Hr)%list_elem_of_omap.
    destruct (kept m) eqn:Ek; simplify_eq. by apply member_digest.
  - apply foldl_known; [done|apply map_Forall_empty].
Qed.

(** ** Entries and index *)

(** The digest of an entry is that of a stored file. *)
Definition file_entry (N : DagNode → Prop) (w : World) (e : DirectoryEntry) : Prop :=
  ∃ data, N (DagNode.blob data) ∧ de_digest e = dig (DagNode.blob data) ∧ holds w (DagNode.blob data).

Lemma grows_file_entry N w w' e : grows w w' → file_entry N w e → file_entry N w' e.
Proof. intros Hg (data & ? & ? & ?). exists data. eauto using grows_holds. Qed.

Lemma build_entries N ms rs acc idx w :
  storable N w → N (DagNode.blob []) →
  Forall (λ r, known_digest ms (r_blob_digest r)) rs →
  (∀ m, m ∈ ms → m_is_file m = true → N (DagNode.blob (m_data m))) →
  (∀ m, m ∈ ms → kept m = true → m_is_file m = true → holds w (DagNode.blob (m_data m))) →
  ∃ w', fold_eff build_entry (acc, idx) rs w
        = (Ok (acc ++ (entry_of <$> rs), index_from (length acc) rs idx), w') ∧ grows w w' ∧ storable N w' ∧
    Forall (file_entry N w') (entry_of <$> rs).
Proof.
  intros Hs He Hk HN Hh. revert acc idx w Hs Hh. induction rs as [|r rs IH]; intros acc idx w Hs Hh; cbn [fold_eff].
  { exists w. simpl. rewrite app_nil_r. split_and!; [done|apply grows_refl|done|constructor]. }
  inversion_clear Hk as [|?? Hr Hrs].
  assert (∃ w1 d, (if decide (r_blob_digest r = zero_digest) then oci_store (put (DagNode.blob []))
                 else mret (r_blob_digest r)) w = (Ok d, w1) ∧ entry_of r = final_entry r d ∧
               grows w w1 ∧ storable N w1 ∧ ∃ data, N (DagNode.blob data) ∧ d = dig (DagNode.blob data) ∧
               holds w1 (DagNode.blob data)) as (w1 & d & E1 & Ed & G1 & S1 & data & Nd & Dd & P1).
  { unfold entry_of. case_decide as Hz.
    - destruct (put_oci N _ w Hs He) as (w1 & E1 & P1 & G1 & S1). exists w1, (dig (DagNode.blob [])). eauto 10.
    - destruct Hr as [Hr|(m & Hm & Hkm & Hf & Hr)]; [done|]. exists w, (r_blob_digest r).
      split_and!; [done..|apply grows_refl|done|]. exists (m_data m). rewrite Hr. auto. }
  destruct (IH Hrs (acc ++ [final_entry r d]) (index_entry (length acc) r idx) w1 S1) as (w2 & E2 & G2 & S2 & F2).
  { intros m ???. eapply grows_holds; [done|auto]. }
  exists w2. erewrite bind_ok; [|unfold build_entry; erewrite bind_ok by exact E1; reflexivity].
  cbn [fmap list_fmap]. rewrite E2, Ed, <- app_assoc, length_app, Nat.add_1_r. cbn [app]. split_and!; [done|by eapply grows_trans|done|]. constructor; [|done].
  exists data. eauto using grows_holds.
Qed.

(** The positions of the entries of a directory. *)
Fixpoint positions (i : nat) (rs : list RawEntry) (p : string) : list nat :=
  match rs with
  | [] => []
  | r :: rs => if decide (r_parent r = p) then i :: positions (S i) rs p else positions (S i) rs p
  end.

Lemma index_default_lookup k m p : default [] (index_default k m !! p) = default [] (m !! p).
Proof.
  unfold index_default. destruct (decide (k = p)) as [->|].
  - by rewrite lookup_insert_eq.
  - by rewrite lookup_insert_ne.
Qed.

Lemma index_entry_lookup i r m p :
  default [] (index_entry i r m !! p) =
  default [] (m !! p) ++ (if decide (r_parent r = p) then [i] else []).
Proof.
  assert (Hp : default [] (index_push (r_parent r) i m !! p) =
               default [] (m !! p) ++ (if decide (r_parent r = p) then [i] else [])).
  { unfold index_push. case_decide as Hd.
    - subst. by rewrite lookup_insert_eq.
    - by rewrite lookup_insert_ne, app_nil_r. }
  unfold index_entry. destruct (r_is_dir r); [|done]. by rewrite !index_default_lookup.
Qed.

Lemma index_from_lookup i rs m p :
  default [] (index_from i rs m !! p) = default [] (m !! p) ++ positions i rs p.
Proof.
  revert i m. induction rs as [|r rs IH]; intros i m; simpl; [by rewrite app_nil_r|].
  rewrite IH, index_entry_lookup, <- app_assoc. by case_decide.
Qed.

Lemma positions_entries pre rs p :
  omap ((pre ++ (entry_of <$> rs)) !!.) (positions (length pre) rs p) =
  entry_of <$> filter (λ r, r_parent r = p) rs.
Proof.
  revert pre. induction rs as [|r rs IH]; intros pre; simpl; [done|].
  specialize (IH (pre ++ [entry_of r])). rewrite <- app_assoc, length_app, Nat.add_1_r in IH. simpl in IH.
  rewrite filter_cons. case_decide; simpl; [|done].
  rewrite lookup_app_r, Nat.sub_diag by done. simpl. by f_equal.
Qed.

(** The entries of a directory are those whose parent it is, in the order of the
    archive. *)
Lemma layer_children rs p :
  child_entries (index_from 0 rs ∅) (entry_of <$> rs) p = entry_of <$> filter (λ r, r_parent r = p) rs.
Proof. unfold child_entries. rewrite index_from_lookup. apply (positions_entries []). Qed.

(** ** Converting a layer *)

Definition layer_entries_of (ms : list member) : list DirectoryEntry := entry_of <$> layer_links ms.
Definition layer_index (ms : list member) : gmap string (list nat) := index_from 0 (layer_links ms) ∅.

Lemma extract_layer N ms blob w :
  layer_entries blob = Some ((λ m, Some (item_of m)) <$> ms) →
  storable N w → N (DagNode.blob []) → (∀ m, m ∈ ms → m_is_file m = true → N (DagNode.blob (m_data m))) →
  ∃ w', extract_tar_entries_sync blob w
        = (Ok (layer_entries_of ms, layer_index ms, layer_whiteouts ms), w') ∧ grows w w' ∧ storable N w' ∧
    Forall (file_entry N w') (layer_entries_of ms).
Proof.
  intros Hb Hs He HN. unfold extract_tar_entries_sync, io. rewrite Hb. erewrite bind_ok by done.
  destruct (extract_members N ms (MkExtracted [] ∅ []) w Hs HN) as (w1 & E1 & G1 & S1 & P1).
  erewrite bind_ok by exact E1. cbn [ex_raw ex_digests ex_whiteouts app]. fold (layer_digests ms) (layer_links ms).
  destruct (build_entries N ms (layer_links ms) [] ∅ w1 S1 He (proj2 (layer_links_spec ms)) HN P1)
    as (w2 & E2 & G2 & S2 & F2).
  exists w2. erewrite bind_ok by exact E2. cbv beta iota. split_and!; [done|by eapply grows_trans|done|done].
Qed.

(** The node of a converted layer: its tree, then its whiteouts. *)
Definition layer_root (t : ltree) (ws : list WhiteoutEntry) : DagNode :=
  DagNode.layer (dig (tree_node t EmptyString) :: (dig <$> (whiteout_node <$> ws))) [].

(** The nodes a layer gives rise to. *)
Definition layer_nodes (ms : list member) (t : ltree) (n : DagNode) : Prop :=
  n = DagNode.blob [] ∨ (∃ m, m ∈ ms ∧ m_is_file m = true ∧ n = DagNode.blob (m_data m)) ∨
  n ∈ whiteout_node <$> layer_whiteouts ms ∨ n ∈ tree_nodes t EmptyString ∨ n = layer_root t (layer_whiteouts ms).

Definition layer_tree (fuel : nat) (ms : list member) : option ltree :=
  build_tree fuel (layer_index ms) (layer_entries_of ms) EmptyString.

Lemma get_deserialized_held N n w :
  storable N w → holds w n →
  ∃ w', get_deserialized (dig n) w = (Ok n, w') ∧ grows w w' ∧ storable N w'.
Proof.
  intros Hs Hn. unfold get_deserialized. destruct (get (dig n) w) as [r w'] eqn:Eg.
  apply get_spec in Eg as Hg; [|apply Hs]. destruct Hg as (Hi & Hd & Hr).
  unfold holds, node_at in Hn. destruct (node_file w (dig n)) as [b|] eqn:Eb; [|done].
  assert (r = Ok b) as ->.
  { destruct Hr as [->|[_ []]]; [|apply Hs]. unfold get_result. by rewrite Eb. }
  simpl in Hn. exists w'. erewrite bind_ok by exact Eg. rewrite Hn. split; [done|].
  split; [split; intros d c; by rewrite ?(same_disk_node _ _ _ Hd), ?(same_disk_blob_file _ _ _ Hd)|].
  destruct Hs as [? Hh ? Hf Hbl ?]. constructor; [done| |done| | |done].
  - unfold healthy in *. destruct Hd as [-> _]. done.
  - intros m c. rewrite (same_disk_node _ _ _ Hd). apply Hf.
  - intros data. rewrite (same_disk_blob_file _ _ _ Hd). apply Hbl.
Qed.

Lemma put_whiteouts N ws w :
  storable N w → (∀ n, n ∈ whiteout_node <$> ws → N n) →
  ∃ w', map_eff (λ e, oci_store (put (whiteout_node e))) ws w = (Ok (dig <$> (whiteout_node <$> ws)), w') ∧
    grows w w' ∧ storable N w' ∧ Forall (holds w') (whiteout_node <$> ws).
Proof.
  revert w. induction ws as [|e ws IH]; intros w Hs HN; simpl.
  { exists w. split_and!; [done|apply grows_refl|done|constructor]. }
  destruct (put_oci N (whiteout_node e) w Hs) as (w1 & E1 & P1 & G1 & S1); [apply HN; by left|].
  destruct (IH w1 S1) as (w2 & E2 & G2 & S2 & F2); [intros; apply HN; by right|].
  exists w2. erewrite bind_ok by exact E1. erewrite bind_ok by exact E2.
  split_and!; [done|by eapply grows_trans|done|]. constructor; [by eapply grows_holds|done].
Qed.

(** ** Materialisable layers *)

(** Everything below a converted layer is in the store. *)
Record layer_stored (t : ltree) (ws : list WhiteoutEntry) (w : World) : Prop := {
  ls_inv : store_inv w;
  ls_healthy : healthy w;
  ls_root : holds w (layer_root t ws);
  ls_nodes : Forall (holds w) (tree_nodes t EmptyString);
  ls_whiteouts : Forall (holds w) (whiteout_node <$> ws);
}.

Lemma convert_layer_stored ms t fuel blob media_type dec w :
  decompress_layer blob media_type = Ok dec →
  layer_entries dec = Some ((λ m, Some (item_of m)) <$> ms) →
  layer_tree fuel ms = Some t → storable (layer_nodes ms t) w →
  ∃ w', convert_layer fuel blob media_type w = (Ok (dig (layer_root t (layer_whiteouts ms))), w') ∧
    grows w w' ∧ storable (layer_nodes ms t) w' ∧ layer_stored t (layer_whiteouts ms) w' ∧
    Forall (file_entry (layer_nodes ms t) w') (layer_entries_of ms).
Proof.
  intros Hd Hl Ht Hs. set (N := layer_nodes ms t) in *.
  assert (HN : ∀ m, m ∈ ms → m_is_file m = true → N (DagNode.blob (m_data m)))
    by (intros; right; left; eauto).
  assert (HW : ∀ n, n ∈ whiteout_node <$> layer_whiteouts ms → N n) by (intros; right; right; by left).
  assert (HT : ∀ n, n ∈ tree_nodes t EmptyString → N n) by (intros; do 3 right; by left).
  unfold convert_layer. rewrite Hd. erewrite bind_ok by done.
  destruct (extract_layer N ms dec w Hl Hs ltac:(by left) HN) as (w1 & E1 & G1 & S1 & F1).
  erewrite bind_ok by exact E1. cbv beta iota.
  destruct (put_whiteouts N (layer_whiteouts ms) w1 S1 HW) as (w2 & E2 & G2 & S2 & F2).
  erewrite bind_ok by exact E2.
  destruct (store_trees_spec N fuel (layer_index ms) (layer_entries_of ms) EmptyString t w2 Ht S2 HT)
    as (w3 & E3 & G3 & S3 & F3).
  erewrite bind_ok by exact E3.
  assert (∃ w', (if decide ((dig <$> (whiteout_node <$> layer_whiteouts ms)) = []) then mret (layer_digest t EmptyString)
    else layer_node ← oci_store (get_deserialized (layer_digest t EmptyString));
         oci_store (put (MkDagNode (kind layer_node) (edges layer_node ++ (dig <$> (whiteout_node <$> layer_whiteouts ms)))
                      (inline_data layer_node)))) w3
    = (Ok (dig (layer_root t (layer_whiteouts ms))), w') ∧ grows w3 w' ∧ storable N w' ∧
      holds w' (layer_root t (layer_whiteouts ms))) as (w' & E' & G' & S' & P').
  { assert (Hroot : holds w3 (layer_node EmptyString (dig (tree_node t EmptyString)))).
    { rewrite Forall_forall in F3. apply F3. unfold tree_nodes. set_solver. }
    case_decide as Hw.
    - exists w3. unfold layer_root. rewrite Hw. split_and!; [done|apply grows_refl|done|done].
    - destruct (get_deserialized_held N _ w3 S3 Hroot) as (w4 & E4 & G4 & S4).
      destruct (put_oci N (layer_root t (layer_whiteouts ms)) w4 S4) as (w5 & E5 & P5 & G5 & S5);
        [by do 4 right|].
      exists w5. erewrite bind_ok by (by apply oci_store_ok). split_and!; [exact E5|by eapply grows_trans|done|done]. }
  exists w'. split_and!; [exact E'|eauto using grows_trans|done| |].
  - constructor; [apply S'|apply S'|done|..]; eapply Forall_impl; eauto using grows_holds, grows_trans.
  - eapply Forall_impl; eauto using grows_file_entry, grows_trans.
Qed.

End layers.
