(* ===== verification/UnpackSpec.v ===== *)
(** * Materialising a converted layer

    The nodes that conversion stores, read back, act on the host exactly as the layer's
    whiteouts and tree do; and what a tree without links leaves below a fresh target:
    exactly its directories and files, whatever their attributes. *)

From stdpp Require Import base gmap strings list.
From Stdlib Require Import ZArith Ascii Lia.
From S2P Require Import OciTypes Puller Archive Worklist StoreFacts Prelude Strs Utf8 Crates Node Fs Store HostFs Convert Materialize.
From S2P Require Import ConvertSpec.

(** ** Unpacking a tree *)

Section unpack.
Context (data : DirectoryEntry → bytes).

(** The effect of an entry, its contents given. *)
Definition unpack_entry (rootfs : path) (base : string) (e : DirectoryEntry) : host_eff unit :=
  let full_path := path_join rootfs (sub_path base (de_name e)) in
  (if de_is_dir e then create_dir_all full_path
   else if de_is_symlink e then
     match de_symlink_target e with
     | Some target => ignore_eff (unlink full_path) ;; ignore_eff (symlink target full_path)
     | None => mret tt
     end
   else create_dir_all (parent full_path) ;; write_host full_path (data e)) ;;
  apply_unix_attributes full_path e.

Fixpoint unpack_subs (rootfs : path) (t : ltree) (base : string) : host_eff unit :=
  match t with
  | LNil => mret tt
  | LFile _ r => unpack_subs rootfs r base
  | LDir e s r =>
    let b := sub_path base (de_name e) in
    (for_each (unpack_entry rootfs b) (entries_of s) ;; unpack_subs rootfs s b) ;;
    unpack_subs rootfs r base
  end.

(** The entries of a directory, then each of its sub-directories. *)
Definition unpack_tree (rootfs : path) (t : ltree) (base : string) : host_eff unit :=
  for_each (unpack_entry rootfs base) (entries_of t) ;; unpack_subs rootfs t base.

End unpack.

Definition unpack_whiteout (rootfs : path) (wh : WhiteoutEntry) : host_eff unit :=
  match wh with
  | WDelete p => ignore_eff (unlink (path_join rootfs p)) ;; ignore_eff (rmdir (path_join rootfs p))
  | WOpaqueDir p => clear_dir (path_join rootfs p)
  end.

Definition unpack_layer (data : DirectoryEntry → bytes) (rootfs : path) (t : ltree)
    (ws : list WhiteoutEntry) : host_eff unit :=
  for_each (unpack_whiteout rootfs) ws ;; unpack_tree data rootfs t EmptyString.

(** ** Trees *)

(** All entries of a tree satisfy [P], all directory paths [Q]. *)
Fixpoint tree_all (P : DirectoryEntry → Prop) (t : ltree) : Prop :=
  match t with
  | LNil => True
  | LFile e r => P e ∧ de_is_dir e = false ∧ tree_all P r
  | LDir e s r => P e ∧ de_is_dir e = true ∧ tree_all P s ∧ tree_all P r
  end.

Fixpoint ldepth (t : ltree) : nat :=
  match t with
  | LNil => 0
  | LFile _ r => ldepth r
  | LDir _ s r => Nat.max (S (ldepth s)) (ldepth r)
  end.

Lemma tree_all_entries P t : tree_all P t → Forall P (entries_of t).
Proof. induction t; simpl; [constructor|..]; intros; destruct_and!; constructor; auto. Qed.

Lemma utf8_sub_path base name : utf8 base → utf8 name → utf8 (sub_path base name).
Proof.
  intros Hb Hn. unfold sub_path. case_decide; [done|]. apply utf8_app; [done|]. by apply (utf8_app "/").
Qed.

Lemma split_bytes_line sep l k : sep ∉ l → split_bytes sep (l ++ sep :: k) = l :: split_bytes sep k.
Proof.
  induction l as [|b l IH]; intros Hl; simpl; [by rewrite decide_True|].
  rewrite decide_False by set_solver. by rewrite IH by set_solver.
Qed.

Section materialize.
Context `{Hex, Sha2, Rkyv DagNode, EntryJson, LayerTar, GzDecoder, ZstdDecoder, SpecJson}.
Context `{!HexLaws, !RkyvLaws DagNode, !EntryJsonLaws}.

(** ** Running against a store *)

(** [m] acts on the host as [h] does while the store's files stay those of [w0]. *)
Definition host_run {A} (w0 : World) (m : mat_eff A) (h : host_eff A) : Prop :=
  ∀ w fs, store_inv w → same_disk w0 w →
  ∃ w', m (MkMat w fs) = (map_err (λ _, OciError.Io) (h fs).1, MkMat w' (h fs).2) ∧
        store_inv w' ∧ same_disk w0 w'.

Lemma host_run_ret {A} (w0 : World) (x : A) : host_run w0 (mret x) (mret x).
Proof. intros w fs ??. by exists w. Qed.

Lemma host_run_on_host {A} (w0 : World) (h : host_eff A) : host_run w0 (on_host h) h.
Proof. intros w fs ??. exists w. unfold on_host. simpl. by destruct (h fs). Qed.

Lemma host_run_bind {A B} (w0 : World) (m : mat_eff A) h (f : A → mat_eff B) g :
  host_run w0 m h → (∀ x, host_run w0 (f x) (g x)) → host_run w0 (m ≫= f) (h ≫= g).
Proof.
  intros Hm Hf w fs Hi Hd. destruct (Hm w fs Hi Hd) as (w1 & E1 & Hi1 & Hd1).
  unfold mbind, eff_bind. rewrite E1. destruct (h fs) as [[x|e] fs1]; simpl; [|by exists w1].
  by apply Hf.
Qed.

Lemma host_run_for_each {A} (w0 : World) (f : A → mat_eff unit) g l :
  (∀ x, x ∈ l → host_run w0 (f x) (g x)) → host_run w0 (for_each f l) (for_each g l).
Proof.
  induction l as [|x l IH]; intros Hl; simpl; [apply host_run_ret|].
  apply host_run_bind; [apply Hl; by left|]. intros _. apply IH. intros. apply Hl. by right.
Qed.

(** Reading leaves the host alone. *)
Lemma host_run_read {A B} (w0 : World) (m : mat_eff A) x (f : A → mat_eff B) h :
  host_run w0 m (mret x) → host_run w0 (f x) h → host_run w0 (m ≫= f) h.
Proof.
  intros Hm Hf w fs Hi Hd. destruct (Hm w fs Hi Hd) as (w1 & E1 & Hi1 & Hd1).
  unfold mbind, eff_bind. rewrite E1. simpl. by apply Hf.
Qed.

Lemma host_run_ext {A} (w0 : World) (m m' : mat_eff A) h :
  (∀ w, m w = m' w) → host_run w0 m' h → host_run w0 m h.
Proof. intros He Hm w fs. rewrite He. apply Hm. Qed.

Lemma get_archived_held (w0 w : World) d n :
  healthy w0 → node_at w0 d = Some n → store_inv w → same_disk w0 w →
  ∃ w', get_archived d w = (Ok n, w') ∧ store_inv w' ∧ same_disk w0 w'.
Proof.
  intros Hh Hn Hi Hd. destruct (get_archived d w) as [r w'] eqn:Eg.
  apply get_archived_spec in Eg as (Hi' & Hd' & Hr); [|done].
  exists w'. split_and!; [|done|by eapply same_disk_trans]. f_equal. destruct Hr as [->|[_ []]].
  - unfold archived_result, get_result. rewrite (same_disk_node _ _ _ Hd). unfold node_at in Hn.
    destruct (node_file w0 d); [|done]. simpl in *. unfold archived_node. by rewrite Hn.
  - unfold healthy in *. destruct Hd as [-> _]. done.
Qed.

Lemma host_run_archived (w0 : World) f d n :
  healthy w0 → node_at w0 d = Some n → host_run w0 (archived_or f d) (mret n).
Proof.
  intros Hh Hn w fs Hi Hd. destruct (get_archived_held w0 w d n Hh Hn Hi Hd) as (w' & E & ?).
  exists w'. unfold archived_or, map_err_eff, on_mat_store. simpl. by rewrite E.
Qed.

Lemma host_run_try_archived (w0 : World) d n :
  healthy w0 → node_at w0 d = Some n →
  host_run w0 (try_eff (on_mat_store (get_archived d))) (mret (Ok n)).
Proof.
  intros Hh Hn w fs Hi Hd. destruct (get_archived_held w0 w d n Hh Hn Hi Hd) as (w' & E & ?).
  exists w'. unfold try_eff, on_mat_store. simpl. by rewrite E.
Qed.

Lemma host_run_try_get (w0 : World) d n :
  healthy w0 → node_at w0 d = Some n →
  ∃ b, host_run w0 (try_eff (on_mat_store (get d))) (mret (Ok b)).
Proof.
  intros Hh Hn. unfold node_at in Hn. destruct (node_file w0 d) as [b|] eqn:Eb; [|done]. exists b.
  intros w fs Hi Hd. unfold try_eff, on_mat_store. simpl.
  destruct (get d w) as [r w'] eqn:Eg. apply get_spec in Eg as (Hi' & Hd' & Hr); [|done].
  exists w'. split_and!; [|done|by eapply same_disk_trans]. do 2 f_equal. destruct Hr as [->|[_ []]].
  - unfold get_result. by rewrite (same_disk_node _ _ _ Hd), Eb.
  - unfold healthy in *. destruct Hd as [-> _]. done.
Qed.

(** ** Entries *)

Lemma from_layer_inline l : from_inline_bytes (layer_inline l) = l.
Proof.
  unfold from_inline_bytes, layer_inline. induction l as [|e l IH]; simpl; [done|].
  destruct (entry_line e) as [He Hn]. unfold to_inline_bytes at 1. rewrite <- app_assoc. simpl.
  rewrite split_bytes_line by done. simpl. rewrite decide_False, entry_roundtrip by done. f_equal. exact IH.
Qed.

(** What the nodes of [w0] make of an entry. *)
Definition good_entry (w0 : World) (data : DirectoryEntry → bytes) (e : DirectoryEntry) : Prop :=
  utf8 (de_name e) ∧ file_at w0 (de_digest e) (data e).

Lemma write_file_entry_run w0 p d b :
  healthy w0 → file_at w0 d b →
  host_run w0 (write_file_entry p d) (create_dir_all (parent p) ;; write_host p b).
Proof.
  intros Hh [Hn Hb]. apply host_run_bind; [apply host_run_on_host|]. intros _ w fs Hi Hd.
  unfold mbind at 1, eff_bind at 1, get_world at 1. cbn [mw_store]. rewrite blob_exists_spec.
  rewrite (same_disk_blob_file _ _ _ Hd). destruct Hb as [Hb|Hb]; rewrite Hb.
  - rewrite bool_decide_false by (by intros []). revert w fs Hi Hd.
    eapply host_run_read; [by apply host_run_try_archived|]. apply host_run_on_host.
  - rewrite bool_decide_true by (by eexists). eexists w. split; [|done].
    unfold mbind, eff_bind, map_err_eff, on_mat_store. cbn [mw_store]. rewrite on_os_read. unfold read_file.
    assert (files (os w) !! path_for_blob (root (store w)) d = Some b) as ->
      by (rewrite <- Hb; apply (same_disk_blob_file _ _ _ Hd)).
    rewrite not_faulty by (destruct Hd as [-> _]; done). simpl. unfold on_host. simpl. by destruct (write_host p b fs).
Qed.

Lemma materialize_entry_run w0 data rootfs base e :
  healthy w0 → good_entry w0 data e →
  host_run w0 (materialize_entry rootfs base e) (unpack_entry data rootfs base e).
Proof.
  intros Hh [_ Hf]. unfold materialize_entry, unpack_entry.
  apply host_run_bind; [|intros _; apply host_run_on_host].
  destruct (de_is_dir e); [apply host_run_on_host|]. destruct (de_is_symlink e).
  - destruct (de_symlink_target e); [|apply host_run_ret].
    apply host_run_bind; [apply host_run_on_host|]. intros _. apply host_run_on_host.
  - by apply write_file_entry_run.
Qed.

(** ** Trees and layers *)

Definition child_step (fuel : nat) (rootfs : path) (base : string) (child : Digest) : mat_eff unit :=
  r ← try_eff (on_mat_store (get child));
  match r with
  | Ok _ => materialize_tree fuel child rootfs base
  | Err _ => mret tt
  end.

(** A tree node, its children being handled. *)
Lemma tree_node_run w0 data fuel rootfs t base :
  healthy w0 → holds w0 (tree_node t base) → Forall (good_entry w0 data) (entries_of t) →
  host_run w0 (for_each (child_step fuel rootfs base) (child_digests t base)) (unpack_subs data rootfs t base) →
  host_run w0 (materialize_tree (S fuel) (dig (tree_node t base)) rootfs base) (unpack_tree data rootfs t base).
Proof.
  intros Hh Hn He Hc. cbn [materialize_tree]. eapply host_run_read; [by apply host_run_archived|].
  cbn [DagNode.is_layer DagNode.is_tree kind tree_node DagNode.tree inline_data edges]. rewrite from_layer_inline.
  apply host_run_bind; [|intros _; exact Hc]. apply host_run_for_each. intros e Hel.
  apply materialize_entry_run; [done|]. by eapply Forall_forall in He.
Qed.

Lemma children_run w0 data rootfs t base fuel :
  healthy w0 → utf8 base → Forall (holds w0) (sub_nodes t base) → tree_all (good_entry w0 data) t →
  2 * ldepth t + 1 ≤ fuel →
  host_run w0 (for_each (child_step fuel rootfs base) (child_digests t base)) (unpack_subs data rootfs t base).
Proof.
  intros Hh. revert base fuel. induction t as [|e r IH|e s IHs r IHr]; intros base fuel Hu Hn Ha Hf.
  - apply host_run_ret.
  - cbn [child_digests for_each unpack_subs]. destruct Ha as ([_ [Hb _]] & _ & Ha).
    cbn [ldepth sub_nodes] in *.
    apply (host_run_read w0 _ tt); [|intros; by apply IH].
    destruct (host_run_try_get w0 (de_digest e) _ Hh Hb) as [b Hg].
    eapply host_run_read; [exact Hg|]. cbv beta iota. destruct fuel as [|fuel]; [lia|]. cbn [materialize_tree].
    eapply host_run_read; [by apply host_run_archived|]. apply host_run_ret.
  - cbn [child_digests for_each unpack_subs]. destruct Ha as ([Hue _] & _ & Has & Har).
    rewrite sub_nodes_dir in Hn. apply Forall_app in Hn as [Hns Hnr]. cbn [ldepth] in Hf.
    fold (tree_node s (sub_path base (de_name e))). set (b := sub_path base (de_name e)) in *.
    unfold tree_nodes in Hns. rewrite !Forall_app, !Forall_cons in Hns. destruct Hns as (Hns & Ht & Hl & _).
    apply host_run_bind; [|intros _; apply IHr; [done..|lia]].
    destruct (host_run_try_get w0 _ _ Hh Hl) as [x Hg].
    eapply host_run_read; [exact Hg|]. cbv beta iota. destruct fuel as [|fuel]; [lia|]. cbn [materialize_tree].
    eapply host_run_read; [by apply host_run_archived|].
    change (DagNode.is_layer (layer_node b (dig (tree_node s b)))) with true. cbv iota.
    cbn [layer_node DagNode.layer inline_data edges for_each].
    assert (utf8 b) by (by apply utf8_sub_path). rewrite from_utf8_lossy_as_bytes by done.
    apply host_run_ext with (materialize_tree fuel (dig (tree_node s b)) rootfs b).
    { intros w. unfold mbind, eff_bind. by destruct (materialize_tree _ _ _ _ w) as [[[]|] ?]. }
    destruct fuel as [|fuel]; [lia|]. apply tree_node_run; [done|done|by apply tree_all_entries|].
    apply IHs; [done..|lia].
Qed.

Lemma tree_run w0 data rootfs t fuel :
  healthy w0 → Forall (holds w0) (tree_nodes t EmptyString) → tree_all (good_entry w0 data) t →
  2 * ldepth t + 2 ≤ fuel →
  host_run w0 (materialize_tree fuel (dig (tree_node t EmptyString)) rootfs EmptyString)
    (unpack_tree data rootfs t EmptyString).
Proof.
  intros Hh Hn Ha Hf. unfold tree_nodes in Hn. rewrite !Forall_app, !Forall_cons in Hn. destruct Hn as (Hns & Ht & _).
  destruct fuel as [|fuel]; [lia|]. apply tree_node_run; [done|done|by apply tree_all_entries|].
  apply children_run; [done..|lia].
Qed.

Lemma classify_whiteouts w0 ws ts acc :
  healthy w0 → Forall (holds w0) (whiteout_node <$> ws) →
  host_run w0 (fold_eff classify_edge (ts, acc) (dig <$> (whiteout_node <$> ws)))
    (mret (ts, acc ++ ((λ e, (dig (whiteout_node e), DagNode.is_opaque_dir (whiteout_node e))) <$> ws))).
Proof.
  intros Hh. revert acc. induction ws as [|e ws IH]; intros acc Hn; simpl.
  { rewrite app_nil_r. apply host_run_ret. }
  inversion_clear Hn as [|?? He Hws].
  eapply host_run_read; [|replace (acc ++ _ :: _) with
    ((acc ++ [(dig (whiteout_node e), DagNode.is_opaque_dir (whiteout_node e))])
       ++ ((λ e, (dig (whiteout_node e), DagNode.is_opaque_dir (whiteout_node e))) <$> ws))
    by (by rewrite <- app_assoc); by apply IH].
  unfold classify_edge. eapply host_run_read; [by apply host_run_try_archived|].
  destruct e; apply host_run_ret.
Qed.

Lemma whiteout_run w0 rootfs e :
  healthy w0 → holds w0 (whiteout_node e) →
  utf8 match e with WDelete p | WOpaqueDir p => p end →
  host_run w0 (apply_whiteout rootfs EmptyString (dig (whiteout_node e), DagNode.is_opaque_dir (whiteout_node e)))
    (unpack_whiteout rootfs e).
Proof.
  intros Hh Hn Hu. unfold apply_whiteout. eapply host_run_read; [by apply host_run_archived|].
  unfold whiteout_target. rewrite decide_True by done.
  destruct e as [p|p]; cbn [whiteout_node DagNode.whiteout DagNode.opaque_dir DagNode.is_opaque_dir kind inline_data];
    rewrite from_utf8_lossy_as_bytes by done.
  - apply host_run_bind; [apply host_run_on_host|]. intros _. apply host_run_on_host.
  - apply host_run_on_host.
Qed.

Lemma for_each_fmap {W E A B} (f : B → eff W E unit) (g : A → B) l w :
  for_each f (g <$> l) w = for_each (λ x, f (g x)) l w.
Proof.
  revert w. induction l as [|x l IH]; intros w; simpl; [done|]. unfold mbind, eff_bind.
  destruct (f (g x) w) as [[]]; [apply IH|done].
Qed.

Definition utf8_whiteout (e : WhiteoutEntry) : Prop :=
  utf8 match e with WDelete p | WOpaqueDir p => p end.

Lemma layer_run w0 data rootfs t ws fuel :
  layer_stored t ws w0 → tree_all (good_entry w0 data) t → Forall utf8_whiteout ws → 2 * ldepth t + 2 ≤ fuel →
  host_run w0 (materialize_layer fuel (dig (layer_root t ws)) rootfs) (unpack_layer data rootfs t ws).
Proof.
  intros [Hi Hh Hr Hn Hw] Ha Hu Hf. unfold materialize_layer.
  eapply host_run_read; [by apply host_run_archived|].
  change (DagNode.is_layer (layer_root t ws)) with true.
  cbn [layer_root DagNode.layer inline_data edges negb].
  change (from_utf8_lossy []) with EmptyString. unfold unpack_layer.
  eapply host_run_read.
  { cbn [fold_eff]. eapply host_run_read; [|by apply (classify_whiteouts w0 ws [dig (tree_node t EmptyString)] [])].
    unfold classify_edge. eapply host_run_read; [apply (host_run_try_archived w0 _ (tree_node t EmptyString)); [done|]|apply host_run_ret].
    rewrite Forall_forall in Hn. apply Hn. unfold tree_nodes. set_solver. }
  cbv beta iota. cbn [app]. apply host_run_bind.
  - eapply host_run_ext; [intros; apply for_each_fmap|]. apply host_run_for_each. intros e He.
    rewrite Forall_forall in Hu. rewrite Forall_fmap, Forall_forall in Hw. apply whiteout_run; [done|by apply Hw|by apply Hu].
  - intros _. cbn [for_each].
    apply host_run_ext with (materialize_tree fuel (dig (tree_node t EmptyString)) rootfs EmptyString).
    { intros w. unfold mbind, eff_bind. by destruct (materialize_tree _ _ _ _ w) as [[[]|] ?]. }
    by apply tree_run.
Qed.

End materialize.

(** ** Plain paths *)

(** [p] is a directory that is reached through directories only. *)
Definition plain (fs : HostFs) (p : path) : Prop :=
  (".." ∉ p) ∧ ∀ q k, p = q ++ k → content_at fs q = Some Dir.

Lemma walk_plain fs follow expand cur todo k :
  (".." ∉ todo) → (∀ q r, todo = q ++ r → content_at fs (cur ++ q) = Some Dir) →
  walk_components fs follow expand cur (todo ++ k) = walk_components fs follow expand (cur ++ todo) k.
Proof.
  revert cur. induction todo as [|c todo IH]; intros cur Hd Hp; simpl; [by rewrite app_nil_r|].
  rewrite decide_False by set_solver. rewrite (Hp [c] todo eq_refl).
  rewrite IH; [by rewrite <- app_assoc|set_solver|].
  intros q r ->. rewrite <- app_assoc. by apply (Hp (c :: q) r).
Qed.

Lemma plain_self fs p : plain fs p → content_at fs p = Some Dir.
Proof. intros [_ Hp]. apply (Hp p []). by rewrite app_nil_r. Qed.

Lemma resolve_plain fs follow p : plain fs p → resolve follow p fs = (Ok p, fs).
Proof.
  intros [Hd Hp]. unfold resolve, MAXSYMLINKS. cbn [resolve_from]. rewrite <- (app_nil_r p) at 1.
  rewrite walk_plain; [done..|]. intros q r ->. by apply (Hp q r).
Qed.

Definition is_link (c : option content) : bool :=
  match c with
  | Some (Symlink _) => true
  | _ => false
  end.

Lemma resolve_child fs follow p c :
  plain fs p → c ≠ ".." → is_link (content_at fs (p ++ [c])) = false →
  resolve follow (p ++ [c]) fs = (Ok (p ++ [c]), fs).
Proof.
  intros [Hd Hp] Hc Hl. unfold resolve, MAXSYMLINKS. cbn [resolve_from].
  rewrite walk_plain; [|done|intros q r ->; by apply (Hp q r)]. simpl.
  rewrite decide_False by done. by destruct (content_at fs (p ++ [c])) as [[| |]|].
Qed.

Lemma plain_snoc fs p c : plain fs p → c ≠ ".." → content_at fs (p ++ [c]) = Some Dir → plain fs (p ++ [c]).
Proof.
  intros [Hd Hp] Hc Hdir. split; [set_solver|]. intros q k Hq.
  destruct k as [|x k _] using rev_ind; [by rewrite app_nil_r in Hq; subst|].
  rewrite app_assoc in Hq. apply app_inj_tail in Hq as [-> _]. by eapply Hp.
Qed.

(** Plainness depends on the prefixes only. *)
Lemma plain_ext fs fs' p :
  plain fs p → (∀ q k, p = q ++ k → content_at fs' q = content_at fs q) → plain fs' p.
Proof. intros [Hd Hp] He. split; [done|]. intros q k Hq. rewrite (He q k Hq). by eapply Hp. Qed.

Lemma content_at_insert fs p i q :
  p ≠ [] → content_at (<[p := i]> fs) q = if decide (q = p) then Some (icontent i) else content_at fs q.
Proof.
  intros Hp. unfold content_at. repeat case_decide; subst; try done.
  - by rewrite lookup_insert_eq.
  - by rewrite lookup_insert_ne.
Qed.

(** ** Path texts *)

Definition normal_name (c : string) : Prop :=
  c ≠ EmptyString ∧ c ≠ "." ∧ c ≠ ".." ∧ contains_char c "/" = false.

(** [a/b/c]. *)
Definition text (cs : path) : string := join "/" cs.

Lemma normal_no_slash cs : Forall normal_name cs → Forall (λ x, contains_char x "/" = false) cs.
Proof. intros Hn. eapply Forall_impl; [exact Hn|]. by intros c (_ & _ & _ & ?). Qed.

Lemma normal_snoc cs c : Forall normal_name cs → normal_name c → Forall normal_name (cs ++ [c]).
Proof. intros Hn Hc. apply Forall_app. split; [done|]. constructor; [done|constructor]. Qed.

Lemma text_nonempty cs : Forall normal_name cs → cs ≠ [] → text cs ≠ EmptyString.
Proof.
  intros Hn Hne Ht. assert (Hs : split (text cs) "/" = cs) by (apply split_join; [done|by apply normal_no_slash]).
  rewrite Ht in Hs. simpl in Hs. subst. inversion_clear Hn as [|?? []]. done.
Qed.

Lemma text_relative cs : Forall normal_name cs → is_absolute (text cs) = false.
Proof.
  intros Hn. unfold is_absolute, starts_with. destruct (strip_prefix "/" (text cs)) as [s|] eqn:E; [|done].
  apply strip_prefix_Some in E. exfalso. destruct Hn as [|c cs Hc Hn]; [done|].
  assert (Hs : split (text (c :: cs)) "/" = c :: cs)
    by (apply split_join; [done|apply normal_no_slash; by constructor]).
  rewrite E in Hs. change ("/" +:+ s) with (String "/" s) in Hs. simpl in Hs. injection Hs as Hs _.
  destruct Hc as [Hc _]. by symmetry in Hs.
Qed.

Lemma components_text cs : Forall normal_name cs → components (text cs) = cs.
Proof.
  intros Hn. unfold components. destruct (decide (cs = [])) as [->|Hne]; [done|].
  unfold text. rewrite split_join; [|done|by apply normal_no_slash].
  induction Hn as [|c cs (? & ? & _) Hn IH]; [done|]. rewrite filter_cons, decide_True by done.
  destruct (decide (cs = [])) as [->|]; [done|]. by rewrite IH.
Qed.

Lemma path_join_text rootfs cs : Forall normal_name cs → path_join rootfs (text cs) = rootfs ++ cs.
Proof. intros Hn. unfold path_join. by rewrite text_relative, components_text. Qed.

Lemma sub_path_text bs c : Forall normal_name bs → sub_path (text bs) c = text (bs ++ [c]).
Proof.
  intros Hb. unfold sub_path. destruct (decide (bs = [])) as [->|Hne]; [done|].
  rewrite decide_False by (by apply text_nonempty). unfold text. by rewrite join_snoc.
Qed.

(** ** Calls on plain paths *)

Lemma is_dir_plain fs p : plain fs p → is_dir p fs = true.
Proof. intros Hp. unfold is_dir. rewrite (resolve_plain fs true p Hp). by apply bool_decide_true, plain_self. Qed.

Lemma mkdir_known m fs p : plain fs p → mkdir m p fs = (Err EEXIST, fs).
Proof.
  intros Hp. unfold mkdir. erewrite bind_ok by (by apply resolve_plain). unfold mbind, eff_bind, get_world.
  by rewrite plain_self.
Qed.

Lemma create_dir_all_known fs p : plain fs p → create_dir_all p fs = (Ok tt, fs).
Proof.
  intros Hp. unfold create_dir_all. destruct (length p) as [|n]; cbn [create_dir_all_loop]; case_decide; try done;
    unfold mbind, eff_bind, try_eff, get_world; rewrite mkdir_known by done; by rewrite is_dir_plain.
Qed.

Section fresh.
Context (fs : HostFs) (p : path) (c : string).
Hypothesis (Hp : plain fs p) (Hc : c ≠ "..") (Hnone : content_at fs (p ++ [c]) = None).

Lemma resolve_fresh follow : resolve follow (p ++ [c]) fs = (Ok (p ++ [c]), fs).
Proof. apply resolve_child; [done..|]. by rewrite Hnone. Qed.

Lemma create_dir_all_fresh :
  create_dir_all (p ++ [c]) fs = (Ok tt, <[p ++ [c] := MkInode Dir (default_meta Dir)]> fs).
Proof.
  assert (Hm : mkdir 493 (p ++ [c]) fs = (Ok tt, <[p ++ [c] := MkInode Dir (default_meta Dir)]> fs)).
  { unfold mkdir. erewrite bind_ok by apply resolve_fresh. unfold mbind, eff_bind, get_world. by rewrite Hnone. }
  unfold create_dir_all. destruct (length (p ++ [c])) as [|n]; cbn [create_dir_all_loop];
    (rewrite decide_False by (by destruct p)); unfold mbind, eff_bind, try_eff; by rewrite Hm.
Qed.

Lemma write_host_fresh data :
  write_host (p ++ [c]) data fs = (Ok tt, <[p ++ [c] := MkInode (File data) (default_meta (File data))]> fs).
Proof.
  unfold write_host. erewrite bind_ok by apply resolve_fresh. unfold mbind, eff_bind, get_world. by rewrite Hnone.
Qed.

End fresh.

(** ** Attributes *)

Definition same_contents (fs fs' : HostFs) : Prop := ∀ q, content_at fs' q = content_at fs q.

Lemma update_meta_contents follow f p fs : same_contents fs (update_meta follow f p fs).2.
Proof.
  unfold update_meta, mbind, eff_bind, resolve. destruct (resolve_from _ _ _ _ _) as [q|]; [|done].
  unfold get_world. destruct (content_at fs q); [|done]. simpl. intros k. unfold content_at. case_decide; [done|].
  destruct (decide (k = q)) as [->|].
  - rewrite lookup_alter_eq. by destruct (fs !! q).
  - by rewrite lookup_alter_ne.
Qed.

Lemma ignore_ok {W E F A} (m : eff W E A) w : ignore_eff (F := F) m w = (Ok tt, (m w).2).
Proof. unfold ignore_eff. by destruct (m w). Qed.

Lemma attributes_contents p e fs :
  ∃ fs', apply_unix_attributes p e fs = (Ok tt, fs') ∧ same_contents fs fs'.
Proof.
  assert (Hseq : ∀ (m k : host_eff unit),
    (∀ fs, ∃ fs', m fs = (Ok tt, fs') ∧ same_contents fs fs') →
    (∀ fs, ∃ fs', k fs = (Ok tt, fs') ∧ same_contents fs fs') →
    ∀ fs, ∃ fs', (m ;; k) fs = (Ok tt, fs') ∧ same_contents fs fs').
  { intros m k Hm Hk fs0. destruct (Hm fs0) as (fs1 & E1 & S1). destruct (Hk fs1) as (fs2 & E2 & S2).
    exists fs2. erewrite bind_ok by exact E1. split; [done|]. intros q. by rewrite S2. }
  assert (Hig : ∀ follow f q fs, ∃ fs', ignore_eff (F := errno) (update_meta follow f q) fs = (Ok tt, fs') ∧
                                        same_contents fs fs').
  { intros. eexists. rewrite ignore_ok. split; [done|apply update_meta_contents]. }
  assert (Hret : ∀ fs, ∃ fs', mret (M := host_eff) tt fs = (Ok tt, fs') ∧ same_contents fs fs') by (by eexists).
  revert fs. unfold apply_unix_attributes. apply Hseq; [apply Hig|]. apply Hseq; [|apply Hseq].
  - intros fs. unfold set_owner, mbind, eff_bind, get_world. destruct (resolve true p fs).1 as [q|]; [|apply Hret].
    destruct (fs !! q) as [i|]; [|apply Hret]. destruct (_ || _); [apply Hig|apply Hret].
  - unfold set_mtime. case_decide; [apply Hret|apply Hig].
  - induction (map_to_list (de_xattrs e)) as [|[k v] l IH]; cbn [for_each]; [apply Hret|].
    apply Hseq; [apply Hig|apply IH].
Qed.

(** ** Trees *)

Section trees.
Context (data : DirectoryEntry → bytes).

Definition entry_content (e : DirectoryEntry) : content :=
  if de_is_dir e then Dir else File (data e).

(** What a tree has at a path. *)
Fixpoint tree_at (t : ltree) (cs : path) : option content :=
  match t with
  | LNil => None
  | LFile e r =>
    match cs with
    | c :: k => if decide (c = de_name e) then if decide (k = []) then Some (File (data e)) else None
                else tree_at r cs
    | [] => None
    end
  | LDir e s r =>
    match cs with
    | c :: k => if decide (c = de_name e) then if decide (k = []) then Some Dir else tree_at s k
                else tree_at r cs
    | [] => None
    end
  end.

(** No links, normal names, each once in a directory. *)
Fixpoint link_free (t : ltree) : Prop :=
  match t with
  | LNil => True
  | LFile e r =>
    de_is_dir e = false ∧ de_is_symlink e = false ∧ normal_name (de_name e) ∧
    (de_name e ∉ de_name <$> entries_of r) ∧ link_free r
  | LDir e s r =>
    de_is_dir e = true ∧ normal_name (de_name e) ∧
    (de_name e ∉ de_name <$> entries_of r) ∧ link_free s ∧ link_free r
  end.

Lemma unpack_entry_fresh rootfs bs e fs :
  plain fs (rootfs ++ bs) → Forall normal_name bs → normal_name (de_name e) →
  (de_is_dir e = false → de_is_symlink e = false) → content_at fs (rootfs ++ bs ++ [de_name e]) = None →
  ∃ fs', unpack_entry data rootfs (text bs) e fs = (Ok tt, fs') ∧
    ∀ q, content_at fs' q = if decide (q = rootfs ++ bs ++ [de_name e]) then Some (entry_content e) else content_at fs q.
Proof.
  intros Hp Hb Hn Hl Hnone. unfold unpack_entry, entry_content. cbv zeta.
  rewrite sub_path_text by done. rewrite path_join_text by (by apply normal_snoc).
  rewrite (app_assoc rootfs bs) in *. set (p := rootfs ++ bs) in *.
  assert (Hdd : de_name e ≠ "..") by (by destruct Hn as (_ & _ & ? & _)).
  assert (Hne : p ++ [de_name e] ≠ []) by (by destruct p).
  assert (∃ c fs1, (if de_is_dir e then create_dir_all (p ++ [de_name e])
     else if de_is_symlink e then
       match de_symlink_target e with
       | Some target => ignore_eff (unlink (p ++ [de_name e])) ;; ignore_eff (symlink target (p ++ [de_name e]))
       | None => mret tt
       end
     else create_dir_all (parent (p ++ [de_name e])) ;; write_host (p ++ [de_name e]) (data e)) fs = (Ok tt, fs1) ∧
     fs1 = <[p ++ [de_name e] := MkInode c (default_meta c)]> fs ∧
     c = (if de_is_dir e then Dir else File (data e))) as (c & fs1 & E1 & -> & ->).
  { destruct (de_is_dir e) eqn:Ed; [|rewrite Hl by done].
    - eexists _, _. rewrite create_dir_all_fresh by done. done.
    - eexists _, _. erewrite bind_ok by (rewrite parent_snoc; by apply create_dir_all_known).
      rewrite write_host_fresh by done. done. }
  erewrite bind_ok by exact E1.
  destruct (attributes_contents (p ++ [de_name e]) e
    (<[p ++ [de_name e] := MkInode (if de_is_dir e then Dir else File (data e))
         (default_meta (if de_is_dir e then Dir else File (data e)))]> fs)) as (fs2 & E2 & S2).
  exists fs2. split; [done|]. intros q. by rewrite S2, content_at_insert.
Qed.

Lemma unpack_entries_fresh rootfs bs l fs :
  plain fs (rootfs ++ bs) → Forall normal_name bs → NoDup (de_name <$> l) →
  Forall (λ e, normal_name (de_name e) ∧ (de_is_dir e = false → de_is_symlink e = false) ∧
               content_at fs (rootfs ++ bs ++ [de_name e]) = None) l →
  ∃ fs', for_each (unpack_entry data rootfs (text bs)) l fs = (Ok tt, fs') ∧
    (∀ e, e ∈ l → content_at fs' (rootfs ++ bs ++ [de_name e]) = Some (entry_content e)) ∧
    (∀ q, (∀ e, e ∈ l → q ≠ rootfs ++ bs ++ [de_name e]) → content_at fs' q = content_at fs q).
Proof.
  intros Hp Hb. revert fs Hp. induction l as [|e l IH]; intros fs Hp Hnd Hl; cbn [for_each].
  { exists fs. split_and!; [done|by intros ? ?%elem_of_nil|done]. }
  cbn in Hnd. apply NoDup_cons in Hnd as [Hnot Hnd]. inversion_clear Hl as [|?? (Hn & Hs & Hc) Hl'].
  destruct (unpack_entry_fresh rootfs bs e fs Hp Hb Hn Hs Hc) as (fs1 & E1 & C1).
  assert (Hdiff : ∀ e', e' ∈ l → rootfs ++ bs ++ [de_name e'] ≠ rootfs ++ bs ++ [de_name e]).
  { intros e' He' Heq. apply app_inv_head, app_inv_head in Heq. injection Heq as Heq.
    apply Hnot. apply list_elem_of_fmap. by exists e'. }
  destruct (IH fs1) as (fs2 & E2 & C2 & S2); [|done| |].
  - eapply plain_ext; [done|]. intros q k Hq. rewrite C1. rewrite decide_False; [done|].
    intros ->. apply (f_equal length) in Hq. rewrite !length_app in Hq. simpl in Hq. lia.
  - apply Forall_forall. intros e' He'. rewrite Forall_forall in Hl'. destruct (Hl' e' He') as (? & ? & ?).
    split_and!; [done..|]. rewrite C1, decide_False by auto. done.
  - exists fs2. erewrite bind_ok by exact E1. split_and!; [done| |].
    + intros e' [->|He']%elem_of_cons; [|by apply C2]. rewrite S2, C1, decide_True by (try done; intros; by apply not_eq_sym, Hdiff).
      done.
    + intros q Hq. rewrite S2, C1, decide_False; [done|apply Hq; by left|]. intros. apply Hq. by right.
Qed.

Fixpoint dir_names (t : ltree) : list string :=
  match t with
  | LNil => []
  | LFile _ r => dir_names r
  | LDir e _ r => de_name e :: dir_names r
  end.

Lemma dir_names_entry t c : c ∈ dir_names t → c ∈ de_name <$> entries_of t.
Proof. induction t; simpl; [done|..]; rewrite ?elem_of_cons; naive_solver. Qed.

Lemma tree_at_no_entry t c k : c ∉ de_name <$> entries_of t → tree_at t (c :: k) = None.
Proof.
  induction t as [|e r IH|e s _ r IH]; simpl; [done|..]; rewrite not_elem_of_cons; intros [? ?];
    rewrite decide_False by done; auto.
Qed.

Lemma tree_at_no_dir t c k : c ∉ dir_names t → k ≠ [] → tree_at t (c :: k) = None.
Proof.
  intros Hc Hk. induction t as [|e r IH|e s _ r IH]; simpl in *; [done|..].
  - case_decide; [by rewrite decide_False|auto].
  - apply not_elem_of_cons in Hc as []. rewrite decide_False by done. auto.
Qed.

Lemma tree_at_entry t e : link_free t → e ∈ entries_of t → tree_at t [de_name e] = Some (entry_content e).
Proof.
  induction t as [|f r IH|f s _ r IH]; intros Hl; simpl in *; [by intros ?%elem_of_nil|..];
    destruct_and!; intros [->|He]%elem_of_cons.
  - rewrite decide_True by done. unfold entry_content. by destruct (de_is_dir f).
  - rewrite decide_False; [auto|]. intros Heq. match goal with Hf : _ ∉ _ |- _ => apply Hf end. rewrite <- Heq.
    apply list_elem_of_fmap. by exists e.
  - rewrite decide_True by done. unfold entry_content. by destruct (de_is_dir f).
  - rewrite decide_False; [auto|]. intros Heq. match goal with Hf : _ ∉ _ |- _ => apply Hf end. rewrite <- Heq.
    apply list_elem_of_fmap. by exists e.
Qed.

Lemma dir_names_dir t c :
  link_free t → c ∈ dir_names t → ∃ e, e ∈ entries_of t ∧ de_name e = c ∧ de_is_dir e = true.
Proof.
  induction t as [|f r IH|f s _ r IH]; intros Hl; simpl in *; [by intros ?%elem_of_nil|..]; destruct_and!.
  - intros Hc. destruct IH as (e & ? & ?); [done..|]. exists e. split; [by right|done].
  - intros [->|Hc]%elem_of_cons; [exists f; split_and!; [by left|done..]|].
    destruct IH as (e & ? & ?); [done..|]. exists e. split; [by right|done].
Qed.

Lemma link_free_entries t :
  link_free t → NoDup (de_name <$> entries_of t) ∧
  Forall (λ e, normal_name (de_name e) ∧ (de_is_dir e = false → de_is_symlink e = false)) (entries_of t).
Proof.
  induction t as [|e r IH|e s _ r IH]; intros Hl; cbn in *; destruct_and?; [split; constructor|..];
    destruct IH; try done; split; constructor; try done; split; try done; congruence.
Qed.

(** [fs'] differs from [fs] below [R] only, where it has [f]. *)
Record filled (R : path) (D : path → Prop) (f : path → option content) (fs fs' : HostFs) : Prop := {
  filled_in k : D k → content_at fs' (R ++ k) = f k;
  filled_out q : (∀ k, D k → q ≠ R ++ k) → content_at fs' q = content_at fs q;
}.

(** Below the sub-directories of [t]. *)
Definition in_subs (t : ltree) (k : path) : Prop :=
  match k with
  | c :: _ :: _ => c ∈ dir_names t
  | _ => False
  end.

Definition subs_unpack (rootfs : path) (t : ltree) : Prop :=
  ∀ bs fs, plain fs (rootfs ++ bs) → Forall normal_name bs → link_free t →
    (∀ c, c ∈ dir_names t → content_at fs (rootfs ++ bs ++ [c]) = Some Dir) →
    (∀ k, in_subs t k → content_at fs (rootfs ++ bs ++ k) = None) →
    ∃ fs', unpack_subs data rootfs t (text bs) fs = (Ok tt, fs') ∧
      filled (rootfs ++ bs) (in_subs t) (tree_at t) fs fs'.

Lemma plain_filled R D f fs fs' :
  plain fs R → (∀ k, D k → k ≠ []) → filled R D f fs fs' → plain fs' R.
Proof.
  intros Hp HD Hf. eapply plain_ext; [done|]. intros q k Hq. apply (filled_out _ _ _ _ _ Hf).
  intros k' Hk' ->. apply HD in Hk'. apply (f_equal length) in Hq. rewrite !length_app in Hq.
  destruct k'; [done|]. simpl in Hq. lia.
Qed.

Lemma tree_unpack rootfs t :
  subs_unpack rootfs t →
  ∀ bs fs, plain fs (rootfs ++ bs) → Forall normal_name bs → link_free t →
    (∀ k, k ≠ [] → content_at fs (rootfs ++ bs ++ k) = None) →
    ∃ fs', unpack_tree data rootfs t (text bs) fs = (Ok tt, fs') ∧
      filled (rootfs ++ bs) (λ k, k ≠ []) (tree_at t) fs fs'.
Proof.
  intros Hsub bs fs Hp Hb Hl Hnone. destruct (link_free_entries t Hl) as [Hnd Hall].
  destruct (unpack_entries_fresh rootfs bs (entries_of t) fs Hp Hb Hnd) as (fs1 & E1 & C1 & S1).
  { eapply Forall_impl; [exact Hall|]. intros e (? & ?). split_and!; [done..|]. by apply Hnone. }
  assert (Hp1 : plain fs1 (rootfs ++ bs)).
  { eapply plain_ext; [done|]. intros q k Hq. apply S1. intros e _ ->. apply (f_equal length) in Hq.
    rewrite !length_app in Hq. simpl in Hq. lia. }
  assert (Hlong : ∀ c d k, content_at fs1 (rootfs ++ bs ++ c :: d :: k) = None).
  { intros c d k. rewrite S1; [by apply Hnone|]. intros e _ Heq. do 2 apply app_inv_head in Heq. done. }
  destruct (Hsub bs fs1 Hp1 Hb Hl) as (fs2 & E2 & F2).
  - intros c Hc. destruct (dir_names_dir t c Hl Hc) as (e & He & <- & Hd). rewrite C1 by done.
    unfold entry_content. by rewrite Hd.
  - intros [|c [|d k]]; [done..|]. intros _. apply Hlong.
  - exists fs2. unfold unpack_tree. erewrite bind_ok by exact E1. split; [done|]. constructor.
    + intros [|c [|d k]] Hk; [done| |].
      * rewrite (filled_out _ _ _ _ _ F2). 2: { intros [|? [|??]]; [done..|]. intros _ Heq. by apply app_inv_head in Heq. }
        rewrite <- app_assoc. destruct (decide (c ∈ de_name <$> entries_of t)) as [Hin|Hin].
        -- apply list_elem_of_fmap in Hin as (e & -> & He). by rewrite C1, tree_at_entry.
        -- rewrite tree_at_no_entry, S1 by (try done; intros e He Heq; do 2 apply app_inv_head in Heq; injection Heq as ->;
             apply Hin, list_elem_of_fmap; by exists e). by apply Hnone.
      * destruct (decide (c ∈ dir_names t)) as [Hin|Hin]; [by apply (filled_in _ _ _ _ _ F2)|].
        rewrite (filled_out _ _ _ _ _ F2). 2: { intros [|? [|??]]; [done..|]. simpl. intros Hd Heq.
          apply app_inv_head in Heq. by simplify_eq. }
        rewrite <- app_assoc, Hlong. by rewrite tree_at_no_dir.
    + intros q Hq. rewrite (filled_out _ _ _ _ _ F2), S1; [done| |].
      * intros e _. rewrite app_assoc. by apply Hq.
      * intros k Hk. apply Hq. by destruct k.
Qed.

Lemma subs_unpack_all rootfs t : subs_unpack rootfs t.
Proof.
  induction t as [|e r IH|e s IHs r IHr]; intros bs fs Hp Hb Hl Hdir Hnone.
  - exists fs. split; [done|]. constructor; [|done]. intros [|c [|d k]]; [done..|]. by intros ?%elem_of_nil.
  - cbn in Hl. destruct_and!. destruct (IH bs fs Hp Hb) as (fs' & E & F); [done..|].
    exists fs'. split; [done|]. constructor; [|by apply (filled_out _ _ _ _ _ F)].
    intros k Hk. rewrite (filled_in _ _ _ _ _ F) by done. destruct k as [|c [|d k]]; [done..|].
    simpl. rewrite decide_False; [done|]. intros ->. simpl in Hk. apply dir_names_entry in Hk. contradiction.
  - cbn in Hl. destruct Hl as (Hd & Hn & Hnot & Hls & Hlr). cbn [unpack_subs].
    assert (Hd' : de_name e ∈ dir_names (LDir e s r)) by (by left).
    rewrite sub_path_text by done.
    destruct (tree_unpack rootfs s IHs (bs ++ [de_name e]) fs) as (fs1 & E1 & F1); [|by apply normal_snoc|done| |].
    { rewrite app_assoc. apply plain_snoc; [done|by destruct Hn as (_ & _ & ? & _)|]. rewrite <- app_assoc. by apply Hdir. }
    { intros [|c k] Hk; [done|]. rewrite <- app_assoc. by apply Hnone. }
    assert (Hout : ∀ q, (∀ k, k ≠ [] → q ≠ rootfs ++ bs ++ de_name e :: k) → content_at fs1 q = content_at fs q).
    { intros q Hq. apply (filled_out _ _ _ _ _ F1). intros k Hk. rewrite <- !app_assoc. by apply Hq. }
    assert (Hr : ∀ k, in_subs r k → ∀ k', rootfs ++ bs ++ k ≠ rootfs ++ bs ++ de_name e :: k').
    { intros [|c [|d k]]; [done..|]. intros Hc k' Heq. do 2 apply app_inv_head in Heq. simplify_eq.
      simpl in Hc. apply dir_names_entry in Hc. contradiction. }
    destruct (IHr bs fs1) as (fs2 & E2 & F2); [|done|done| | |].
    { eapply plain_ext; [done|]. intros q k Hq. apply Hout. intros k' Hk' ->. apply (f_equal length) in Hq.
      rewrite !length_app in Hq. simpl in Hq. lia. }
    { intros c Hc. rewrite Hout; [apply Hdir; by right|]. intros k Hk Heq. do 2 apply app_inv_head in Heq.
      by simplify_eq. }
    { intros k Hk. rewrite Hout by (intros; by apply Hr). apply Hnone. destruct k as [|c [|d k]]; [done..|]. by right. }
    exists fs2. fold (unpack_tree data rootfs s (text (bs ++ [de_name e]))). erewrite bind_ok by exact E1.
    split; [done|]. constructor.
    + intros [|c [|d k]]; [done..|]. intros Hc. cbn [tree_at]. case_decide as Hce.
      * subst c. rewrite (filled_out _ _ _ _ _ F2).
        2: { intros k' Hk' Heq. rewrite <- !app_assoc in Heq. by eapply Hr. }
        rewrite decide_False by done. rewrite <- (filled_in _ _ _ _ _ F1) by done. by rewrite <- !app_assoc.
      * apply (filled_in _ _ _ _ _ F2). by apply elem_of_cons in Hc as [].
    + intros q Hq. rewrite (filled_out _ _ _ _ _ F2), Hout; [done| |].
      * intros [|d k] Hk; [done|]. rewrite app_assoc. apply Hq. by left.
      * intros [|c [|d k]]; [done..|]. intros Hc. apply Hq. by right.
Qed.

(** Unpacking a link-free tree below an empty directory leaves there exactly what
    the tree has, and changes nothing elsewhere. *)
Lemma unpack_tree_exact rootfs t fs :
  plain fs rootfs → link_free t → (∀ k, k ≠ [] → content_at fs (rootfs ++ k) = None) →
  ∃ fs', unpack_tree data rootfs t EmptyString fs = (Ok tt, fs') ∧
    filled rootfs (λ k, k ≠ []) (tree_at t) fs fs'.
Proof.
  intros Hp Hl Hnone.
  destruct (tree_unpack rootfs t (subs_unpack_all rootfs t) [] fs) as (fs' & E & F);
    rewrite ?app_nil_r in *; [done|constructor|done|done|]. by exists fs'.
Qed.

End trees.
