(* ===== verification/ConvertTermination.v ===== *)
(** * Termination of the conversion

    The recursion over directories ends: each step lengthens the path, and no key of
    the index is longer than the longest path of the archive with a slash.  A
    directory without a name breaks this. *)

From stdpp Require Import base gmap strings list.
From Stdlib Require Import ZArith Ascii Lia.
From S2P Require Import Prelude Strs Utf8 Crates Node Fs Worklist Store StoreFacts.
From S2P Require Import OciTypes Puller Archive Convert ConvertSpec.

Lemma trim_end_length s c : String.length (trim_end_matches s c) ≤ String.length s.
Proof.
  destruct (trim_end_split s c) as [<-|[r Hr]]; [done|]. rewrite Hr at 2. rewrite str_length_app. lia.
Qed.

Lemma split_path_length p : String.length (split_path p).1 ≤ String.length p.
Proof.
  unfold split_path. pose proof (trim_end_length p "/").
  destruct (rsplit_once _ _) as [[x y]|] eqn:E; simpl; [|lia].
  apply rsplit_once_Some in E. rewrite E, str_length_app in *. lia.
Qed.

Lemma map_eff_ext {W E A B} (f g : A → eff W E B) l w :
  (∀ x, x ∈ l → ∀ w, f x w = g x w) → map_eff f l w = map_eff g l w.
Proof.
  revert w. induction l as [|x l IH]; intros w Hx; simpl; [done|].
  unfold mbind, eff_bind. rewrite Hx by (by left). destruct (g x w) as [[y|e] w1]; [|done].
  rewrite IH; [done|]. intros. apply Hx. by right.
Qed.

Lemma map_eff_not {W E A B} (e : E) (f : A → eff W E B) l w :
  (∀ x, x ∈ l → ∀ w, (f x w).1 ≠ Err e) → (map_eff f l w).1 ≠ Err e.
Proof.
  revert w. induction l as [|x l IH]; intros w Hx; simpl; [done|].
  unfold mbind, eff_bind. assert (Hx1 := Hx x ltac:(by left) w). revert Hx1.
  destruct (f x w) as [[y|e'] w1]; intros Hx1; [|simpl in *; congruence].
  assert (Hr : (map_eff f l w1).1 ≠ Err e) by (apply IH; intros; apply Hx; by right). revert Hr.
  destruct (map_eff f l w1) as [[] ?]; simpl; congruence.
Qed.

Section terminate.
Context `{Hex, Sha2, Rkyv DagNode, EntryJson, LayerTar, GzDecoder, ZstdDecoder}.

Lemma oci_store_fuel {A} (m : store_eff A) w : (oci_store m w).1 ≠ Err OciError.OutOfFuel.
Proof. unfold oci_store, map_err_eff. by destruct (m w) as [[]]. Qed.

Lemma bind_fuel {A B} (m : oci_store_eff A) (f : A → oci_store_eff B) w :
  (m w).1 ≠ Err OciError.OutOfFuel → (∀ x w, (f x w).1 ≠ Err OciError.OutOfFuel) →
  ((m ≫= f) w).1 ≠ Err OciError.OutOfFuel.
Proof. intros Hm Hf. unfold mbind, eff_bind. revert Hm. destruct (m w) as [[x|e] w1]; [intros _; apply Hf|simpl; congruence]. Qed.

(** ** The recursion *)

Lemma store_trees_fuel L fuel fuel' dir_index entries p w :
  named_dirs entries → (∀ k, k ∈ dom dir_index → String.length k < L) →
  0 < fuel → L < String.length p + fuel → fuel ≤ fuel' →
  store_trees fuel' dir_index entries p w = store_trees fuel dir_index entries p w ∧
  (store_trees fuel dir_index entries p w).1 ≠ Err OciError.OutOfFuel.
Proof.
  intros Hn Hk. revert fuel' p w. induction fuel as [|fuel IH]; intros fuel' p w Hpos HL Hle; [lia|].
  destruct fuel' as [|fuel']; [lia|]. cbn [store_trees]. fold (child_entries dir_index entries p).
  assert (Hsub : ∀ e, e ∈ child_entries dir_index entries p → de_is_dir e = true → ∀ w,
    store_trees fuel' dir_index entries (sub_path p (de_name e)) w =
    store_trees fuel dir_index entries (sub_path p (de_name e)) w ∧
    (store_trees fuel dir_index entries (sub_path p (de_name e)) w).1 ≠ Err OciError.OutOfFuel).
  { intros e He Hd w1. pose proof (sub_path_longer p (de_name e) (Hn e (child_entries_in _ _ _ _ He) Hd)).
    apply IH; [|lia..]. destruct fuel; [|lia]. rewrite child_entries_long in He; [by apply elem_of_nil in He|].
    intros k ?%Hk. lia. }
  split.
  - unfold mbind, eff_bind. erewrite map_eff_ext; [done|]. intros e He w1. simpl.
    destruct (de_is_dir e) eqn:Ed; [|done]. by apply Hsub.
  - apply bind_fuel; [|intros; apply bind_fuel; intros; apply oci_store_fuel].
    apply map_eff_not. intros e He w1. destruct (de_is_dir e) eqn:Ed; [by apply Hsub|done].
Qed.

(** ** The index of an archive *)

(** Paths have at most [L] bytes; directories have names. *)
Definition bounded_item (L : nat) (i : option LayerItem) : Prop :=
  ∀ item p, i = Some item → li_path item = Some p →
    String.length p ≤ L ∧ (li_type item = TDirectory → (split_path p).2 ≠ EmptyString).

Definition bounded_raw (L : nat) (r : RawEntry) : Prop :=
  String.length (r_path r) ≤ L ∧ String.length (r_parent r) ≤ L ∧ (r_is_dir r = true → r_name r ≠ EmptyString).

Lemma bounded_same L r s : same_entry r s → bounded_raw L r → bounded_raw L s.
Proof. by intros [d ->]. Qed.

Lemma io_ok {A} (o : option A) w x w' : io o w = (Ok x, w') → o = Some x ∧ w' = w.
Proof. destruct o; intros [=]; naive_solver. Qed.

Lemma extract_item_bounded L x i w x' w' :
  extract_item x i w = (Ok x', w') → bounded_item L i → Forall (bounded_raw L) (ex_raw x) →
  Forall (bounded_raw L) (ex_raw x').
Proof.
  intros E Hi Hx. unfold extract_item in E.
  apply bind_inv_ok in E as (item & w1 & [-> ->]%io_ok & E).
  apply bind_inv_ok in E as (p & w1 & [Hp ->]%io_ok & E).
  destruct (Hi item p eq_refl Hp) as [Hlen Hdir].
  destruct (skipped_path p); [by injection E as <- _|].
  do 7 (apply bind_inv_ok in E as (? & ? & _ & E)).
  destruct (split_path p) as [pa na] eqn:Es. destruct (_ && _); [by injection E as <- _|].
  apply bind_inv_ok in E as ([d m] & ? & _ & E). injection E as <- _. cbn [ex_raw].
  apply Forall_app. split; [done|]. constructor; [|constructor].
  pose proof (split_path_length p) as Hpl. rewrite Es in Hpl. simpl in Hpl, Hdir. split_and!; simpl; [done|lia|].
  intros Hd%bool_decide_eq_true. auto.
Qed.

Lemma extract_items_bounded L l x w x' w' :
  fold_eff extract_item x l w = (Ok x', w') → Forall (bounded_item L) l → Forall (bounded_raw L) (ex_raw x) →
  Forall (bounded_raw L) (ex_raw x').
Proof.
  revert x w. induction l as [|i l IH]; intros x w; simpl; [by intros [= <- _]|]. intros E Hl Hx.
  inversion_clear Hl. apply bind_inv_ok in E as (x1 & w1 & E1 & E). eapply IH; [exact E|done|].
  by eapply extract_item_bounded.
Qed.

Lemma resolve_links_bounded L x : Forall (bounded_raw L) (ex_raw x) → Forall (bounded_raw L) (resolve_links x).
Proof.
  intros Hx. destruct (resolve_links_good (λ _, True) x) as [Hs _].
  { by apply Forall_true. } { by intros k d ?. }
  revert Hx. induction Hs as [|r s rs ss Hrs _ IH]; intros Hx; [constructor|]. inversion_clear Hx.
  constructor; [by eapply bounded_same|auto].
Qed.

Definition bounded_index (L : nat) (acc : list DirectoryEntry * gmap string (list nat)) : Prop :=
  named_dirs acc.1 ∧ ∀ k, k ∈ dom acc.2 → String.length k < L.

Lemma build_entry_bounded L acc r w acc' w' :
  build_entry acc r w = (Ok acc', w') → bounded_raw L r → bounded_index (L + 2) acc → bounded_index (L + 2) acc'.
Proof.
  destruct acc as [entries idx]. intros E (Hp & Hpa & Hd) [Hn Hk]. unfold build_entry in E.
  apply bind_inv_ok in E as (d & w1 & _ & E). injection E as <- _. split; cbn [fst snd] in *.
  - intros e [He|He%list_elem_of_singleton]%elem_of_app; [by apply Hn|]. by subst.
  - intros k. unfold index_entry. destruct (r_is_dir r).
    + unfold index_default, index_push. rewrite !dom_insert_L, !elem_of_union, !elem_of_singleton.
      intros [-> |[-> |[-> |Hin]]]; [|lia|lia|by apply Hk].
      destruct (ends_with _ _); [lia|]. rewrite str_length_app. simpl. lia.
    + unfold index_push. rewrite dom_insert_L, elem_of_union, elem_of_singleton. intros [->|Hin]; [lia|by apply Hk].
Qed.

Lemma build_entries_bounded L l acc w acc' w' :
  fold_eff build_entry acc l w = (Ok acc', w') → Forall (bounded_raw L) l → bounded_index (L + 2) acc →
  bounded_index (L + 2) acc'.
Proof.
  revert acc w. induction l as [|r l IH]; intros acc w; simpl; [by intros [= <- _]|]. intros E Hl Hx.
  inversion_clear Hl. apply bind_inv_ok in E as (x1 & w1 & E1 & E). eapply IH; [exact E|done|].
  by eapply build_entry_bounded.
Qed.

Lemma extract_bounded L dec items w entries idx whs w' :
  layer_entries dec = Some items → Forall (bounded_item L) items →
  extract_tar_entries_sync dec w = (Ok (entries, idx, whs), w') → bounded_index (L + 2) (entries, idx).
Proof.
  intros Hl Hi E. unfold extract_tar_entries_sync in E. rewrite Hl in E.
  apply bind_inv_ok in E as (l & w1 & [[= <-] ->]%io_ok & E).
  apply bind_inv_ok in E as (x & w2 & E2 & E).
  apply bind_inv_ok in E as ([es ix] & w3 & E3 & E). injection E as <- <- _ _.
  eapply build_entries_bounded; [exact E3| |].
  - apply resolve_links_bounded. eapply extract_items_bounded; [exact E2|done|constructor].
  - split; [by intros e ?%elem_of_nil|]. intros k Hk. cbn in Hk. rewrite dom_empty_L in Hk. by apply not_elem_of_empty in Hk.
Qed.

(** ** Conversion of a layer *)

Lemma extract_fuel dec w : (extract_tar_entries_sync dec w).1 ≠ Err OciError.OutOfFuel.
Proof.
  assert (Hio : ∀ A (o : option A) w, (io o w).1 ≠ Err OciError.OutOfFuel) by (by intros A []).
  assert (Hret : ∀ A (x : A) w, (mret (M := oci_store_eff) x w).1 ≠ Err OciError.OutOfFuel) by done.
  assert (Hfold : ∀ A B (f : A → B → oci_store_eff A) l a w,
    (∀ a b w, (f a b w).1 ≠ Err OciError.OutOfFuel) → (fold_eff f a l w).1 ≠ Err OciError.OutOfFuel).
  { intros A B f l. induction l as [|b l IH]; intros a w0 Hf; simpl; [done|].
    apply bind_fuel; [apply Hf|]. intros. by apply IH. }
  unfold extract_tar_entries_sync. apply bind_fuel; [apply Hio|]. intros l w1. apply bind_fuel.
  - apply Hfold. intros x i w2. unfold extract_item.
    apply bind_fuel; [apply Hio|]; intros ? ?. apply bind_fuel; [apply Hio|]; intros ? ?.
    destruct (skipped_path _); [apply Hret|].
    do 5 (apply bind_fuel; [apply Hio|]; intros ? ?).
    do 2 (apply bind_fuel; [case_bool_decide; [apply Hio|apply Hret]|]; intros ? ?).
    destruct (split_path _). destruct (_ && _); [apply Hret|]. apply bind_fuel; [|intros [] ?; apply Hret].
    destruct (_ || _); [apply Hret|]. apply bind_fuel; [apply Hio|]; intros ? ?.
    apply bind_fuel; [|intros; apply Hret]. unfold store_file. apply bind_fuel; [apply oci_store_fuel|]; intros ? ?.
    apply bind_fuel; [case_decide; [apply oci_store_fuel|apply Hret]|intros; apply Hret].
  - intros x w2. apply bind_fuel; [|intros [] ?; apply Hret]. apply Hfold. intros [es ix] r w3. unfold build_entry.
    apply bind_fuel; [case_decide; [apply oci_store_fuel|apply Hret]|intros; apply Hret].
Qed.

Lemma decompress_fuel blob media_type : decompress_layer blob media_type ≠ Err OciError.OutOfFuel.
Proof.
  unfold decompress_layer. destruct (_ || _); [by destruct (zstd_decode blob)|].
  destruct (_ || _); [by destruct (gz_decode blob)|done].
Qed.

(** What follows the extraction. *)
Definition convert_rest (fuel : nat)
    (x : list DirectoryEntry * gmap string (list nat) * list WhiteoutEntry) : oci_store_eff Digest :=
  let '(entries, dir_index, whiteouts) := x in
  whiteout_digests ← map_eff (λ w, oci_store (put (whiteout_node w))) whiteouts;
  layer_digest ← store_trees fuel dir_index entries EmptyString;
  if decide (whiteout_digests = []) then mret layer_digest
  else
    layer_node ← oci_store (get_deserialized layer_digest);
    oci_store (put (MkDagNode (kind layer_node) (edges layer_node ++ whiteout_digests)
                      (inline_data layer_node))).

Lemma convert_layer_rest fuel blob media_type dec w :
  decompress_layer blob media_type = Ok dec →
  convert_layer fuel blob media_type w = (extract_tar_entries_sync dec ≫= convert_rest fuel) w.
Proof. intros Ed. unfold convert_layer. by rewrite Ed. Qed.

(** C30: converting a layer terminates, whatever the store does, when no directory of
    the archive has an empty name: with paths of at most [L] bytes the recursion is
    never deeper than [L + 3], and a larger bound gives the same result. *)
Theorem convert_layer_terminates L blob media_type fuel w :
  (∀ dec items, decompress_layer blob media_type = Ok dec → layer_entries dec = Some items →
     Forall (bounded_item L) items) →
  L + 3 ≤ fuel →
  (convert_layer fuel blob media_type w).1 ≠ Err OciError.OutOfFuel ∧
  convert_layer fuel blob media_type w = convert_layer (L + 3) blob media_type w.
Proof.
  intros Hi Hf. destruct (decompress_layer blob media_type) as [dec|e] eqn:Ed.
  2: { unfold convert_layer, mbind, eff_bind. rewrite Ed. split; [|done]. simpl. intros [= ->].
       by eapply decompress_fuel. }
  rewrite !(convert_layer_rest _ _ _ dec) by done.
  pose proof (extract_fuel dec w) as Hex. unfold mbind, eff_bind. revert Hex.
  destruct (extract_tar_entries_sync dec w) as [[[[entries idx] whs]|e] w1] eqn:Ee; intros Hex.
  2: { split; [simpl in *; congruence|done]. }
  unfold convert_rest.
  destruct (layer_entries dec) as [items|] eqn:El.
  2: { unfold extract_tar_entries_sync in Ee. by rewrite El in Ee. }
  destruct (extract_bounded L dec items w entries idx whs w1 El (Hi _ _ eq_refl El) Ee) as [Hn Hk].
  assert (Hst : ∀ w, store_trees fuel idx entries EmptyString w = store_trees (L + 3) idx entries EmptyString w ∧
                     (store_trees (L + 3) idx entries EmptyString w).1 ≠ Err OciError.OutOfFuel).
  { intros w2. apply (store_trees_fuel (L + 2)); [done..|lia|simpl; lia|lia]. }
  split.
  - apply bind_fuel; [apply map_eff_not; intros; apply oci_store_fuel|].
    intros ds w2. apply bind_fuel; [destruct (Hst w2) as [-> ?]; done|]. intros d w3.
    case_decide; [done|]. apply bind_fuel; [apply oci_store_fuel|]. intros. apply oci_store_fuel.
  - unfold mbind, eff_bind. destruct (map_eff _ _ w1) as [[ds|e] w2]; [|done]. by rewrite (proj1 (Hst w2)).
Qed.

(** ** A directory without a name *)

Lemma nameless_diverges dir_index entries e l fuel w :
  child_entries dir_index entries EmptyString = e :: l → de_is_dir e = true → de_name e = EmptyString →
  (store_trees fuel dir_index entries EmptyString w).1 = Err OciError.OutOfFuel.
Proof.
  intros Hc Hd Hn. revert w. induction fuel as [|fuel IH]; intros w; [done|]. cbn [store_trees].
  fold (child_entries dir_index entries EmptyString). rewrite Hc. cbn [map_eff]. rewrite Hd, Hn.
  change (sub_path EmptyString EmptyString) with EmptyString. unfold mbind, eff_bind. specialize (IH w). revert IH.
  destruct (store_trees fuel dir_index entries EmptyString w) as [[]]; simpl; [done|]. by intros [= ->].
Qed.

Context `{!HexLaws, !RkyvLaws DagNode}.

(** An archive whose first member is the directory [/] is never converted: for
    every bound on the recursion the conversion wants to go deeper. *)
Lemma slash_member_diverges N m ms blob media_type dec fuel w :
  decompress_layer blob media_type = Ok dec →
  layer_entries dec = Some ((λ m, Some (item_of m)) <$> (m :: ms)) →
  m_path m = "/" → m_type m = TDirectory →
  storable N w → N (DagNode.blob []) →
  (∀ m', m' ∈ m :: ms → m_is_file m' = true → N (DagNode.blob (m_data m'))) →
  (∀ e, e ∈ layer_whiteouts (m :: ms) → N (whiteout_node e)) →
  (convert_layer fuel blob media_type w).1 = Err OciError.OutOfFuel.
Proof.
  intros Hd Hl Hp Ht Hs He HN HW. rewrite (convert_layer_rest _ _ _ dec) by done.
  destruct (extract_layer N (m :: ms) dec w Hl Hs He HN) as (w1 & E1 & _ & S1 & _).
  erewrite bind_ok by exact E1. unfold convert_rest.
  destruct (put_whiteouts N (layer_whiteouts (m :: ms)) w1 S1) as (w2 & E2 & _ & S2 & _).
  { intros n (e & -> & ?)%list_elem_of_fmap. auto. }
  erewrite bind_ok by exact E2.
  destruct (layer_links_spec (m :: ms)) as [Hse _].
  assert (Hk : kept m = true) by (unfold kept, m_is_whiteout, m_is_dir; rewrite Hp, Ht; done).
  rewrite layer_raws_cons in Hse. unfold layer_raws at 1 in Hse. simpl in Hse. rewrite Hk in Hse. simpl in Hse.
  destruct (layer_links (m :: ms)) as [|r rs] eqn:El; inversion_clear Hse as [|???? [d Hr] _].
  assert (Hc : child_entries (layer_index (m :: ms)) (layer_entries_of (m :: ms)) EmptyString =
               entry_of r :: (entry_of <$> filter (λ r, r_parent r = EmptyString) rs)).
  { unfold layer_index, layer_entries_of. rewrite El, layer_children, filter_cons, decide_True; [done|].
    rewrite Hr. cbn. unfold m_parent. by rewrite Hp. }
  assert (Hst := nameless_diverges _ _ _ _ fuel w2 Hc).
  unfold mbind, eff_bind. revert Hst. destruct (store_trees _ _ _ _ w2) as [x w3]. simpl. intros ->; [done|..].
  - rewrite Hr. simpl. unfold m_is_dir. by rewrite Ht.
  - rewrite Hr. simpl. unfold m_name. by rewrite Hp.
Qed.

End terminate.
