(* ===== verification/LayerSpec.v ===== *)
(** * What unpacking a converted layer does

    Converting a layer and materialising its nodes acts on the host as unpacking the
    archive does; whiteouts that are lost, and one that leaves the target. *)

From stdpp Require Import base gmap strings list.
From Stdlib Require Import ZArith Ascii Lia.
From S2P Require Import Prelude Strs Utf8 Crates Node Fs Worklist Store StoreFacts.
From S2P Require Import OciTypes Puller Archive HostFs Convert Materialize ConvertSpec.
From S2P Require Import UnpackSpec.

(** ** Paths of members *)

Lemma split_path_text bs c :
  Forall normal_name bs → normal_name c → split_path (text (bs ++ [c])) = (text bs, c).
Proof.
  intros Hb (Hc & _ & _ & Hs). unfold split_path.
  assert (Ht : trim_end_matches c "/" = c) by (by apply trim_end_no_char).
  destruct (decide (bs = [])) as [->|Hne].
  - change (text ([] ++ [c])) with c. by rewrite Ht, rsplit_once_None.
  - unfold text. rewrite join_snoc by done.
    assert (E : join "/" bs +:+ "/" +:+ c = (join "/" bs +:+ "/") +:+ c) by apply str_app_assoc.
    rewrite E, trim_end_app, Ht, <- E by (by rewrite Ht). by rewrite (rsplit_once_app _ c "/").
Qed.

Lemma split_path_slash s : split_path (s +:+ "/") = split_path s.
Proof. unfold split_path. by rewrite trim_end_snoc. Qed.

Definition comps (m : member) : path := components (m_path m).

Record normal_member (m : member) : Prop := {
  nm_kept : kept m = true;
  nm_type : m_type m = TDirectory ∨ m_type m = TOther;
  nm_comps : comps m ≠ [];
  nm_names : Forall normal_name (comps m);
  nm_path : m_path m = text (comps m) ∨ m_path m = text (comps m) +:+ "/";
}.

Lemma member_split m bs c :
  normal_member m → comps m = bs ++ [c] → m_parent m = text bs ∧ m_name m = c.
Proof.
  intros [_ _ _ Hn Hp] Hc. rewrite Hc in *. apply Forall_app in Hn as [Hb Hn].
  inversion_clear Hn as [|?? Hc' _].
  unfold m_parent, m_name. destruct Hp as [-> | ->]; rewrite ?split_path_slash; by rewrite split_path_text.
Qed.

Lemma text_inj bs cs : Forall normal_name bs → Forall normal_name cs → text bs = text cs → bs = cs.
Proof. intros Hb Hc E. by rewrite <- (components_text bs), <- (components_text cs), E. Qed.

Lemma utf8_split_path p : utf8 p → utf8 (split_path p).1 ∧ utf8 (split_path p).2.
Proof.
  intros Hp. unfold split_path.
  assert (Ht : utf8 (trim_end_matches p "/")).
  { destruct (trim_end_split p "/") as [<-|[r Hr]]; [done|]. rewrite Hr in Hp. by apply utf8_cut in Hp as []. }
  destruct (rsplit_once _ _) as [[x y]|] eqn:E; [|done].
  apply rsplit_once_Some in E. rewrite E in Ht. by apply utf8_cut in Ht as [].
Qed.

(** ** Layers *)

(** Distinct normal paths, no links and no whiteouts, every parent listed. *)
Record normal_layer (ms : list member) : Prop := {
  nl_members : Forall normal_member ms;
  nl_distinct : NoDup (comps <$> ms);
  nl_parents m bs c : m ∈ ms → bs ≠ [] → comps m = bs ++ [c] →
    ∃ d, d ∈ ms ∧ m_is_dir d = true ∧ comps d = bs;
}.

Definition m_content (m : member) : content := if m_is_dir m then Dir else File (m_data m).

(** What a layer has at a path. *)
Definition layer_content (ms : list member) (cs : path) : option content :=
  m_content <$> head (filter (λ m, comps m = cs) ms).

Lemma layer_content_in ms m :
  NoDup (comps <$> ms) → m ∈ ms → layer_content ms (comps m) = Some (m_content m).
Proof.
  intros Hnd Hm. unfold layer_content. induction ms as [|x ms IH]; [by apply elem_of_nil in Hm|].
  cbn in Hnd. apply NoDup_cons in Hnd as [Hx Hnd]. rewrite filter_cons.
  apply elem_of_cons in Hm as [->|Hm]; [by rewrite decide_True|].
  rewrite decide_False; [by apply IH|]. intros E. apply Hx. rewrite E. apply list_elem_of_fmap. by exists m.
Qed.

Lemma layer_content_out ms cs : (∀ m, m ∈ ms → comps m ≠ cs) → layer_content ms cs = None.
Proof.
  intros Hm. unfold layer_content. destruct (filter _ ms) as [|m l] eqn:E; [done|].
  assert (Hin : m ∈ filter (λ m, comps m = cs) ms) by (rewrite E; by left).
  apply list_elem_of_filter in Hin as [? ?]. by destruct (Hm m).
Qed.

Lemma member_unique ms m m' : NoDup (comps <$> ms) → m ∈ ms → m' ∈ ms → comps m = comps m' → m = m'.
Proof.
  intros Hnd Hm Hm' E. induction ms as [|x ms IH]; [by apply elem_of_nil in Hm|].
  cbn in Hnd. apply NoDup_cons in Hnd as [Hx Hnd].
  assert (Hno : ∀ y, y ∈ ms → comps y ≠ comps x).
  { intros y Hy Ey. apply Hx. rewrite <- Ey. apply list_elem_of_fmap. by exists y. }
  apply elem_of_cons in Hm as [->|Hm], Hm' as [->|Hm']; [done| | |by apply IH].
  - by destruct (Hno m').
  - by destruct (Hno m).
Qed.

Lemma prefix_dir ms m bs k :
  normal_layer ms → m ∈ ms → bs ≠ [] → k ≠ [] → comps m = bs ++ k →
  ∃ d, d ∈ ms ∧ m_is_dir d = true ∧ comps d = bs.
Proof.
  intros Hl Hm Hb. revert m Hm. induction k as [|c k IH] using rev_ind; intros m Hm Hk E; [done|].
  destruct (decide (k = [])) as [->|Hk'].
  - by apply (nl_parents _ Hl m bs c).
  - destruct (nl_parents _ Hl m (bs ++ k) c Hm) as (d & Hd & _ & Ed); [by destruct bs|by rewrite <- app_assoc|].
    by apply (IH d).
Qed.

Section layers.
Context `{Hex, Sha2, Rkyv DagNode, EntryJson, LayerTar, GzDecoder, ZstdDecoder, SpecJson}.
Context `{!HexLaws, !RkyvLaws DagNode, !EntryJsonLaws}.

(** ** The tree of a normal layer *)

Lemma resolve_no_hardlinks i rs m :
  Forall (λ r, r_is_hardlink r = false) rs → resolve_hardlinks i rs m = (rs, m, []).
Proof.
  intros Hr. revert i. induction Hr as [|r rs Hr _ IH]; intros i; simpl; [done|]. by rewrite Hr, IH.
Qed.

Lemma normal_links ms : Forall normal_member ms → layer_links ms = raw_of <$> ms.
Proof.
  intros Hn. assert (Hr : layer_raws ms = raw_of <$> ms).
  { unfold layer_raws. induction Hn as [|m ms Hm _ IH]; simpl; [done|]. rewrite (nm_kept _ Hm). by f_equal. }
  unfold layer_links, resolve_links. cbn [ex_raw ex_digests]. rewrite Hr, resolve_no_hardlinks; [done|].
  apply Forall_fmap. eapply Forall_impl; [exact Hn|]. intros m Hm. simpl.
  destruct (nm_type _ Hm) as [-> | ->]; done.
Qed.

Definition member_entry (m : member) : DirectoryEntry := entry_of (raw_of m).

(** The members of a directory. *)
Definition siblings (ms : list member) (p : string) : list member := filter (λ m, m_parent m = p) ms.

Lemma normal_children ms p :
  Forall normal_member ms →
  child_entries (layer_index ms) (layer_entries_of ms) p = member_entry <$> siblings ms p.
Proof.
  intros Hn. unfold layer_index, layer_entries_of. rewrite layer_children, normal_links by done.
  unfold siblings. clear Hn. induction ms as [|m ms IH]; [done|]. cbn [fmap list_fmap]. rewrite !filter_cons.
  change (r_parent (raw_of m)) with (m_parent m). case_decide; [|done]. cbn [fmap list_fmap]. by f_equal.
Qed.

Section tree.
Context (ms : list member) (Hl : normal_layer ms).

Lemma sibling_comps bs m :
  Forall normal_name bs → m ∈ siblings ms (text bs) → m ∈ ms ∧ comps m = bs ++ [m_name m] ∧ normal_name (m_name m).
Proof.
  intros Hb [Hp Hm]%list_elem_of_filter. split; [done|].
  pose proof (proj1 (Forall_forall _ _) (nl_members _ Hl) m Hm) as Hn.
  destruct (comps m) as [|c cs _] eqn:E using rev_ind; [by destruct (nm_comps _ Hn)|].
  destruct (member_split m cs c Hn E) as [Hp' Hc]. pose proof (nm_names _ Hn) as Hnn. rewrite E in Hnn.
  apply Forall_app in Hnn as [Hcs Hnc]. inversion_clear Hnc as [|?? Hnc' _].
  assert (cs = bs) as -> by (apply text_inj; [done..|congruence]). by rewrite Hc.
Qed.

Lemma siblings_sub bs m c :
  m ∈ ms → comps m = bs ++ [c] → m ∈ siblings ms (text bs) ∧ m_name m = c.
Proof.
  intros Hm E. pose proof (proj1 (Forall_forall _ _) (nl_members _ Hl) m Hm) as Hn.
  destruct (member_split m bs c Hn E). split; [by apply list_elem_of_filter|done].
Qed.

Lemma siblings_NoDup bs : Forall normal_name bs → NoDup (m_name <$> siblings ms (text bs)).
Proof.
  intros Hb. assert (Hnd : NoDup (comps <$> siblings ms (text bs))).
  { eapply sublist_NoDup; [apply (nl_distinct _ Hl)|]. apply fmap_sublist, sublist_filter. }
  assert (E : comps <$> siblings ms (text bs) = (λ c, bs ++ [c]) <$> (m_name <$> siblings ms (text bs))).
  { rewrite <- list_fmap_compose. apply list_fmap_ext. intros i m Hm. apply list_elem_of_lookup_2 in Hm.
    by destruct (sibling_comps bs m Hb Hm) as (_ & ? & _). }
  rewrite E in Hnd. by eapply NoDup_fmap_1.
Qed.

Context (data : DirectoryEntry → bytes).
Hypothesis Hdata : ∀ m, m ∈ ms → m_is_dir m = false → data (member_entry m) = m_data m.

Lemma member_not_link m : m ∈ ms → m_is_symlink m = false.
Proof.
  intros Hm. pose proof (proj1 (Forall_forall _ _) (nl_members _ Hl) m Hm) as Hn.
  unfold m_is_symlink. by destruct (nm_type _ Hn) as [-> | ->].
Qed.

Lemma names_of_entries (l : list member) : de_name <$> (member_entry <$> l) = m_name <$> l.
Proof. by rewrite <- list_fmap_compose. Qed.

Lemma build_list_normal f bs l t :
  Forall normal_name bs → NoDup (m_name <$> l) → Forall (λ m, m ∈ ms ∧ normal_name (m_name m)) l →
  (∀ c s, normal_name c → f (text (bs ++ [c])) = Some s → link_free s) →
  build_list f (text bs) (member_entry <$> l) = Some t →
  link_free t ∧
  ∀ c k, tree_at data t (c :: k) =
    m ← head (filter (λ m, m_name m = c) l);
    if decide (k = []) then Some (m_content m)
    else if m_is_dir m then s ← f (text (bs ++ [c])); tree_at data s k else None.
Proof.
  intros Hb Hnd Hin Hf. revert t. induction l as [|m l IH]; intros t; cbn [fmap list_fmap build_list].
  { by intros [= <-]. }
  cbn in Hnd. apply NoDup_cons in Hnd as [Hnot Hnd]. inversion_clear Hin as [|?? [Hm Hn] Hin'].
  change (de_is_dir (member_entry m)) with (m_is_dir m). change (de_name (member_entry m)) with (m_name m).
  assert (Hno : ∀ r, build_list f (text bs) (member_entry <$> l) = Some r → m_name m ∉ de_name <$> entries_of r).
  { intros r Er. by rewrite (build_list_entries _ _ _ _ Er), names_of_entries. }
  destruct (m_is_dir m) eqn:Ed.
  - rewrite sub_path_text by done. destruct (f _) as [s|] eqn:Es; [|done]. cbn [mbind option_bind].
    destruct (build_list f _ _) as [r|] eqn:Er; [|done]. intros [= <-].
    destruct (IH Hnd Hin' r eq_refl) as [Hlr Hr]. split; [by split_and!; eauto|].
    intros c k. cbn [tree_at]. rewrite filter_cons. change (de_name (member_entry m)) with (m_name m).
    destruct (decide (c = m_name m)) as [->|Hne].
    + rewrite (decide_True (P := m_name m = m_name m)) by done. cbn. rewrite Ed, Es. unfold m_content. rewrite Ed. by repeat case_decide.
    + rewrite (decide_False (P := m_name m = c)) by congruence. apply Hr.
  - destruct (build_list f _ _) as [r|] eqn:Er; [|done]. intros [= <-].
    destruct (IH Hnd Hin' r eq_refl) as [Hlr Hr]. split.
    { split_and!; eauto. by apply member_not_link. }
    intros c k. cbn [tree_at]. rewrite filter_cons. change (de_name (member_entry m)) with (m_name m).
    destruct (decide (c = m_name m)) as [->|Hne].
    + rewrite (decide_True (P := m_name m = m_name m)) by done. cbn. unfold m_content. rewrite Ed, Hdata by done. by repeat case_decide.
    + rewrite (decide_False (P := m_name m = c)) by congruence. apply Hr.
Qed.

Lemma build_list_subs f p l t e :
  build_list f p l = Some t → e ∈ l → de_is_dir e = true → is_Some (f (sub_path p (de_name e))).
Proof.
  revert t. induction l as [|x l IH]; intros t; simpl; [by intros _ ?%elem_of_nil|].
  intros Ht [->|He]%elem_of_cons Hd; [rewrite Hd in Ht; by destruct (f _)|].
  destruct (build_list f p l) as [r|] eqn:Er; [by eapply IH|]. revert Ht.
  by destruct (de_is_dir x), (f (sub_path p (de_name x))).
Qed.

Lemma head_filter_name bs c :
  Forall normal_name bs →
  match head (filter (λ m, m_name m = c) (siblings ms (text bs))) with
  | Some m => m ∈ ms ∧ comps m = bs ++ [c]
  | None => ∀ m, m ∈ ms → comps m ≠ bs ++ [c]
  end.
Proof.
  intros Hb. destruct (filter _ _) as [|m l] eqn:E; cbn [head].
  - intros m Hm Hc. destruct (siblings_sub bs m c Hm Hc) as [Hs Hn].
    assert (Hin : m ∈ filter (λ m, m_name m = c) (siblings ms (text bs))) by (by apply list_elem_of_filter).
    rewrite E in Hin. by apply elem_of_nil in Hin.
  - assert (Hin : m ∈ filter (λ m, m_name m = c) (siblings ms (text bs))) by (rewrite E; by left).
    apply list_elem_of_filter in Hin as [Hc Hs]. destruct (sibling_comps bs m Hb Hs) as (? & ? & _). by subst.
Qed.

Lemma build_tree_normal fuel bs t :
  Forall normal_name bs → build_tree fuel (layer_index ms) (layer_entries_of ms) (text bs) = Some t →
  link_free t ∧ ∀ cs, cs ≠ [] → tree_at data t cs = layer_content ms (bs ++ cs).
Proof.
  revert bs t. induction fuel as [|fuel IH]; intros bs t Hb; [done|]. cbn [build_tree].
  rewrite normal_children by apply (nl_members _ Hl). intros Ht. pose proof Ht as Ht'.
  apply build_list_normal in Ht as [Hlf Hat]; [|done|by apply siblings_NoDup| |].
  - split; [done|]. intros [|c k]; [done|]. intros _. rewrite Hat.
    pose proof (head_filter_name bs c Hb) as Hh. destruct (head _) as [m|]; cbn [mbind option_bind].
    + destruct Hh as [Hm Hc]. case_decide as Hk.
      { subst k. rewrite <- Hc. symmetry. apply layer_content_in; [apply (nl_distinct _ Hl)|done]. }
      assert (Hnone : m_is_dir m = false → layer_content ms (bs ++ c :: k) = None).
      { intros Hd. apply layer_content_out. intros m' Hm' Hc'.
        destruct (prefix_dir ms m' (bs ++ [c]) k Hl Hm') as (d & Hd' & Hdir & Ed);
          [by destruct bs|done|by rewrite <- app_assoc|].
        assert (d = m) as -> by (apply (member_unique ms); [apply (nl_distinct _ Hl)|done..|congruence]). congruence. }
      destruct (m_is_dir m) eqn:Ed; [|by rewrite Hnone].
      destruct (build_tree fuel _ _ (text (bs ++ [c]))) as [s|] eqn:Es; cbn [mbind option_bind].
      * destruct (IH (bs ++ [c]) s) as [_ Hs]; [|done|rewrite Hs by done; by rewrite <- app_assoc].
        apply normal_snoc; [done|]. pose proof (proj1 (Forall_forall _ _) (nl_members _ Hl) m Hm) as Hn.
        pose proof (nm_names _ Hn) as Hnn. rewrite Hc in Hnn. apply Forall_app in Hnn as [_ Hnn]. by inversion Hnn.
      * exfalso. destruct (siblings_sub bs m c Hm Hc) as [Hsib Hnm].
        assert (Hsub : is_Some (build_tree fuel (layer_index ms) (layer_entries_of ms)
          (sub_path (text bs) (de_name (member_entry m))))).
        { eapply build_list_subs; [exact Ht'| |done]. apply list_elem_of_fmap. by exists m. }
        change (de_name (member_entry m)) with (m_name m) in Hsub. rewrite sub_path_text, Hnm, Es in Hsub by done.
        by destruct Hsub.
    + rewrite layer_content_out; [done|]. intros m Hm Hc. destruct k as [|d k]; [by apply (Hh m)|].
      destruct (prefix_dir ms m (bs ++ [c]) (d :: k) Hl Hm) as (x & Hx & _ & Ex);
        [by destruct bs|done|by rewrite <- app_assoc|]. by apply (Hh x).
  - apply Forall_forall. intros m Hm. by destruct (sibling_comps bs m Hb Hm) as (? & _ & ?).
  - intros c s Hc Es. apply IH in Es; [by destruct Es|]. by apply normal_snoc.
Qed.

End tree.

(** ** Contents of entries *)

(** The data of the member whose blob an entry names. *)
Definition data_of (ms : list member) (e : DirectoryEntry) : bytes :=
  default [] (m_data <$> head (filter (λ m, m_is_file m = true ∧ dig (DagNode.blob (m_data m)) = de_digest e) ms)).

Lemma node_inj N w n m : storable N w → N n → N m → dig n = dig m → n = m.
Proof.
  intros Hs Hn Hm E. destruct (st_serial _ _ Hs n Hn) as [b Hb].
  pose proof (st_inj _ _ Hs n m Hn Hm E) as Hbm. rewrite Hb in Hbm.
  apply (inj Some). rewrite <- (check_to_bytes n b Hb). by apply check_to_bytes.
Qed.

Lemma data_of_entry ms t w e data :
  storable (layer_nodes ms t) w → layer_nodes ms t (DagNode.blob data) →
  de_digest e = dig (DagNode.blob data) → data_of ms e = data.
Proof.
  intros Hs HN He. unfold data_of.
  destruct (filter _ ms) as [|m l] eqn:E; cbn [head fmap option_fmap option_map default].
  - destruct HN as [[= ->]|[(m & Hm & Hf & [= ->])|[Hw|[Ht|Hr]]]]; [done| |..]; exfalso.
    + assert (Hin : m ∈ filter (λ m, m_is_file m = true ∧ dig (DagNode.blob (m_data m)) = de_digest e) ms)
        by (by apply list_elem_of_filter).
      rewrite E in Hin. by apply elem_of_nil in Hin.
    + apply list_elem_of_fmap in Hw as ([] & ? & _); done.
    + by apply tree_nodes_not_blob in Ht.
    + done.
  - assert (Hin : m ∈ filter (λ m, m_is_file m = true ∧ dig (DagNode.blob (m_data m)) = de_digest e) ms)
      by (rewrite E; by left).
    apply list_elem_of_filter in Hin as [[Hf Hd] Hm].
    assert (Heq : DagNode.blob (m_data m) = DagNode.blob data); [|by injection Heq].
    eapply node_inj; [done| |done|congruence]. right; left. eauto.
Qed.

Lemma build_list_all P f p l t :
  Forall P l → (∀ q s, f q = Some s → tree_all P s) → build_list f p l = Some t → tree_all P t.
Proof.
  intros Hl Hf. revert t. induction Hl as [|e l He _ IH]; intros t; simpl; [by intros [= <-]|].
  destruct (de_is_dir e) eqn:Ed.
  - destruct (f _) as [s|] eqn:Es; simpl; [|done]. destruct (build_list f p l) as [r|] eqn:Er; simpl; [|done].
    intros [= <-]. split_and!; eauto.
  - destruct (build_list f p l) as [r|] eqn:Er; simpl; [|done]. intros [= <-]. split_and!; auto.
Qed.

Lemma build_tree_all P fuel dir_index entries p t :
  Forall P entries → build_tree fuel dir_index entries p = Some t → tree_all P t.
Proof.
  intros He. revert p t. induction fuel as [|fuel IH]; intros p t; simpl; [done|].
  apply build_list_all; [|exact IH]. apply Forall_forall. intros e Hin%child_entries_in. by eapply Forall_forall in He.
Qed.

Lemma build_list_depth f p l t n :
  (∀ q s, f q = Some s → ldepth s < n) → build_list f p l = Some t → ldepth t ≤ n.
Proof.
  intros Hf. revert t. induction l as [|e l IH]; intros t; simpl; [intros [= <-]; simpl; lia|].
  destruct (de_is_dir e).
  - destruct (f _) as [s|] eqn:Es; simpl; [|done]. destruct (build_list f p l) as [r|] eqn:Er; simpl; [|done].
    intros [= <-]. simpl. specialize (IH r eq_refl). apply Hf in Es. lia.
  - destruct (build_list f p l) as [r|] eqn:Er; simpl; [|done]. intros [= <-]. simpl. by apply IH.
Qed.

Lemma build_tree_depth fuel dir_index entries p t :
  build_tree fuel dir_index entries p = Some t → ldepth t < fuel.
Proof.
  revert p t. induction fuel as [|fuel IH]; intros p t; simpl; [done|]. intros Ht.
  apply (build_list_depth _ _ _ _ fuel) in Ht; [lia|]. intros q s. apply IH.
Qed.

(** ** Conversion and materialisation *)

Lemma links_member ms r : r ∈ layer_links ms → ∃ m, m ∈ ms ∧ same_entry (raw_of m) r.
Proof.
  intros Hr. destruct (layer_links_spec ms) as [Hs _]. apply list_elem_of_lookup in Hr as [i Hi].
  destruct (Forall2_lookup_r _ _ _ _ _ Hs Hi) as (r0 & Hr0 & He). apply list_elem_of_lookup_2 in Hr0.
  apply list_elem_of_omap in Hr0 as (m & Hm & Hk). destruct (kept m); simplify_eq. by exists m.
Qed.

Lemma layer_good ms fuel t w :
  Forall (λ m, utf8 (m_path m)) ms → layer_tree fuel ms = Some t →
  storable (layer_nodes ms t) w → Forall (file_entry (layer_nodes ms t) w) (layer_entries_of ms) →
  tree_all (good_entry w (data_of ms)) t.
Proof.
  intros Hu Ht Hs Hf. eapply build_tree_all; [|exact Ht]. apply Forall_forall. intros e He.
  rewrite Forall_forall in Hf. destruct (Hf e He) as (data & HN & Hd & Hh). split.
  - unfold layer_entries_of in He. apply list_elem_of_fmap in He as (r & -> & Hr).
    apply links_member in Hr as (m & Hm & d & ->). rewrite Forall_forall in Hu.
    by apply utf8_split_path, Hu.
  - rewrite (data_of_entry ms t w e data), Hd by done. by apply (holds_file (layer_nodes ms t)).
Qed.

Lemma whiteouts_utf8 ms : Forall (λ m, utf8 (m_path m)) ms → Forall utf8_whiteout (layer_whiteouts ms).
Proof.
  intros Hu. apply Forall_forall. intros e (m & Hm & He)%list_elem_of_omap.
  destruct (_ && _); simplify_eq. rewrite Forall_forall in Hu.
  destruct (utf8_split_path (m_path m) (Hu m Hm)) as [Hp Hn]. fold (m_parent m) (m_name m) in *.
  unfold whiteout_of. case_decide; [unfold utf8_whiteout; by case_decide|].
  assert (Hdel : utf8 (default (m_name m) (strip_prefix ".wh." (m_name m)))).
  { destruct (strip_prefix ".wh." (m_name m)) as [s|] eqn:E; [|done]. simpl.
    apply strip_prefix_Some in E. rewrite E in Hn. exact Hn. }
  unfold utf8_whiteout. case_decide; [done|]. apply utf8_app; [done|]. by apply (utf8_app "/").
Qed.


Lemma normal_whiteouts ms : normal_layer ms → layer_whiteouts ms = [].
Proof.
  intros [Hn _ _]. unfold layer_whiteouts. induction Hn as [|m ms Hm _ IH]; [done|]. simpl.
  pose proof (nm_kept _ Hm) as Hk. unfold kept in Hk. apply andb_true_iff in Hk as [-> Hk].
  apply negb_true_iff in Hk. by rewrite Hk.
Qed.

(** A file's digest stands for its data. *)
Lemma normal_data ms t w m :
  storable (layer_nodes ms t) w → m ∈ ms → normal_member m → m_is_dir m = false → m_digest m ≠ zero_digest →
  data_of ms (member_entry m) = m_data m.
Proof.
  intros Hs Hm Hn Hd Hz.
  assert (Hf : m_is_file m = true).
  { unfold m_is_file, m_is_symlink. rewrite Hd. by destruct (nm_type _ Hn) as [-> | ->]. }
  eapply data_of_entry; [exact Hs|right; left; by eauto|]. unfold member_entry, entry_of. cbn.
  rewrite decide_False by done. unfold m_digest. by rewrite Hf.
Qed.

(** C7: a layer of directories and files with distinct normal paths, every parent
    listed in any order, converted and then materialised into an empty directory,
    leaves there exactly its directories and its files with their data, and nothing
    elsewhere changes. *)
Theorem layer_unpacked ms t fuel fuel' blob media_type dec w rootfs fs :
  decompress_layer blob media_type = Ok dec →
  layer_entries dec = Some ((λ m, Some (item_of m)) <$> ms) →
  normal_layer ms → Forall (λ m, utf8 (m_path m)) ms →
  Forall (λ m, m_is_dir m = false → m_digest m ≠ zero_digest) ms →
  layer_tree fuel ms = Some t → storable (layer_nodes ms t) w → 2 * fuel ≤ fuel' →
  plain fs rootfs → (∀ k, k ≠ [] → content_at fs (rootfs ++ k) = None) →
  ∃ d w1 w2 fs', convert_layer fuel blob media_type w = (Ok d, w1) ∧
    materialize_layer fuel' d rootfs (MkMat w1 fs) = (Ok tt, MkMat w2 fs') ∧
    (∀ cs, cs ≠ [] → content_at fs' (rootfs ++ cs) = layer_content ms cs) ∧
    (∀ q, (∀ cs, cs ≠ [] → q ≠ rootfs ++ cs) → content_at fs' q = content_at fs q).
Proof.
  intros Hd Hl Hn Hu Hz Ht Hs Hf Hp Hnone.
  destruct (convert_layer_stored ms t fuel blob media_type dec w Hd Hl Ht Hs) as (w1 & E1 & G1 & S1 & L1 & F1).
  assert (Hdep : 2 * ldepth t + 2 ≤ fuel') by (apply build_tree_depth in Ht; lia).
  destruct (layer_run w1 (data_of ms) rootfs t (layer_whiteouts ms) fuel' L1) with (w := w1) (fs := fs)
    as (w2 & E2 & Hi & Hdisk); [by eapply layer_good|by apply whiteouts_utf8|done|apply L1|done|].
  assert (Hdata : ∀ m, m ∈ ms → m_is_dir m = false → data_of ms (member_entry m) = m_data m).
  { intros m Hm Hdir. rewrite Forall_forall in Hz. eapply normal_data; [done..| |done|by apply Hz].
    by apply (proj1 (Forall_forall _ _) (nl_members _ Hn)). }
  destruct (build_tree_normal ms Hn (data_of ms) Hdata fuel [] t) as [Hlf Hat]; [constructor|exact Ht|].
  destruct (unpack_tree_exact (data_of ms) rootfs t fs Hp Hlf Hnone) as (fs' & E3 & [Hin Hout]).
  exists (dig (layer_root t (layer_whiteouts ms))), w1, w2, fs'. split; [exact E1|].
  rewrite E2. unfold unpack_layer. rewrite normal_whiteouts by done. cbn [for_each].
  erewrite !bind_ok by done. rewrite E3. split_and!; [done| |done].
  intros cs Hcs. by rewrite Hin, Hat.
Qed.

End layers.

(** A host: every file lies in a directory. *)
Definition host_wf (fs : HostFs) : Prop :=
  ∀ p i, fs !! p = Some i → p ≠ [] ∧ (".." ∉ p) ∧ content_at fs (parent p) = Some Dir.

Lemma parent_cons_app (c d : string) k : ∃ k', parent (c :: d :: k) = c :: k'.
Proof. unfold parent. simpl. by eexists. Qed.

(** Above every file of the host there is an entry of the root. *)
Lemma host_top fs c k i :
  host_wf fs → fs !! (c :: k) = Some i → ∃ j, fs !! [c] = Some j ∧ (k ≠ [] → icontent j = Dir).
Proof.
  intros Hwf. revert i. induction k as [|d k IH] using rev_ind; intros i Hi; [by exists i|].
  destruct (Hwf _ _ Hi) as (_ & _ & Hp). rewrite app_comm_cons, parent_snoc in Hp.
  unfold content_at in Hp. rewrite decide_False in Hp by done.
  destruct (fs !! (c :: k)) as [j|] eqn:Ej; [|done]. simpl in Hp. simplify_eq.
  destruct (IH j eq_refl) as (j' & Hj' & Hd). exists j'. split; [done|]. intros _.
  destruct k as [|e k]; [congruence|by apply Hd].
Qed.

(** Without the entry [c] of the root and all below it. *)
Definition without (c : string) (fs : HostFs) : HostFs := filter (λ kv, head kv.1 ≠ Some c) fs.

Lemma without_wf c fs : host_wf fs → host_wf (without c fs).
Proof.
  intros Hwf p i Hp. unfold without in *. apply map_lookup_filter_Some in Hp as [Hp Hh]. simpl in Hh.
  destruct (Hwf p i Hp) as (Hne & Hdd & Hpar). split_and!; [done..|]. unfold content_at in *.
  case_decide as Hpn; [done|]. destruct (fs !! parent p) as [j|] eqn:Ej; [|done]. simpl in *. simplify_eq.
  assert (filter (λ kv : path * inode, head kv.1 ≠ Some c) fs !! parent p = Some j) as ->; [|simpl; congruence].
  apply map_lookup_filter_Some. split; [done|]. simpl. destruct p as [|a [|b p]]; [done..|].
  destruct (parent_cons_app a b p) as [k' ->]. done.
Qed.

Section top.
Context (fs : HostFs) (c : string) (i : inode).
Hypothesis (Hwf : host_wf fs) (Hi : fs !! [c] = Some i).

Lemma top_name : c ≠ "..".
Proof. destruct (Hwf _ _ Hi) as (_ & Hdd & _). set_solver. Qed.

Lemma top_content : content_at fs [c] = Some (icontent i).
Proof. unfold content_at. rewrite decide_False by done. by rewrite Hi. Qed.

Lemma resolve_top : resolve false [c] fs = (Ok [c], fs).
Proof.
  unfold resolve, MAXSYMLINKS. cbn [resolve_from walk_components]. rewrite decide_False by apply top_name.
  simpl. rewrite top_content. by destruct (icontent i).
Qed.

Lemma delete_top : icontent i ≠ Dir → delete [c] fs = without c fs.
Proof.
  intros Hn. apply map_eq. intros p. unfold without. destruct (decide (p = [c])) as [->|Hp].
  - rewrite lookup_delete_eq. symmetry. apply map_lookup_filter_None. right. intros x _. simpl. tauto.
  - rewrite lookup_delete_ne by done. destruct (fs !! p) as [x|] eqn:Ex.
    + symmetry. apply map_lookup_filter_Some. split; [done|]. simpl. destruct p as [|a k]; [done|].
      simpl. intros [= ->]. destruct (host_top fs c k x Hwf Ex) as (j & Hj & Hd).
      rewrite Hi in Hj. simplify_eq. apply Hn, Hd. by destruct k.
    + symmetry. apply map_lookup_filter_None. by left.
Qed.

Lemma filter_top :
  filter (λ kv : path * inode, kv.1 ≠ [c] ∧ below_dir [c] kv.1 = false) fs = without c fs.
Proof.
  apply map_filter_ext. intros p x Hx. simpl. destruct p as [|a k].
  { by destruct (Hwf _ _ Hx) as [? _]. }
  unfold below_dir. simpl. destruct (decide (c = a)) as [->|Hne].
  - split; [|by intros ?]. intros [Hk Hb]. by destruct k.
  - split; [|intros _]; [intros _ [= ->]; done|]. split; [by intros [= ->]|done].
Qed.

(** Whatever it is, a step of the loop removes the entry and all below it. *)
Lemma clear_step :
  (fs ← get_world; if is_dir [c] fs then remove_dir_all [c] else unlink [c]) fs = (Ok tt, without c fs).
Proof.
  unfold mbind at 1, eff_bind at 1, get_world at 1. destruct (is_dir [c] fs) eqn:Ed.
  - unfold remove_dir_all. erewrite bind_ok by apply resolve_top. unfold mbind, eff_bind, get_world.
    rewrite top_content. destruct (icontent i) eqn:Ei.
    + unfold modify_world. by rewrite filter_top.
    + exfalso. unfold is_dir, resolve, MAXSYMLINKS in Ed. cbn [resolve_from walk_components fst] in Ed.
      rewrite decide_False in Ed by apply top_name. simpl in Ed. rewrite top_content, Ei in Ed. simpl in Ed.
      by rewrite top_content, Ei in Ed.
    + unfold modify_world. by rewrite delete_top by congruence.
  - unfold unlink. erewrite bind_ok by apply resolve_top. unfold mbind, eff_bind, get_world.
    rewrite top_content. destruct (icontent i) eqn:Ei.
    + exfalso. unfold is_dir, resolve, MAXSYMLINKS in Ed. cbn [resolve_from walk_components fst] in Ed.
      rewrite decide_False in Ed by apply top_name. simpl in Ed. rewrite top_content, Ei in Ed. simpl in Ed.
      by rewrite top_content, Ei in Ed.
    + unfold modify_world. by rewrite delete_top by congruence.
    + unfold modify_world. by rewrite delete_top by congruence.
Qed.

End top.

Lemma clear_loop l fs :
  host_wf fs → NoDup l → (∀ c, c ∈ l → is_Some (fs !! [c])) →
  for_each (λ p, fs ← get_world; if is_dir p fs then remove_dir_all p else unlink p)
    ((λ c, [c]) <$> l) fs = (Ok tt, filter (λ kv, head kv.1 ∉ Some <$> l) fs).
Proof.
  revert fs. induction l as [|c l IH]; intros fs Hwf Hnd Hl; cbn [fmap list_fmap for_each].
  { f_equal. symmetry. apply map_filter_id. intros p x _ ?%elem_of_nil. done. }
  apply NoDup_cons in Hnd as [Hc Hnd]. destruct (Hl c) as [i Hi]; [by left|].
  erewrite bind_ok by (by eapply clear_step). rewrite IH; [|by apply without_wf|done|].
  - f_equal. unfold without. rewrite map_filter_filter. apply map_filter_ext. intros p x _. simpl.
    cbn [fmap list_fmap]. rewrite not_elem_of_cons. tauto.
  - intros d Hd. destruct (Hl d) as [j Hj]; [by right|]. exists j. apply map_lookup_filter_Some.
    split; [done|]. simpl. intros [= ->]. done.
Qed.

Lemma children_root fs : host_wf fs → ∃ l, children_of fs [] = (λ c, [c]) <$> l ∧ NoDup l ∧
  ∀ c, c ∈ l ↔ is_Some (fs !! [c]).
Proof.
  intros Hwf. assert (Hnd : NoDup (map_to_list fs).*1) by apply NoDup_fst_map_to_list.
  assert (Hin : ∀ q, q ∈ children_of fs [] ↔ (q ≠ [] ∧ parent q = []) ∧ is_Some (fs !! q)).
  { intros q. unfold children_of. rewrite list_elem_of_filter, list_elem_of_fmap. split.
    - intros [? ([k x] & -> & Hk%elem_of_map_to_list)]. split; [done|by exists x].
    - intros [? [x Hx]]. split; [done|]. exists (q, x). split; [done|]. by apply elem_of_map_to_list. }
  assert (Hsing : ∀ q, q ∈ children_of fs [] → q = [file_name q]).
  { intros q [[Hq Hp] _]%Hin. destruct q as [|a [|b q]]; [done..|].
    by destruct (parent_cons_app a b q) as [k' E]; rewrite E in Hp. }
  exists (file_name <$> children_of fs []). split_and!.
  - rewrite <- list_fmap_compose. rewrite <- (list_fmap_id (children_of fs [])) at 1. apply list_fmap_ext.
    intros k q Hq%list_elem_of_lookup_2. by apply Hsing.
  - apply NoDup_fmap_2_strong; [|by apply NoDup_filter]. intros x y Hx Hy E.
    rewrite (Hsing x Hx), (Hsing y Hy). by rewrite E.
  - intros c. rewrite list_elem_of_fmap. split.
    + intros (q & -> & Hq). pose proof (Hsing q Hq) as E. apply Hin in Hq as [_ Hq]. by rewrite E in Hq.
    + intros Hc. exists [c]. split; [done|]. by apply Hin.
Qed.

(** Clearing the root empties the host. *)
Lemma clear_root fs : host_wf fs → clear_dir [] fs = (Ok tt, ∅).
Proof.
  intros Hwf. unfold clear_dir. unfold mbind at 1, eff_bind at 1, get_world at 1.
  assert (is_dir [] fs = true) as -> by done.
  destruct (children_root fs Hwf) as (l & Hc & Hnd & Hl).
  assert (Hr : read_dir [] fs = (Ok ((λ c, [c]) <$> l), fs)).
  { unfold read_dir, mbind, eff_bind, resolve, get_world. simpl. unfold mret, eff_ret. do 2 f_equal.
    rewrite Hc, <- list_fmap_compose. by apply list_fmap_ext. }
  erewrite bind_ok by exact Hr. rewrite clear_loop; [|done|done|intros c; apply Hl].
  f_equal. apply map_empty. intros p. apply map_lookup_filter_None. right. intros x Hp Hn. simpl in Hn.
  destruct p as [|c k]; [by destruct (Hwf _ _ Hp) as [? _]|].
  destruct (host_top fs c k x Hwf Hp) as (j & Hj & _). apply Hn. apply list_elem_of_fmap. exists c. split; [done|]. apply Hl. by exists j.
Qed.

Section opaque.
Context `{Hex, Sha2, Rkyv DagNode, EntryJson, LayerTar, GzDecoder, ZstdDecoder, SpecJson}.
Context `{!HexLaws, !RkyvLaws DagNode, !EntryJsonLaws}.

(** An opaque directory node for the path [/] clears the root directory of the host,
    wherever the image is being unpacked: an absolute path replaces the target
    directory when it is joined to it. *)
Lemma opaque_root_empties_host fuel w rootfs fs :
  layer_stored LNil [WOpaqueDir "/"] w → 2 ≤ fuel → host_wf fs →
  ∃ w', materialize_layer fuel (dig (layer_root LNil [WOpaqueDir "/"])) rootfs (MkMat w fs) = (Ok tt, MkMat w' ∅).
Proof.
  intros Hs Hf Hwf.
  destruct (layer_run w (λ _, []) rootfs LNil [WOpaqueDir "/"] fuel Hs) with (w := w) (fs := fs)
    as (w2 & E2 & _ & _); [done|by constructor|done|apply Hs|done|].
  exists w2. rewrite E2. unfold unpack_layer. cbn [for_each unpack_whiteout].
  change (path_join rootfs "/") with ([] : path).
  erewrite bind_ok; [|erewrite bind_ok by (by apply clear_root); reflexivity]. done.
Qed.

(** ** Opaque markers in archives *)

Lemma name_in_path p : ∃ x y, p = x +:+ (split_path p).2 +:+ y.
Proof.
  assert (Ht : ∃ y, p = trim_end_matches p "/" +:+ y).
  { destruct (trim_end_split p "/") as [E|[r E]]; [exists EmptyString; by rewrite str_app_nil_r|].
    by exists (String "/" r). }
  destruct Ht as [y Ht]. unfold split_path. destruct (rsplit_once _ _) as [[x n]|] eqn:E; simpl.
  - apply rsplit_once_Some in E. exists (x +:+ "/"), y. rewrite Ht, E at 1.
    change (String "/" n) with ("/" +:+ n). by rewrite !str_app_assoc.
  - by exists EmptyString, y.
Qed.

Lemma extract_item_no_opaque x i w x' w' :
  extract_item x i w = (Ok x', w') → (∀ p, WOpaqueDir p ∉ ex_whiteouts x) → ∀ p, WOpaqueDir p ∉ ex_whiteouts x'.
Proof.
  intros E Hx. unfold extract_item in E.
  apply bind_inv_ok in E as (item & w1 & _ & E). apply bind_inv_ok in E as (p & w2 & _ & E).
  destruct (skipped_path p) eqn:Esk; [by injection E as <- _|].
  do 7 (apply bind_inv_ok in E as (? & ? & _ & E)).
  destruct (split_path p) as [pa na] eqn:Es. destruct (_ && _).
  - injection E as <- _. cbn [ex_whiteouts]. intros q [Hq|Hq%list_elem_of_singleton]%elem_of_app; [by eapply Hx|].
    unfold whiteout_of in Hq. case_decide as Hn; [|done]. destruct (name_in_path p) as (a & b & Hp).
    rewrite Es in Hp. cbn [snd] in Hp. unfold skipped_path in Esk.
    rewrite Hp, Hn, (contains_mid a ".wh..wh..opq" b ".."), !orb_true_r in Esk by done. done.
  - apply bind_inv_ok in E as ([d m] & ? & _ & E). by injection E as <- _.
Qed.

(** No archive ever yields an opaque directory: the marker's own name
    [.wh..wh..opq] contains the dots that make the converter skip a member. *)
Lemma opaque_never_recorded dec w entries idx whs w' :
  extract_tar_entries_sync dec w = (Ok (entries, idx, whs), w') → ∀ p, WOpaqueDir p ∉ whs.
Proof.
  intros E. unfold extract_tar_entries_sync in E. apply bind_inv_ok in E as (l & w1 & _ & E).
  apply bind_inv_ok in E as (x & w2 & E2 & E). apply bind_inv_ok in E as ([es ix] & w3 & _ & E).
  injection E as _ _ <- _.
  assert (Hf : ∀ l x0 w0, fold_eff extract_item x0 l w0 = (Ok x, w2) →
    (∀ p, WOpaqueDir p ∉ ex_whiteouts x0) → ∀ p, WOpaqueDir p ∉ ex_whiteouts x).
  { clear. intros l. induction l as [|i l IH]; intros x0 w0; simpl; [by intros [= <- _]|]. intros E Hx.
    apply bind_inv_ok in E as (x1 & w1 & E1 & E). eapply IH; [exact E|]. by eapply extract_item_no_opaque. }
  eapply Hf; [exact E2|]. by intros p ?%elem_of_nil.
Qed.

(** ** Absolute whiteouts *)

Lemma components_absolute cs : Forall normal_name cs → cs ≠ [] → components ("/" +:+ text cs) = cs.
Proof.
  intros Hn Hne. pose proof (components_text cs Hn) as Hc. unfold components in *.
  change ("/" +:+ text cs) with (String "/" (text cs)). simpl. exact Hc.
Qed.

Lemma split_path_absolute bs c :
  bs ≠ [] → Forall normal_name bs → normal_name c →
  split_path ("/" +:+ text (bs ++ [c])) = ("/" +:+ text bs, c).
Proof.
  intros Hne Hb (Hc & _ & _ & Hs). unfold split_path, text. rewrite join_snoc by done.
  assert (Ht : trim_end_matches c "/" = c) by (by apply trim_end_no_char).
  assert (E : "/" +:+ join "/" bs +:+ "/" +:+ c = ("/" +:+ join "/" bs +:+ "/") +:+ c) by (by rewrite !str_app_assoc).
  rewrite E, trim_end_app, Ht, <- E by (by rewrite Ht).
  replace ("/" +:+ join "/" bs +:+ "/" +:+ c) with (("/" +:+ join "/" bs) +:+ String "/" c) by
    (change (String "/" c) with ("/" +:+ c); by rewrite !str_app_assoc).
  by rewrite rsplit_once_app.
Qed.

Lemma unlink_file fs p c data :
  plain fs p → c ≠ ".." → content_at fs (p ++ [c]) = Some (File data) →
  unlink (p ++ [c]) fs = (Ok tt, delete (p ++ [c]) fs).
Proof.
  intros Hp Hc Hf. unfold unlink. erewrite bind_ok by (apply resolve_child; [done..|by rewrite Hf]).
  unfold mbind, eff_bind, get_world. by rewrite Hf.
Qed.

Lemma rmdir_gone fs p c : plain fs p → c ≠ ".." → content_at fs (p ++ [c]) = None → (rmdir (p ++ [c]) fs).2 = fs.
Proof.
  intros Hp Hc Hn. unfold rmdir. erewrite bind_ok by (apply resolve_child; [done..|by rewrite Hn]).
  unfold mbind, eff_bind, get_world. by rewrite Hn.
Qed.

(** A whiteout whose path in the archive is absolute removes the file of the host
    at that path: the target directory is not put before it. *)
Lemma absolute_whiteout_removes m bs c data fuel fuel' blob media_type dec w rootfs fs :
  bs ≠ [] → Forall normal_name bs → normal_name c → utf8 (m_path m) → c ≠ ".wh..opq" →
  m_path m = "/" +:+ text (bs ++ [".wh." +:+ c]) → m_type m = TOther → skipped_path (m_path m) = false →
  decompress_layer blob media_type = Ok dec → layer_entries dec = Some [Some (item_of m)] →
  storable (layer_nodes [m] LNil) w → 0 < fuel → 2 * fuel ≤ fuel' →
  plain fs bs → content_at fs (bs ++ [c]) = Some (File data) →
  ∃ d w1 w2, convert_layer fuel blob media_type w = (Ok d, w1) ∧
    materialize_layer fuel' d rootfs (MkMat w1 fs) = (Ok tt, MkMat w2 (delete (bs ++ [c]) fs)).
Proof.
  intros Hne Hb Hc Hu Hopq Hp Ht Hsk Hd Hl Hs Hf Hf' Hpl Hfile.
  assert (Hdd : c ≠ "..") by (by destruct Hc as (_ & _ & ? & _)).
  assert (Hwh : normal_name (".wh." +:+ c)) by (destruct Hc as (_ & _ & _ & Hslash); by split_and!).
  assert (Hsp := split_path_absolute bs (".wh." +:+ c) Hne Hb Hwh). rewrite <- Hp in Hsp.
  assert (Hw : m_is_whiteout m = true) by (unfold m_is_whiteout, m_is_dir, m_name; by rewrite Ht, Hsp).
  assert (Hws : layer_whiteouts [m] = [WDelete ("/" +:+ text (bs ++ [c]))]).
  { unfold layer_whiteouts. cbn [omap list_omap]. rewrite Hsk, Hw. cbn [negb andb]. unfold m_parent, m_name.
    rewrite Hsp. unfold whiteout_of. cbn [fst snd]. rewrite decide_False by (intros [= E]; done).
    rewrite decide_False by done. rewrite strip_prefix_app. cbn [default]. unfold text. rewrite join_snoc by done.
    by rewrite !str_app_assoc. }
  assert (Htree : layer_tree fuel [m] = Some LNil).
  { assert (Hlinks : layer_links [m] = []) by (unfold layer_links, layer_raws, kept; simpl; by rewrite Hsk, Hw).
    unfold layer_tree, layer_index, layer_entries_of. rewrite Hlinks. destruct fuel; [lia|done]. }
  pose proof (whiteouts_utf8 [m] ltac:(by constructor)) as Huw.
  destruct (convert_layer_stored [m] LNil fuel blob media_type dec w Hd Hl Htree Hs) as (w1 & E1 & _ & _ & L1 & _).
  destruct (layer_run w1 (λ _, []) rootfs LNil (layer_whiteouts [m]) fuel' L1) with (w := w1) (fs := fs)
    as (w2 & E2 & _ & _); [done|done|simpl; lia|apply L1|done|].
  eexists _, w1, w2. split; [exact E1|]. rewrite E2, Hws. unfold unpack_layer. cbn [for_each unpack_whiteout].
  assert (Hj : path_join rootfs ("/" +:+ text (bs ++ [c])) = bs ++ [c]).
  { unfold path_join. change (is_absolute ("/" +:+ text (bs ++ [c]))) with true. cbv iota.
    apply components_absolute; [by apply normal_snoc|by destruct bs]. }
  rewrite Hj. assert (Hpl' : plain (delete (bs ++ [c]) fs) bs).
  { eapply plain_ext; [done|]. intros q k ->. unfold content_at. case_decide; [done|]. rewrite lookup_delete_ne; [done|].
    intros E%(f_equal length). rewrite !length_app in E. simpl in E. lia. }
  assert (Hgone : content_at (delete (bs ++ [c]) fs) (bs ++ [c]) = None).
  { unfold content_at. rewrite decide_False by (by destruct bs). by rewrite lookup_delete_eq. }
  assert (Hrun : (ignore_eff (unlink (bs ++ [c])) ;; ignore_eff (rmdir (bs ++ [c]))) fs
                 = (Ok tt, delete (bs ++ [c]) fs) :> result errno unit * HostFs).
  { erewrite bind_ok by (by rewrite ignore_ok, (unlink_file fs bs c data)). cbn [snd].
    rewrite ignore_ok. by rewrite rmdir_gone. }
  erewrite bind_ok; [|erewrite bind_ok by exact Hrun; reflexivity]. done.
Qed.

(** A whiteout of a directory that is not empty removes nothing. *)
Lemma directory_whiteout_ignored rootfs cs fs :
  Forall normal_name cs → plain fs (rootfs ++ cs) → children_of fs (rootfs ++ cs) ≠ [] →
  unpack_whiteout rootfs (WDelete (text cs)) fs = (Ok tt, fs).
Proof.
  intros Hn Hp Hc. unfold unpack_whiteout. rewrite path_join_text by done.
  assert (Hu : unlink (rootfs ++ cs) fs = (Err EISDIR, fs)).
  { unfold unlink. erewrite bind_ok by (by apply resolve_plain). unfold mbind, eff_bind, get_world.
    by rewrite plain_self. }
  assert (Hr : rmdir (rootfs ++ cs) fs = (Err ENOTEMPTY, fs)).
  { unfold rmdir. erewrite bind_ok by (by apply resolve_plain). unfold mbind, eff_bind, get_world.
    rewrite plain_self by done. by rewrite bool_decide_true by (by right). }
  erewrite bind_ok by (by rewrite ignore_ok, Hu). rewrite ignore_ok. cbn [snd]. by rewrite Hr.
Qed.

End opaque.
