(* ===== verification/Policy.v ===== *)
(** * Admission policy: [runtime/pullrun-policy]

    [PolicyEngine] decides whether an image may run: its signature, its bill of
    materials, its seccomp profile.  Signatures are checked by the ed25519 crate, a
    parameter; an [f32] is its bit pattern. *)

From stdpp Require Import base gmap strings list sorting.
From Stdlib Require Import ZArith Ascii Lia.
From S2P Require Import Prelude Strs Utf8 Crates Node Fs Store StoreFacts.

(** ** [f32] *)

Definition is_nan (x : Z) : bool := (0x7F800000 <? Z.land x 0x7FFFFFFF)%Z.

(** Order of the numbers; both zeros are 0. *)
Definition f32_key (x : Z) : Z :=
  if Z.testbit x 31 then (- Z.land x 0x7FFFFFFF)%Z else Z.land x 0x7FFFFFFF.

Definition f32_gt (x y : Z) : bool := negb (is_nan x) && negb (is_nan y) && (f32_key y <? f32_key x)%Z.
Definition f32_ge (x y : Z) : bool := negb (is_nan x) && negb (is_nan y) && (f32_key y <=? f32_key x)%Z.

(** [f32::max]: a NaN loses against a number. *)
Definition f32_max (x y : Z) : Z :=
  if is_nan x then y else if is_nan y then x else if f32_gt y x then y else x.

(** ** Signatures: [cosign.rs] *)

(** [verify] gives [None] or the text of the error. *)
Class Ed25519 := {
  VerifyingKey : Type;
  ed_verify : VerifyingKey → bytes → bytes → option string;
  key_from_bytes : bytes → option VerifyingKey;
}.

Class Base64 := b64_decode : string → option bytes.

Inductive CosignError :=
| Base64Error
| BadLength (n : nat)
| VerifyError (msg : string)
| KeyError.

Record SignatureBlob := MkSignatureBlob {
  sb_key_id : string;
  sb_payload : string;
  sb_signature : bytes;
}.

Record CosignKey `{Ed25519} := MkCosignKey {
  ck_id : string;
  ck_verifying_key : VerifyingKey;
}.

Section cosign.
Context `{Ed25519, Base64, Sha2}.

Definition from_base64 (id pk_b64 : string) : result CosignError CosignKey :=
  match b64_decode (trim pk_b64) with
  | None => Err Base64Error
  | Some b =>
    if decide (length b = 32) then
      match key_from_bytes b with
      | Some vk => Ok (MkCosignKey _ id vk)
      | None => Err KeyError
      end
    else Err (BadLength (length b))
  end.

Definition verify_cosign_signature (key : CosignKey) (payload signature_bytes : bytes) : result CosignError bool :=
  if decide (length signature_bytes = 64) then
    match ed_verify (ck_verifying_key key) payload signature_bytes with
    | None => Ok true
    | Some msg =>
      if contains msg "signature" || contains msg "verify" || contains msg "Invalid" then Ok false
      else Err (VerifyError msg)
    end
  else Err (BadLength (length signature_bytes)).

Definition newline_str : string := String "010" EmptyString.

Definition signature_digest_for (image_ref : string) : Digest :=
  MkDigest (sha256 (as_bytes ("pullrun.cosign.sig.v1" +:+ newline_str) ++ as_bytes image_ref ++ as_bytes newline_str)).

Definition canonical_payload (image_ref manifest_digest : string) : string :=
  "pullrun-image-v1" +:+ newline_str +:+ image_ref +:+ newline_str +:+ manifest_digest +:+ newline_str.

End cosign.

(** ** Bills of materials: [sbom.rs] *)

Record SbomComponent := MkComponent {
  sc_name : string;
  sc_version : string;
  sc_licenses : list string;
}.

Record Vulnerability := MkVulnerability {
  vu_id : string;
  vu_component : string;
  vu_cvss : Z;
}.

Record SbomBlob := MkSbomBlob {
  sbom_format : string;
  sbom_components : list SbomComponent;
  sbom_vulnerabilities : list Vulnerability;
}.

Record SbomData := MkSbomData {
  sd_components : list SbomComponent;
  sd_vulnerabilities : list Vulnerability;
  sd_licenses : list string;
}.

Inductive SbomReport :=
| SbomIsMissing
| SbomFound (d : SbomData).

(** [max_cvss]: the fold keeps the accumulator unless the next score is greater. *)
Definition cvss_step (acc : option Z) (x : Z) : option Z :=
  Some match acc with
       | None => x
       | Some y => if f32_gt x y then x else y
       end.

Definition max_cvss (d : SbomData) : option Z :=
  foldl cvss_step None (vu_cvss <$> sd_vulnerabilities d).

(** [sort] and [dedup] of strings: by their bytes. *)
Definition str_le (a b : string) : Prop := String.leb a b = true.

#[export] Instance str_le_dec a b : Decision (str_le a b).
Proof. unfold str_le. apply _. Defined.

Fixpoint dedup (l : list string) : list string :=
  match l with
  | [] => []
  | x :: l => match dedup l with
              | y :: r => if decide (x = y) then y :: r else x :: y :: r
              | [] => [x]
              end
  end.

(** ** CycloneDX documents *)

Record CdxLicense := MkCdxLicense { cdx_license_id : string; cdx_license_name : string }.
Record CdxComponent := MkCdxComponent {
  cdx_name : string;
  cdx_version : string;
  cdx_licenses : list CdxLicense;
}.
Record CdxVulnerability := MkCdxVulnerability {
  cdx_id : string;
  cdx_ratings : list (option Z);
  cdx_affects : list string;
}.
Record CycloneDx := MkCycloneDx {
  cdx_components : list CdxComponent;
  cdx_vulnerabilities : list CdxVulnerability;
}.

Class CdxJson := cdx_from_str : string → option CycloneDx.

Definition license_text (l : CdxLicense) : string :=
  if decide (cdx_license_id l = EmptyString) then cdx_license_name l else cdx_license_id l.

Definition cdx_score (ratings : list (option Z)) : Z := foldl f32_max 0%Z (omap id ratings).

Definition from_cyclonedx_json `{CdxJson} (json : string) : option SbomBlob :=
  doc ← cdx_from_str json;
  Some (MkSbomBlob "cyclonedx-1.5"
    ((λ c, MkComponent (cdx_name c) (cdx_version c)
             (filter (λ s, s ≠ EmptyString) (license_text <$> cdx_licenses c))) <$> cdx_components doc)
    ((λ v, MkVulnerability (cdx_id v) (default EmptyString (head (cdx_affects v))) (cdx_score (cdx_ratings v)))
       <$> cdx_vulnerabilities doc)).

(** ** The engine: [lib.rs] *)

Record Policy := MkPolicy {
  required_signature : bool;
  readonly_rootfs : bool;
  no_new_privileges : bool;
  seccomp_profile : option string;
  allowed_syscalls : list string;
  labels : gmap string string;
  max_cvss_score : option Z;
  trusted_signers : list string;
  deny_licenses : list string;
  require_sbom : bool;
}.

(** The texts of denials. *)
Inductive deny_reason :=
| NotSigned
| SignatureInvalid (r : string)
| NoSbom
| CvssTooHigh (highest max : Z)
| BannedLicense (l : string)
| UnknownSeccomp (p : string)
| NoTrustedKeys.

Inductive PolicyDecision :=
| Allow
| Deny (r : deny_reason).

Inductive PolicyError :=
| InvalidSignature
| SbomUnreadable
| PolicyStore (e : StoreError).

Inductive SignatureCheck :=
| SigValid
| SigMissing
| SigInvalid (reason : string).

Section engine.
Context `{Hex, Sha2, Ed25519, Rkyv SignatureBlob, Rkyv SbomBlob}.

Record PolicyEngine := MkEngine {
  default_policy : Policy;
  trusted_keys : list CosignKey;
}.

Abbreviation policy_eff := (eff World PolicyError).

Definition PolicyEngine_new (p : Policy) : PolicyEngine := MkEngine p [].
Definition with_trusted_keys (e : PolicyEngine) (keys : list CosignKey) : PolicyEngine :=
  MkEngine (default_policy e) keys.
Definition add_trusted_key (e : PolicyEngine) (key : CosignKey) : PolicyEngine :=
  MkEngine (default_policy e) (trusted_keys e ++ [key]).

(** [store.get_blob], a missing blob being no error. *)
Definition optional_blob (d : Digest) : policy_eff (option bytes) :=
  r ← try_eff (get_blob d);
  match r with
  | Ok b => mret (Some b)
  | Err (NotFound _) => mret None
  | Err e => throw (PolicyStore e)
  end.

Definition sbom_digest_for (manifest_digest : string) : Digest :=
  MkDigest (sha256 (as_bytes ("pullrun.sbom.v1" +:+ newline_str) ++ as_bytes manifest_digest)).

Definition sbom_data (blob : SbomBlob) : SbomData :=
  MkSbomData (sbom_components blob) (sbom_vulnerabilities blob)
    (dedup (merge_sort str_le (c ← sbom_components blob; sc_licenses c))).

Definition evaluate_sbom (manifest_digest : string) : policy_eff SbomReport :=
  r ← optional_blob (sbom_digest_for manifest_digest);
  match r with
  | None => mret SbomIsMissing
  | Some b => match check_archived_root (A := SbomBlob) b with
              | Some blob => mret (SbomFound (sbom_data blob))
              | None => throw SbomUnreadable
              end
  end.

(** [payload.split('\n').next()], three times. *)
Definition payload_line (n : nat) (payload : string) : string :=
  default EmptyString (split payload "010" !! n).

Definition cosign_text (e : CosignError) : string :=
  match e with
  | Base64Error => "base64 decode failed"
  | BadLength _ => "invalid signature length"
  | VerifyError msg => "ed25519 verification failed: " +:+ msg
  | KeyError => "public key malformed"
  end.

(** The loop over the trusted keys. *)
Fixpoint check_keys (keys : list CosignKey) (key_id : string) (payload signature : bytes) : SignatureCheck :=
  match keys with
  | [] => SigInvalid "no trusted key matched the signature key_id"
  | key :: keys =>
    if decide (ck_id key = key_id) then
      match verify_cosign_signature key payload signature with
      | Ok true => SigValid
      | Ok false => check_keys keys key_id payload signature
      | Err e => SigInvalid (cosign_text e)
      end
    else check_keys keys key_id payload signature
  end.

Definition check_payload (e : PolicyEngine) (blob : SignatureBlob) (image_ref manifest_digest : string)
    : SignatureCheck :=
  let payload := sb_payload blob in
  let version := payload_line 0 payload in
  let signed_ref := payload_line 1 payload in
  let signed_digest := payload_line 2 payload in
  if decide (version = "pullrun-image-v1") then
    if decide (signed_ref = image_ref) then
      if decide (signed_digest = manifest_digest) then
        check_keys (trusted_keys e) (sb_key_id blob) (as_bytes payload) (sb_signature blob)
      else SigInvalid "signature payload manifest digest does not match the image being run"
    else SigInvalid ("signature payload references " +:+ signed_ref +:+ ", not " +:+ image_ref)
  else SigInvalid "signature payload has unknown format".

Definition check_signature (e : PolicyEngine) (image_ref manifest_digest : string) : policy_eff SignatureCheck :=
  r ← optional_blob (signature_digest_for image_ref);
  match r with
  | None => mret SigMissing
  | Some b => match check_archived_root (A := SignatureBlob) b with
              | None => throw InvalidSignature
              | Some blob => mret (check_payload e blob image_ref manifest_digest)
              end
  end.

Definition has_license (d : SbomData) (banned : string) : bool :=
  existsb (λ l, eq_ignore_ascii_case l banned) (sd_licenses d).

(** The checks of a report; [None] when all pass. *)
Definition check_report (policy : Policy) (d : SbomData) : option deny_reason :=
  match
    max ← max_cvss_score policy;
    highest ← max_cvss d;
    if f32_ge highest max then Some (CvssTooHigh highest max) else None
  with
  | Some r => Some r
  | None => BannedLicense <$> head (filter (λ l, has_license d l = true) (deny_licenses policy))
  end.

Definition sbom_wanted (policy : Policy) : bool :=
  require_sbom policy || bool_decide (is_Some (max_cvss_score policy)) || bool_decide (deny_licenses policy ≠ []).

Definition seccomp_known (profile : string) : bool :=
  bool_decide (profile = "default") || bool_decide (profile = "unconfined") || starts_with profile "pullrun:".

Definition seccomp_decision (policy : Policy) : PolicyDecision :=
  match seccomp_profile policy with
  | Some profile => if seccomp_known profile then Allow else Deny (UnknownSeccomp profile)
  | None => Allow
  end.

Definition sbom_decision (policy : Policy) (manifest_digest : string) : policy_eff PolicyDecision :=
  if sbom_wanted policy then
    r ← evaluate_sbom manifest_digest;
    mret match r with
         | SbomIsMissing => if require_sbom policy then Deny NoSbom else seccomp_decision policy
         | SbomFound d => match check_report policy d with
                          | Some reason => Deny reason
                          | None => seccomp_decision policy
                          end
         end
  else mret (seccomp_decision policy).

Definition evaluate_for_image (e : PolicyEngine) (policy : Policy) (image_ref manifest_digest : string)
    : policy_eff PolicyDecision :=
  if required_signature policy then
    c ← check_signature e image_ref manifest_digest;
    match c with
    | SigValid => sbom_decision policy manifest_digest
    | SigMissing => mret (Deny NotSigned)
    | SigInvalid reason => mret (Deny (SignatureInvalid reason))
    end
  else sbom_decision policy manifest_digest.

Definition evaluate (e : PolicyEngine) (workload_policy : Policy) : PolicyDecision :=
  if required_signature workload_policy && bool_decide (length (trusted_keys e) = 0) then Deny NoTrustedKeys
  else Allow.

End engine.

(** ** Scores *)

Lemma f32_gt_nan_l x y : is_nan x = true → f32_gt x y = false.
Proof. unfold f32_gt. by intros ->. Qed.

Lemma f32_gt_nan_r x y : is_nan y = true → f32_gt x y = false.
Proof. unfold f32_gt. intros ->. simpl. by rewrite andb_false_r. Qed.

Lemma cvss_fold_nan y l : is_nan y = true → foldl cvss_step (Some y) l = Some y.
Proof.
  intros Hy. induction l as [|x l IH]; cbn [foldl]; [done|]. unfold cvss_step at 2.
  rewrite f32_gt_nan_r by done. exact IH.
Qed.

(** Among numbers the fold is the maximum. *)
Lemma cvss_fold_max y l :
  is_nan y = false → Forall (λ x, is_nan x = false) l →
  ∃ z, foldl cvss_step (Some y) l = Some z ∧ is_nan z = false ∧ (f32_key y ≤ f32_key z)%Z ∧
       ∀ x, x ∈ l → (f32_key x ≤ f32_key z)%Z.
Proof.
  intros Hy Hl. revert y Hy. induction Hl as [|x l Hx _ IH]; intros y Hy; cbn [foldl].
  { exists y. split_and!; [done..|]. by intros x ?%elem_of_nil. }
  unfold cvss_step at 2. destruct (f32_gt x y) eqn:Eg; unfold f32_gt in Eg; rewrite Hx, Hy in Eg; simpl in Eg.
  - apply Z.ltb_lt in Eg. destruct (IH x Hx) as (z & -> & Hz & Hxz & Hall). exists z.
    split_and!; [done..|lia|]. intros v [->|Hv]%elem_of_cons; [done|by apply Hall].
  - apply Z.ltb_ge in Eg. destruct (IH y Hy) as (z & -> & Hz & Hyz & Hall). exists z.
    split_and!; [done..|]. intros v [->|Hv]%elem_of_cons; [lia|by apply Hall].
Qed.

Lemma max_cvss_bound d v :
  v ∈ sd_vulnerabilities d → Forall (λ v, is_nan (vu_cvss v) = false) (sd_vulnerabilities d) →
  ∃ z, max_cvss d = Some z ∧ is_nan z = false ∧ (f32_key (vu_cvss v) ≤ f32_key z)%Z.
Proof.
  unfold max_cvss. destruct (sd_vulnerabilities d) as [|u l]; [by intros ?%elem_of_nil|]. intros Hv Hn.
  inversion_clear Hn as [|?? Hu Hl]. cbn [fmap list_fmap foldl]. unfold cvss_step at 2.
  destruct (cvss_fold_max (vu_cvss u) (vu_cvss <$> l) Hu) as (z & -> & Hz & Huz & Hall); [by apply Forall_fmap|].
  exists z. split_and!; [done..|]. apply elem_of_cons in Hv as [->|Hv]; [done|].
  apply Hall, list_elem_of_fmap. by exists v.
Qed.

(** ** Licenses *)

Lemma elem_of_dedup x l : x ∈ dedup l ↔ x ∈ l.
Proof.
  induction l as [|y l IH]; simpl; [done|]. rewrite elem_of_cons, <- IH.
  destruct (dedup l) as [|z r]; [set_solver|]. case_decide; set_solver.
Qed.

Lemma sbom_licenses blob l :
  l ∈ sd_licenses (sbom_data blob) ↔ ∃ c, c ∈ sbom_components blob ∧ l ∈ sc_licenses c.
Proof. cbn. rewrite elem_of_dedup, merge_sort_Permutation, list_elem_of_bind. naive_solver. Qed.

Section spec.
Context `{Hex, Sha2, Ed25519, Rkyv SignatureBlob, Rkyv SbomBlob, !HexLaws}.

Lemma optional_blob_spec d w o w' :
  store_inv w → optional_blob d w = (Ok o, w') →
  store_inv w' ∧ (∀ e b, blob_view w' e b → blob_view w e b) ∧ (∀ b, o = Some b → blob_view w d b).
Proof.
  intros Hi E. unfold optional_blob, mbind, eff_bind, try_eff in E.
  destruct (get_blob d w) as [r w1] eqn:Eg. apply get_blob_frame in Eg as (Hi1 & _ & Hv & Hr); [|done].
  destruct r as [b|[]]; unfold mret, eff_ret, throw in E; simplify_eq; split_and!; try done.
  intros b' [= <-]. by apply Hr.
Qed.

(** ** Signatures *)

(** The store holds a signature for the image and this manifest, made over both by
    a trusted key. *)
Definition signed (w : World) (e : PolicyEngine) (image_ref manifest_digest : string) : Prop :=
  ∃ b blob key, blob_view w (signature_digest_for image_ref) b ∧
    check_archived_root (A := SignatureBlob) b = Some blob ∧
    payload_line 0 (sb_payload blob) = "pullrun-image-v1" ∧
    payload_line 1 (sb_payload blob) = image_ref ∧
    payload_line 2 (sb_payload blob) = manifest_digest ∧
    key ∈ trusted_keys e ∧ ck_id key = sb_key_id blob ∧ length (sb_signature blob) = 64 ∧
    ed_verify (ck_verifying_key key) (as_bytes (sb_payload blob)) (sb_signature blob) = None.

Lemma check_keys_valid keys key_id payload sig :
  check_keys keys key_id payload sig = SigValid →
  ∃ key, key ∈ keys ∧ ck_id key = key_id ∧ length sig = 64 ∧ ed_verify (ck_verifying_key key) payload sig = None.
Proof.
  induction keys as [|key keys IH]; simpl; [done|].
  assert (Htail : check_keys keys key_id payload sig = SigValid →
    ∃ k, k ∈ key :: keys ∧ ck_id k = key_id ∧ length sig = 64 ∧ ed_verify (ck_verifying_key k) payload sig = None).
  { intros (k & ? & ?)%IH. exists k. split; [by right|done]. }
  case_decide as Hid; [|done]. unfold verify_cosign_signature. case_decide as Hlen; [|done].
  destruct (ed_verify _ payload sig) as [msg|] eqn:Ev.
  - by destruct (_ || _).
  - intros _. exists key. split; [by left|done].
Qed.

Lemma check_signature_valid e image_ref manifest_digest w c w' :
  store_inv w → check_signature e image_ref manifest_digest w = (Ok c, w') →
  store_inv w' ∧ (∀ d b, blob_view w' d b → blob_view w d b) ∧
  (c = SigValid → signed w e image_ref manifest_digest).
Proof.
  intros Hi E. unfold check_signature in E. apply bind_inv_ok in E as (o & w1 & E1 & E).
  apply optional_blob_spec in E1 as (Hi1 & Hv & Ho); [|done].
  destruct o as [b|]; [|unfold mret, eff_ret in E; by simplify_eq].
  destruct (check_archived_root b) as [blob|] eqn:Eb; [|done]. unfold mret, eff_ret in E. simplify_eq.
  split_and!; [done..|]. unfold check_payload. repeat (case_decide; [|done]).
  intros (key & ? & ? & ? & ?)%check_keys_valid. exists b, blob, key. split_and!; auto.
Qed.

(** ** Bills of materials *)

(** A bill of materials of the image that the policy accepts. *)
Definition sbom_accepted (w : World) (policy : Policy) (manifest_digest : string) : Prop :=
  ∃ b blob, blob_view w (sbom_digest_for manifest_digest) b ∧
    check_archived_root (A := SbomBlob) b = Some blob ∧
    (∀ c l banned, c ∈ sbom_components blob → l ∈ sc_licenses c → banned ∈ deny_licenses policy →
       eq_ignore_ascii_case l banned = false) ∧
    (∀ max v, max_cvss_score policy = Some max → is_nan max = false →
       Forall (λ v, is_nan (vu_cvss v) = false) (sbom_vulnerabilities blob) →
       v ∈ sbom_vulnerabilities blob → (f32_key (vu_cvss v) < f32_key max)%Z).

Lemma check_report_accepts policy blob :
  check_report policy (sbom_data blob) = None →
  (∀ c l banned, c ∈ sbom_components blob → l ∈ sc_licenses c → banned ∈ deny_licenses policy →
     eq_ignore_ascii_case l banned = false) ∧
  (∀ max v, max_cvss_score policy = Some max → is_nan max = false →
     Forall (λ v, is_nan (vu_cvss v) = false) (sbom_vulnerabilities blob) →
     v ∈ sbom_vulnerabilities blob → (f32_key (vu_cvss v) < f32_key max)%Z).
Proof.
  unfold check_report. intros Hr. split.
  - intros c l banned Hc Hl Hb. apply not_true_is_false. intros Heq.
    destruct (_ ≫= _); [done|]. apply fmap_None in Hr.
    destruct (filter _ (deny_licenses policy)) as [|x r] eqn:Ef; [|done].
    assert (Hin : banned ∈ filter (λ l, has_license (sbom_data blob) l = true) (deny_licenses policy)).
    { apply list_elem_of_filter. split; [|done]. unfold has_license. apply existsb_exists. exists l.
      split; [|done]. apply list_elem_of_In, sbom_licenses. eauto. }
    rewrite Ef in Hin. by apply elem_of_nil in Hin.
  - intros max v Hm Hn Hall Hv. rewrite Hm in Hr. cbn [mbind option_bind] in Hr.
    destruct (max_cvss_bound (sbom_data blob) v Hv Hall) as (z & Hz & Hzn & Hle). rewrite Hz in Hr. simpl in Hr.
    unfold f32_ge in Hr. rewrite Hn, Hzn in Hr. simpl in Hr.
    destruct (f32_key max <=? f32_key z)%Z eqn:El; [done|]. apply Z.leb_gt in El. lia.
Qed.

Lemma sbom_decision_allow policy manifest_digest w w' :
  store_inv w → sbom_decision policy manifest_digest w = (Ok Allow, w') →
  (sbom_wanted policy = true → require_sbom policy = false ∨ sbom_accepted w policy manifest_digest) ∧
  (require_sbom policy = true → sbom_accepted w policy manifest_digest) ∧
  (∀ p, seccomp_profile policy = Some p → seccomp_known p = true).
Proof.
  intros Hi E. unfold sbom_decision in E.
  assert (Hsec : seccomp_decision policy = Allow → ∀ p, seccomp_profile policy = Some p → seccomp_known p = true).
  { unfold seccomp_decision. intros Hs p Hp. rewrite Hp in Hs. by destruct (seccomp_known p). }
  destruct (sbom_wanted policy) eqn:Ew.
  - apply bind_inv_ok in E as (r & w1 & E1 & E). unfold mret, eff_ret in E. injection E as E _.
    unfold evaluate_sbom in E1. apply bind_inv_ok in E1 as (o & w2 & E2 & E1).
    apply optional_blob_spec in E2 as (Hi2 & _ & Ho); [|done]. destruct o as [b|].
    + destruct (check_archived_root b) as [blob|] eqn:Eb; [|done]. injection E1 as <- _.
      destruct (check_report policy (sbom_data blob)) eqn:Er; [done|]. apply check_report_accepts in Er as [Hl Hs].
      assert (sbom_accepted w policy manifest_digest) by (exists b, blob; split_and!; auto).
      split_and!; auto.
    + injection E1 as <- _. destruct (require_sbom policy) eqn:Ereq; [done|].
      split_and!; [by left|done|auto].
  - injection E as E _. split_and!; [done| |auto]. intros Hreq. unfold sbom_wanted in Ew. by rewrite Hreq in Ew.
Qed.

(** ** Decisions *)


Lemma split_canonical image_ref manifest_digest :
  contains_char image_ref "010" = false → contains_char manifest_digest "010" = false →
  split (canonical_payload image_ref manifest_digest) "010" = ["pullrun-image-v1"; image_ref; manifest_digest; EmptyString].
Proof.
  intros Hr Hm.
  change (canonical_payload image_ref manifest_digest) with
    ("pullrun-image-v1" +:+ String "010" (image_ref +:+ String "010" (manifest_digest +:+ String "010" EmptyString))).
  rewrite (split_app "pullrun-image-v1") by done.
  rewrite (split_app image_ref) by done. by rewrite (split_app manifest_digest) by done.
Qed.

(** The signature that is made for an image is accepted for it, and only for
    it: with the canonical payload stored and signed by a trusted key, the check
    succeeds for this manifest and fails for every other one. *)
Lemma signature_binds_manifest e key image_ref manifest_digest other sig :
  contains_char image_ref "010" = false → contains_char manifest_digest "010" = false →
  trusted_keys e = [key] → length sig = 64 →
  ed_verify (ck_verifying_key key) (as_bytes (canonical_payload image_ref manifest_digest)) sig = None →
  let blob := MkSignatureBlob (ck_id key) (canonical_payload image_ref manifest_digest) sig in
  check_payload e blob image_ref manifest_digest = SigValid ∧
  (other ≠ manifest_digest → check_payload e blob image_ref other ≠ SigValid).
Proof.
  intros Hr Hm Hk Hlen Hv. cbv zeta. unfold check_payload, payload_line. cbn [sb_payload sb_key_id sb_signature].
  rewrite split_canonical by done. cbn [lookup list_lookup default].
  split.
  - repeat (rewrite decide_True by done). rewrite Hk. cbn [check_keys]. rewrite decide_True by done.
    unfold verify_cosign_signature. by rewrite decide_True, Hv.
  - intros Ho. repeat (rewrite decide_True by done). by rewrite decide_False by (unfold id; congruence).
Qed.

(** A score that is not a number, first in the list, hides all other scores: the
    image is not denied for its scores, whatever they are. *)
Lemma nan_hides_scores policy comps v vs licenses :
  is_nan (vu_cvss v) = true → deny_licenses policy = [] →
  check_report policy (MkSbomData comps (v :: vs) licenses) = None.
Proof.
  intros Hn Hd. unfold check_report, max_cvss. cbn [sd_vulnerabilities fmap list_fmap foldl].
  unfold cvss_step at 2. rewrite cvss_fold_nan by done. rewrite Hd. cbn.
  destruct (max_cvss_score policy) as [m|]; [|done]. simpl. unfold f32_ge. by rewrite Hn.
Qed.

End spec.
