(* ===== verification/Secrets.v ===== *)
(** * Secrets and configs: [runtime/pullrun-runtime/src/secrets.rs]

    [SecretStore] keeps one file per secret, encrypted with a key of its own file,
    and one plain file per config.  AES-GCM, the random source, Unicode's class of
    alphanumeric characters and the creation time of a file are parameters. *)

From stdpp Require Import base gmap strings list sorting.
From Stdlib Require Import ZArith Ascii Lia.
From S2P Require Import Prelude Strs Utf8 Fs Store HostFs Policy.

Definition SECRET_KEY_FILE : string := "secret.key".
Definition SECRETS_DIR : string := "secrets".
Definition CONFIGS_DIR : string := "configs".
Definition NONCE_LEN : nat := 12.

(** The aes-gcm crate. *)
Class Aes256Gcm := {
  aes_encrypt : bytes → bytes → bytes → option bytes;
  aes_decrypt : bytes → bytes → bytes → option bytes;
}.

(** Encryption succeeds up to the limit of the mode; decryption undoes it. *)
Class AesLaws `{Aes256Gcm} : Prop := {
  aes_total key nonce p :
    length key = 32 → length nonce = NONCE_LEN → (Z.of_nat (length p) < 2 ^ 36)%Z → is_Some (aes_encrypt key nonce p);
  aes_roundtrip key nonce p c : aes_encrypt key nonce p = Some c → aes_decrypt key nonce c = Some p;
}.

(** [OsRng]: the bytes of the [n]-th draw. *)
Class OsRng := os_random : nat → nat → bytes.
Class OsRngLaws `{OsRng} : Prop := { os_random_length len n : length (os_random len n) = len }.

(** [char::is_alphanumeric]; below 128 it is ASCII's class. *)
Class CharClass := is_alphanumeric : Z → bool.

Definition ascii_alphanumeric (c : Z) : bool :=
  ((48 <=? c) && (c <=? 57) || (65 <=? c) && (c <=? 90) || (97 <=? c) && (c <=? 122))%Z.

Class CharClassLaws `{CharClass} : Prop :=
  { alphanumeric_ascii c : (c < 128)%Z → is_alphanumeric c = ascii_alphanumeric c }.

(** [Metadata::created]; not every file system has it. *)
Class FileCreated := file_created : inode → option Z.

Inductive SecretError :=
| BadNameLength
| BadNameChars
| BadNameStart
| SecretIo (e : errno)
| BadKeyLength (n : nat)
| EncryptError
| DecryptError
| DataTooShort
| SecretExists (name : string)
| SecretNotFound (name : string)
| SecretNotUtf8 (name : string)
| NotAFile (name : string).

Record SecretInfo := MkSecretInfo {
  si_name : string;
  si_created_at : Z;
  si_size_bytes : Z;
}.

(** The files, the random source and the key cache. *)
Record SecretWorld := MkSecretWorld {
  sw_fs : HostFs;
  sw_draws : nat;
  key_cache : option bytes;
}.

Abbreviation secret_eff := (eff SecretWorld SecretError).

Definition on_files {A} (m : host_eff A) : secret_eff A := λ w,
  let '(r, fs) := m (sw_fs w) in (map_err SecretIo r, MkSecretWorld fs (sw_draws w) (key_cache w)).

Definition secrets_dir (store_root : path) : path := path_join store_root SECRETS_DIR.
Definition configs_dir (store_root : path) : path := path_join store_root CONFIGS_DIR.
Definition key_path (store_root : path) : path := path_join store_root SECRET_KEY_FILE.

Section secrets.
Context `{Aes256Gcm, OsRng, CharClass, FileCreated}.

Definition sanitize_name (name : string) : result SecretError string :=
  if bool_decide (name = EmptyString) || (255 <? String.length name)%nat then Err BadNameLength
  else if negb (forallb (λ c, is_alphanumeric c || bool_decide (c = 45)%Z || bool_decide (c = 95)%Z
                              || bool_decide (c = 46)%Z) (chars name)) then Err BadNameChars
  else if starts_with name "." || starts_with name "-" then Err BadNameStart
  else Ok name.

Definition fill_bytes (len : nat) : secret_eff bytes := λ w,
  (Ok (os_random len (sw_draws w)), MkSecretWorld (sw_fs w) (S (sw_draws w)) (key_cache w)).

Definition set_cache (key : bytes) : secret_eff unit :=
  modify_world (λ w, MkSecretWorld (sw_fs w) (sw_draws w) (Some key)).

Definition generate_key (p : path) : secret_eff bytes :=
  key ← fill_bytes 32;
  on_files (create_dir_all (parent p)) ;;
  f ← on_files (open_new p 384);
  on_files (write_fd f key) ;;
  mret key.

Definition load_or_generate_key (store_root : path) : secret_eff bytes :=
  w ← get_world;
  match key_cache w with
  | Some key => mret key
  | None =>
    let p := key_path store_root in
    key ← (if path_exists p (sw_fs w) then
             data ← on_files (read_host p);
             if decide (length data = 32) then mret data else throw (BadKeyLength (length data))
           else generate_key p);
    set_cache key ;;
    mret key
  end.

Definition encrypt (store_root : path) (plaintext : bytes) : secret_eff bytes :=
  key ← load_or_generate_key store_root;
  nonce ← fill_bytes NONCE_LEN;
  ciphertext ← lift_result (ok_or (aes_encrypt key nonce plaintext) EncryptError);
  mret (nonce ++ ciphertext).

Definition decrypt (store_root : path) (data : bytes) : secret_eff bytes :=
  if decide (length data < NONCE_LEN) then throw DataTooShort
  else
    key ← load_or_generate_key store_root;
    lift_result (ok_or (aes_decrypt key (take NONCE_LEN data) (drop NONCE_LEN data)) DecryptError).

(** Opening the file of a new secret or config. *)
Definition open_named (p : path) (name : string) (mode : Z) : secret_eff path :=
  map_err_eff (λ e, match e with SecretIo EEXIST => SecretExists name | e => e end) (on_files (open_new p mode)).

Definition create_secret (store_root : path) (name : string) (data : bytes) : secret_eff unit :=
  name ← lift_result (sanitize_name name);
  let p := path_join (secrets_dir store_root) name in
  on_files (create_dir_all (secrets_dir store_root)) ;;
  encrypted ← encrypt store_root data;
  f ← open_named p name 384;
  on_files (write_fd f encrypted).

Definition read_secret_raw (store_root : path) (name : string) : secret_eff bytes :=
  name ← lift_result (sanitize_name name);
  encrypted ← on_files (read_host (path_join (secrets_dir store_root) name));
  decrypt store_root encrypted.

Definition read_secret (store_root : path) (name : string) : secret_eff string :=
  name ← lift_result (sanitize_name name);
  encrypted ← on_files (read_host (path_join (secrets_dir store_root) name));
  plaintext ← decrypt store_root encrypted;
  lift_result (ok_or (from_utf8 plaintext) (SecretNotUtf8 name)).

Definition timestamp_from_meta (created modified : option Z) : Z :=
  let ts := match created with Some t => Some t | None => modified end in
  match ts with
  | Some t => if (t <? 0)%Z then 0%Z else as_i64 t
  | None => 0%Z
  end.

Definition info_of (name : string) (i : inode) : option SecretInfo :=
  match icontent i with
  | File data => Some (MkSecretInfo name (timestamp_from_meta (file_created i) (Some (fmtime (imeta i))))
                        (as_i64 (Z.of_nat (length data))))
  | _ => None
  end.

Definition by_name (a b : SecretInfo) : Prop := str_le (si_name a) (si_name b).

#[local] Instance by_name_dec a b : Decision (by_name a b).
Proof. unfold by_name. apply _. Defined.

(** [list_secrets], [list_configs]: [DirEntry::metadata] does not follow links. *)
Definition list_dir (dir : path) : secret_eff (list SecretInfo) :=
  w ← get_world;
  if path_exists dir (sw_fs w) then
    entries ← on_files (read_dir dir);
    mret (merge_sort by_name
            (omap (λ p, i ← sw_fs w !! p; info_of (from_utf8_lossy (as_bytes (file_name p))) i) entries))
  else mret [].

Definition list_secrets (store_root : path) : secret_eff (list SecretInfo) := list_dir (secrets_dir store_root).
Definition list_configs (store_root : path) : secret_eff (list SecretInfo) := list_dir (configs_dir store_root).

Definition inspect_in (dir : path) (name : string) : secret_eff SecretInfo :=
  name_clean ← lift_result (sanitize_name name);
  i ← on_files (metadata (path_join dir name_clean));
  lift_result (ok_or (info_of name_clean i) (NotAFile name)).

Definition inspect_secret (store_root : path) (name : string) : secret_eff SecretInfo :=
  inspect_in (secrets_dir store_root) name.
Definition inspect_config (store_root : path) (name : string) : secret_eff SecretInfo :=
  inspect_in (configs_dir store_root) name.

Definition remove_in (dir : path) (name : string) : secret_eff unit :=
  name ← lift_result (sanitize_name name);
  let p := path_join dir name in
  w ← get_world;
  if path_exists p (sw_fs w) then on_files (unlink p) else throw (SecretNotFound name).

Definition remove_secret (store_root : path) (name : string) : secret_eff unit :=
  remove_in (secrets_dir store_root) name.
Definition remove_config (store_root : path) (name : string) : secret_eff unit :=
  remove_in (configs_dir store_root) name.

(** ** Configs *)

Definition create_config (store_root : path) (name : string) (data : bytes) : secret_eff unit :=
  name ← lift_result (sanitize_name name);
  let p := path_join (configs_dir store_root) name in
  on_files (create_dir_all (configs_dir store_root)) ;;
  f ← open_named p name 420;
  on_files (write_fd f data).

Definition read_config_raw (store_root : path) (name : string) : secret_eff bytes :=
  name ← lift_result (sanitize_name name);
  on_files (read_host (path_join (configs_dir store_root) name)).

Definition read_config (store_root : path) (name : string) : secret_eff string :=
  name ← lift_result (sanitize_name name);
  data ← on_files (read_host (path_join (configs_dir store_root) name));
  lift_result (ok_or (from_utf8 data) (SecretNotUtf8 name)).

(** ** Staging for a workload *)

(** [write_stage_file]; the last call sets the mode the file already has. *)
Definition write_stage_file (p : path) (content : bytes) : secret_eff unit :=
  f ← on_files (open_new p 384);
  on_files (write_fd f content) ;;
  on_files (chmod p 384).

Definition create_stage_dir (dir : path) : host_eff unit := create_dir_all_loop 448 (length dir) dir.

Definition stage_file (store_root : path) (bundle_id : string) (content : bytes) (name target : string)
    : secret_eff (path * string) :=
  let dest_dir := path_join (path_join (path_join (path_join store_root "bundles") bundle_id) "run") "secrets" in
  on_files (create_stage_dir dest_dir) ;;
  let file_path := path_join dest_dir name in
  write_stage_file file_path content ;;
  mret (file_path, target).

Definition custom_or (custom_target : option string) (target : string) : string :=
  match custom_target with
  | Some t => if decide (t = EmptyString) then target else t
  | None => target
  end.

Definition stage_secret (store_root : path) (bundle_id : string) (secret_content : bytes) (secret_name : string)
    (custom_target : option string) : secret_eff (path * string) :=
  stage_file store_root bundle_id secret_content secret_name
    (custom_or custom_target ("/run/secrets/" +:+ secret_name)).

Definition stage_config (store_root : path) (bundle_id : string) (config_content : bytes) (config_name : string)
    (custom_target : option string) : secret_eff (path * string) :=
  stage_file store_root bundle_id config_content config_name (custom_or custom_target ("/" +:+ config_name)).

End secrets.
