(* ===== verification/SecretsSpec.v ===== *)
(** * The secret store is a map

    Operations on a store that was empty behave as on a finite map from names to
    contents: creating never overwrites, reading gives what was stored, removing
    forgets it, and no name reaches outside the directory. *)

From stdpp Require Import base gmap strings list sorting.
From Stdlib Require Import ZArith Ascii Lia.
From S2P Require Import Prelude Strs Utf8 Fs Store HostFs Policy Secrets UnpackSpec.

(** ** Files in a plain directory *)

Lemma snoc_not_prefix {A} (p q k : list A) c : p = q ++ k → q ≠ p ++ [c].
Proof. intros -> E%(f_equal length). rewrite !length_app in E. simpl in E. lia. Qed.

Section dir.
Context (fs : HostFs) (p : path) (c : string).
Hypothesis (Hp : plain fs p) (Hc : c ≠ "..").

Lemma open_new_fresh mode :
  content_at fs (p ++ [c]) = None →
  open_new (p ++ [c]) mode fs = (Ok (p ++ [c]), <[p ++ [c] := MkInode (File []) (MkMeta mode 0 0 0 ∅)]> fs).
Proof.
  intros Hn. unfold open_new. erewrite bind_ok by (apply resolve_child; [done..|by rewrite Hn]).
  unfold mbind, eff_bind, get_world. by rewrite Hn.
Qed.

Lemma open_new_exists mode d :
  content_at fs (p ++ [c]) = Some d → open_new (p ++ [c]) mode fs = (Err EEXIST, fs).
Proof.
  intros Hn. assert (Hr : resolve false (p ++ [c]) fs = (Ok (p ++ [c]), fs)).
  { destruct Hp as [Hd Hpre]. unfold resolve, MAXSYMLINKS. cbn [resolve_from].
    rewrite walk_plain; [|done|intros q r ->; by apply (Hpre q r)]. simpl.
    rewrite decide_False by done. rewrite Hn. by destruct d. }
  unfold open_new. erewrite bind_ok by exact Hr. unfold mbind, eff_bind, get_world. by rewrite Hn.
Qed.

Lemma read_host_file data :
  content_at fs (p ++ [c]) = Some (File data) → read_host (p ++ [c]) fs = (Ok data, fs).
Proof.
  intros Hn. unfold read_host. erewrite bind_ok by (apply resolve_child; [done..|by rewrite Hn]).
  unfold mbind, eff_bind, get_world. by rewrite Hn.
Qed.

Lemma read_host_none : content_at fs (p ++ [c]) = None → read_host (p ++ [c]) fs = (Err ENOENT, fs).
Proof.
  intros Hn. unfold read_host. erewrite bind_ok by (apply resolve_child; [done..|by rewrite Hn]).
  unfold mbind, eff_bind, get_world. by rewrite Hn.
Qed.

Lemma path_exists_child :
  is_link (content_at fs (p ++ [c])) = false →
  path_exists (p ++ [c]) fs = bool_decide (is_Some (content_at fs (p ++ [c]))).
Proof. intros Hl. unfold path_exists. by rewrite resolve_child. Qed.

Lemma unlink_child data :
  content_at fs (p ++ [c]) = Some (File data) → unlink (p ++ [c]) fs = (Ok tt, delete (p ++ [c]) fs).
Proof.
  intros Hf. unfold unlink. erewrite bind_ok by (apply resolve_child; [done..|by rewrite Hf]).
  unfold mbind, eff_bind, get_world. by rewrite Hf.
Qed.

(** Below a directory that is not there. *)
Lemma resolve_missing follow d :
  content_at fs (p ++ [c]) = None → resolve follow (p ++ [c] ++ [d]) fs = (Err ENOENT, fs).
Proof.
  intros Hn. destruct Hp as [Hd Hpre]. unfold resolve, MAXSYMLINKS. cbn [resolve_from].
  rewrite walk_plain; [|done|intros q r ->; by apply (Hpre q r)]. simpl.
  rewrite decide_False by done. by rewrite Hn.
Qed.

End dir.

Lemma write_fd_content fs q data i :
  q ≠ [] → fs !! q = Some i →
  ∀ r, content_at (write_fd q data fs).2 r = if decide (r = q) then Some (File data) else content_at fs r.
Proof.
  intros Hq Hi r. unfold write_fd, modify_world. simpl. unfold content_at.
  repeat case_decide; subst; try done.
  - by rewrite lookup_alter_eq, Hi.
  - by rewrite lookup_alter_ne.
Qed.

Lemma content_at_delete fs q r :
  q ≠ [] → content_at (delete q fs) r = if decide (r = q) then None else content_at fs r.
Proof.
  intros Hq. unfold content_at. repeat case_decide; subst; try done.
  - by rewrite lookup_delete_eq.
  - by rewrite lookup_delete_ne.
Qed.

Section spec.
Context `{Aes256Gcm, OsRng, CharClass, FileCreated, !AesLaws, !OsRngLaws, !CharClassLaws}.

(** ** Names *)

Lemma sanitize_id n n' : sanitize_name n = Ok n' → n' = n.
Proof. unfold sanitize_name. repeat case_match; naive_solver. Qed.

(** An accepted name is one component of a path. *)
Lemma sanitize_normal n n' : utf8 n → sanitize_name n = Ok n' → normal_name n.
Proof.
  intros Hu Hs. unfold sanitize_name in Hs.
  destruct (bool_decide (n = EmptyString)) eqn:E1; [done|]. apply bool_decide_eq_false in E1.
  destruct (255 <? String.length n)%nat; [done|]. simpl in Hs.
  destruct (forallb _ (chars n)) eqn:Ef; [|done]. simpl in Hs.
  destruct (starts_with n ".") eqn:Ed; [done|].
  split_and!; [done|by intros ->|by intros ->|]. apply not_true_is_false. intros Hc.
  assert (Hin : byte_of_ascii "/" ∈ as_bytes n).
  { clear -Hc. induction n as [|a n IH]; [done|]. cbn in Hc. apply orb_true_iff in Hc as [Ha|Hc].
    - apply bool_decide_eq_true in Ha as ->. by left.
    - right. by apply IH. }
  apply (code_points_ascii _ (byte_of_ascii "/") Hu eq_refl) in Hin. 
  apply list_elem_of_In in Hin. apply (proj1 (forallb_forall _ _) Ef) in Hin.
  change (u8_of (byte_of_ascii "/")) with 47%Z in Hin. by rewrite alphanumeric_ascii in Hin.
Qed.

Definition good_name (n : string) : Prop := utf8 n ∧ sanitize_name n = Ok n.

Lemma good_normal n : good_name n → normal_name n.
Proof. intros [Hu Hs]. by eapply sanitize_normal. Qed.

Lemma path_join_name p n : normal_name n → path_join p n = p ++ [n].
Proof. intros Hn. apply (path_join_text p [n]). by constructor. Qed.

(** ** Representation *)

Section rep.
Context (root : path).

Definition keyf : path := root ++ [SECRET_KEY_FILE].
Definition sdir : path := root ++ [SECRETS_DIR].

Lemma keyf_ne : keyf ≠ [].
Proof. unfold keyf. by intros [_ ?]%app_eq_nil. Qed.

Lemma key_path_eq : key_path root = keyf.
Proof. by apply path_join_name. Qed.
Lemma secrets_dir_eq : secrets_dir root = sdir.
Proof. by apply path_join_name. Qed.

(** The file of a secret holds a nonce and the encrypted contents. *)
Definition holds_secret (key : option bytes) (c : option content) (d : bytes) : Prop :=
  ∃ k nonce ct, key = Some k ∧ length nonce = NONCE_LEN ∧ c = Some (File (nonce ++ ct)) ∧
    aes_decrypt k nonce ct = Some d.

Record rep_with (key : option bytes) (m : gmap string bytes) (w : SecretWorld) : Prop := {
  rep_root : plain (sw_fs w) root;
  rep_key : content_at (sw_fs w) keyf = File <$> key;
  rep_key_length k : key = Some k → length k = 32;
  rep_cache : key_cache w = None ∨ key_cache w = key;
  rep_dir : content_at (sw_fs w) sdir = Some Dir ∨
            content_at (sw_fs w) sdir = None ∧ ∀ n, content_at (sw_fs w) (sdir ++ [n]) = None;
  rep_dom n : is_Some (m !! n) → good_name n;
  rep_files n : good_name n →
    match m !! n with
    | Some d => holds_secret key (content_at (sw_fs w) (sdir ++ [n])) d
    | None => content_at (sw_fs w) (sdir ++ [n]) = None
    end;
}.

Definition rep (m : gmap string bytes) (w : SecretWorld) : Prop := ∃ key, rep_with key m w.

Lemma key_not_secret n : keyf ≠ sdir ++ [n].
Proof. unfold keyf, sdir. intros E%(f_equal length). rewrite !length_app in E. simpl in E. lia. Qed.
Lemma key_not_dir : keyf ≠ sdir.
Proof. unfold keyf, sdir. intros E%app_inv_head. done. Qed.

(** A state with the same files but for one. *)
Lemma rep_other_draws key m fs n c :
  rep_with key m (MkSecretWorld fs n c) → c = None ∨ c = key → ∀ n', rep_with key m (MkSecretWorld fs n' c).
Proof. intros [] ? n'. by constructor. Qed.

Lemma on_files_ok {A} (h : host_eff A) w x fs' :
  h (sw_fs w) = (Ok x, fs') → on_files h w = (Ok x, MkSecretWorld fs' (sw_draws w) (key_cache w)).
Proof. intros E. unfold on_files. by rewrite E. Qed.

Lemma on_files_err {A} (h : host_eff A) w e fs' :
  h (sw_fs w) = (Err e, fs') → on_files h w = (Err (SecretIo e), MkSecretWorld fs' (sw_draws w) (key_cache w)).
Proof. intros E. unfold on_files. by rewrite E. Qed.

Lemma load_key key m w :
  rep_with key m w →
  ∃ k w', load_or_generate_key root w = (Ok k, w') ∧ rep_with (Some k) m w' ∧ key_cache w' = Some k ∧
    (key = None ∨ key = Some k) ∧ (∀ q, q ≠ keyf → content_at (sw_fs w') q = content_at (sw_fs w) q).
Proof.
  intros Hrep. pose proof Hrep as [Hroot Hkey Hlen Hcache Hdir Hdom Hfiles].
  unfold load_or_generate_key. unfold mbind at 1, eff_bind at 1, get_world at 1. rewrite key_path_eq.
  destruct (key_cache w) as [k|] eqn:Ec.
  { exists k, w. destruct Hcache as [|<-]; [done|]. split_and!; auto. }
  assert (Hpe : path_exists keyf (sw_fs w) = bool_decide (is_Some (content_at (sw_fs w) keyf))).
  { apply path_exists_child; [done..|]. fold keyf. rewrite Hkey. by destruct key. }
  rewrite Hpe, Hkey. destruct key as [k|]; cbn [fmap option_fmap option_map].
  - rewrite bool_decide_true by (by eexists). exists k, (MkSecretWorld (sw_fs w) (sw_draws w) (Some k)).
    erewrite bind_ok; [|erewrite bind_ok by (apply on_files_ok, read_host_file; [done..|exact Hkey]);
      rewrite decide_True by (by apply Hlen); reflexivity].
    split_and!; [done| |done|by right|done]. constructor; try done. by right.
  - rewrite bool_decide_false by (by intros []). unfold generate_key.
    set (k := os_random 32 (sw_draws w)).
    set (fs1 := <[keyf := MkInode (File []) (MkMeta 384 0 0 0 ∅)]> (sw_fs w)).
    set (fs2 := (write_fd keyf k fs1).2).
    assert (Hc2 : ∀ q, content_at fs2 q = if decide (q = keyf) then Some (File k) else content_at (sw_fs w) q).
    { intros q. unfold fs2. rewrite (write_fd_content fs1 keyf k (MkInode (File []) (MkMeta 384 0 0 0 ∅))).
      - unfold fs1. rewrite content_at_insert by apply keyf_ne. by repeat case_decide.
      - apply keyf_ne.
      - apply lookup_insert_eq. }
    exists k, (MkSecretWorld fs2 (S (sw_draws w)) (Some k)).
    erewrite bind_ok.
    2: { erewrite bind_ok by reflexivity.
         erewrite bind_ok by (apply on_files_ok; cbn [sw_fs]; unfold keyf; rewrite parent_snoc; by apply create_dir_all_known).
         erewrite bind_ok by (apply on_files_ok; cbn [sw_fs]; by apply open_new_fresh).
         erewrite bind_ok by (apply on_files_ok; cbn [sw_fs]; reflexivity). reflexivity. }
    split_and!; [done| |done|by left|].
    + constructor; cbn [sw_fs key_cache].
      * eapply plain_ext; [exact Hroot|]. intros q r Hq. rewrite Hc2, decide_False; [done|].
        unfold keyf. by eapply snoc_not_prefix.
      * by rewrite Hc2, decide_True.
      * intros k' [= <-]. apply os_random_length.
      * by right.
      * rewrite Hc2, decide_False by (apply not_eq_sym, key_not_dir). destruct Hdir as [|[? Hn]]; [by left|right].
        split; [done|]. intros n. rewrite Hc2, decide_False; [done|]. apply not_eq_sym, key_not_secret.
      * done.
      * intros n Hn. specialize (Hfiles n Hn). rewrite Hc2, decide_False by (apply not_eq_sym, key_not_secret).
        destruct (m !! n); [|done]. by destruct Hfiles as (k' & ? & ? & ? & _).
    + intros q Hq. cbn [sw_fs]. by rewrite Hc2, decide_False.
Qed.

Lemma sdir_ne n : sdir ++ [n] ≠ [].
Proof. by intros [_ ?]%app_eq_nil. Qed.

Lemma secret_not_above q r n : root = q ++ r → q ≠ sdir ++ [n].
Proof. intros E -> . apply (f_equal length) in E. unfold sdir in E. rewrite !length_app in E. simpl in E. lia. Qed.

Lemma dir_not_secret n : sdir ≠ sdir ++ [n].
Proof. intros E%(f_equal length). rewrite length_app in E. simpl in E. lia. Qed.

Lemma sdir_plain fs : plain fs root → content_at fs sdir = Some Dir → plain fs sdir.
Proof. intros Hp Hd. by apply plain_snoc. Qed.

Lemma ensure_dir m w :
  rep m w → ∃ w', on_files (create_dir_all sdir) w = (Ok tt, w') ∧ rep m w' ∧ content_at (sw_fs w') sdir = Some Dir.
Proof.
  intros [key [Hroot Hkey Hlen Hcache Hdir Hdom Hfiles]]. destruct Hdir as [Hd|[Hd Hnone]].
  - exists (MkSecretWorld (sw_fs w) (sw_draws w) (key_cache w)).
    erewrite on_files_ok by (by apply create_dir_all_known, sdir_plain).
    split_and!; [done| |done]. exists key. constructor; try done. by left.
  - set (fs1 := <[sdir := MkInode Dir (default_meta Dir)]> (sw_fs w)).
    assert (Hc : ∀ q, content_at fs1 q = if decide (q = sdir) then Some Dir else content_at (sw_fs w) q).
    { intros q. unfold fs1. by rewrite content_at_insert by (unfold sdir; by intros [_ ?]%app_eq_nil). }
    exists (MkSecretWorld fs1 (sw_draws w) (key_cache w)).
    erewrite on_files_ok by (by apply create_dir_all_fresh). split_and!; [done| |by rewrite Hc, decide_True].
    assert (Hn : ∀ n, content_at fs1 (sdir ++ [n]) = content_at (sw_fs w) (sdir ++ [n])).
    { intros n. rewrite Hc, decide_False; [done|]. intros E%(f_equal length). rewrite !length_app in E. simpl in E. lia. }
    exists key. constructor; cbn [sw_fs key_cache]; try done.
    + eapply plain_ext; [exact Hroot|]. intros q r Hq. rewrite Hc, decide_False; [done|]. by eapply snoc_not_prefix.
    + by rewrite Hc, decide_False by apply key_not_dir.
    + left. by rewrite Hc, decide_True.
    + intros n Hg. rewrite Hn. by apply Hfiles.
Qed.

Lemma encrypt_spec m w d :
  rep m w → (Z.of_nat (length d) < 2 ^ 36)%Z →
  ∃ k nonce ct w', encrypt root d w = (Ok (nonce ++ ct), w') ∧ rep_with (Some k) m w' ∧ length nonce = NONCE_LEN ∧
    aes_decrypt k nonce ct = Some d ∧ (∀ q, q ≠ keyf → content_at (sw_fs w') q = content_at (sw_fs w) q).
Proof.
  intros [key Hrep] Hd. destruct (load_key key m w Hrep) as (k & w1 & E1 & R1 & Hk & _ & Hq).
  set (nonce := os_random NONCE_LEN (sw_draws w1)).
  assert (Hnl : length nonce = NONCE_LEN) by apply os_random_length.
  destruct (aes_total k nonce d) as [ct Ect]; [by eapply rep_key_length|done|done|].
  exists k, nonce, ct, (MkSecretWorld (sw_fs w1) (S (sw_draws w1)) (key_cache w1)).
  unfold encrypt. erewrite bind_ok by exact E1. erewrite bind_ok by reflexivity. fold nonce.
  rewrite Ect. erewrite bind_ok by reflexivity. split_and!; [done| |done|by eapply aes_roundtrip|done].
  destruct R1. by constructor.
Qed.

(** ** Operations *)

Lemma create_spec m w n d :
  rep m w → good_name n → (Z.of_nat (length d) < 2 ^ 36)%Z →
  ∃ w', match m !! n with
        | Some _ => create_secret root n d w = (Err (SecretExists n), w') ∧ rep m w'
        | None => create_secret root n d w = (Ok tt, w') ∧ rep (<[n := d]> m) w'
        end.
Proof.
  intros Hrep Hg Hd. pose proof (good_normal n Hg) as Hn. assert (Hdd : n ≠ "..") by (by destruct Hn as (_ & _ & ? & _)).
  destruct (ensure_dir m w Hrep) as (w1 & E1 & R1 & D1).
  destruct (encrypt_spec m w1 d R1 Hd) as (k & nonce & ct & w2 & E2 & R2 & Hnl & Hdec & Hq).
  pose proof R2 as [Hroot Hkey Hlen Hcache Hdir Hdom Hfiles].
  assert (Hd2 : content_at (sw_fs w2) sdir = Some Dir) by (rewrite Hq; [done|apply not_eq_sym, key_not_dir]).
  assert (Hplain : plain (sw_fs w2) sdir) by (by apply sdir_plain).
  assert (Hpre : ∀ r, create_secret root n d w = r ↔
    (f ← open_named (sdir ++ [n]) n 384; on_files (write_fd f (nonce ++ ct))) w2 = r).
  { intros r. unfold create_secret. rewrite (proj2 Hg). erewrite bind_ok by reflexivity. rewrite secrets_dir_eq.
    erewrite bind_ok by exact E1. erewrite bind_ok by exact E2. by rewrite path_join_name by done. }
  specialize (Hfiles n Hg) as Hfn. destruct (m !! n) as [d'|] eqn:Em.
  - destruct Hfn as (k' & nonce' & ct' & _ & _ & Hc & _).
    exists (MkSecretWorld (sw_fs w2) (sw_draws w2) (key_cache w2)). rewrite Hpre. split.
    + unfold open_named, map_err_eff, mbind, eff_bind. by erewrite on_files_err by (by eapply open_new_exists).
    + exists (Some k). by constructor.
  - set (fs1 := <[sdir ++ [n] := MkInode (File []) (MkMeta 384 0 0 0 ∅)]> (sw_fs w2)).
    set (fs2 := (write_fd (sdir ++ [n]) (nonce ++ ct) fs1).2).
    assert (Hc2 : ∀ q, content_at fs2 q =
      if decide (q = sdir ++ [n]) then Some (File (nonce ++ ct)) else content_at (sw_fs w2) q).
    { intros q. unfold fs2. rewrite (write_fd_content fs1 _ _ (MkInode (File []) (MkMeta 384 0 0 0 ∅))).
      - unfold fs1. rewrite content_at_insert by apply sdir_ne. by repeat case_decide.
      - apply sdir_ne.
      - apply lookup_insert_eq. }
    exists (MkSecretWorld fs2 (sw_draws w2) (key_cache w2)). rewrite Hpre. split.
    + unfold open_named, map_err_eff, mbind, eff_bind.
      erewrite on_files_ok by (by apply open_new_fresh). cbn [map_err]. reflexivity.
    + exists (Some k). constructor; cbn [sw_fs key_cache]; try done.
      * eapply plain_ext; [exact Hroot|]. intros q r Hq'. rewrite Hc2, decide_False; [done|]. by eapply secret_not_above.
      * rewrite Hc2, decide_False; [done|]. apply key_not_secret.
      * left. rewrite Hc2, decide_False; [done|]. apply dir_not_secret.
      * intros n'. destruct (decide (n' = n)) as [->|]; [done|]. rewrite lookup_insert_ne by done. apply Hdom.
      * intros n' Hg'. rewrite Hc2. destruct (decide (n' = n)) as [->|Hne].
        -- rewrite lookup_insert_eq, decide_True by done. by exists k, nonce, ct.
        -- rewrite lookup_insert_ne, decide_False by (try done; intros E%app_inv_head; by injection E). by apply Hfiles.
Qed.

Lemma read_spec m w n :
  rep m w → good_name n →
  ∃ w', rep m w' ∧
    read_secret_raw root n w = (match m !! n with Some d => Ok d | None => Err (SecretIo ENOENT) end, w').
Proof.
  intros Hrep Hg. pose proof (good_normal n Hg) as Hn. assert (Hdd : n ≠ "..") by (by destruct Hn as (_ & _ & ? & _)).
  destruct Hrep as [key R]. pose proof R as [Hroot Hkey Hlen Hcache Hdir Hdom Hfiles].
  unfold read_secret_raw. rewrite (proj2 Hg). erewrite bind_ok by reflexivity.
  rewrite secrets_dir_eq, path_join_name by done. specialize (Hfiles n Hg) as Hfn.
  destruct (m !! n) as [d|] eqn:Em.
  - destruct Hfn as (k & nonce & ct & -> & Hnl & Hc & Hdec).
    assert (Hd : content_at (sw_fs w) sdir = Some Dir) by (destruct Hdir as [|[_ Hx]]; [done|by rewrite Hx in Hc]).
    erewrite bind_ok by (apply on_files_ok; apply read_host_file; [by apply sdir_plain|done..|exact Hc]).
    unfold decrypt. rewrite decide_False by (rewrite length_app; lia).
    destruct (load_key (Some k) m (MkSecretWorld (sw_fs w) (sw_draws w) (key_cache w))) as (k' & w1 & E1 & R1 & _ & Hsame & Hq).
    { by constructor. }
    erewrite bind_ok by exact E1. exists w1. split; [by exists (Some k')|].
    assert (k' = k) as -> by (by destruct Hsame as [|[= ->]]).
    rewrite take_app_length', drop_app_length' by done. by rewrite Hdec.
  - exists (MkSecretWorld (sw_fs w) (sw_draws w) (key_cache w)). split; [by exists key; constructor|].
    assert (E : read_host (sdir ++ [n]) (sw_fs w) = (Err ENOENT, sw_fs w)).
    { destruct Hdir as [Hd|[Hd _]]; [apply read_host_none; [by apply sdir_plain|done..]|].
      unfold read_host, mbind, eff_bind. unfold sdir. rewrite <- app_assoc.
      by rewrite (resolve_missing (sw_fs w) root SECRETS_DIR Hroot ltac:(done) true n Hd). }
    by erewrite bind_err by (by apply on_files_err).
Qed.

Lemma remove_spec m w n :
  rep m w → good_name n →
  ∃ w', match m !! n with
        | Some _ => remove_secret root n w = (Ok tt, w') ∧ rep (delete n m) w'
        | None => remove_secret root n w = (Err (SecretNotFound n), w') ∧ rep m w'
        end.
Proof.
  intros [key R] Hg. pose proof (good_normal n Hg) as Hn. assert (Hdd : n ≠ "..") by (by destruct Hn as (_ & _ & ? & _)).
  pose proof R as [Hroot Hkey Hlen Hcache Hdir Hdom Hfiles]. specialize (Hfiles n Hg) as Hfn.
  assert (Hpre : remove_secret root n w =
    (if path_exists (sdir ++ [n]) (sw_fs w) then on_files (unlink (sdir ++ [n])) else throw (SecretNotFound n)) w).
  { unfold remove_secret, remove_in. rewrite (proj2 Hg). erewrite bind_ok by reflexivity.
    by rewrite secrets_dir_eq, path_join_name by done. }
  destruct (m !! n) as [d|] eqn:Em.
  - destruct Hfn as (k & nonce & ct & -> & Hnl & Hc & Hdec).
    assert (Hd : content_at (sw_fs w) sdir = Some Dir) by (destruct Hdir as [|[_ Hx]]; [done|by rewrite Hx in Hc]).
    assert (Hplain : plain (sw_fs w) sdir) by (by apply sdir_plain).
    exists (MkSecretWorld (delete (sdir ++ [n]) (sw_fs w)) (sw_draws w) (key_cache w)). split.
    + rewrite Hpre, path_exists_child by (try done; by rewrite Hc). rewrite Hc, bool_decide_true by done.
      by erewrite on_files_ok by (by eapply unlink_child).
    + pose proof (content_at_delete (sw_fs w) (sdir ++ [n])) as Hdel. specialize (λ r, Hdel r (sdir_ne n)) as Hdel'.
      exists (Some k). constructor; cbn [sw_fs key_cache]; try done.
      * eapply plain_ext; [exact Hroot|]. intros q r Hq'. rewrite Hdel', decide_False; [done|]. by eapply secret_not_above.
      * rewrite Hdel', decide_False; [done|]. apply key_not_secret.
      * left. rewrite Hdel', decide_False; [done|]. apply dir_not_secret.
      * intros n' [x Hx]. apply Hdom. apply lookup_delete_Some in Hx as [_ Hx]. by exists x.
      * intros n' Hg'. rewrite Hdel'. destruct (decide (n' = n)) as [->|Hne].
        -- by rewrite lookup_delete_eq, decide_True.
        -- rewrite lookup_delete_ne, decide_False by (try done; intros E%app_inv_head; by injection E). by apply Hfiles.
  - exists w. split; [|by exists key]. rewrite Hpre. unfold path_exists.
    assert (Hx : match (resolve true (sdir ++ [n]) (sw_fs w)).1 with
                 | Ok q => bool_decide (is_Some (content_at (sw_fs w) q)) | Err _ => false end = false).
    { destruct Hdir as [Hd|[Hd _]].
      - rewrite resolve_child; [|by apply sdir_plain|done|by rewrite Hfn]. simpl. by rewrite Hfn.
      - unfold sdir. rewrite <- app_assoc. by rewrite (resolve_missing (sw_fs w) root SECRETS_DIR Hroot ltac:(done) true n Hd). }
    by rewrite Hx.
Qed.

(** ** Refinement *)

Inductive secret_op :=
| OpCreate (name : string) (data : bytes)
| OpRead (name : string)
| OpRemove (name : string).

Inductive outcome :=
| Done
| Data (d : bytes)
| Refused
| Exists
| Missing
| Failed.

Definition op_name (o : secret_op) : string :=
  match o with OpCreate n _ | OpRead n | OpRemove n => n end.

(** A name is a text and the data are below the limit of the cipher. *)
Definition op_ok (o : secret_op) : Prop :=
  utf8 (op_name o) ∧ match o with OpCreate _ d => (Z.of_nat (length d) < 2 ^ 36)%Z | _ => True end.

(** The map. *)
Definition spec_step (o : secret_op) (m : gmap string bytes) : outcome * gmap string bytes :=
  match sanitize_name (op_name o) with
  | Err _ => (Refused, m)
  | Ok _ =>
    match o, m !! op_name o with
    | OpCreate n d, None => (Done, <[n := d]> m)
    | OpCreate _ _, Some _ => (Exists, m)
    | OpRead _, Some d => (Data d, m)
    | OpRemove n, Some _ => (Done, delete n m)
    | _, None => (Missing, m)
    end
  end.

Definition classify (e : SecretError) : outcome :=
  match e with
  | BadNameLength | BadNameChars | BadNameStart => Refused
  | SecretExists _ => Exists
  | SecretNotFound _ | SecretIo ENOENT => Missing
  | _ => Failed
  end.

(** The store. *)
Definition impl_step (o : secret_op) (w : SecretWorld) : outcome * SecretWorld :=
  match o with
  | OpCreate n d => let '(r, w') := create_secret root n d w in
                    (match r with Ok _ => Done | Err e => classify e end, w')
  | OpRead n => let '(r, w') := read_secret_raw root n w in
                (match r with Ok d => Data d | Err e => classify e end, w')
  | OpRemove n => let '(r, w') := remove_secret root n w in
                  (match r with Ok _ => Done | Err e => classify e end, w')
  end.

Lemma step_refines m w o :
  rep m w → op_ok o → (impl_step o w).1 = (spec_step o m).1 ∧ rep (spec_step o m).2 (impl_step o w).2.
Proof.
  intros Hrep [Hu Hd]. unfold spec_step.
  destruct (sanitize_name (op_name o)) as [n'|e] eqn:Es.
  - pose proof (sanitize_id _ _ Es) as ->. assert (Hg : good_name (op_name o)) by done.
    destruct o as [n d|n|n]; cbn [op_name impl_step] in *.
    + destruct (create_spec m w n d Hrep Hg Hd) as (w' & E). destruct (m !! n); destruct E as [-> ?]; done.
    + destruct (read_spec m w n Hrep Hg) as (w' & ? & ->). by destruct (m !! n).
    + destruct (remove_spec m w n Hrep Hg) as (w' & E). destruct (m !! n); destruct E as [-> ?]; done.
  - assert (Hc : classify e = Refused).
    { unfold sanitize_name in Es. repeat case_match; simplify_eq; done. }
    destruct o as [n d|n|n]; cbn [op_name impl_step] in *;
      unfold create_secret, read_secret_raw, remove_secret, remove_in;
      rewrite Es; (erewrite bind_err by reflexivity); cbn [fst snd]; by rewrite Hc.
Qed.

(** Running a list of operations; the outcomes in order. *)
Fixpoint run {S} (step : secret_op → S → outcome * S) (l : list secret_op) (s : S) : list outcome * S :=
  match l with
  | [] => ([], s)
  | o :: l => let '(r, s) := step o s in let '(rs, s) := run step l s in (r :: rs, s)
  end.

Lemma run_refines l m w :
  rep m w → Forall op_ok l → (run impl_step l w).1 = (run spec_step l m).1 ∧ rep (run spec_step l m).2 (run impl_step l w).2.
Proof.
  intros Hrep Hl. revert m w Hrep. induction Hl as [|o l Ho _ IH]; intros m w Hrep; simpl; [done|].
  destruct (step_refines m w o Hrep Ho) as [Hr Hrep'].
  destruct (impl_step o w) as [r w1], (spec_step o m) as [r' m1]. simpl in *. subst.
  destruct (IH m1 w1 Hrep') as [Hrs Hrep2].
  destruct (run impl_step l w1) as [rs w2], (run spec_step l m1) as [rs' m2]. simpl in *. by subst.
Qed.

Lemma rep_fresh fs n :
  plain fs root → (∀ k, k ≠ [] → content_at fs (root ++ k) = None) → rep ∅ (MkSecretWorld fs n None).
Proof.
  intros Hp Hnone. exists None. constructor; cbn [sw_fs key_cache]; try done.
  - by apply Hnone.
  - by left.
  - right. split; [by apply Hnone|]. intros s. unfold sdir. rewrite <- app_assoc. by apply Hnone.
  - intros s. rewrite lookup_empty. by intros [].
  - intros s _. rewrite lookup_empty. unfold sdir. rewrite <- app_assoc. by apply Hnone.
Qed.

(** C15: a secret store that starts empty behaves, over any sequence of operations,
    as a finite map from names to contents: a name that is not one path component
    is refused, an existing secret is never overwritten, reading returns exactly
    the bytes that were stored, and a removed secret is gone. *)
Theorem secrets_refine l fs n :
  plain fs root → (∀ k, k ≠ [] → content_at fs (root ++ k) = None) → Forall op_ok l →
  (run impl_step l (MkSecretWorld fs n None)).1 = (run spec_step l ∅).1.
Proof. intros Hp Hnone Hl. by apply run_refines; [apply rep_fresh|]. Qed.

End rep.

End spec.
