(* ===== verification/Container.v ===== *)
(** * The container executor: [runtime/pullrun-exec/src/container.rs]

    [LinuxContainerExecutor] writes an OCI bundle and drives [runc] and [ip].  The
    programs are a parameter: what a command does to the processes and interfaces of the
    host, given its files.  Files a container writes while it runs are not modelled. *)

From stdpp Require Import base gmap strings list pretty.
From Stdlib Require Import ZArith Ascii Lia.
From S2P Require Import Prelude Strs Utf8 Crates Node Fs Store OciTypes HostFs Convert Materialize.
From S2P Require Import Ipam Net Exec.

(** ** Commands *)

(** [Command::output]: an exit code ([None] for a signal) with the output, or a
    process that could not be started. *)
Inductive Output :=
| SpawnFailed
| Exited (code : option Z) (stdout stderr : bytes).

(** [ExitStatus]: the code, or the signal that ended the process. *)
Record Wstatus := MkWstatus { wcode : option Z; wsignal : option Z }.

(** [Command::output]; [Command::spawn] with the process id; of a child, [try_wait]
    ([None] while it runs), [wait] and [kill]. *)
Class Processes (H : Type) := {
  run_command : string → list string → HostFs → H → Output * H;
  spawn_child : string → list string → HostFs → H → option Z * H;
  try_wait : Z → H → option Wstatus;
  wait_child : Z → H → option Wstatus * H;
  kill_child : Z → H → H;
}.

(** [DefaultHasher], whose algorithm is not specified: a 64-bit value. *)
Class DefaultHasher := hash_str : string → Z.

Definition success (o : Output) : bool :=
  match o with
  | Exited (Some 0%Z) _ _ => true
  | _ => false
  end.

(** The state of the host that the executors share; [ew_routes] is the text of
    [/proc/net/route]. *)
Record ExecWorld (H : Type) := MkExecWorld {
  ew_store : World;
  ew_fs : HostFs;
  ew_net : ProxyNetwork;
  ew_procs : H;
  ew_routes : option string;
  (** Of the rootless executor: the [runc] children and the network processes. *)
  ew_children : gmap string Z;
  ew_net_handles : gmap string Z;
}.

Arguments MkExecWorld {H}.
Arguments ew_store {H}.
Arguments ew_fs {H}.
Arguments ew_net {H}.
Arguments ew_procs {H}.
Arguments ew_routes {H}.
Arguments ew_children {H}.
Arguments ew_net_handles {H}.

Section world.
Context {H : Type} `{Processes H}.

Abbreviation exec_eff := (eff (ExecWorld H) ExecError).

Definition with_fs (fs : HostFs) (w : ExecWorld H) : ExecWorld H :=
  MkExecWorld (ew_store w) fs (ew_net w) (ew_procs w) (ew_routes w) (ew_children w) (ew_net_handles w).
Definition with_net (n : ProxyNetwork) (w : ExecWorld H) : ExecWorld H :=
  MkExecWorld (ew_store w) (ew_fs w) n (ew_procs w) (ew_routes w) (ew_children w) (ew_net_handles w).
Definition with_procs (p : H) (w : ExecWorld H) : ExecWorld H :=
  MkExecWorld (ew_store w) (ew_fs w) (ew_net w) p (ew_routes w) (ew_children w) (ew_net_handles w).

Definition with_children (m : gmap string Z) (w : ExecWorld H) : ExecWorld H :=
  MkExecWorld (ew_store w) (ew_fs w) (ew_net w) (ew_procs w) (ew_routes w) m (ew_net_handles w).
Definition with_net_handles (m : gmap string Z) (w : ExecWorld H) : ExecWorld H :=
  MkExecWorld (ew_store w) (ew_fs w) (ew_net w) (ew_procs w) (ew_routes w) (ew_children w) m.

Definition exec_fs {A} (m : host_eff A) : exec_eff A := λ w,
  let '(r, fs) := m (ew_fs w) in (map_err (λ _, ExecIo) r, with_fs fs w).

Definition exec_mat {A} (m : mat_eff A) : exec_eff A := λ w,
  let '(r, mw) := m (MkMat (ew_store w) (ew_fs w)) in
  (map_err ExecOci r, MkExecWorld (mw_store mw) (mw_host mw) (ew_net w) (ew_procs w) (ew_routes w) (ew_children w) (ew_net_handles w)).

Definition exec_net {E A} (m : eff ProxyNetwork E A) : eff (ExecWorld H) E A := λ w,
  let '(r, n) := m (ew_net w) in (r, with_net n w).

Definition exec_ipam {A} (f : Ipam → A * Ipam) : exec_eff A := λ w,
  let '(a, i) := f (ipam (ew_net w)) in (Ok a, with_net (with_ipam i (ew_net w)) w).

Definition exec_cmd (cmd : string) (args : list string) : exec_eff Output := λ w,
  let '(o, h) := run_command cmd args (ew_fs w) (ew_procs w) in (Ok o, with_procs h w).

Definition exec_spawn (cmd : string) (args : list string) : exec_eff (option Z) := λ w,
  let '(o, h) := spawn_child cmd args (ew_fs w) (ew_procs w) in (Ok o, with_procs h w).

(** A command that must start: [.output()?], [.status()?]. *)
Definition exec_try (cmd : string) (args : list string) (e : ExecError) : exec_eff Output :=
  o ← exec_cmd cmd args;
  match o with
  | SpawnFailed => throw e
  | o => mret o
  end.

End world.

(** A path as an argument of a command. *)
Definition path_str (p : path) : string := "/" +:+ join "/" p.

Definition DEFAULT_BRIDGE_NAME : string := "pullrun-br0".
Definition DEFAULT_GATEWAY : Z := 10 * 2 ^ 24 + 42 * 2 ^ 16 + 1.

Definition stdout_of (o : Output) : bytes :=
  match o with
  | Exited _ out _ => out
  | SpawnFailed => []
  end.

(** ** The configuration of a bundle *)

(** The JSON the materializer writes for an image. *)
Definition base_namespaces : Json :=
  JArr ((λ t, obj [("type", JStr t)]) <$> ["pid"; "network"; "ipc"; "uts"; "mount"]).

Definition volume_mount (vol : string) : Json :=
  obj [("destination", JStr vol); ("type", JStr "bind"); ("source", JStr vol); ("options", strs ["rbind"; "rw"])].

Definition masked_paths : list string :=
  ["/proc/acpi"; "/proc/asound"; "/proc/kcore"; "/proc/keys"; "/proc/latency_stats"; "/proc/timer_list";
   "/proc/timer_stats"; "/proc/sched_debug"; "/proc/scsi"; "/sys/firmware"].

Definition readonly_paths : list string :=
  ["/proc/asound"; "/proc/bus"; "/proc/fs"; "/proc/irq"; "/proc/sys"; "/proc/sysrq-trigger"].

Definition oci_spec_json (s : OciSpec) : Json :=
  obj [("ociVersion", JStr "1.1.0");
       ("process", obj [("terminal", JBool false);
                        ("user", obj [("uid", JNum (sp_uid s)); ("gid", JNum (sp_gid s))]);
                        ("args", strs (sp_args s)); ("env", strs (sp_env s)); ("cwd", JStr (sp_cwd s))]);
       ("root", obj [("path", JStr (path_str (sp_root s))); ("readonly", JBool false)]);
       ("linux", obj [("namespaces", base_namespaces)]);
       ("annotations", obj (prod_map id JStr <$> map_to_list (sp_annotations s)));
       ("mounts", JArr (volume_mount <$> sp_mounts s))].

(** The materializer's text of a configuration. *)
Definition spec_text `{JsonText} : SpecJson := λ s, json_to_string_pretty (oci_spec_json s).

(** [linux], before the limits and the seccomp profile are added. *)
Definition linux_base : Json :=
  obj [("namespaces", base_namespaces); ("maskedPaths", strs masked_paths); ("readonlyPaths", strs readonly_paths)].

(** Unsigned 64-bit products wrap in a release build. *)
Definition cpu_json (cpu_millicores : Z) : Json :=
  obj [("shares", JNum (wrap64 (cpu_millicores * 1024) / 1000)); ("quota", JNum (as_i64 (wrap64 (cpu_millicores * 100))));
       ("period", JNum 100000)].

Definition memory_json (mem_bytes : Z) : Json :=
  obj [("limit", JNum (as_i64 mem_bytes)); ("swap", JNum (as_i64 mem_bytes))].

Definition with_resources (cpu mem : option Z) (linux : Json) : Json :=
  match cpu, mem with
  | None, None => linux
  | _, _ =>
    jset "resources"
      (obj (match cpu with Some c => [("cpu", cpu_json c)] | None => [] end ++
            match mem with Some m => [("memory", memory_json m)] | None => [] end)) linux
  end.

Definition default_mounts : list Json :=
  [obj [("destination", JStr "/proc"); ("type", JStr "proc"); ("source", JStr "proc")];
   obj [("destination", JStr "/dev"); ("type", JStr "tmpfs"); ("source", JStr "tmpfs");
        ("options", strs ["nosuid"; "strictatime"; "mode=755"; "size=65536k"])];
   obj [("destination", JStr "/dev/pts"); ("type", JStr "devpts"); ("source", JStr "devpts")];
   obj [("destination", JStr "/dev/mqueue"); ("type", JStr "mqueue"); ("source", JStr "mqueue")];
   obj [("destination", JStr "/sys"); ("type", JStr "sysfs"); ("source", JStr "sysfs");
        ("options", strs ["nosuid"; "nodev"; "noexec"; "ro"])];
   obj [("destination", JStr "/tmp"); ("type", JStr "tmpfs"); ("source", JStr "tmpfs");
        ("options", strs ["nosuid"; "nodev"; "mode=1777"])];
   obj [("destination", JStr "/dev/shm"); ("type", JStr "tmpfs"); ("source", JStr "tmpfs");
        ("options", strs ["nosuid"; "nodev"; "mode=1777"])]].

(** Bind mounts get [rbind] and [rprivate]; an option is not repeated. *)
Definition mount_options (m : Mount) : list string :=
  foldl (λ opts o, if decide (o ∈ opts) then opts else opts ++ [o])
    (if decide (mt_type m = "bind") then ["rbind"; "rprivate"] else []) (mt_options m).

Definition mount_json (m : Mount) : Json :=
  obj ([("destination", JStr (mt_destination m)); ("type", JStr (mt_type m)); ("source", JStr (mt_source m))] ++
       match mount_options m with [] => [] | opts => [("options", strs opts)] end).

Definition default_capabilities : list string :=
  ["CAP_CHOWN"; "CAP_DAC_OVERRIDE"; "CAP_FSETID"; "CAP_FOWNER"; "CAP_MKNOD"; "CAP_NET_RAW"; "CAP_SETGID";
   "CAP_SETUID"; "CAP_SETFCAP"; "CAP_SETPCAP"; "CAP_NET_BIND_SERVICE"; "CAP_SYS_CHROOT"; "CAP_KILL";
   "CAP_AUDIT_WRITE"].

Definition capabilities_json (privileged : bool) : Json :=
  let caps := strs (if privileged then ["ALL"] else default_capabilities) in
  obj [("bounding", caps); ("effective", caps); ("permitted", caps)].

(** [process.args]: the entry point is always prepended. *)
Definition process_args (entrypoint cmd command : list string) : list string :=
  let args := match entrypoint with
              | [] => match command with [] => cmd | _ => command end
              | _ => entrypoint ++ match command with [] => cmd | _ => command end
              end in
  match args with [] => ["/bin/sh"] | _ => args end.

(** Variables of the request replace those of the image and are appended otherwise. *)
Definition override_env (spec_env : gmap string string) (kv : string) : string :=
  match split_once kv "=" with
  | Some (k, _) => match spec_env !! k with Some v => k +:+ "=" +:+ v | None => kv end
  | None => kv
  end.

Definition env_key (kv : string) : option string := fst <$> split_once kv "=".

Definition merge_env (image_env : list string) (spec_env : gmap string string) : list string :=
  let env_vars := override_env spec_env <$> image_env in
  let existing := omap env_key env_vars in
  env_vars ++ ((λ kv, kv.1 +:+ "=" +:+ kv.2) <$> filter (λ kv, kv.1 ∉ existing) (map_to_list spec_env)).

Definition process_json (b : MaterializedBundle) (spec : WorkloadSpec) : Json :=
  let p := obj [("terminal", JBool false); ("user", obj [("uid", JNum 0); ("gid", JNum 0)]);
                ("capabilities", capabilities_json (ws_privileged spec));
                ("args", strs (process_args (b_entrypoint b) (b_cmd b) (ws_command spec)));
                ("env", strs (merge_env (b_env b) (ws_env spec)));
                ("cwd", JStr (default "/" (b_working_dir b)))] in
  if ws_no_new_privileges spec && negb (ws_privileged spec) then jset "noNewPrivileges" (JBool true) p else p.

Definition with_seccomp `{JsonText} (spec : WorkloadSpec) (linux : Json) : result ExecError Json :=
  if ws_privileged spec then Ok linux
  else
    seccomp ← map_err ExecutionFailed (build_seccomp (ws_seccomp_profile spec) (ws_allowed_syscalls spec));
    Ok match seccomp with
       | Some s => jset "seccomp" s linux
       | None => linux
       end.

Definition container_config `{JsonText} (b : MaterializedBundle) (spec : WorkloadSpec) : result ExecError Json :=
  linux ← with_seccomp spec (with_resources (ws_cpu_millicores spec) (ws_memory_bytes spec) linux_base);
  Ok (obj [("ociVersion", JStr "1.1.0"); ("process", process_json b spec);
           ("root", obj [("path", JStr (path_str (rootfs_path b)));
                         ("readonly", JBool (ws_readonly_rootfs spec && negb (ws_privileged spec)))]);
           ("mounts", JArr (default_mounts ++ (mount_json <$> ws_mounts spec)));
           ("linux", linux)]).

(** [if v.get("type").as_str() == Some(t)]. *)
Definition has_type (t : string) (v : Json) : bool :=
  bool_decide ((v' ← jget "type" v; as_str v') = Some t).

(** The entry of the network namespace gets a path. *)
Definition join_entry (netns_path : string) (entry : Json) : Json :=
  if has_type "network" entry then jset "path" (JStr netns_path) entry else entry.

Definition join_netns (netns_path : string) (cfg : Json) : Json :=
  jalter "linux" (jalter "namespaces" (λ n,
    match n with
    | JArr l => JArr (join_entry netns_path <$> l)
    | n => n
    end)) cfg.

Definition resolv_conf (d : DnsConfig) : string :=
  let nl := String "010" EmptyString in
  join EmptyString ((λ ns, "nameserver " +:+ ns +:+ nl) <$> nameservers d) +:+
  match searches d with [] => EmptyString | l => "search " +:+ join " " l +:+ nl end +:+
  join EmptyString ((λ o, "options " +:+ o +:+ nl) <$> dns_options d).

(** The ports a workload publishes: none when it joins another's namespace. *)
Definition published_ports (mode : NetworkMode.t) (rules : list NetworkRule) : list (Z * Z) :=
  match mode with
  | NetworkMode.Container _ => []
  | _ => (λ r, (if decide (host_port r ≠ 0)%Z then host_port r else port r, port r)) <$>
           filter (λ r, direction r = Inbound) rules
  end.

Definition join_target (mode : NetworkMode.t) : option string :=
  match mode with
  | NetworkMode.Container target => Some target
  | _ => None
  end.

(** [str::split] by a text; [skip] counts the characters left of a separator. *)
Fixpoint split_pat (pat : string) (skip : nat) (s : string) : list string :=
  match s with
  | EmptyString => [EmptyString]
  | String c s' =>
    match skip with
    | S skip => split_pat pat skip s'
    | O =>
      if starts_with s pat then EmptyString :: split_pat pat (String.length pat - 1) s'
      else match split_pat pat 0 s' with
           | [] => [String c EmptyString]
           | x :: l => String c x :: l
           end
    end
  end.

Definition parse_u64 (s : string) : option Z := from_str_radix 10 u64_mod s.

(** [format!("{:x}", z)]. *)
Definition hex_text (z : Z) : string :=
  hex_fixed (Z.to_nat (Z.max 1 (Z.log2 z / 4 + 1))) z.

(** ** The executor *)

(** [lc_network]: whether [with_network] was called. *)
Record LinuxContainerExecutor := MkLinux {
  lc_runc_path : string;
  lc_bundle_root : path;
  lc_network : bool;
}.

Definition LinuxContainerExecutor_new (runc_path : option string) (bundle_root : path) : LinuxContainerExecutor :=
  MkLinux (default "runc" runc_path) bundle_root false.
Definition with_network (e : LinuxContainerExecutor) : LinuxContainerExecutor :=
  MkLinux (lc_runc_path e) (lc_bundle_root e) true.

Section container.
Context {H : Type} `{Processes H, DefaultHasher, Hex, Sha2, Rkyv DagNode, EntryJson, JsonText}.

#[local] Existing Instance spec_text.

Abbreviation exec_eff := (eff (ExecWorld H) ExecError).

Section linux.
Context (e : LinuxContainerExecutor).

Definition bundle_dir (id : string) : path := path_join (lc_bundle_root e) id.

Definition check_runc : exec_eff unit :=
  o ← exec_try (lc_runc_path e) ["--version"] (BackendNotAvailable (lc_runc_path e));
  if success o then mret tt else throw (BackendNotAvailable "non-zero exit code").

(** A MASQUERADE rule for a pod's subnet and IPv4 forwarding; errors are ignored. *)
Definition ensure_nat_for_subnet (subnet : IpRange) : exec_eff unit :=
  o ← exec_cmd "iptables" ["--version"];
  match o with
  | SpawnFailed => mret tt
  | _ =>
    let cidr := ipv4_to_string (base subnet) +:+ "/24" in
    let rule (op : string) := ["-t"; "nat"; op; "POSTROUTING"; "-s"; cidr; "-j"; "MASQUERADE"] in
    present ← exec_cmd "iptables" (rule "-C");
    (if success present then mret tt else exec_cmd "iptables" (rule "-A") ;; mret tt) ;;
    ignore_eff (exec_fs (write_host ["proc"; "sys"; "net"; "ipv4"; "ip_forward"] (as_bytes "1")))
  end.

Definition bridge_address (subnet : option IpRange) : string :=
  match subnet with
  | Some s => ipv4_to_string (wrap32 (base s + 1)) +:+ "/24"
  | None => ipv4_to_string DEFAULT_GATEWAY +:+ "/16"
  end.

Definition ensure_bridge_exists (bridge_name : string) (subnet : option IpRange) : exec_eff unit :=
  exec_try "ip" ["--version"] (ExecutionFailed IpCommandMissing) ;;
  status ← exec_try "ip" ["link"; "add"; bridge_name; "type"; "bridge"] (ExecutionFailed (IpLinkAdd bridge_name));
  (if success status then
     exec_try "ip" ["link"; "set"; bridge_name; "up"] (ExecutionFailed (IpLinkUp bridge_name)) ;; mret tt
   else mret tt) ;;
  exec_cmd "ip" ["addr"; "add"; bridge_address subnet; "dev"; bridge_name] ;;
  match subnet with
  | Some s => ensure_nat_for_subnet s
  | None => mret tt
  end.

(** [runc state id]: the parsed answer. *)
Definition runc_state (id : string) : exec_eff Output := exec_try (lc_runc_path e) ["state"; id] ExecIo.

Definition pid_of_state (out : bytes) : result ExecError Z :=
  match json_from_slice out with
  | None => Err (ExecutionFailed ParseRuncState)
  | Some v => ok_or (p ← jget "pid" v; json_i64 p) (ExecutionFailed NoPid)
  end.

(** The host end of the pair is named after the hash of the id. *)
Definition veth_name (id : string) : string := "v" +:+ str_take 8 (hex_text (hash_str id)).

Definition port_rule (hp : Z * Z) : NetworkRule :=
  if decide (hp.1 ≠ hp.2) then inbound_mapped hp.1 hp.2 else inbound hp.1.

Definition nsenter (pid : Z) (args : list string) : exec_eff unit :=
  exec_try "nsenter" (["-t"; pretty pid; "-n"; "--"] ++ args) ExecIo ;; mret tt.

Definition setup_container_network (id : string) (ip : Z) (host_ports : list (Z * Z)) (bridge : string) (gateway : Z)
    : exec_eff unit :=
  o ← runc_state id;
  if negb (success o) then throw (ExecutionFailed RuncStateFailed)
  else
    pid ← lift_result (pid_of_state (stdout_of o));
    let veth_host := veth_name id in
    exec_cmd "ip" ["link"; "del"; veth_host] ;;
    status ← exec_try "ip" ["link"; "add"; veth_host; "type"; "veth"; "peer"; "name"; "eth0"; "netns"; pretty pid]
               (ExecutionFailed (IpLinkAdd veth_host));
    if negb (success status) then throw (ExecutionFailed VethFailed)
    else
      exec_try "ip" ["link"; "set"; veth_host; "master"; bridge] ExecIo ;;
      exec_try "ip" ["link"; "set"; veth_host; "up"] ExecIo ;;
      nsenter pid ["ip"; "addr"; "add"; ipv4_to_string ip +:+ "/16"; "dev"; "eth0"] ;;
      nsenter pid ["ip"; "link"; "set"; "eth0"; "up"] ;;
      nsenter pid ["ip"; "route"; "add"; "default"; "via"; ipv4_to_string gateway] ;;
      if lc_network e && negb (bool_decide (host_ports = [])) then
        map_err_eff (λ err, ExecutionFailed (ProxyRegister err))
          (exec_net (register_endpoint id (ipv4_to_string ip) (port_rule <$> host_ports))) ;;
        mret tt
      else mret tt.

(** The address of a workload in bridge mode and its gateway. *)
Definition allocate_bridge_ip (spec : WorkloadSpec) : exec_eff (option (Z * Z)) :=
  if decide (ws_network_mode spec = NetworkMode.Bridge) then
    let bridge_name := default DEFAULT_BRIDGE_NAME (ws_bridge_name spec) in
    w ← get_world;
    subnet ← (if bool_decide (bridge_name = DEFAULT_BRIDGE_NAME) || negb (lc_network e) then mret None
              else exec_ipam (subnet_for (ew_routes w) bridge_name));
    ensure_bridge_exists bridge_name subnet ;;
    if lc_network e then
      ip ← exec_ipam (match subnet with Some s => allocate_in s | None => allocate end);
      mret ((λ ip, (ip, match subnet with Some s => wrap32 (base s + 1) | None => DEFAULT_GATEWAY end)) <$> ip)
    else mret None
  else mret None.

(** [/etc/hosts] and [/etc/resolv.conf] of the root file system; errors are ignored. *)
Definition write_missing (p : path) (text : string) : exec_eff unit :=
  w ← get_world;
  if path_exists p (ew_fs w) then mret tt else ignore_eff (exec_fs (write_host p (as_bytes text))).

Definition write_etc (rootfs : path) (dns : DnsConfig) : exec_eff unit :=
  let nl := String "010" EmptyString in
  let etc_dir := rootfs ++ ["etc"] in
  ignore_eff (exec_fs (create_dir_all etc_dir)) ;;
  write_missing (etc_dir ++ ["hosts"]) ("127.0.0.1 localhost" +:+ nl +:+ "::1 localhost ip6-localhost" +:+ nl) ;;
  write_missing (etc_dir ++ ["resolv.conf"]) ("nameserver 8.8.8.8" +:+ nl +:+ "nameserver 1.1.1.1" +:+ nl) ;;
  if bool_decide (nameservers dns ≠ [] ∨ searches dns ≠ []) then
    ignore_eff (exec_fs (write_host (etc_dir ++ ["resolv.conf"]) (as_bytes (resolv_conf dns))))
  else mret tt.

(** Removing the bundle of an earlier workload of the same id. *)
Definition clear_bundle (dir : path) : exec_eff unit :=
  w ← get_world;
  if path_exists dir (ew_fs w) then exec_fs (remove_dir_all dir) else mret tt.

Definition create (depth : nat) (spec : WorkloadSpec) : exec_eff ProcessHandle :=
  check_runc ;;
  clear_bundle (bundle_dir (ws_id spec)) ;;
  bundle ← exec_mat (materialize_bundle depth (ws_image_root spec) (bundle_dir (ws_id spec)));
  address ← allocate_bridge_ip spec;
  cfg ← lift_result (container_config bundle spec);
  exec_fs (write_host (config_path bundle) (json_to_string_pretty cfg)) ;;
  write_etc (rootfs_path bundle) (ws_dns spec) ;;
  mret (MkHandle (ws_id spec) None (ipv4_to_string ∘ fst <$> address) (ipv4_to_string ∘ snd <$> address)
          (published_ports (ws_network_mode spec) (ws_network_rules spec)) "container" (ws_bridge_name spec)
          (join_target (ws_network_mode spec))).

End linux.

(** ** Joining a network namespace *)

Definition netns_path_of (runc_path : string) (state_root : option path) (target : string) : exec_eff string :=
  o ← exec_try runc_path (match state_root with Some root => ["--root"; path_str root] | None => [] end ++ ["state"; target])
        (ExecutionFailed (TargetNotRunning target));
  if negb (success o) then throw (ExecutionFailed (TargetNotRunning target))
  else
    v ← lift_result (ok_or (json_from_slice (stdout_of o)) (ExecutionFailed ParseRuncState));
    let pid := default 0%Z (p ← jget "pid" v; json_i64 p) in
    if decide (pid ≤ 0)%Z then throw (ExecutionFailed (TargetNotRunning target))
    else mret ("/proc/" +:+ pretty pid +:+ "/ns/net").

Definition read_config_json (p : path) : exec_eff Json :=
  data ← map_err_eff (λ _, ExecutionFailed ConfigUnreadable) (exec_fs (read_host p));
  lift_result (ok_or (json_from_slice data) (ExecutionFailed ConfigUnreadable)).

Definition join_netns_in_config (dir : path) (netns_path : string) : exec_eff unit :=
  let config_path := dir ++ ["config.json"] in
  cfg ← read_config_json config_path;
  map_err_eff (λ _, ExecutionFailed ConfigUnreadable)
    (exec_fs (write_host config_path (json_to_string_pretty (join_netns netns_path cfg)))).

Section linux_run.
Context (e : LinuxContainerExecutor).

(** [runc run] is followed by a forced delete when it fails; the delete is a task of
    its own whose result is not looked at. *)
Definition start (handle : ProcessHandle) : exec_eff ProcessHandle :=
  let id := ph_id handle in
  let bdir := bundle_dir e id in
  match ph_network_join handle with
  | Some target =>
    netns ← netns_path_of (lc_runc_path e) None target;
    join_netns_in_config bdir netns
  | None => mret tt
  end ;;
  status ← exec_try (lc_runc_path e) ["run"; "-d"; "-b"; path_str bdir; id] (ExecutionFailed SpawnError);
  if negb (success status) then
    exec_cmd (lc_runc_path e) ["delete"; "--force"; id] ;;
    throw (ExecutionFailed (RuncRunFailed id))
  else
    match ph_internal_ip handle with
    | Some ip_str =>
      ip ← lift_result (ok_or (parse_ipv4 ip_str) (ExecutionFailed (InvalidInternalIp ip_str)));
      setup_container_network e id ip (ph_host_ports handle) (default DEFAULT_BRIDGE_NAME (ph_bridge_name handle))
        (default DEFAULT_GATEWAY (g ← ph_gateway handle; parse_ipv4 g)) ;;
      mret handle
    | None => mret handle
    end.

Definition stop (id : string) : exec_eff unit :=
  (if lc_network e then ignore_eff (exec_net (teardown id)) else mret tt) ;;
  exec_cmd (lc_runc_path e) ["kill"; id; "SIGTERM"] ;;
  exec_cmd (lc_runc_path e) ["kill"; id; "SIGKILL"] ;;
  exec_try (lc_runc_path e) ["delete"; "-f"; id] ExecIo ;;
  w ← get_world;
  if path_exists (bundle_dir e id) (ew_fs w) then ignore_eff (exec_fs (remove_dir_all (bundle_dir e id))) else mret tt.

(** [RuncState]: the status of a parsed answer. *)
Definition state_status (out : bytes) : option string :=
  v ← json_from_slice out; s ← jget "status" v; as_str s.

Definition wait (id : string) : exec_eff ExitStatus :=
  o ← runc_state e id;
  if negb (success o) then mret (MkExitStatus 0 None)
  else
    status ← lift_result (ok_or (state_status (stdout_of o)) (ExecutionFailed ParseRuncState));
    if decide (status = "stopped" ∨ status = "exited") then mret (MkExitStatus 0 None)
    else throw (ExecutionFailed (StillRunning id status)).

Definition status (id : string) : exec_eff string :=
  o ← runc_state e id;
  mret (if success o then default "unknown" (state_status (stdout_of o)) else "stopped").

Definition limit_args (cpu mem : option Z) : list string :=
  match cpu with
  | Some cpu => ["--cpu-quota"; pretty (wrap64 (cpu * 100)); "--cpu-period"; "100000"; "--cpu-shares";
                 pretty (wrap64 (cpu * 1024) / 1000)%Z]
  | None => []
  end ++
  match mem with
  | Some mem => ["--memory"; pretty mem]
  | None => []
  end.

Definition update (id : string) (cpu_millicores memory_bytes : option Z) : exec_eff unit :=
  o ← exec_try (lc_runc_path e) (["update"; id] ++ limit_args cpu_millicores memory_bytes) ExecIo;
  if success o then mret tt else throw (ExecutionFailed RuncUpdateFailed).

Definition exec_output (o : Output) : ExecOutput :=
  match o with
  | Exited code out err => MkExecOutput (default (-1)%Z code) out err
  | SpawnFailed => MkExecOutput (-1) [] []
  end.

(** The memory and processor time of a process, from the files of its cgroup.  A line
    with [::] names a cgroup of version 2. *)
Definition read_number (fs : HostFs) (p : string) : option Z :=
  data ← ok (read_host (components p) fs).1;
  text ← from_utf8 data;
  Some (default 0%Z (parse_u64 (trim text))).

Definition cpu_stat (fs : HostFs) (p : string) (cpu : Z) : Z :=
  match data ← ok (read_host (components p) fs).1; from_utf8 data with
  | Some text =>
    foldl (λ cpu line, match strip_prefix "usage_usec " line with
                       | Some rest => default 0%Z (parse_u64 (trim rest))
                       | None => cpu
                       end) cpu (lines text)
  | None => cpu
  end.

Definition cgroup_v2 (fs : HostFs) (line : string) (acc : Z * Z) : Z * Z :=
  match split_pat "::" 0 line !! 1 with
  | Some p =>
    let p := "/sys/fs/cgroup" +:+ trim p in
    (default acc.1 (read_number fs (p +:+ "/memory.current")), cpu_stat fs (p +:+ "/cpu.stat") acc.2)
  | None => acc
  end.

Definition cgroup_v1 (fs : HostFs) (line : string) (acc : Z * Z) : Z * Z :=
  match split line ":" !! 2 with
  | Some p =>
    let p := trim p in
    (if decide (acc.1 = 0)%Z then default acc.1 (read_number fs ("/sys/fs/cgroup/memory" +:+ p +:+ "/memory.usage_in_bytes"))
     else acc.1,
     if decide (acc.2 = 0)%Z then
       default acc.2 ((λ z, z / 1000000)%Z <$> read_number fs ("/sys/fs/cgroup/cpuacct" +:+ p +:+ "/cpuacct.usage"))
     else acc.2)
  | None => acc
  end.

Definition cgroup_usage (fs : HostFs) (pid : Z) : Z * Z :=
  match data ← ok (read_host (components ("/proc/" +:+ pretty pid +:+ "/cgroup")) fs).1; from_utf8 data with
  | Some text =>
    foldl (λ acc line,
      if contains line "::" then cgroup_v2 fs line acc
      else if starts_with line "#" then acc else cgroup_v1 fs line acc) (0, 0)%Z (lines text)
  | None => (0, 0)%Z
  end.

Definition stats (id : string) : exec_eff WorkloadStats :=
  o ← runc_state e id;
  if negb (success o) then throw (ExecNotFound id)
  else
    pid ← lift_result (pid_of_state (stdout_of o));
    w ← get_world;
    let '(mem, cpu) := cgroup_usage (ew_fs w) pid in
    mret (MkStats id cpu mem 0 0 0).

(** A command that runs into the timeout is one that could not be started. *)
Definition exec (id : string) (command : list string) : exec_eff ExecOutput :=
  o ← exec_try (lc_runc_path e) (["exec"; id] ++ command) (ExecutionFailed RuncExecFailed);
  mret (exec_output o).

End linux_run.

Definition linux_executor (depth : nat) (e : LinuxContainerExecutor) : Executor (ExecWorld H) :=
  MkExecutor _ (create e depth) (start e) (stop e) (wait e) (status e) (update e) (stats e) (λ id cmd _, exec e id cmd).

End container.
