(* ===== verification/Rootless.v ===== *)
(** * The rootless executor: [runtime/pullrun-exec/src/{rootless,container}.rs]

    [RootlessContainerExecutor] patches the configuration the materializer wrote for a
    user namespace and runs [runc] with a state directory of its own; networking is a
    process beside it. *)

From stdpp Require Import base gmap strings list pretty.
From Stdlib Require Import ZArith Ascii Lia.
From S2P Require Import Prelude Strs Utf8 Crates Node Fs Store OciTypes HostFs Convert Materialize.
From S2P Require Import Ipam Net Exec Container.

(** ** The configuration *)

Record RootlessConfig := MkRootlessConfig {
  rc_runc_path : string;
  rc_state_root : path;
  uid_map_base : Z;
  uid_map_size : Z;
  gid_map_base : Z;
  gid_map_size : Z;
}.

(** [env] is the environment of the daemon. *)
Definition RootlessConfig_detect (env : gmap string string) (uid : Z) : RootlessConfig :=
  let subuid_base := default 100000%Z (v ← env !! "PULLRUN_SUBUID_BASE"; parse_u32 v) in
  let subuid_size := default 65536%Z (v ← env !! "PULLRUN_SUBUID_SIZE"; parse_u32 v) in
  let run_dir := default ("/run/user/" +:+ pretty uid) (env !! "XDG_RUNTIME_DIR") in
  MkRootlessConfig "runc" (path_join (path_join [] run_dir) "pullrun-runc") subuid_base subuid_size subuid_base subuid_size.

Definition rootless_runc_args (c : RootlessConfig) (id : string) (bundle : path) : list string :=
  ["--root"; path_str (rc_state_root c); "run"; "-d"; "--bundle"; path_str bundle; id].

Definition rootless_capabilities : Json :=
  let caps := strs ["CAP_AUDIT_WRITE"; "CAP_KILL"; "CAP_NET_BIND_SERVICE"] in
  obj [("bounding", caps); ("effective", caps); ("permitted", caps)].

Definition id_mapping (uid : Z) : Json :=
  JArr [obj [("containerID", JNum 0); ("hostID", JNum uid); ("size", JNum 1)]].

Definition rootless_mounts : list Json :=
  [obj [("destination", JStr "/proc"); ("type", JStr "proc"); ("source", JStr "proc")];
   obj [("destination", JStr "/dev"); ("type", JStr "tmpfs"); ("source", JStr "tmpfs");
        ("options", strs ["nosuid"; "strictatime"; "mode=755"; "size=65536k"])];
   obj [("destination", JStr "/sys"); ("type", JStr "none"); ("source", JStr "/sys");
        ("options", strs ["rbind"; "nosuid"; "noexec"; "nodev"; "ro"])]].

(** Of the patch, the members that are applied. *)
Definition rootless_linux (uid : Z) : list (string * Json) :=
  [("uidMappings", id_mapping uid); ("gidMappings", id_mapping uid); ("maskPaths", strs masked_paths);
   ("readonlyPaths", strs readonly_paths)].

Definition rootless_process (uid : Z) : list (string * Json) :=
  [("capabilities", rootless_capabilities); ("noNewPrivileges", JBool true);
   ("user", obj [("uid", JNum uid); ("gid", JNum uid)])].

Definition set_all (l : list (string * Json)) (v : Json) : Json := foldl (λ v kv, jset kv.1 kv.2 v) v l.

Definition user_namespace : Json := obj [("type", JStr "user")].

Definition with_user_namespace (linux : Json) : Json :=
  match linux with
  | JObj l =>
    match obj_get "namespaces" l with
    | Some (JArr ns) =>
      if existsb (has_type "user") ns then linux
      else jset "namespaces" (JArr (ns ++ [user_namespace])) linux
    | _ => jset "namespaces" (JArr [user_namespace]) linux
    end
  | v => v
  end.

Definition keeps_mount (m : Json) : bool :=
  match d ← jget "destination" m; as_str d with
  | Some d => negb (bool_decide (d ∈ ["/proc"; "/dev"; "/sys"]))
  | None => true
  end.

Definition patch_rootless (uid : Z) (config : Json) : Json :=
  let config := jalter "linux" (λ l, with_user_namespace (set_all (rootless_linux uid) l)) config in
  let config := jalter "process" (set_all (rootless_process uid)) config in
  jalter "mounts" (λ m, match m with
                        | JArr l => JArr (filter keeps_mount l ++ rootless_mounts)
                        | m => m
                        end) config.

Section rootless.
Context {H : Type} `{Processes H, Hex, Sha2, Rkyv DagNode, EntryJson, JsonText}.

#[local] Existing Instance spec_text.

Abbreviation exec_eff := (eff (ExecWorld H) ExecError).

Definition apply_rootless_config (dir : path) (uid : Z) : exec_eff unit :=
  let config_path := dir ++ ["config.json"] in
  w ← get_world;
  if negb (path_exists config_path (ew_fs w)) then throw (ExecutionFailed ConfigMissing)
  else
    data ← exec_fs (read_host config_path);
    config ← lift_result (ok_or (json_from_slice data) (ExecutionFailed ConfigUnreadable));
    exec_fs (write_host config_path (json_to_string_pretty (patch_rootless uid config))).

(** [pasta] or [slirp4netns] in the namespace of the container. *)
Definition setup_rootless_network (container_pid : Z) (use_pasta : bool) : exec_eff Z :=
  let netns_path := "/proc/" +:+ pretty container_pid +:+ "/ns/net" in
  let '(program, args) :=
    if use_pasta then ("pasta", ["--ns"; netns_path; "--config-net"; "--mtu"; "65520"])
    else ("slirp4netns", ["--configure"; "--mtu=65520"; netns_path; "tap0"]) in
  child ← exec_spawn program args;
  match child with
  | Some pid => mret pid
  | None => throw (BackendNotAvailable program)
  end.

End rootless.

Record RootlessContainerExecutor := MkRootless {
  rl_bundle_root : path;
  rl_config : RootlessConfig;
  rl_uid : Z;
  rl_use_pasta : bool;
}.

Definition RootlessContainerExecutor_new (env : gmap string string) (bundle_root : path) (uid : Z)
    : RootlessContainerExecutor :=
  MkRootless bundle_root (RootlessConfig_detect env uid) uid true.

Section executor.
Context {H : Type} `{Processes H, Hex, Sha2, Rkyv DagNode, EntryJson, JsonText}.
Context (e : RootlessContainerExecutor).

#[local] Existing Instance spec_text.

Abbreviation exec_eff := (eff (ExecWorld H) ExecError).

Definition bundle_dir_for (id : string) : path := path_join (rl_bundle_root e) id.

Definition rootless_create (depth : nat) (spec : WorkloadSpec) : exec_eff ProcessHandle :=
  clear_bundle (bundle_dir_for (ws_id spec)) ;;
  exec_mat (materialize_bundle depth (ws_image_root spec) (bundle_dir_for (ws_id spec))) ;;
  apply_rootless_config (bundle_dir_for (ws_id spec)) (rl_uid e) ;;
  mret (MkHandle (ws_id spec) None None None (published_ports (ws_network_mode spec) (ws_network_rules spec))
          "container-rootless" None (join_target (ws_network_mode spec))).

Definition failed_early (o : option Wstatus) : bool :=
  match o with
  | Some st => negb (bool_decide (wcode st = Some 0%Z))
  | None => false
  end.

Definition rootless_start (handle : ProcessHandle) : exec_eff ProcessHandle :=
  let id := ph_id handle in
  let c := rl_config e in
  match ph_network_join handle with
  | Some target =>
    netns ← netns_path_of (rc_runc_path c) (Some (rc_state_root c)) target;
    join_netns_in_config (bundle_dir_for id) netns
  | None => mret tt
  end ;;
  child ← exec_spawn (rc_runc_path c) (rootless_runc_args c id (bundle_dir_for id));
  match child with
  | None => throw (ExecutionFailed SpawnError)
  | Some pid =>
    w ← get_world;
    (if failed_early (try_wait pid (ew_procs w)) then
       exec_cmd (rc_runc_path c) ["--root"; path_str (rc_state_root c); "delete"; "--force"; id] ;;
       throw (ExecutionFailed (RuncRunFailed id))
     else mret tt) ;;
    match ph_network_join handle with
    | None =>
      net ← try_eff (setup_rootless_network pid (rl_use_pasta e));
      match net with
      | Ok n => modify_world (λ w, with_net_handles (<[id := n]> (ew_net_handles w)) w)
      | Err _ => mret tt
      end
    | Some _ => mret tt
    end ;;
    modify_world (λ w, with_children (<[id := pid]> (ew_children w)) w) ;;
    mret handle
  end.

Definition kill_and_wait (pid : Z) : exec_eff unit :=
  modify_world (λ w, with_procs (wait_child pid (kill_child pid (ew_procs w))).2 w).

Definition rootless_stop (id : string) : exec_eff unit :=
  let c := rl_config e in
  w ← get_world;
  modify_world (λ w, with_children (delete id (ew_children w)) w) ;;
  match ew_children w !! id with
  | Some pid => kill_and_wait pid
  | None => mret tt
  end ;;
  w ← get_world;
  modify_world (λ w, with_net_handles (delete id (ew_net_handles w)) w) ;;
  match ew_net_handles w !! id with
  | Some pid => modify_world (λ w, with_procs (kill_child pid (ew_procs w)) w)
  | None => mret tt
  end ;;
  exec_cmd (rc_runc_path c) ["delete"; "--root"; path_str (rc_state_root c); "--force"; id] ;;
  w ← get_world;
  if path_exists (bundle_dir_for id) (ew_fs w) then ignore_eff (exec_fs (remove_dir_all (bundle_dir_for id))) else mret tt.

Definition rootless_wait (id : string) : exec_eff ExitStatus :=
  w ← get_world;
  modify_world (λ w, with_children (delete id (ew_children w)) w) ;;
  match ew_children w !! id with
  | Some pid =>
    w ← get_world;
    let '(st, h) := wait_child pid (ew_procs w) in
    modify_world (with_procs h) ;;
    match st with
    | Some st => mret (MkExitStatus (default (-1)%Z (wcode st)) (wsignal st))
    | None => throw (ExecutionFailed SpawnError)
    end
  | None => mret (MkExitStatus 0 None)
  end.

(** The source puts [--root] after the subcommand here. *)
Definition rootless_args (sub : string) (id : string) : list string :=
  [sub; "--root"; path_str (rc_state_root (rl_config e)); id].

Definition quoted_running : string := String "034" ("running" +:+ String "034" EmptyString).

Definition rootless_status (id : string) : exec_eff string :=
  o ← exec_try (rc_runc_path (rl_config e)) (rootless_args "state" id) ExecIo;
  mret (if success o && contains (from_utf8_lossy (stdout_of o)) quoted_running then "running" else "stopped").

Definition rootless_update (id : string) (cpu_millicores memory_bytes : option Z) : exec_eff unit :=
  o ← exec_try (rc_runc_path (rl_config e)) (rootless_args "update" id ++ limit_args cpu_millicores memory_bytes) ExecIo;
  if success o then mret tt else throw (ExecutionFailed RuncUpdateFailed).

Definition rootless_exec (id : string) (command : list string) : exec_eff ExecOutput :=
  o ← exec_try (rc_runc_path (rl_config e)) (rootless_args "exec" id ++ command) (ExecutionFailed RuncExecFailed);
  mret (exec_output o).

(** The first line with [::] only. *)
Definition rootless_usage (fs : HostFs) (pid : Z) : Z * Z :=
  match data ← ok (read_host (components ("/proc/" +:+ pretty pid +:+ "/cgroup")) fs).1; from_utf8 data with
  | Some text =>
    match List.find (λ line, contains line "::") (lines text) with
    | Some line => cgroup_v2 fs line (0, 0)%Z
    | None => (0, 0)%Z
    end
  | None => (0, 0)%Z
  end.

Definition rootless_stats (id : string) : exec_eff WorkloadStats :=
  o ← exec_try (rc_runc_path (rl_config e)) (rootless_args "state" id) ExecIo;
  if negb (success o) then throw (ExecNotFound id)
  else
    pid ← lift_result (pid_of_state (as_bytes (from_utf8_lossy (stdout_of o))));
    w ← get_world;
    let '(mem, cpu) := rootless_usage (ew_fs w) pid in
    mret (MkStats id cpu mem 0 0 0).

Definition rootless_executor (depth : nat) : Executor (ExecWorld H) :=
  MkExecutor _ (rootless_create depth) rootless_start rootless_stop rootless_wait rootless_status rootless_update
    rootless_stats (λ id cmd _, rootless_exec id cmd).

End executor.
