(* ===== verification/Compose.v ===== *)
(** * Start order of compose services: [cmd/pullrun-compose/compose.go]

    [sortServices] orders the services of a compose file for [up].  A service is the
    list of its dependencies in the order in which Go happens to iterate over them;
    nothing below depends on that order.  The order is topological. *)

From stdpp Require Import base gmap strings list sets fin_sets relations.
From Stdlib Require Import Lia.
From S2P Require Import Prelude.

Abbreviation Services := (gmap string (list string)).

(** The variables the closure [visit] captures. *)
Record SortState := MkSort {
  visited : gset string;
  in_stack : gset string;
  order : list string;
}.

Definition push_stack (name : string) (s : SortState) : SortState :=
  MkSort (visited s) ({[name]} ∪ in_stack s) (order s).
Definition finish (name : string) (s : SortState) : SortState :=
  MkSort ({[name]} ∪ visited s) (in_stack s ∖ {[name]}) (order s ++ [name]).

(** A loop whose body may run out of fuel. *)
Fixpoint fold_opt {A B} (f : B → A → option A) (l : list B) (a : A) : option A :=
  match l with
  | [] => Some a
  | x :: l => a ← f x a; fold_opt f l a
  end.

(** The recursion is not bounded in the source; [fuel] is its depth. *)
Fixpoint visit (fuel : nat) (target : Services) (name : string) (s : SortState) : option SortState :=
  match fuel with
  | O => None
  | S fuel =>
    if decide (name ∈ visited s) then Some s
    else if decide (name ∈ in_stack s) then Some s
    else
      s' ← fold_opt (λ dep s, if decide (dep ∈ dom target) then visit fuel target dep s else Some s)
             (default [] (target !! name)) (push_stack name s);
      Some (finish name s')
  end.

Definition visit_all (fuel : nat) (names : list string) (services : Services) : option SortState :=
  fold_opt (λ name s, if decide (name ∈ visited s) then Some s else visit fuel services name s)
    names (MkSort ∅ ∅ []).

(** Go's [copy(dst, src)]: as many elements as both have. *)
Definition copy {A} (dst src : list A) : list A := take (length dst) src ++ drop (length src) dst.

(** The names after the call. *)
Definition sortServices (fuel : nat) (names : list string) (services : Services) : option (list string) :=
  s ← visit_all fuel names services;
  Some (copy names (order s)).

(** The recursion is never deeper than the number of services and the name given. *)
Definition sort_fuel (services : Services) : nat := size services + 2.

Section sort.
Context (services : Services).

(** [a] depends on the service [b]. *)
Definition depends (a b : string) : Prop :=
  ∃ deps, services !! a = Some deps ∧ b ∈ deps ∧ b ∈ dom services.

Definition acyclic : Prop := ∀ a, ¬ tc depends a a.

(** Every dependency comes before. *)
Definition topological (l : list string) : Prop :=
  ∀ l1 a l2 b, l = l1 ++ a :: l2 → depends a b → b ∈ l1.

Lemma topological_snoc l a :
  topological l → (∀ b, depends a b → b ∈ l) → topological (l ++ [a]).
Proof.
  intros Hl Ha l1 x l2 b E Hb. destruct l2 as [|y l2 _] using rev_ind.
  - apply app_inj_tail in E as [-> ->]. by apply Ha.
  - rewrite app_comm_cons, app_assoc in E. apply app_inj_tail in E as [-> _]. by eapply Hl.
Qed.

(** ** Termination *)

Lemma fold_opt_total {A B} (P : A → Prop) (f : B → A → option A) l a :
  P a → (∀ x a, P a → ∃ a', f x a = Some a' ∧ P a') → ∃ a', fold_opt f l a = Some a' ∧ P a'.
Proof.
  intros Ha Hf. revert a Ha. induction l as [|x l IH]; intros a Ha; simpl; [by exists a|].
  destruct (Hf x a Ha) as (a1 & -> & Ha1). simpl. by apply IH.
Qed.

(** Services that are not being visited. *)
Definition open_services (s : SortState) : gset string := dom services ∖ in_stack s.

Lemma visit_total fuel name s :
  (name ∈ dom services ∨ size (open_services s) + 2 ≤ fuel) → size (open_services s) + 1 ≤ fuel →
  ∃ s', visit fuel services name s = Some s' ∧ in_stack s' = in_stack s.
Proof.
  revert name s. induction fuel as [|fuel IH]; intros name s Hn Hf; [lia|]. cbn [visit].
  case_decide as Hv; [by exists s|]. case_decide as Hst; [by exists s|].
  assert (Hsz : size (open_services (push_stack name s)) + 1 ≤ fuel).
  { unfold open_services in *. cbn [push_stack in_stack].
    assert (Hsub : dom services ∖ ({[name]} ∪ in_stack s) ⊆ dom services ∖ in_stack s) by set_solver.
    destruct (decide (name ∈ dom services)) as [Hin|Hin].
    - assert (size (dom services ∖ ({[name]} ∪ in_stack s)) < size (dom services ∖ in_stack s)); [|lia].
      apply subset_size. split; [done|]. set_solver.
    - destruct Hn as [|Hn]; [done|]. apply subseteq_size in Hsub. lia. }
  destruct (fold_opt_total (λ s', in_stack s' = {[name]} ∪ in_stack s)
    (λ dep s, if decide (dep ∈ dom services) then visit fuel services dep s else Some s)
    (default [] (services !! name)) (push_stack name s)) as (s' & -> & Hs'); [done| |].
  - intros dep a Ha. case_decide as Hd; [|by exists a].
    destruct (IH dep a) as (a' & -> & Ha'); [by left| |].
    + unfold open_services in *. rewrite Ha. exact Hsz.
    + exists a'. by rewrite Ha'.
  - exists (finish name s'). split; [done|]. cbn [finish in_stack]. rewrite Hs'. set_solver.
Qed.

Lemma visit_all_total fuel names :
  sort_fuel services ≤ fuel → ∃ s, visit_all fuel names services = Some s ∧ in_stack s = ∅.
Proof.
  intros Hf. unfold visit_all. apply (fold_opt_total (λ s, in_stack s = ∅)); [done|].
  intros name s Hs. case_decide; [by exists s|].
  assert (Hsz : size (open_services s) = size services).
  { unfold open_services. rewrite Hs, difference_empty_L. apply size_dom. }
  unfold sort_fuel in Hf.
  destruct (visit_total fuel name s) as (s' & -> & Hs'); [right; lia|lia|]. exists s'. by rewrite Hs'.
Qed.

(** ** Order *)

Context (Hac : acyclic).

Record sort_inv (s : SortState) : Prop := {
  si_nodup : NoDup (order s);
  si_visited n : n ∈ visited s ↔ n ∈ order s;
  si_stack n : n ∈ in_stack s → n ∉ order s;
  si_topo : topological (order s);
}.

(** A visit extends the order by services that [name] reaches, [name] last. *)
Definition extends (name : string) (s s' : SortState) : Prop :=
  sort_inv s' ∧ in_stack s' = in_stack s ∧ name ∈ order s' ∧
  ∃ l, order s' = order s ++ l ∧ ∀ x, x ∈ l → x = name ∨ x ∈ dom services.

Lemma fold_deps fuel name deps s s' :
  (∀ dep s s', visit fuel services dep s = Some s' → sort_inv s →
     (∀ x, x ∈ in_stack s → tc depends x dep) → extends dep s s') →
  sort_inv s → (∀ x, x ∈ in_stack s → x = name ∨ tc depends x name) →
  (∀ d, d ∈ deps → d ∈ dom services → depends name d) →
  fold_opt (λ dep s, if decide (dep ∈ dom services) then visit fuel services dep s else Some s) deps s = Some s' →
  sort_inv s' ∧ in_stack s' = in_stack s ∧ (∀ d, d ∈ deps → d ∈ dom services → d ∈ order s') ∧
  ∃ l, order s' = order s ++ l ∧ ∀ x, x ∈ l → x ∈ dom services.
Proof.
  intros IH. revert s. induction deps as [|d deps IHd]; intros s Hi Hst Hdep; simpl.
  { intros [= <-]. split_and!; [done|done|by intros d ?%elem_of_nil|]. exists []. rewrite app_nil_r. split; [done|].
    by intros x ?%elem_of_nil. }
  destruct (decide (d ∈ dom services)) as [Hd|Hd]; simpl.
  - destruct (visit fuel services d s) as [s1|] eqn:Ev; [|done]. simpl. intros E.
    assert (Hext : extends d s s1).
    { apply (IH _ _ _ Ev Hi). intros x Hx. assert (depends name d) by (apply Hdep; [by left|done]).
      destruct (Hst x Hx) as [->|]; [by apply tc_once|]. by eapply tc_r. }
    destruct Hext as (Hi1 & Hs1 & Hin1 & l1 & Hl1 & Hd1).
    apply IHd in E as (Hi2 & Hs2 & Hin2 & l2 & Hl2 & Hd2); [|done|by rewrite Hs1|intros; apply Hdep; [by right|done]].
    split_and!; [done|congruence| |].
    + intros x [->|Hx]%elem_of_cons Hxd; [|by apply Hin2]. rewrite Hl2. apply elem_of_app. by left.
    + exists (l1 ++ l2). rewrite Hl2, Hl1, app_assoc. split; [done|]. intros x [Hx|Hx]%elem_of_app; [|by apply Hd2].
      by destruct (Hd1 x Hx) as [->|].
  - intros E. apply IHd in E as (Hi2 & Hs2 & Hin2 & Hl2); [|done|done|intros; apply Hdep; [by right|done]].
    split_and!; [done|done| |done]. intros x [->|Hx]%elem_of_cons Hxd; [done|by apply Hin2].
Qed.

Lemma visit_extends fuel name s s' :
  visit fuel services name s = Some s' → sort_inv s → (∀ x, x ∈ in_stack s → tc depends x name) →
  extends name s s'.
Proof.
  revert name s s'. induction fuel as [|fuel IH]; intros name s s'; [done|]. cbn [visit]. intros E Hi Hst.
  case_decide as Hv.
  { injection E as <-. split_and!; [done|done|by apply Hi|]. exists []. rewrite app_nil_r. split; [done|].
    by intros x ?%elem_of_nil. }
  case_decide as Hin; [by destruct (Hac name); apply Hst|].
  destruct (fold_opt _ _ _) as [s1|] eqn:Ef; [|done]. simpl in E. injection E as <-.
  assert (Hno : name ∉ order s) by (by rewrite <- (si_visited _ Hi)).
  apply (fold_deps fuel name) in Ef as (Hi1 & Hs1 & Hin1 & l & Hl & Hd); [|done| | |].
  - cbn [push_stack order in_stack] in *.
    assert (Hno1 : name ∉ order s1) by (apply (si_stack _ Hi1); rewrite Hs1; set_solver).
    split_and!.
    + constructor; cbn [finish order visited in_stack].
      * apply NoDup_app. split_and!; [apply Hi1|set_solver|apply NoDup_singleton].
      * intros n. rewrite elem_of_union, elem_of_singleton, (si_visited _ Hi1), elem_of_app, list_elem_of_singleton. tauto.
      * intros n Hn. rewrite elem_of_app, list_elem_of_singleton. intros [Ho|Ho]; [|set_solver].
        apply (si_stack _ Hi1 n); [set_solver|done].
      * apply topological_snoc; [apply Hi1|]. intros b (deps & Hdeps & Hb & Hbd). apply Hin1; [by rewrite Hdeps|done].
    + cbn [finish in_stack]. rewrite Hs1. set_solver.
    + cbn [finish order]. apply elem_of_app. right. by left.
    + exists (l ++ [name]). cbn [finish order]. rewrite Hl, app_assoc. split; [done|].
      intros x [Hx|Hx%list_elem_of_singleton]%elem_of_app; [right; by apply Hd|by left].
  - constructor; cbn [push_stack order visited in_stack]; [apply Hi..| |apply Hi].
    intros n [->%elem_of_singleton|Hn]%elem_of_union; [done|by apply Hi].
  - intros x [->%elem_of_singleton|Hx]%elem_of_union; [by left|right; by apply Hst].
  - intros d Hd Hdom. destruct (services !! name) as [deps|] eqn:Es; [|by apply elem_of_nil in Hd].
    by exists deps.
Qed.

Lemma visit_all_inv fuel names s s' :
  fold_opt (λ name s, if decide (name ∈ visited s) then Some s else visit fuel services name s) names s = Some s' →
  sort_inv s → in_stack s = ∅ →
  sort_inv s' ∧ (∀ n, n ∈ names → n ∈ order s') ∧
  ∃ l, order s' = order s ++ l ∧ ∀ x, x ∈ l → x ∈ names ∨ x ∈ dom services.
Proof.
  revert s. induction names as [|n names IH]; intros s; simpl.
  { intros [= <-] Hi _. split_and!; [done|by intros n ?%elem_of_nil|]. exists []. rewrite app_nil_r. split; [done|].
    by intros x ?%elem_of_nil. }
  intros E Hi Hs.
  assert (∃ s1, fold_opt (λ name s, if decide (name ∈ visited s) then Some s else visit fuel services name s) names s1 = Some s' ∧
    extends n s s1) as (s1 & E1 & Hi1 & Hs1 & Hin1 & l1 & Hl1 & Hd1).
  { destruct (decide (n ∈ visited s)) as [Hv|Hv].
    - exists s. split; [exact E|]. split_and!; [done|done|by apply Hi|]. exists []. rewrite app_nil_r. split; [done|].
      by intros x ?%elem_of_nil.
    - destruct (visit fuel services n s) as [s1|] eqn:Ev; [|done]. exists s1. split; [exact E|].
      eapply visit_extends; [exact Ev|done|]. rewrite Hs. set_solver. }
  apply IH in E1 as (Hi2 & Hin2 & l2 & Hl2 & Hd2); [|done|congruence]. split_and!; [done| |].
  - intros x [->|Hx]%elem_of_cons; [|by apply Hin2]. rewrite Hl2. apply elem_of_app. by left.
  - exists (l1 ++ l2). rewrite Hl2, Hl1, app_assoc. split; [done|].
    intros x [Hx|Hx]%elem_of_app; [destruct (Hd1 x Hx) as [->|]; [left; by left|by right]|].
    destruct (Hd2 x Hx); [left; by right|by right].
Qed.

Lemma visit_all_order fuel names :
  sort_fuel services ≤ fuel →
  ∃ s, visit_all fuel names services = Some s ∧ sort_inv s ∧ (∀ n, n ∈ names → n ∈ order s) ∧
       ∀ x, x ∈ order s → x ∈ names ∨ x ∈ dom services.
Proof.
  intros Hf. destruct (visit_all_total fuel names Hf) as (s & E & _). exists s. split; [done|].
  destruct (visit_all_inv fuel names (MkSort ∅ ∅ []) s E) as (Hi & Hin & l & Hl & Hd); [|done|].
  - constructor; cbn; [constructor|intros n; set_solver|set_solver|]. intros [|] ? ? ? ?; done.
  - split_and!; [done|done|]. rewrite Hl. cbn. exact Hd.
Qed.

End sort.

(** C31: with all services requested and no cycle among them, the start order is a
    permutation of the request in which every service comes after all it depends
    on, and the recursion ends. *)
Theorem sortServices_topological services names fuel :
  acyclic services → names ≡ₚ elements (dom services) → sort_fuel services ≤ fuel →
  ∃ l, sortServices fuel names services = Some l ∧ l ≡ₚ names ∧ topological services l.
Proof.
  intros Hac Hn Hf. destruct (visit_all_order services Hac fuel names Hf) as (s & E & Hi & Hin & Hout).
  assert (Hperm : order s ≡ₚ names).
  { apply NoDup_Permutation; [apply Hi|rewrite Hn; apply NoDup_elements|]. intros x. split; [|apply Hin].
    intros [Hx|Hx]%Hout; [done|]. rewrite Hn. by apply elem_of_elements. }
  exists (order s). unfold sortServices. rewrite E. simpl. unfold copy.
  rewrite (Permutation_length Hperm), drop_all, app_nil_r.
  rewrite <- (Permutation_length Hperm), firstn_all. split_and!; [done|done|apply Hi].
Qed.

(** A service requested alone is not started when it depends on another one: the
    order has more names than the request, and copying it back drops the last, which
    is the service itself. *)
Lemma requested_service_dropped services name dep fuel :
  acyclic services → depends services name dep → sort_fuel services ≤ fuel →
  ∃ other, sortServices fuel [name] services = Some [other] ∧ other ≠ name.
Proof.
  intros Hac Hdep Hf. destruct (visit_all_order services Hac fuel [name] Hf) as (s & E & Hi & Hin & _).
  assert (Hname : name ∈ order s) by (apply Hin; by left).
  apply list_elem_of_split in Hname as (l1 & l2 & Hl).
  assert (Hd : dep ∈ l1) by (by eapply (si_topo _ _ Hi)).
  destruct l1 as [|other l1]; [by apply elem_of_nil in Hd|]. exists other.
  unfold sortServices. rewrite E. simpl. rewrite Hl. unfold copy. simpl. rewrite drop_nil.
  split; [done|]. intros ->. pose proof (si_nodup _ _ Hi) as Hnd. rewrite Hl in Hnd. simpl in Hnd.
  apply NoDup_cons in Hnd as [Hnot _]. apply Hnot. apply elem_of_app. right. by left.
Qed.
