(* ===== verification/ControlPlane.v ===== *)
(** * The control plane: [control-plane/]

    [fileStore] keeps the workloads and nodes of a cluster in memory and writes each
    record to a JSON file, [scheduleWorkload] picks the node of a workload; the
    placeholders [Scheduler] and [PullThroughCache] stand beside it.  A directory is
    the map from its file names to their contents, a time its nanoseconds; Go
    iterates over a map in an order of its own, which is an argument. *)

From stdpp Require Import base gmap strings list sorting relations.
From Stdlib Require Import ZArith Ascii Lia.
From S2P Require Import Prelude Strs Crates Policy.

Record WorkloadRecord := MkWorkload {
  w_id : string;
  w_name : string;
  w_image_ref : string;
  w_backend : string;
  w_cpu_millis : Z;
  w_memory : Z;
  w_labels : gmap string string;
  w_created_at : Z;
  w_node_id : string;
  w_status : string;
}.

Record NodeRecord := MkNode {
  n_id : string;
  n_address : string;
  n_cpu_cores : Z;
  n_memory_bytes : Z;
  n_backends : list string;
  n_last_heartbeat : Z;
  n_running : Z;
}.

(** encoding/json on the checkpoints, whose fields are those of the records. *)
Class RecordJson := {
  workload_marshal : WorkloadRecord → option bytes;
  workload_unmarshal : bytes → option WorkloadRecord;
  node_marshal : NodeRecord → option bytes;
  node_unmarshal : bytes → option NodeRecord;
}.

(** The years that JSON times can express, in nanoseconds. *)
Definition json_time (t : Z) : Prop := (0 ≤ t < 253402300800 * 1000000000)%Z.

Class RecordJsonLaws `{RecordJson} : Prop := {
  workload_marshal_total r : json_time (w_created_at r) → is_Some (workload_marshal r);
  workload_json r b : workload_marshal r = Some b → workload_unmarshal b = Some r;
  node_marshal_total r : json_time (n_last_heartbeat r) → is_Some (node_marshal r);
  node_json r b : node_marshal r = Some b → node_unmarshal b = Some r;
}.

(** ** Integers *)

(** The value of an [int64] after an operation. *)
Definition wrap_i64 (z : Z) : Z := as_i64 (z mod u64_mod).

(** ** The store *)

(** [bad_files] are the files whose writing fails. *)
Record FileStore := MkStore {
  workloads : gmap string WorkloadRecord;
  nodes : gmap string NodeRecord;
  workload_dir : gmap string bytes;
  node_dir : gmap string bytes;
  bad_files : gset string;
}.

Inductive GrpcError :=
| InvalidArgument
| Unavailable
| FailedPrecondition
| NotRegistered
| NotFoundWorkload
| NilPanic.

Abbreviation cp_eff := (eff FileStore GrpcError).

Definition is_id_char (c : ascii) : bool :=
  in_range "a" "z" c || in_range "A" "Z" c || in_range "0" "9" c
  || bool_decide (c = "."%char) || bool_decide (c = "_"%char) || bool_decide (c = "-"%char).

(** [^[a-zA-Z0-9._-]{1,128}$]. *)
Definition id_match (s : string) : bool :=
  (1 <=? String.length s)%nat && (String.length s <=? 128)%nat && str_all is_id_char s.

Definition json_name (id : string) : string := id +:+ ".json".

Section store.
Context `{RecordJson}.

(** *** Loading *)

(** The files of a directory in the order of [os.ReadDir]. *)
Definition dir_files (dir : gmap string bytes) : list (string * bytes) :=
  merge_sort (λ a b, str_le a.1 b.1) (filter (λ kv, ends_with kv.1 ".json" = true) (map_to_list dir)).

Definition load_workload (m : gmap string WorkloadRecord) (f : string * bytes) : gmap string WorkloadRecord :=
  match workload_unmarshal f.2 with
  | Some cp => <[w_id cp := cp]> m
  | None => m
  end.

Definition load_node (m : gmap string NodeRecord) (f : string * bytes) : gmap string NodeRecord :=
  match node_unmarshal f.2 with
  | Some cp => <[n_id cp := cp]> m
  | None => m
  end.

Definition newFileStore (wdir ndir : gmap string bytes) (bad : gset string) : FileStore :=
  MkStore (foldl load_workload ∅ (dir_files wdir)) (foldl load_node ∅ (dir_files ndir)) wdir ndir bad.

(** *** Writing *)

Definition write_workload (rec : WorkloadRecord) (s : FileStore) : FileStore :=
  match workload_marshal rec with
  | Some data =>
    if decide (json_name (w_id rec) ∈ bad_files s) then s
    else MkStore (workloads s) (nodes s) (<[json_name (w_id rec) := data]> (workload_dir s)) (node_dir s) (bad_files s)
  | None => s
  end.

Definition write_node (rec : NodeRecord) (s : FileStore) : FileStore :=
  match node_marshal rec with
  | Some data =>
    if decide (json_name (n_id rec) ∈ bad_files s) then s
    else MkStore (workloads s) (nodes s) (workload_dir s) (<[json_name (n_id rec) := data]> (node_dir s)) (bad_files s)
  | None => s
  end.

Definition remove_workload (id : string) (s : FileStore) : FileStore :=
  MkStore (delete id (workloads s)) (nodes s) (delete (json_name id) (workload_dir s)) (node_dir s) (bad_files s).

(** *** Scheduling *)

Definition HEARTBEAT_LIMIT : Z := 30 * 1000000000.

Definition has_backend (backend : string) (n : NodeRecord) : bool :=
  existsb (λ b, bool_decide (b = backend)) (n_backends n).

Definition eligible (now : Z) (backend : string) (n : NodeRecord) : bool :=
  (now - n_last_heartbeat n <=? HEARTBEAT_LIMIT)%Z && has_backend backend n.

(** Workloads of the same image on the node count 100 each, running ones against it. *)
Definition node_score (ws : gmap string WorkloadRecord) (image_ref id : string) (n : NodeRecord) : Z :=
  let same := filter (λ kv, w_node_id kv.2 = id ∧ w_image_ref kv.2 = image_ref) ws in
  wrap_i64 (wrap_i64 (100 * Z.of_nat (size same)) - wrap_i64 (as_i64 (n_running n) * 5)).

Definition schedule_step (now : Z) (ws : gmap string WorkloadRecord) (rec : WorkloadRecord)
    (best : string * Z) (e : string * NodeRecord) : string * Z :=
  let '(id, n) := e in
  if eligible now (w_backend rec) n then
    let score := node_score ws (w_image_ref rec) id n in
    if bool_decide (best.1 = EmptyString) || (best.2 <? score)%Z then (id, score) else best
  else best.

(** [iter] is the order of the loop over the nodes. *)
Definition schedule_workload (iter : list (string * NodeRecord)) (now : Z) (ws : gmap string WorkloadRecord)
    (rec : WorkloadRecord) : result GrpcError string :=
  if decide (iter = []) then Err Unavailable
  else
    let best := foldl (schedule_step now ws rec) (EmptyString, -1)%Z iter in
    if decide (best.1 = EmptyString) then Err FailedPrecondition else Ok best.1.

(** *** Requests *)

Record WorkloadSpec := MkSpec {
  req_name : string;
  req_image_ref : string;
  req_backend : string;
  req_resources : option (Z * Z);
  req_labels : gmap string string;
}.

(** [wl-<UnixNano>]. *)
Class GoFormat := format_int : Z → string.

Definition with_schedule (node_id : string) (r : WorkloadRecord) : WorkloadRecord :=
  MkWorkload (w_id r) (w_name r) (w_image_ref r) (w_backend r) (w_cpu_millis r) (w_memory r) (w_labels r)
    (w_created_at r) node_id "scheduled".

Context `{GoFormat}.

Definition submit_workload (iter : list (string * NodeRecord)) (now : Z) (req : WorkloadSpec) : cp_eff string :=
  if decide (req_backend req = EmptyString) then throw InvalidArgument
  else
    match req_resources req with
    | None => throw NilPanic
    | Some (cpu, mem) =>
      s ← get_world;
      let id := "wl-" +:+ format_int now in
      let rec := MkWorkload id (req_name req) (req_image_ref req) (req_backend req) cpu mem (req_labels req) now
                   EmptyString "submitted" in
      node_id ← lift_result (schedule_workload iter now (workloads s) rec);
      let rec := with_schedule node_id rec in
      modify_world (λ s, write_workload rec
        (MkStore (<[id := rec]> (workloads s)) (nodes s) (workload_dir s) (node_dir s) (bad_files s))) ;;
      mret id
    end.

Definition get_workload (id : string) : cp_eff WorkloadRecord :=
  s ← get_world;
  lift_result (ok_or (workloads s !! id) NotFoundWorkload).

(** A label that is absent reads as the empty string. *)
Definition matches_labels (wanted : gmap string string) (r : WorkloadRecord) : bool :=
  forallb (λ '(k, v), bool_decide (default EmptyString (w_labels r !! k) = v)) (map_to_list wanted).

Definition list_workloads (iter : list (string * WorkloadRecord)) (wanted : gmap string string)
    : list WorkloadRecord :=
  filter (λ r, matches_labels wanted r = true) iter.*2.

Definition delete_workload (id : string) : cp_eff unit :=
  if id_match id then modify_world (remove_workload id) else throw InvalidArgument.

Definition put_node (rec : NodeRecord) (s : FileStore) : FileStore :=
  write_node rec
    (MkStore (workloads s) (<[n_id rec := rec]> (nodes s)) (workload_dir s) (node_dir s) (bad_files s)).

Definition register_node (now : Z) (id address : string) (cpu mem : Z) (backends : list string) : cp_eff string :=
  if id_match id then
    modify_world (put_node (MkNode id address cpu mem backends now 0)) ;;
    mret id
  else throw InvalidArgument.

Definition heartbeat (now : Z) (id : string) (running : Z) : cp_eff unit :=
  s ← get_world;
  match nodes s !! id with
  | None => throw NotRegistered
  | Some n =>
    let n' := MkNode (n_id n) (n_address n) (n_cpu_cores n) (n_memory_bytes n) (n_backends n) now running in
    modify_world (λ s, write_node n'
      (MkStore (workloads s) (<[id := n']> (nodes s)) (workload_dir s) (node_dir s) (bad_files s)))
  end.

End store.

(** ** The placeholder scheduler *)

Record NodeInfo := MkInfo {
  i_id : string;
  i_address : string;
  i_cpu_cores : Z;
  i_memory_bytes : Z;
  i_available : Z;
  i_backends : list string;
  i_last_heartbeat : Z;
  i_running : Z;
}.

Definition scheduler_register (n : NodeInfo) (m : gmap string NodeInfo) : gmap string NodeInfo := <[i_id n := n]> m.

Definition scheduler_heartbeat (now : Z) (id : string) (m : gmap string NodeInfo) : bool * gmap string NodeInfo :=
  match m !! id with
  | Some n =>
    (true, <[id := MkInfo (i_id n) (i_address n) (i_cpu_cores n) (i_memory_bytes n) (i_available n) (i_backends n)
                     now (i_running n)]> m)
  | None => (false, m)
  end.

Record Placement := MkPlacement { p_node_id : string; p_score : Z }.

(** A stable sort, the greater score first. *)
Fixpoint insert_placement (x : Placement) (l : list Placement) : list Placement :=
  match l with
  | [] => [x]
  | y :: l => if (p_score x <? p_score y)%Z then y :: insert_placement x l else x :: y :: l
  end.

Fixpoint sort_placements (l : list Placement) : list Placement :=
  match l with
  | [] => []
  | x :: l => insert_placement x (sort_placements l)
  end.

Definition candidate (now cpu_millis : Z) (backend : string) (n : NodeInfo) : bool :=
  (now - i_last_heartbeat n <=? HEARTBEAT_LIMIT)%Z
  && existsb (λ b, bool_decide (b = backend)) (i_backends n)
  && (cpu_millis <=? i_available n)%Z.

Definition placement (n : NodeInfo) : Placement :=
  MkPlacement (i_id n) (wrap_i64 (as_i64 (i_available n) - wrap_i64 (i_running n * 10))).

(** [None] is [ErrNoNodes]. *)
Definition place (iter : list NodeInfo) (now cpu_millis : Z) (backend : string) : option Placement :=
  head (sort_placements (placement <$> filter (λ n, candidate now cpu_millis backend n = true) iter)).

(** ** The pull-through cache *)

Section cache.
Context `{Hex, Sha2}.

Inductive RegistryError := CacheNotFound | DigestMismatch.

Definition cache_put (digest : string) (data : bytes) : eff (gmap string bytes) RegistryError unit :=
  if decide (hex_encode (arr_bytes (sha256 data)) = digest) then modify_world <[digest := data]>
  else throw DigestMismatch.

Definition cache_get (digest : string) : eff (gmap string bytes) RegistryError bytes :=
  m ← get_world;
  lift_result (ok_or (m !! digest) CacheNotFound).

End cache.

(** ** Scheduling *)

Section schedule.
Context (now : Z) (ws : gmap string WorkloadRecord) (rec : WorkloadRecord).

Definition score_of (e : string * NodeRecord) : Z := node_score ws (w_image_ref rec) e.1 e.2.
Definition is_eligible (e : string * NodeRecord) : Prop := eligible now (w_backend rec) e.2 = true.

(** The best of the nodes seen so far. *)
Definition best_of (seen : list (string * NodeRecord)) (best : string * Z) : Prop :=
  (best.1 = EmptyString ∧ ∀ e, e ∈ seen → ¬ is_eligible e) ∨
  ∃ n, (best.1, n) ∈ seen ∧ is_eligible (best.1, n) ∧ best.2 = score_of (best.1, n) ∧ best.1 ≠ EmptyString ∧
       ∀ e, e ∈ seen → is_eligible e → (score_of e ≤ best.2)%Z.

Lemma schedule_step_best seen best e :
  e.1 ≠ EmptyString → best_of seen best → best_of (seen ++ [e]) (schedule_step now ws rec best e).
Proof.
  intros He Hb. destruct e as [id n]. unfold schedule_step.
  assert (Hin : ∀ x, x ∈ seen ++ [(id, n)] ↔ x ∈ seen ∨ x = (id, n))
    by (intros x; by rewrite elem_of_app, list_elem_of_singleton).
  destruct (eligible now (w_backend rec) n) eqn:Ee.
  - cbv zeta. change (node_score ws (w_image_ref rec) id n) with (score_of (id, n)). destruct (bool_decide (best.1 = EmptyString) || (best.2 <? score_of (id, n))%Z) eqn:Et.
    + right. exists n. cbn [fst snd]. split_and!; [apply Hin; by right|done|done|done|].
      intros x [Hx | ->]%Hin Hel; [|cbn; lia]. destruct Hb as [[_ Hno]|(n0 & _ & _ & _ & Hne & Hmax)].
      * by destruct (Hno x Hx).
      * apply orb_true_iff in Et as [Et%bool_decide_eq_true|Et%Z.ltb_lt]; [done|]. specialize (Hmax x Hx Hel). lia.
    + apply orb_false_iff in Et as [Et%bool_decide_eq_false Hlt%Z.ltb_ge].
      destruct Hb as [[? _]|(n0 & H0 & Hel0 & Hs0 & Hne & Hmax)]; [done|]. right. exists n0.
      split_and!; [apply Hin; by left|done|done|done|]. intros x [Hx | ->]%Hin Hel; [by apply Hmax|done].
  - destruct Hb as [[Hbe Hno]|(n0 & H0 & Hel0 & Hs0 & Hne & Hmax)].
    + left. split; [done|]. intros x [Hx | ->]%Hin; [by apply Hno|]. unfold is_eligible. simpl. by rewrite Ee.
    + right. exists n0. split_and!; [apply Hin; by left|done|done|done|].
      intros x [Hx | ->]%Hin Hel; [by apply Hmax|]. unfold is_eligible in Hel. simpl in Hel. by rewrite Ee in Hel.
Qed.

Lemma schedule_fold_best l seen best :
  Forall (λ e, e.1 ≠ EmptyString) l → best_of seen best →
  best_of (seen ++ l) (foldl (schedule_step now ws rec) best l).
Proof.
  intros Hl. revert seen best. induction Hl as [|e l He _ IH]; intros seen best Hb; simpl; [by rewrite app_nil_r|].
  rewrite cons_middle, app_assoc. by apply IH, schedule_step_best.
Qed.

End schedule.

(** Scheduling picks, in whatever order the nodes are visited, a registered node
    that has the backend, was heard from in the last 30 seconds, and has the highest
    score of all such nodes; it fails only when there is none. *)
Lemma schedule_best iter now s rec :
  iter ≡ₚ map_to_list (nodes s) → (∀ id n, nodes s !! id = Some n → id ≠ EmptyString) →
  match schedule_workload iter now (workloads s) rec with
  | Ok id => ∃ n, nodes s !! id = Some n ∧ eligible now (w_backend rec) n = true ∧
               ∀ id' n', nodes s !! id' = Some n' → eligible now (w_backend rec) n' = true →
                 (node_score (workloads s) (w_image_ref rec) id' n' ≤ node_score (workloads s) (w_image_ref rec) id n)%Z
  | Err e => (e = Unavailable ↔ nodes s = ∅) ∧
             ∀ id n, nodes s !! id = Some n → eligible now (w_backend rec) n = false
  end.
Proof.
  intros Hp Hne. assert (Hin : ∀ id n, (id, n) ∈ iter ↔ nodes s !! id = Some n)
    by (intros id n; rewrite Hp; apply elem_of_map_to_list).
  unfold schedule_workload. case_decide as Hnil.
  { subst iter. assert (nodes s = ∅) as He by (apply map_to_list_empty_iff, Permutation_nil_r; by symmetry).
    rewrite He. split; [done|]. intros id n. by rewrite lookup_empty. }
  pose proof (schedule_fold_best now (workloads s) rec iter [] (EmptyString, -1)%Z) as Hb.
  destruct Hb as [[Hb Hno]|(n & Hn & Hel & Hs & Hbe & Hmax)].
  - apply Forall_forall. intros [id n] Hx. apply Hin in Hx. by apply (Hne id n).
  - left. split; [done|]. by intros e ?%elem_of_nil.
  - rewrite decide_True by done. split.
    + split; [done|]. intros He. destruct iter as [|[id n] l]; [done|].
      assert (Hx : nodes s !! id = Some n) by (apply Hin; by left). by rewrite He, lookup_empty in Hx.
    + intros id n Hx%Hin. destruct (eligible now (w_backend rec) n) eqn:E; [|done]. by destruct (Hno (id, n)).
  - rewrite decide_False by done. exists n. split_and!; [by apply Hin|done|].
    intros id' n' Hx%Hin Hel'. specialize (Hmax (id', n') Hx Hel'). rewrite Hs in Hmax. exact Hmax.
Qed.

(** ** Restarts *)

Lemma json_name_inj a b : json_name a = json_name b → a = b.
Proof.
  unfold json_name. intros E%(f_equal as_bytes). rewrite !as_bytes_app in E. apply app_inv_tail in E.
  by rewrite <- (str_of_as_bytes a), E, str_of_as_bytes.
Qed.

Lemma ends_with_app s t : ends_with (s +:+ t) t = true.
Proof.
  induction s as [|c s IH].
  - change (EmptyString +:+ t) with t. destruct t as [|a t]; [done|]. cbn [ends_with]. by rewrite bool_decide_true.
  - rewrite str_app_cons. simpl. rewrite IH. apply orb_true_r.
Qed.

Section mirror.
Context {R : Type} (unm : bytes → option R) (idf : R → string).

(** The files of a directory are those of the records of a map. *)
Record mirror (dir : gmap string bytes) (m : gmap string R) : Prop := {
  mir_files id r : m !! id = Some r → idf r = id ∧ ∃ b, dir !! json_name id = Some b ∧ unm b = Some r;
  mir_only f b : dir !! f = Some b → ∃ id r, f = json_name id ∧ m !! id = Some r;
}.

Definition load_with (m : gmap string R) (f : string * bytes) : gmap string R :=
  match unm f.2 with
  | Some cp => <[idf cp := cp]> m
  | None => m
  end.

Lemma load_fold m l m0 :
  m0 ⊆ m → (∀ f b, (f, b) ∈ l → ∃ r, unm b = Some r ∧ m !! idf r = Some r) →
  foldl load_with m0 l ⊆ m ∧ m0 ⊆ foldl load_with m0 l ∧
  ∀ f b r, (f, b) ∈ l → unm b = Some r → foldl load_with m0 l !! idf r = Some r.
Proof.
  revert m0. induction l as [|[f b] l IH]; intros m0 Hm0 Hl; cbn [foldl].
  { split_and!; [done|done|]. by intros f b r ?%elem_of_nil. }
  destruct (Hl f b) as (r & Hr & Hmr); [by left|]. unfold load_with at 2 4 6. cbn [snd]. rewrite Hr.
  assert (Hsub : <[idf r := r]> m0 ⊆ m) by (by apply insert_subseteq_l).
  destruct (IH (<[idf r := r]> m0) Hsub) as (H1 & H2 & H3); [intros; apply (Hl f0); by right|].
  split_and!; [done| |].
  - apply map_subseteq_spec. intros i x Hx. destruct (decide (i = idf r)) as [->|Hne].
    + rewrite map_subseteq_spec in Hm0. specialize (Hm0 _ _ Hx). rewrite Hmr in Hm0. injection Hm0 as <-.
      eapply lookup_weaken; [|exact H2]. apply lookup_insert_eq.
    + eapply lookup_weaken; [|exact H2]. by rewrite lookup_insert_ne.
  - intros f' b' r' [E|Hin]%elem_of_cons Hr'; [|by eapply H3]. injection E as -> ->.
    rewrite Hr in Hr'. injection Hr' as <-. eapply lookup_weaken; [|exact H2]. apply lookup_insert_eq.
Qed.

Lemma load_mirror dir m : mirror dir m → foldl load_with ∅ (dir_files dir) = m.
Proof.
  intros [Hf Ho]. assert (Hin : ∀ f b, (f, b) ∈ dir_files dir ↔ dir !! f = Some b).
  { intros f b. unfold dir_files. rewrite merge_sort_Permutation, list_elem_of_filter, elem_of_map_to_list.
    split; [by intros [_ ?]|]. intros Hb. split; [|done]. destruct (Ho f b Hb) as (id & r & -> & _).
    cbn. apply ends_with_app. }
  assert (Hdec : ∀ f b, (f, b) ∈ dir_files dir → ∃ r, unm b = Some r ∧ m !! idf r = Some r).
  { intros f b Hx%Hin. destruct (Ho f b Hx) as (id & r & -> & Hr). destruct (Hf id r Hr) as (Hid & b' & Hb' & Hu).
    rewrite Hx in Hb'. injection Hb' as <-. exists r. by rewrite Hid. }
  destruct (load_fold m (dir_files dir) ∅ (map_empty_subseteq m) Hdec) as (H1 & _ & H3).
  apply (anti_symm (⊆)); [done|]. apply map_subseteq_spec. intros id r Hr.
  destruct (Hf id r Hr) as (Hid & b & Hb & Hu). rewrite <- Hid. eapply H3; [|exact Hu]. apply Hin. exact Hb.
Qed.

Lemma mirror_insert dir m r b :
  mirror dir m → unm b = Some r → mirror (<[json_name (idf r) := b]> dir) (<[idf r := r]> m).
Proof.
  intros [Hf Ho] Hb. constructor.
  - intros id r' Hr'. destruct (decide (id = idf r)) as [->|Hne].
    + rewrite lookup_insert_eq in Hr'. injection Hr' as <-. split; [done|]. exists b. by rewrite lookup_insert_eq.
    + rewrite lookup_insert_ne in Hr' by done. destruct (Hf id r' Hr') as (? & b' & ? & ?). split; [done|]. exists b'.
      rewrite lookup_insert_ne; [done|]. intros E%json_name_inj. done.
  - intros f b' Hb'. destruct (decide (f = json_name (idf r))) as [->|Hne].
    + exists (idf r), r. by rewrite lookup_insert_eq.
    + rewrite lookup_insert_ne in Hb' by done. destruct (Ho f b' Hb') as (id & r' & -> & Hr'). exists id, r'.
      rewrite lookup_insert_ne; [done|]. intros <-. done.
Qed.

Lemma mirror_delete dir m id : mirror dir m → mirror (delete (json_name id) dir) (delete id m).
Proof.
  intros [Hf Ho]. constructor.
  - intros id' r [Hne Hr]%lookup_delete_Some. destruct (Hf id' r Hr) as (? & b & ? & ?). split; [done|]. exists b.
    rewrite lookup_delete_ne; [done|]. intros E%json_name_inj. done.
  - intros f b [Hne Hb]%lookup_delete_Some. destruct (Ho f b Hb) as (id' & r & -> & Hr). exists id', r.
    rewrite lookup_delete_ne; [done|]. intros ->. done.
Qed.

End mirror.

Section restart.
Context `{RecordJson, !RecordJsonLaws, GoFormat}.

Record cp_inv (s : FileStore) : Prop := {
  cp_workloads : mirror workload_unmarshal w_id (workload_dir s) (workloads s);
  cp_nodes : mirror node_unmarshal n_id (node_dir s) (nodes s);
  cp_files : bad_files s = ∅;
}.

(** A request at a time that JSON can express. *)
Inductive cp_step (s s' : FileStore) : Prop :=
| StepSubmit iter now req r : json_time now → submit_workload iter now req s = (r, s') → cp_step s s'
| StepDelete id r : delete_workload id s = (r, s') → cp_step s s'
| StepRegister now id address cpu mem backends r :
    json_time now → register_node now id address cpu mem backends s = (r, s') → cp_step s s'
| StepHeartbeat now id running r : json_time now → heartbeat now id running s = (r, s') → cp_step s s'.

Lemma write_workload_inv s rec :
  cp_inv s → json_time (w_created_at rec) →
  cp_inv (write_workload rec (MkStore (<[w_id rec := rec]> (workloads s)) (nodes s) (workload_dir s) (node_dir s) (bad_files s))).
Proof.
  intros [Hw Hn Hb] Ht. destruct (workload_marshal_total rec Ht) as [b Eb]. unfold write_workload. rewrite Eb.
  cbn [bad_files]. rewrite Hb, decide_False by set_solver. constructor; cbn; [|done|done].
  apply mirror_insert; [done|]. by apply workload_json.
Qed.

Lemma put_node_inv s rec : cp_inv s → json_time (n_last_heartbeat rec) → cp_inv (put_node rec s).
Proof.
  intros [Hw Hn Hb] Ht. destruct (node_marshal_total rec Ht) as [b Eb]. unfold put_node, write_node. rewrite Eb.
  cbn [bad_files]. rewrite Hb, decide_False by set_solver. constructor; cbn; [done| |done].
  apply mirror_insert; [done|]. by apply node_json.
Qed.

Lemma cp_step_inv s s' : cp_step s s' → cp_inv s → cp_inv s'.
Proof.
  intros Hs Hi. destruct Hs as [iter now req r Ht E|id r E|now id address cpu mem backends r Ht E|now id running r Ht E].
  - unfold submit_workload in E. case_decide; [by injection E as _ <-|].
    destruct (req_resources req) as [[cpu mem]|]; [|by injection E as _ <-].
    unfold mbind, eff_bind, get_world, lift_result in E.
    destruct (schedule_workload _ _ _ _) as [node|e]; [|by injection E as _ <-].
    unfold modify_world, mret, eff_ret in E. injection E as _ <-.
    change ("wl-" +:+ format_int now) with (w_id (with_schedule node (MkWorkload ("wl-" +:+ format_int now)
      (req_name req) (req_image_ref req) (req_backend req) cpu mem (req_labels req) now EmptyString "submitted"))) at 2.
    by apply write_workload_inv.
  - unfold delete_workload in E. destruct (id_match id); [|by injection E as _ <-].
    unfold modify_world in E. injection E as _ <-. destruct Hi. constructor; cbn; [by apply mirror_delete|done|done].
  - unfold register_node in E. destruct (id_match id); [|by injection E as _ <-].
    unfold mbind, eff_bind, modify_world, mret, eff_ret in E. injection E as _ <-. by apply put_node_inv.
  - unfold heartbeat, mbind, eff_bind, get_world in E. destruct (nodes s !! id) as [n|] eqn:En; [|by injection E as _ <-].
    unfold modify_world in E. injection E as _ <-.
    destruct (mir_files _ _ _ _ (cp_nodes _ Hi) id n En) as [Hid _]. subst id.
    exact (put_node_inv s (MkNode (n_id n) (n_address n) (n_cpu_cores n) (n_memory_bytes n) (n_backends n) now running) Hi Ht).
Qed.


End restart.

(** ** The placeholder scheduler *)

Lemma insert_placement_perm x l : insert_placement x l ≡ₚ x :: l.
Proof.
  induction l as [|y l IH]; simpl; [done|]. destruct (_ <? _)%Z; [|done]. rewrite IH. apply Permutation_swap.
Qed.

Lemma sort_placements_perm l : sort_placements l ≡ₚ l.
Proof. induction l as [|x l IH]; simpl; [done|]. by rewrite insert_placement_perm, IH. Qed.

(** The head is the greatest. *)
Definition head_max (l : list Placement) : Prop :=
  match l with
  | [] => True
  | x :: _ => ∀ y, y ∈ l → (p_score y ≤ p_score x)%Z
  end.

Lemma insert_placement_max x l : head_max l → head_max (insert_placement x l).
Proof.
  destruct l as [|y l]; simpl; intros Hm.
  { intros z ->%list_elem_of_singleton. lia. }
  destruct (p_score x <? p_score y)%Z eqn:E.
  - apply Z.ltb_lt in E. intros z [->|Hz]%elem_of_cons; [lia|]. rewrite insert_placement_perm in Hz.
    apply elem_of_cons in Hz as [->|Hz]; [lia|]. apply Hm. by right.
  - apply Z.ltb_ge in E. intros z [->|Hz]%elem_of_cons; [lia|]. specialize (Hm z Hz). lia.
Qed.

Lemma sort_placements_max l : head_max (sort_placements l).
Proof. induction l as [|x l IH]; simpl; [done|]. by apply insert_placement_max. Qed.

Lemma place_best iter now cpu_millis backend :
  match place iter now cpu_millis backend with
  | Some p => ∃ n, n ∈ iter ∧ candidate now cpu_millis backend n = true ∧ p = placement n ∧
                ∀ n', n' ∈ iter → candidate now cpu_millis backend n' = true → (p_score (placement n') ≤ p_score p)%Z
  | None => ∀ n, n ∈ iter → candidate now cpu_millis backend n = false
  end.
Proof.
  unfold place. set (cs := filter (λ n, candidate now cpu_millis backend n = true) iter).
  pose proof (sort_placements_max (placement <$> cs)) as Hmax.
  pose proof (sort_placements_perm (placement <$> cs)) as Hperm.
  assert (Hin : ∀ n, n ∈ iter → candidate now cpu_millis backend n = true → placement n ∈ sort_placements (placement <$> cs)).
  { intros n Hn Hc. rewrite Hperm. apply list_elem_of_fmap. exists n. split; [done|]. by apply list_elem_of_filter. }
  destruct (sort_placements (placement <$> cs)) as [|p l]; cbn [head].
  - intros n Hn. destruct (candidate now cpu_millis backend n) eqn:E; [|done]. specialize (Hin n Hn E). by apply elem_of_nil in Hin.
  - assert (Hp : p ∈ placement <$> cs) by (rewrite <- Hperm; by left).
    apply list_elem_of_fmap in Hp as (n & -> & [Hc Hn]%list_elem_of_filter). exists n. split_and!; [done..|].
    intros n' Hn' Hc'. by apply Hmax, Hin.
Qed.

(** ** The pull-through cache *)

Section cache.
Context `{Hex, Sha2}.

(** Everything the cache holds has the digest it is asked for. *)
Definition cache_verified (m : gmap string bytes) : Prop :=
  ∀ d b, m !! d = Some b → hex_encode (arr_bytes (sha256 b)) = d.

Lemma cache_put_verified d b m r m' : cache_verified m → cache_put d b m = (r, m') → cache_verified m'.
Proof.
  intros Hm. unfold cache_put. case_decide as Hd; [|by intros [= _ <-]]. unfold modify_world. intros [= _ <-].
  intros d' b'. destruct (decide (d' = d)) as [->|]; [rewrite lookup_insert_eq; by intros [= <-]|].
  rewrite lookup_insert_ne by done. apply Hm.
Qed.

End cache.
