(* ===== verification/Bloom.v ===== *)
(** * Bloom filters and the peer cache: [runtime/pullrun-sync/src/{bloom,delta,gossip}.rs]

    A filter is a bit array of [m] bits in 64-bit words with [k] probes per item.
    [None] is a panic: an index out of bounds, a division by zero or a failed
    assertion.  The floating-point sizing formulas are a parameter. *)

From stdpp Require Import base gmap strings list numbers fin_maps.
From Stdlib Require Import ZArith Lia.
From S2P Require Import Prelude Strs Crates.

Record BloomFilter := MkBloom { bits : list Z; k : Z; m : Z; num_items : nat }.

(** The sizing formulas up to their saturating casts to [u64] and [u32]. *)
Class BloomSizing := {
  f64 : Type;
  DEFAULT_FP_RATE : f64;
  ceil_m : Z → f64 → Z;
  ceil_k : Z → Z → Z;
}.

Class BloomSizingLaws `{BloomSizing} : Prop := {
  ceil_m_range n p : is_u64 (ceil_m n p);
  ceil_k_range n b : is_u32 (ceil_k n b);
}.

(** [m.div_ceil(64)]. *)
Definition word_count (m : Z) : Z := ((m + 63) `div` 64)%Z.

Definition BloomFilter_new (m k : Z) : BloomFilter :=
  MkBloom (replicate (Z.to_nat (word_count m)) 0%Z) k m 0.

Definition optimal_m `{BloomSizing} (n : Z) (p : f64) : Z := Z.max (ceil_m n p) 1.
Definition optimal_k `{BloomSizing} (n m : Z) : Z := Z.max (ceil_k n m) 1.

Definition with_fp_rate `{BloomSizing} (expected_items : Z) (fp_rate : f64) : BloomFilter :=
  let m := optimal_m expected_items fp_rate in
  BloomFilter_new m (optimal_k expected_items m).

Definition optimal `{BloomSizing} (expected_items : Z) : BloomFilter :=
  with_fp_rate expected_items DEFAULT_FP_RATE.

(** ** Filters received from peers

    An [Instant] is a number of seconds; [duration_since] saturates at 0. *)

Definition CACHE_TTL : Z := 300.

Record PeerBloomInfo := MkPeer {
  node_id : string;
  sync_addr : string;
  bloom_bytes : bytes;
  bloom_k : Z;
  bloom_m : Z;
  last_updated : Z;
}.

Abbreviation PeerBloomCache := (gmap string PeerBloomInfo).

(** ** Probes *)

Section probes.
Context `{Sha2}.

Definition hash_seed (item : string) (seed : Z) : Z :=
  from_le (take 8 (arr_bytes (sha256 (as_bytes item ++ le_bytes 8 seed)))).

Definition hash_pair (item : string) : Z * Z := (hash_seed item 0, hash_seed item 1).

(** [h1.wrapping_add(i).wrapping_mul(h2) % m]. *)
Definition g_i (h1 h2 i m : Z) : option Z :=
  if decide (m = 0)%Z then None else Some (wrap64 (wrap64 (h1 + i) * h2) `mod` m)%Z.

(** [bits[word] |= 1 << offset]. *)
Definition set_bit (l : list Z) (bit : Z) : option (list Z) :=
  let word := Z.to_nat (bit `div` 64) in
  w ← l !! word;
  Some (<[word := Z.lor w (Z.shiftl 1 (bit `mod` 64))]> l).

(** [bits[word] & (1 << offset) == 0], negated. *)
Definition test_bit (l : list Z) (bit : Z) : option bool :=
  w ← l !! Z.to_nat (bit `div` 64);
  Some (negb (bool_decide (Z.land w (Z.shiftl 1 (bit `mod` 64)) = 0)%Z)).

Fixpoint insert_loop (h1 h2 m : Z) (probes : list Z) (l : list Z) : option (list Z) :=
  match probes with
  | [] => Some l
  | i :: probes => bit ← g_i h1 h2 i m; l ← set_bit l bit; insert_loop h1 h2 m probes l
  end.

Definition insert (item : string) (f : BloomFilter) : option BloomFilter :=
  let '(h1, h2) := hash_pair item in
  l ← insert_loop h1 h2 (m f) (seqZ 0 (k f)) (bits f);
  Some (MkBloom l (k f) (m f) (S (num_items f))).

Fixpoint contains_loop (h1 h2 m : Z) (probes : list Z) (l : list Z) : option bool :=
  match probes with
  | [] => Some true
  | i :: probes =>
    bit ← g_i h1 h2 i m;
    set ← test_bit l bit;
    if set : bool then contains_loop h1 h2 m probes l else Some false
  end.

Definition contains (item : string) (f : BloomFilter) : option bool :=
  let '(h1, h2) := hash_pair item in contains_loop h1 h2 (m f) (seqZ 0 (k f)) (bits f).

Definition merge (f other : BloomFilter) : option BloomFilter :=
  if decide (length (bits f) = length (bits other) ∧ k f = k other)
  then Some (MkBloom (zip_with Z.lor (bits f) (bits other)) (k f) (m f)
               (Nat.max (num_items f) (num_items other)))
  else None.

Definition clear (f : BloomFilter) : BloomFilter :=
  MkBloom (replicate (length (bits f)) 0%Z) (k f) (m f) 0.

(** ** Wire format *)

Definition to_bytes (f : BloomFilter) : bytes :=
  le_bytes 8 (m f) ++ le_bytes 4 (k f) ++ (w ← bits f; le_bytes 8 w).

Fixpoint read_words (n : nat) (data : bytes) : list Z :=
  match n with
  | O => []
  | S n => from_le (take 8 data) :: read_words n (drop 8 data)
  end.

Definition from_bytes (data : bytes) : option (BloomFilter * Z) :=
  if decide (length data < 12) then None
  else
    let m := from_le (take 8 data) in
    let k := from_le (take 4 (drop 8 data)) in
    let expected_len := (12 + word_count m * 8)%Z in
    if decide (Z.of_nat (length data) < expected_len)%Z then None
    else Some (MkBloom (read_words (Z.to_nat (word_count m)) (drop 12 data)) k m 0, expected_len).

(** ** The blobs a peer is missing *)

Fixpoint compute_delta (local_blobs : list string) (peer : BloomFilter) : option (list string) :=
  match local_blobs with
  | [] => Some []
  | d :: l =>
    c ← contains d peer;
    rest ← compute_delta l peer;
    Some (if c : bool then rest else d :: rest)
  end.

(** ** The peer cache *)

Definition update (id addr : string) (info : PeerBloomInfo) (c : PeerBloomCache) : PeerBloomCache :=
  match c !! id with
  | Some existing =>
    <[id := MkPeer (node_id existing) addr (bloom_bytes info) (bloom_k info) (bloom_m info)
              (last_updated info)]> c
  | None => <[id := info]> c
  end.

Definition duration_since (now earlier : Z) : Z := Z.max 0 (now - earlier).

Definition stale (now : Z) (info : PeerBloomInfo) : bool :=
  bool_decide (duration_since now (last_updated info) > CACHE_TTL)%Z.

(** The filter closure of [find_peers_with_blob]. *)
Definition has_blob (now : Z) (digest : string) (info : PeerBloomInfo) : option bool :=
  if stale now info then Some false
  else match from_bytes (bloom_bytes info) with
       | Some (bf, _) => contains digest bf
       | None => Some false
       end.

Fixpoint filter_peers (now : Z) (digest : string) (l : list PeerBloomInfo)
    : option (list (string * string)) :=
  match l with
  | [] => Some []
  | info :: l =>
    b ← has_blob now digest info;
    rest ← filter_peers now digest l;
    Some (if b : bool then (node_id info, sync_addr info) :: rest else rest)
  end.

Definition find_peers_with_blob (now : Z) (digest : string) (c : PeerBloomCache)
    : option (list (string * string)) :=
  filter_peers now digest (map_to_list c).*2.

Definition peer_count (now : Z) (c : PeerBloomCache) : nat :=
  length (filter (λ info, stale now info = false) (map_to_list c).*2).

Definition remove_stale (now : Z) (c : PeerBloomCache) : PeerBloomCache :=
  filter (λ kv, stale now kv.2 = false) c.

End probes.

Record bloom_wf (f : BloomFilter) : Prop := {
  wf_m : (1 ≤ m f < u64_mod)%Z;
  wf_k : is_u32 (k f);
  wf_len : length (bits f) = Z.to_nat (word_count (m f));
  wf_words : Forall is_u64 (bits f);
}.

(** Bit [b] is set. *)
Definition has_bit (l : list Z) (b : Z) : Prop :=
  ∃ w, l !! Z.to_nat (b `div` 64) = Some w ∧ Z.testbit w (b `mod` 64) = true.

Lemma word_in_range (l : list Z) (mm b : Z) :
  length l = Z.to_nat (word_count mm) → (0 ≤ b < mm)%Z → is_Some (l !! Z.to_nat (b `div` 64)).
Proof.
  intros Hl Hb. apply lookup_lt_is_Some. rewrite Hl. unfold word_count.
  assert (b `div` 64 < (mm + 63) `div` 64)%Z; [|pose proof (Z.div_pos b 64); lia].
  apply Z.div_lt_upper_bound; [lia|]. pose proof (Z.div_mod (mm + 63) 64). pose proof (Z.mod_pos_bound (mm + 63) 64).
  lia.
Qed.

Lemma test_bit_spec l b w :
  (0 ≤ b)%Z → l !! Z.to_nat (b `div` 64) = Some w →
  test_bit l b = Some (Z.testbit w (b `mod` 64)).
Proof.
  intros Hb Hw. unfold test_bit. rewrite Hw. simpl. f_equal.
  pose proof (Z.mod_pos_bound b 64). rewrite Z.shiftl_1_l.
  destruct (Z.testbit w (b `mod` 64)) eqn:E;
    [rewrite bool_decide_false; [done|]|rewrite bool_decide_true; [done|]].
  - intros E0. apply (f_equal (λ z, Z.testbit z (b `mod` 64))) in E0.
    by rewrite Z.land_spec, Z.pow2_bits_true, E, Z.bits_0 in E0 by lia.
  - apply Z.bits_inj'. intros n Hn. rewrite Z.land_spec, Z.pow2_bits_eqb, Z.bits_0 by lia.
    destruct (Z.eqb_spec (b `mod` 64) n) as [<-|]; [by rewrite E|by rewrite andb_false_r].
Qed.

Lemma lor_u64 a b : is_u64 a → is_u64 b → is_u64 (Z.lor a b).
Proof.
  unfold is_u64, u64_mod. intros Ha Hb. split; [apply Z.lor_nonneg; lia|].
  destruct (decide (Z.lor a b = 0)%Z) as [->|Hn]; [done|].
  assert (0 ≤ Z.lor a b)%Z by (apply Z.lor_nonneg; lia).
  apply Z.log2_lt_pow2; [lia|]. rewrite Z.log2_lor by lia.
  assert (∀ z, 0 ≤ z < 2 ^ 64 → Z.log2 z < 64)%Z as Hl.
  { intros z Hz. destruct (decide (z = 0)%Z) as [->|]; [done|]. apply Z.log2_lt_pow2; lia. }
  apply Z.max_lub_lt; by apply Hl.
Qed.

Lemma set_bit_spec l b :
  (0 ≤ b)%Z → is_Some (l !! Z.to_nat (b `div` 64)) → Forall is_u64 l →
  ∃ l', set_bit l b = Some l' ∧ length l' = length l ∧ Forall is_u64 l' ∧
    ∀ c, (0 ≤ c)%Z → has_bit l' c ↔ has_bit l c ∨ c = b.
Proof.
  intros Hb [w Hw] Hu. unfold set_bit. rewrite Hw. simpl. eexists. split; [done|].
  pose proof (Z.mod_pos_bound b 64) as Hm. pose proof (proj1 (Forall_lookup _ _) Hu _ _ Hw) as Hwu.
  rewrite Z.shiftl_1_l. split_and!.
  - apply length_insert.
  - apply Forall_insert; [done|]. apply lor_u64; [done|]. unfold is_u64, u64_mod.
    split; [apply Z.pow_nonneg; lia|apply Z.pow_lt_mono_r; lia].
  - intros c Hc. unfold has_bit.
    destruct (decide (Z.to_nat (c `div` 64) = Z.to_nat (b `div` 64))) as [E|E].
    + rewrite E, list_lookup_insert_eq by (by eapply lookup_lt_Some).
      assert (c `div` 64 = b `div` 64)%Z as Ed by (pose proof (Z.div_pos b 64); pose proof (Z.div_pos c 64); lia).
      pose proof (Z.div_mod c 64) as Hc'. pose proof (Z.div_mod b 64) as Hb'. rewrite Hw.
      pose proof (Z.mod_pos_bound c 64). split.
      * intros (w' & [= <-] & Ht). rewrite Z.lor_spec, Z.pow2_bits_eqb in Ht by lia.
        apply orb_true_iff in Ht as [Ht|Ht%Z.eqb_eq]; [left; by exists w|right; lia].
      * intros [(w' & [= <-] & Ht) | ->]; eexists; (split; [done|]); rewrite Z.lor_spec.
        -- by rewrite Ht.
        -- rewrite Z.pow2_bits_true by lia. apply orb_true_r.
    + rewrite list_lookup_insert_ne by done. split; [tauto|]. by intros [? | ->].
Qed.

(** ** Probes of an item *)

Section items.
Context `{Sha2}.

Definition probe (item : string) (mm i : Z) : Z :=
  (wrap64 (wrap64 (hash_seed item 0 + i) * hash_seed item 1) `mod` mm)%Z.

Lemma g_i_probe item mm i :
  (1 ≤ mm)%Z → g_i (hash_seed item 0) (hash_seed item 1) i mm = Some (probe item mm i).
Proof. intros Hm. unfold g_i. by rewrite decide_False by lia. Qed.

Lemma probe_range item mm i : (1 ≤ mm)%Z → (0 ≤ probe item mm i < mm)%Z.
Proof. intros. apply Z.mod_pos_bound. lia. Qed.

Lemma insert_loop_spec item mm js l :
  (1 ≤ mm)%Z → length l = Z.to_nat (word_count mm) → Forall is_u64 l →
  ∃ l', insert_loop (hash_seed item 0) (hash_seed item 1) mm js l = Some l' ∧ length l' = length l ∧
    Forall is_u64 l' ∧
    ∀ c, (0 ≤ c)%Z → has_bit l' c ↔ has_bit l c ∨ c ∈ probe item mm <$> js.
Proof.
  intros Hm. revert l. induction js as [|i js IH]; intros l Hl Hu; simpl.
  { exists l. split_and!; try done. intros c _. rewrite elem_of_nil. tauto. }
  rewrite g_i_probe by done. simpl. pose proof (probe_range item mm i Hm) as Hp.
  destruct (set_bit_spec l (probe item mm i)) as (l1 & -> & Hl1 & Hu1 & Hb1);
    [lia|by eapply word_in_range|done|]. simpl.
  destruct (IH l1) as (l2 & -> & Hl2 & Hu2 & Hb2); [congruence|done|].
  exists l2. split_and!; try done; [congruence|]. intros c Hc. rewrite Hb2, Hb1, elem_of_cons by done. tauto.
Qed.

Lemma contains_loop_spec item mm js l :
  (1 ≤ mm)%Z → length l = Z.to_nat (word_count mm) →
  ∃ r, contains_loop (hash_seed item 0) (hash_seed item 1) mm js l = Some r ∧
    (r = true ↔ ∀ c, c ∈ probe item mm <$> js → has_bit l c).
Proof.
  intros Hm Hl. induction js as [|i js IH]; simpl.
  { exists true. split; [done|]. split; [|done]. intros _ c ?%elem_of_nil. done. }
  rewrite g_i_probe by done. simpl. pose proof (probe_range item mm i Hm) as Hp.
  destruct (word_in_range l mm _ Hl Hp) as [w Hw]. rewrite (test_bit_spec _ _ w) by (lia || done). simpl.
  destruct (Z.testbit w _) eqn:Et.
  - destruct IH as (r & -> & Hr). exists r. split; [done|]. rewrite Hr. setoid_rewrite elem_of_cons. split.
    + intros Hall c [->|?]; [by exists w|by apply Hall].
    + intros Hall c ?. apply Hall. by right.
  - exists false. split; [done|]. split; [done|]. intros Hall.
    destruct (Hall (probe item mm i)) as (w' & Hw' & Ht); [apply elem_of_cons; by left|]. congruence.
Qed.

Definition probes (item : string) (f : BloomFilter) : list Z := probe item (m f) <$> seqZ 0 (k f).

Lemma insert_spec item f : bloom_wf f →
  ∃ f', insert item f = Some f' ∧ bloom_wf f' ∧ m f' = m f ∧ k f' = k f ∧
    ∀ c, (0 ≤ c)%Z → has_bit (bits f') c ↔ has_bit (bits f) c ∨ c ∈ probes item f.
Proof.
  intros [Hm Hk Hl Hu]. unfold insert, hash_pair.
  destruct (insert_loop_spec item (m f) (seqZ 0 (k f)) (bits f)) as (l & -> & Hl' & Hu' & Hb); [lia|done..|].
  simpl. eexists. split_and!; try done. split; simpl; [done..|congruence|done].
Qed.

Lemma contains_spec item f : bloom_wf f →
  ∃ r, contains item f = Some r ∧ (r = true ↔ ∀ c, c ∈ probes item f → has_bit (bits f) c).
Proof. intros [Hm _ Hl _]. apply contains_loop_spec; [lia|done]. Qed.

Lemma probes_nonneg item f c : bloom_wf f → c ∈ probes item f → (0 ≤ c < m f)%Z.
Proof. intros [Hm _ _ _] (i & -> & _)%list_elem_of_fmap. apply probe_range. lia. Qed.

(** ** Sets of items *)

Fixpoint insert_all (items : list string) (f : BloomFilter) : option BloomFilter :=
  match items with
  | [] => Some f
  | item :: items => f ← insert item f; insert_all items f
  end.

Lemma insert_all_spec items f : bloom_wf f →
  ∃ f', insert_all items f = Some f' ∧ bloom_wf f' ∧ m f' = m f ∧ k f' = k f ∧
    ∀ c, (0 ≤ c)%Z →
      has_bit (bits f') c ↔ has_bit (bits f) c ∨ ∃ item, item ∈ items ∧ c ∈ probes item f.
Proof.
  revert f. induction items as [|item items IH]; intros f Hf; simpl.
  { exists f. split_and!; try done. intros c _. split; [tauto|]. intros [?|(? & ?%elem_of_nil & _)]; done. }
  destruct (insert_spec item f Hf) as (f1 & -> & Hf1 & Hm1 & Hk1 & Hb1). simpl.
  destruct (IH f1 Hf1) as (f2 & -> & Hf2 & Hm2 & Hk2 & Hb2).
  exists f2. split_and!; try done; [congruence..|]. intros c Hc. rewrite Hb2, Hb1 by done.
  assert (∀ x, probes x f1 = probes x f) as Hp by (intros x; unfold probes; by rewrite Hm1, Hk1).
  setoid_rewrite Hp. setoid_rewrite elem_of_cons. naive_solver.
Qed.

Lemma insert_all_contains items f f' item :
  bloom_wf f → insert_all items f = Some f' → item ∈ items → contains item f' = Some true.
Proof.
  intros Hf Hi Hin. destruct (insert_all_spec items f Hf) as (f1 & E & Hf1 & Hm & Hk & Hb).
  rewrite Hi in E. injection E as <-. destruct (contains_spec item f' Hf1) as ([] & Hc & Hr); [done|]. exfalso.
  enough (false = true) by done. apply Hr. intros c Hcp. pose proof (probes_nonneg _ _ _ Hf1 Hcp).
  apply Hb; [lia|]. right. exists item. split; [done|]. unfold probes in *. by rewrite <- Hm, <- Hk.
Qed.

(** ** Wire format *)

Lemma read_words_spec l rest :
  Forall is_u64 l → read_words (length l) ((w ← l; le_bytes 8 w) ++ rest) = l.
Proof.
  induction 1 as [|w l Hw Hl IH]; [done|]. cbn [length read_words]. rewrite bind_cons, <- app_assoc.
  rewrite take_app_length', drop_app_length' by (by rewrite length_le_bytes).
  rewrite IH, from_le_bytes. f_equal. by apply Z.mod_small.
Qed.

Lemma from_to_bytes f rest : bloom_wf f →
  from_bytes (to_bytes f ++ rest) =
    Some (MkBloom (bits f) (k f) (m f) 0, (12 + word_count (m f) * 8)%Z).
Proof.
  intros [Hm Hk Hl Hu]. unfold from_bytes, to_bytes. rewrite <- !app_assoc.
  assert (Hw : length (w ← bits f; le_bytes 8 w) = 8 * Z.to_nat (word_count (m f))).
  { rewrite <- Hl. clear. induction (bits f) as [|w l IH]; [done|].
    rewrite bind_cons, length_app, IH, length_le_bytes. simpl. lia. }
  assert (0 ≤ word_count (m f))%Z by (apply Z.div_pos; lia).
  rewrite !length_app, Hw, !length_le_bytes. rewrite decide_False by lia.
  rewrite (take_app_length' _ _ 8), (drop_app_length' _ _ 8) by (by rewrite length_le_bytes).
  rewrite (take_app_length' _ _ 4) by (by rewrite length_le_bytes). rewrite !from_le_bytes.
  change (u8_mod ^ Z.of_nat 8)%Z with u64_mod. change (u8_mod ^ Z.of_nat 4)%Z with u32_mod.
  rewrite !Z.mod_small by (unfold is_u32 in *; lia). rewrite decide_False by lia.
  rewrite app_assoc, drop_app_length' by (by rewrite length_app, !length_le_bytes).
  by rewrite <- Hl, read_words_spec.
Qed.

Lemma new_wf mm kk : (1 ≤ mm < u64_mod)%Z → is_u32 kk → bloom_wf (BloomFilter_new mm kk).
Proof.
  intros Hm Hk. split; simpl; [done|done|apply length_replicate|]. by apply Forall_replicate.
Qed.

Context `{BloomSizing, !BloomSizingLaws}.

Lemma optimal_wf n : bloom_wf (optimal n).
Proof.
  unfold optimal, with_fp_rate, optimal_m, optimal_k.
  pose proof (ceil_m_range n DEFAULT_FP_RATE) as Hm. unfold is_u64, u64_mod in Hm.
  apply new_wf; [unfold u64_mod; lia|]. pose proof (ceil_k_range n (Z.max (ceil_m n DEFAULT_FP_RATE) 1)).
  unfold is_u32, u32_mod in *. lia.
Qed.

(** C37: a Bloom filter has no false negatives, also after a trip over the wire.
    Inserting any items into a fresh filter never panics, every one of them is
    reported as contained, and the filter a peer decodes from the encoded bytes
    answers every query as the original does. *)
Theorem bloom_no_false_negatives n items :
  ∃ f, insert_all items (optimal n) = Some f ∧
    (∀ item, item ∈ items → contains item f = Some true) ∧
    ∀ rest, ∃ g len, from_bytes (to_bytes f ++ rest) = Some (g, len) ∧ ∀ x, contains x g = contains x f.
Proof.
  destruct (insert_all_spec items (optimal n) (optimal_wf n)) as (f & E & Hf & _).
  exists f. split_and!; [done| |].
  - intros item. eapply insert_all_contains; [apply optimal_wf|done].
  - intros rest. rewrite from_to_bytes by done. by do 2 eexists.
Qed.

(** ** The peer cache *)

Lemma filter_peers_total now d l :
  (∀ info, info ∈ l → is_Some (has_blob now d info)) →
  ∃ r, filter_peers now d l = Some r ∧
    ∀ info, info ∈ l → has_blob now d info = Some true → (node_id info, sync_addr info) ∈ r.
Proof.
  induction l as [|info l IH]; intros Hl; simpl.
  { exists []. split; [done|]. by intros ? ?%elem_of_nil. }
  destruct (Hl info) as [b Hb]; [left|]. rewrite Hb. simpl.
  destruct IH as (r & -> & Hr); [intros i ?; apply Hl; by right|]. simpl.
  eexists. split; [done|]. intros i [-> | Hi]%elem_of_cons Ht.
  - assert (b = true) as -> by congruence. left.
  - destruct b; [right|]; by apply Hr.
Qed.

(** Gossip finds every blob a peer announced.  After a peer's filter over its
    digests is recorded, looking up any of them within the time to live yields the
    peer and its address, provided the other recorded filters can be queried. *)
Lemma gossip_finds_blobs n items now t id addr (c : PeerBloomCache) d :
  (duration_since now t ≤ CACHE_TTL)%Z → d ∈ items →
  (∀ info, c !! id = Some info → node_id info = id) →
  (∀ i info, c !! i = Some info → is_Some (has_blob now d info)) →
  ∃ f, insert_all items (optimal n) = Some f ∧
    let c' := update id addr (MkPeer id addr (to_bytes f) (k f) (m f) t) c in
    ∃ r, find_peers_with_blob now d c' = Some r ∧ (id, addr) ∈ r.
Proof.
  intros Ht Hd Hid Hok.
  destruct (insert_all_spec items (optimal n) (optimal_wf n)) as (f & E & Hf & _).
  exists f. split; [done|]. intros c'. set (info := MkPeer id addr (to_bytes f) (k f) (m f) t).
  assert (Hc' : c' = <[id := info]> c).
  { unfold c', update. destruct (c !! id) as [old|] eqn:Eo; [|done]. simpl. by rewrite (Hid _ eq_refl). }
  assert (Hb : has_blob now d info = Some true).
  { unfold has_blob, stale. rewrite bool_decide_false by (simpl; lia). simpl.
    rewrite <- (app_nil_r (to_bytes f)), from_to_bytes by done.
    change (contains d f = Some true). eapply insert_all_contains; [apply optimal_wf|done|done]. }
  unfold find_peers_with_blob. destruct (filter_peers_total now d (map_to_list c').*2) as (r & -> & Hr).
  - intros i ([id' i'] & -> & Hi%elem_of_map_to_list)%list_elem_of_fmap. simpl. rewrite Hc' in Hi.
    apply lookup_insert_Some in Hi as [[_ <-]|[_ Hi]]; [by rewrite Hb|by eapply Hok].
  - exists r. split; [done|]. apply (Hr info); [|done]. apply list_elem_of_fmap. exists (id, info).
    split; [done|]. apply elem_of_map_to_list. rewrite Hc'. apply lookup_insert_eq.
Qed.

(** A peer can crash lookups.  Twelve bytes that announce a filter of zero bits
    decode as a filter, and any query of it divides by zero; recorded in the cache
    they make every lookup panic until the entry expires. *)
Lemma zero_filter_panics now t id addr kk (c : PeerBloomCache) d :
  (1 ≤ kk < u32_mod)%Z → (duration_since now t ≤ CACHE_TTL)%Z → c !! id = None →
  let evil := le_bytes 8 0 ++ le_bytes 4 kk in
  find_peers_with_blob now d (update id addr (MkPeer id addr evil kk 0 t) c) = None.
Proof.
  intros Hk Ht Hc evil. set (info := MkPeer id addr evil kk 0 t).
  assert (Hb : has_blob now d info = None).
  { unfold has_blob, stale. rewrite bool_decide_false by (simpl; lia).
    change (bloom_bytes info) with evil. unfold evil.
    unfold from_bytes. rewrite length_app, !length_le_bytes. rewrite decide_False by lia.
    rewrite (take_app_length' _ _ 8), (drop_app_length' _ _ 8) by (by rewrite length_le_bytes).
    rewrite take_ge by (rewrite length_le_bytes; lia). rewrite !from_le_bytes.
    change (u8_mod ^ Z.of_nat 4)%Z with u32_mod. rewrite (Z.mod_small kk) by lia.
    rewrite decide_False by done. unfold contains. cbn -[seqZ le_bytes].
    by rewrite (seqZ_cons 0 kk) by lia. }
  unfold update. rewrite Hc. unfold find_peers_with_blob.
  assert (Hin : info ∈ (map_to_list (<[id := info]> c)).*2).
  { apply list_elem_of_fmap. exists (id, info). split; [done|].
    apply elem_of_map_to_list, lookup_insert_eq. }
  revert Hin. generalize ((map_to_list (<[id := info]> c)).*2). intros l.
  induction l as [|i l IH]; [by intros ?%elem_of_nil|]. intros [<- | Hi]%elem_of_cons; simpl.
  - by rewrite Hb.
  - destruct (has_blob now d i); simpl; [|done]. by rewrite IH.
Qed.

End items.
