(* ===== verification/Sync.v ===== *)
(** * Block exchange between nodes: [runtime/pullrun-sync/src/{block_sync,sync_puller}.rs]

    [BlockSyncService] announces the blobs of the local store in a Bloom filter,
    serves them in chunks and accepts blobs pushed by peers.  [SyncPuller] gets the
    layers of an image from the local store, from peers, or from the registry.
    The gRPC transport is a parameter: what a peer streams back to a request. *)

From stdpp Require Import base gmap strings list numbers sorting.
From Stdlib Require Import ZArith Lia Ascii.
From S2P Require Import Prelude Strs Crates Node Fs Store StoreFacts.
From S2P Require Import OciTypes Puller.
From S2P Require Bloom.

Definition CHUNK_SIZE : Z := 1024 * 1024.

Record BlobChunk := MkChunk {
  chunk_digest : string;
  chunk_data : bytes;
  chunk_offset : Z;
  is_final : bool;
}.

Record SyncBlob := MkSyncBlob { sb_digest : string; sb_data : bytes }.

Record HaveBlobsResponse := MkHaveBlobs { have_filter : bytes; have_k : Z; have_m : Z }.

(** The service's state with the store it serves. *)
Record BlockSyncService := MkService {
  svc_world : World;
  bloom_filter : Bloom.BloomFilter;
  blob_count : nat;
  bytes_sent : Z;
  bytes_received : Z;
  blob_requests : Z;
}.

Section service.
Context `{Hex, Sha2, Rkyv DagNode, Bloom.BloomSizing}.

Definition BlockSyncService_new (w : World) : BlockSyncService :=
  MkService w (Bloom.optimal 10000) 0 0 0 0.

(** ** Announcing blobs *)

(** The digest text of a [blob.raw] path: its three parent directories. *)
Definition blob_digest_of_path (p : path) : option string :=
  match reverse p with
  | _ :: rest :: b :: a :: _ =>
    if str_all is_ascii_hexdigit a && str_all is_ascii_hexdigit b && str_all is_ascii_hexdigit rest
    then Some (a +:+ b +:+ rest) else None
  | _ => None
  end.

(** [Vec::dedup]: consecutive duplicates. *)
Fixpoint dedup (l : list string) : list string :=
  match l with
  | x :: ((y :: _) as l') => if decide (x = y) then dedup l' else x :: dedup l'
  | _ => l
  end.

Definition string_le (a b : string) : Prop := String.leb a b = true.

#[export] Instance string_le_dec a b : Decision (string_le a b).
Proof. unfold string_le. apply _. Defined.

(** [reached]: how many files the walk had seen if it failed. *)
Definition collect_blob_digests (reached : nat) (w : World) : list string :=
  let all := filter (λ p, below (λ _, true) (root (store w)) p = true) (map_to_list (files (os w))).*1 in
  let found := if is_ok (walk_files (λ _, true) (root (store w)) (os w)).1 then all
               else take reached all in
  let out := omap blob_digest_of_path (filter (λ p, file_name p = "blob.raw") found) in
  dedup (merge_sort string_le out).

Fixpoint insert_digests (l : list string) (f : Bloom.BloomFilter) : option Bloom.BloomFilter :=
  match l with
  | [] => Some f
  | d :: l => f ← Bloom.insert d f; insert_digests l f
  end.

Definition rebuild_bloom_filter (reached : nat) (s : BlockSyncService) : option BlockSyncService :=
  let digests := collect_blob_digests reached (svc_world s) in
  bf ← insert_digests digests (Bloom.optimal 10000);
  Some (MkService (svc_world s) bf (length digests) (bytes_sent s) (bytes_received s) (blob_requests s)).

Definition insert_bloom_digest (d : string) (s : BlockSyncService) : option BlockSyncService :=
  bf ← Bloom.insert d (bloom_filter s);
  Some (MkService (svc_world s) bf (S (blob_count s)) (bytes_sent s) (bytes_received s) (blob_requests s)).

Definition bloom_filter_bytes (s : BlockSyncService) : bytes * Z * Z :=
  let bf := bloom_filter s in (Bloom.to_bytes bf, Bloom.k bf, Bloom.m bf).

(** [as i32] keeps the low 32 bits. *)
Definition have_blobs (s : BlockSyncService) : HaveBlobsResponse :=
  let bf := bloom_filter s in
  MkHaveBlobs (Bloom.to_bytes bf) (to_signed32 (wrap32 (Bloom.k bf))) (to_signed32 (wrap32 (Bloom.m bf))).

(** ** Serving blobs *)

(** [while offset < total]; the fuel is the number of bytes, each round sends at
    least one. *)
Fixpoint chunk_loop (fuel : nat) (digest_str : string) (data : bytes) (offset : Z) : list BlobChunk :=
  match fuel with
  | O => []
  | S fuel =>
    let total := Z.of_nat (length data) in
    if decide (offset < total)%Z then
      let end_ := Z.min (offset + CHUNK_SIZE) total in
      let chunk := take (Z.to_nat (end_ - offset)) (drop (Z.to_nat offset) data) in
      MkChunk digest_str chunk (wrap32 offset) (bool_decide (end_ >= total)%Z)
        :: chunk_loop fuel digest_str data end_
    else []
  end.

Definition blob_chunks (digest_str : string) (data : bytes) : list BlobChunk :=
  chunk_loop (length data) digest_str data 0.

Definition with_world (w : World) (s : BlockSyncService) : BlockSyncService :=
  MkService w (bloom_filter s) (blob_count s) (bytes_sent s) (bytes_received s) (blob_requests s).
Definition add_sent (n : Z) (s : BlockSyncService) : BlockSyncService :=
  MkService (svc_world s) (bloom_filter s) (blob_count s) (wrap64 (bytes_sent s + n)) (bytes_received s)
    (blob_requests s).
Definition add_received (n : Z) (s : BlockSyncService) : BlockSyncService :=
  MkService (svc_world s) (bloom_filter s) (blob_count s) (bytes_sent s) (wrap64 (bytes_received s + n))
    (blob_requests s).
Definition inc_requests (s : BlockSyncService) : BlockSyncService :=
  MkService (svc_world s) (bloom_filter s) (blob_count s) (bytes_sent s) (bytes_received s)
    (wrap64 (blob_requests s + 1)).

(** The chunks of one requested digest. *)
Definition serve_digest (digest_str : string) (s : BlockSyncService) : list BlobChunk * BlockSyncService :=
  match from_hex digest_str with
  | Err _ => ([], s)
  | Ok d =>
    match get_blob d (svc_world s) with
    | (Ok data, w) =>
      let chunks := blob_chunks digest_str data in
      (chunks, foldl (λ s c, add_sent (len (chunk_data c)) s) (with_world w s) chunks)
    | (Err _, w) => ([MkChunk digest_str [] 0 true], with_world w s)
    end
  end.

(** The whole stream, for a client that reads it to the end. *)
Fixpoint serve_digests (l : list string) (s : BlockSyncService) : list BlobChunk * BlockSyncService :=
  match l with
  | [] => ([], s)
  | d :: l =>
    let '(cs, s) := serve_digest d s in
    let '(cs', s) := serve_digests l s in
    (cs ++ cs', s)
  end.

Definition get_blobs (digests : list string) (s : BlockSyncService) : list BlobChunk * BlockSyncService :=
  serve_digests digests (inc_requests s).

(** ** Accepting blobs *)

Definition sync_blob (s : BlockSyncService) (msg : SyncBlob) : BlockSyncService :=
  if bool_decide (sb_data msg = []) then s
  else match from_hex (sb_digest msg) with
       | Err _ => s
       | Ok d =>
         if decide (compute (sb_data msg) ≠ d) then s
         else
           let s := add_received (len (sb_data msg)) s in
           with_world (put_blob d (sb_data msg) (svc_world s)).2 s
       end.

Definition sync_blobs (msgs : list SyncBlob) (s : BlockSyncService) : BlockSyncService :=
  foldl sync_blob s msgs.

End service.

(** ** Pulling with peers *)

(** The stream of a [get_blobs] call to an address: [None] when connecting or
    calling fails or times out, and [None] for an element that is an error. *)
Class PeerNet (H : Type) := call_get_blobs : string → string → H → option (list (option BlobChunk)) * H.

Class Clock (H : Type) := instant_now : H → Z.

Record PullWorld (H : Type) := MkPull { pw_store : World; pw_net : H }.
Arguments MkPull {H} _ _.
Arguments pw_store {H} _.
Arguments pw_net {H} _.

(** A panic ends the task that pulls. *)
Inductive sync_failure :=
| SyncPanic
| SyncOci (e : OciError.t).

Record SyncPuller := MkSyncPuller {
  oci_puller : OciPuller;
  bloom_cache : option Bloom.PeerBloomCache;
}.

Section pull.
Context {H : Type} `{HttpClient H, PeerNet H, Clock H, OciJson, GzDecoder, Base64, Hex, Sha2, Rkyv DagNode}.
Context (ARCH : string).

Abbreviation sync_eff := (eff (PullWorld H) sync_failure).

Definition on_net {A} (f : eff H OciError.t A) : sync_eff A := λ w,
  let '(r, h) := f (pw_net w) in (map_err SyncOci r, MkPull (pw_store w) h).

Definition on_local {A} (f : store_eff A) : sync_eff (result StoreError A) := λ w,
  let '(r, s) := f (pw_store w) in (Ok r, MkPull s (pw_net w)).

(** Collect the chunks up to the final one. *)
Fixpoint collect_stream (items : list (option BlobChunk)) (collected : bytes) : option bytes :=
  match items with
  | [] => Some collected
  | None :: _ => None
  | Some c :: items =>
    let collected := collected ++ chunk_data c in
    if is_final c then Some collected else collect_stream items collected
  end.

Definition try_fetch_from_peer (addr d : string) : sync_eff (option bytes) := λ w,
  let '(r, h) := call_get_blobs addr d (pw_net w) in
  (Ok (items ← r; data ← collect_stream items [];
       if bool_decide (data = []) then None else Some data),
   MkPull (pw_store w) h).

(** The loop over the candidate peers. *)
Fixpoint try_peers (d : Digest) (digest_str : string) (candidates : list (string * string))
    : sync_eff (option bytes) :=
  match candidates with
  | [] => mret None
  | (_, addr) :: candidates =>
    r ← try_fetch_from_peer addr digest_str;
    match r with
    | Some data =>
      if decide (compute data ≠ d) then try_peers d digest_str candidates
      else on_local (put_blob d data) ;; mret (Some data)
    | None => try_peers d digest_str candidates
    end
  end.

(** The local store, consulted only if a node of that digest exists. *)
Definition try_local (d : Digest) : sync_eff (option bytes) :=
  w ← get_world;
  if exists_ (pw_store w) d then
    r ← on_local (get_blob d);
    mret (ok r)
  else mret None.

Definition fetch_blob_with_sync (p : SyncPuller) (cache : Bloom.PeerBloomCache)
    (digest_str registry repository : string) (token : option string) : sync_eff bytes :=
  d ← lift_result (map_err (λ e, SyncOci (OciError.Other (InvalidBlobDigest digest_str e))) (from_hex digest_str));
  local ← try_local d;
  match local with
  | Some data => mret data
  | None =>
    w ← get_world;
    match Bloom.find_peers_with_blob (instant_now (pw_net w)) digest_str cache with
    | None => throw SyncPanic
    | Some candidates =>
      r ← try_peers d digest_str candidates;
      match r with
      | Some data => mret data
      | None =>
        data ← on_net (fetch_blob_by_digest (oci_puller p) registry repository digest_str token);
        on_local (put_blob d data) ;;
        mret data
      end
    end
  end.

Definition sync_layer (p : SyncPuller) (cache : Bloom.PeerBloomCache) (r : resolved)
    (layer : OciDescriptor) : sync_eff (Digest * bytes * string) :=
  data ← fetch_blob_with_sync p cache (digest layer) (r_registry r) (r_repository r) (r_token r);
  d ← on_net (from_hex_or InvalidLayerDigest (digest layer));
  mret (d, data, d_media_type layer).

Definition sync_pull (p : SyncPuller) (fuel : nat) (image_ref : string)
    (explicit_registry platform : option string) : sync_eff PulledImage :=
  match bloom_cache p with
  | None => on_net (pull_with_platform ARCH (oci_puller p) fuel image_ref explicit_registry platform)
  | Some cache =>
    r ← on_net (resolve_image ARCH (oci_puller p) fuel image_ref explicit_registry platform);
    blobs ← map_eff (sync_layer p cache r) (layers (r_manifest r));
    cd ← on_net (from_hex_or InvalidConfigDigest (r_config_digest r));
    mret (MkPulledImage (r_manifest r) (r_config r) cd blobs)
  end.

End pull.

(** ** Chunks *)

Lemma chunk_loop_spec fuel ds data offset acc :
  (0 ≤ offset ≤ len data)%Z → length data ≤ fuel + Z.to_nat offset →
  let cs := chunk_loop fuel ds data offset in
  ((offset < len data)%Z → collect_stream (Some <$> cs) acc = Some (acc ++ drop (Z.to_nat offset) data)) ∧
  Forall (λ c, chunk_digest c = ds ∧ (0 < len (chunk_data c) ≤ CHUNK_SIZE)%Z) cs ∧
  sum_list_with (λ c, length (chunk_data c)) cs = length data - Z.to_nat offset.
Proof.
  revert offset acc. induction fuel as [|fuel IH]; intros offset acc Ho Hf; cbn [chunk_loop].
  { unfold len in *. split_and!; [lia|constructor|simpl; lia]. }
  fold (len data). case_decide as Hlt; [|split_and!; [done|constructor|simpl; unfold len in *; lia]].
  set (e := Z.min (offset + CHUNK_SIZE) (len data)).
  assert (He : (offset < e ≤ len data ∧ e - offset ≤ CHUNK_SIZE)%Z) by (unfold e, CHUNK_SIZE; lia).
  assert (Hc : length (take (Z.to_nat (e - offset)) (drop (Z.to_nat offset) data)) = Z.to_nat (e - offset)).
  { rewrite length_take, length_drop. unfold len in *. lia. }
  assert (Hd : drop (Z.to_nat e) data = drop (Z.to_nat (e - offset)) (drop (Z.to_nat offset) data)).
  { rewrite drop_drop. f_equal. lia. }
  destruct (IH e (acc ++ take (Z.to_nat (e - offset)) (drop (Z.to_nat offset) data))) as (H1 & H2 & H3);
    [unfold len in *; lia|lia|].
  split_and!.
  - intros _. cbn [fmap list_fmap collect_stream is_final chunk_data]. case_bool_decide as Hend.
    + f_equal. f_equal. rewrite take_ge; [done|]. rewrite length_drop. unfold len in *. lia.
    + rewrite H1 by lia. by rewrite Hd, <- app_assoc, take_drop.
  - constructor; [|done]. cbn [chunk_digest chunk_data]. split; [done|]. unfold len. rewrite Hc. lia.
  - cbn [sum_list_with chunk_data]. rewrite H3, Hc. unfold len in *. lia.
Qed.

Section service.
Context `{Hex, Sha2, Rkyv DagNode, Bloom.BloomSizing, !HexLaws}.

Lemma sent_sum cs s :
  (0 ≤ bytes_sent s < u64_mod)%Z →
  bytes_sent (foldl (λ s c, add_sent (len (chunk_data c)) s) s cs) =
  wrap64 (bytes_sent s + Z.of_nat (sum_list_with (λ c, length (chunk_data c)) cs)).
Proof.
  revert s. induction cs as [|c cs IH]; intros s Hs; simpl.
  { unfold wrap64. rewrite Z.add_0_r, Z.mod_small; done. }
  rewrite IH by (apply Z.mod_pos_bound; done). simpl. rewrite wrap64_add. f_equal. unfold len. lia.
Qed.

(** A blob arrives as it was sent.  What a client assembles from the stream a
    peer sends for one of its blobs is the blob; no chunk is empty or above the
    chunk size, and the bytes sent are accounted for. *)
Lemma peer_transfer ds d data s w' :
  from_hex ds = Ok d → get_blob d (svc_world s) = (Ok data, w') → data ≠ [] →
  (0 ≤ bytes_sent s < u64_mod)%Z →
  let '(cs, s') := get_blobs [ds] s in
  collect_stream (Some <$> cs) [] = Some data ∧
  Forall (λ c, chunk_digest c = ds ∧ (0 < len (chunk_data c) ≤ CHUNK_SIZE)%Z) cs ∧
  bytes_sent s' = wrap64 (bytes_sent s + len data).
Proof.
  intros Hd Hg Hne Hs. unfold get_blobs, serve_digests, serve_digest. rewrite Hd. simpl.
  rewrite Hg, app_nil_r. unfold blob_chunks.
  destruct (chunk_loop_spec (length data) ds data 0 []) as (Hcs & Hall & Hsum); [unfold len; lia|lia|].
  simpl in Hcs. split_and!.
  - apply Hcs. unfold len. destruct data; [done|simpl; lia].
  - done.
  - rewrite sent_sum by done. rewrite Hsum. simpl. unfold len. do 2 f_equal. lia.
Qed.

(** Peers cannot plant blobs.  Whatever messages a peer pushes, no node file
    changes, and every blob on disk afterwards was there before or has the digest
    it is stored under. *)
Lemma sync_blobs_verified msgs s :
  let w := svc_world s in let w' := svc_world (sync_blobs msgs s) in
  (∀ d, node_file w' d = node_file w d) ∧
  ∀ d b, blob_file w' d = Some b → blob_file w d = Some b ∨ compute b = d.
Proof.
  revert s. induction msgs as [|msg msgs IH]; intros s w w'; [split; [done|by left]|].
  unfold w', w. cbn [sync_blobs foldl]. destruct (IH (sync_blob s msg)) as [Hn Hb].
  assert (Hstep : (∀ d, node_file (svc_world (sync_blob s msg)) d = node_file (svc_world s) d) ∧
    ∀ d b, blob_file (svc_world (sync_blob s msg)) d = Some b →
      blob_file (svc_world s) d = Some b ∨ compute b = d).
  { unfold sync_blob. case_bool_decide; [split; [done|by left]|].
    destruct (from_hex _) as [d|]; [|split; [done|by left]]. case_decide as Hc; [split; [done|by left]|].
    destruct (decide (compute (sb_data msg) = d)) as [Hc'|]; [|done]. simpl.
    destruct (put_blob d (sb_data msg) (svc_world s)) as [r w1] eqn:E.
    apply put_blob_frame in E as (_ & Hno & _ & Hbl). simpl. split; [done|].
    intros e b [He|[-> ->]]%Hbl; [by left|by right]. }
  destruct Hstep as [Hn1 Hb1]. split.
  - intros d. unfold sync_blobs in Hn. by rewrite Hn, Hn1.
  - intros d b [Hd|?]%Hb; [by apply Hb1|by right].
Qed.

(** ** Announced digests *)

Lemma dedup_subseteq l x : x ∈ dedup l → x ∈ l.
Proof.
  induction l as [|a l IH]; [done|]. destruct l as [|b l]; [done|]. cbn [dedup].
  case_decide as E; rewrite ?elem_of_cons in *; intros Hx.
  - right. by apply IH.
  - destruct Hx as [->|Hx]; [by left|right]. by apply IH.
Qed.

(** Peers are asked for keys nobody announces.  Every digest the service puts
    in its filter is a bare hexadecimal text, while the puller looks up the
    descriptor's digest text; with its algorithm prefix it is never one of them. *)
Lemma announced_bare reached w d key :
  key ∈ collect_blob_digests reached w →
  str_all is_ascii_hexdigit key = true ∧ key ≠ "sha256:" +:+ d.
Proof.
  intros Hk%dedup_subseteq. rewrite (merge_sort_Permutation string_le _) in Hk.
  apply list_elem_of_omap in Hk as (p & _ & Hp). unfold blob_digest_of_path in Hp.
  destruct (reverse p) as [|x0 [|x1 [|x2 [|x3 l]]]]; try done.
  destruct (str_all is_ascii_hexdigit x3) eqn:E3; [|done].
  destruct (str_all is_ascii_hexdigit x2) eqn:E2; [|done].
  destruct (str_all is_ascii_hexdigit x1) eqn:E1; [|done]. simpl in Hp. injection Hp as <-.
  assert (Ha : str_all is_ascii_hexdigit (x3 +:+ x2 +:+ x1) = true) by (by rewrite !str_all_app, E1, E2, E3).
  split; [done|]. intros E. rewrite E in Ha. done.
Qed.

End service.

(** ** Pulling with peers *)

Section pull.
Context {H : Type} `{HttpClient H, PeerNet H, Clock H, OciJson, GzDecoder, Base64, Hex, Sha2, Rkyv DagNode}.
Context `{!HexLaws} (ARCH : string).

(** What a pull keeps of the local store. *)
Definition pull_ok (P : Digest → Prop) (w : PullWorld H) : Prop :=
  store_inv (pw_store w) ∧ trusted_blobs P (pw_store w).

Lemma on_net_ok {A} (f : eff H OciError.t A) (w : PullWorld H) r w' :
  on_net f w = (r, w') → pw_store w' = pw_store w ∧
    ∀ a, r = Ok a → ∃ h', f (pw_net w) = (Ok a, h').
Proof.
  unfold on_net. destruct (f (pw_net w)) as [[a|e] h]; intros [= <- <-]; split; try done.
  intros a' [= <-]. by exists h.
Qed.

Lemma on_local_put P d data (w : PullWorld H) r w' :
  pull_ok P w → (P d → compute data = d) → on_local (put_blob d data) w = (r, w') → pull_ok P w'.
Proof.
  intros [Hi Ht] Hd. unfold on_local. destruct (put_blob d data (pw_store w)) as [x s] eqn:E.
  intros [= _ <-]. split; [by eapply put_blob_inv|by eapply put_blob_trusted].
Qed.

Lemma try_local_ok P d (w : PullWorld H) r w' :
  pull_ok P w → try_local d w = (r, w') →
  pull_ok P w' ∧ ∃ o, r = Ok o ∧ ∀ data, o = Some data → P d → compute data = d.
Proof.
  intros [Hi Ht]. unfold try_local, mbind, eff_bind, get_world.
  destruct (exists_ (pw_store w) d); [|intros [= <- <-]; split; [done|by eexists]].
  unfold on_local. destruct (get_blob d (pw_store w)) as [x s] eqn:E.
  apply (get_blob_trusted P) in E as (Hi' & Ht' & Hr); [|done..]. intros [= <- <-].
  split; [done|]. eexists. split; [done|]. intros data Hd. destruct x; simpl in Hd; naive_solver.
Qed.

Lemma try_peers_ok P d ds candidates (w : PullWorld H) r w' :
  pull_ok P w → try_peers d ds candidates w = (r, w') →
  pull_ok P w' ∧ ∃ o, r = Ok o ∧ ∀ data, o = Some data → compute data = d.
Proof.
  revert w. induction candidates as [|[id addr] l IH]; intros w Hw; cbn [try_peers].
  { intros [= <- <-]. split; [done|by eexists]. }
  unfold mbind at 1, eff_bind at 1, try_fetch_from_peer.
  destruct (call_get_blobs addr ds (pw_net w)) as [o h]. cbv beta iota.
  destruct (items ← o; _) as [data|]; [|by apply IH]. case_decide as Hd; [by apply IH|].
  unfold mbind, eff_bind. destruct (on_local (put_blob d data) _) as [[x|e] w1] eqn:E.
  - apply (on_local_put P) in E; [|done|by destruct (decide (compute data = d))]. intros [= <- <-].
    split; [done|]. eexists. split; [done|]. intros ? [= <-]. by destruct (decide (compute data = d)).
  - unfold on_local in E. by destruct (put_blob _ _ _).
Qed.

(** What a digest text stands for, if it is trusted. *)
Lemma fetch_with_sync_ok P p cache ds registry repository token (w : PullWorld H) r w' :
  pull_ok P w → (∀ d, from_hex ds = Ok d → P d) →
  fetch_blob_with_sync p cache ds registry repository token w = (r, w') →
  pull_ok P w' ∧ ∀ data d, r = Ok data → from_hex ds = Ok d → compute data = d.
Proof.
  intros Hw HP. unfold fetch_blob_with_sync. destruct (from_hex ds) as [d|e] eqn:Ed.
  2: { intros [= <- <-]. done. }
  specialize (HP d eq_refl). erewrite bind_ok by reflexivity. unfold mbind at 1, eff_bind at 1.
  destruct (try_local d w) as [x w1] eqn:E1. apply (try_local_ok P) in E1 as (Hw1 & o & -> & Ho); [|done].
  destruct o as [data|].
  { intros [= <- <-]. split; [done|]. intros ? ? [= <-] [= <-]. by apply Ho. }
  erewrite bind_ok by reflexivity. destruct (Bloom.find_peers_with_blob _ _ _) as [candidates|].
  2: { intros [= <- <-]. done. }
  unfold mbind at 1, eff_bind at 1. destruct (try_peers d ds candidates w1) as [x w2] eqn:E2.
  apply (try_peers_ok P) in E2 as (Hw2 & o & -> & Ho2); [|done]. destruct o as [data|].
  { intros [= <- <-]. split; [done|]. intros ? ? [= <-] [= <-]. by apply Ho2. }
  unfold mbind at 1, eff_bind at 1. destruct (on_net _ w2) as [x w3] eqn:E3.
  apply on_net_ok in E3 as [Hs3 Hr3].
  assert (Hw3 : pull_ok P w3) by (unfold pull_ok; by rewrite Hs3).
  destruct x as [data|e]; [|intros [= <- <-]; done].
  destruct (Hr3 data eq_refl) as (h' & Hf%fetch_blob_ok). pose proof (verified_digest _ _ _ Hf Ed) as Hc.
  unfold mbind, eff_bind. destruct (on_local (put_blob d data) w3) as [y w4] eqn:E4.
  apply (on_local_put P) in E4 as Hw4; [|done..].
  destruct y; intros [= <- <-]; (split; [done|]); [|done]. intros ? ? [= <-] [= <-]. done.
Qed.

Lemma map_eff_inv {W E A B} (I : W → Prop) (R : A → B → Prop) (f : A → eff W E B) l w bs w' :
  (∀ a b w w', a ∈ l → I w → f a w = (Ok b, w') → I w' ∧ R a b) →
  I w → map_eff f l w = (Ok bs, w') → I w' ∧ Forall2 R l bs.
Proof.
  revert w bs. induction l as [|a l IH]; intros w bs HR HI; simpl; [by intros [= <- <-]|].
  intros (b & w1 & Hb & Hm)%bind_inv_ok. apply bind_inv_ok in Hm as (bs' & w2 & Hbs & [= <- <-]).
  destruct (HR a b w w1) as [HI1 Hab]; [left|done..|].
  destruct (IH w1 bs') as [HI2 Hf]; [|done..|by split; [|constructor]].
  intros a' b' v v' Hin. apply HR. by right.
Qed.

Lemma sync_layer_ok P p cache r layer (w : PullWorld H) b w' :
  pull_ok P w → (∀ d, from_hex (digest layer) = Ok d → P d) →
  sync_layer p cache r layer w = (Ok b, w') → pull_ok P w' ∧ verified_layer layer b.
Proof.
  intros Hw HP (data & w1 & Hf & (d & w2 & Hd & [= <- <-])%bind_inv_ok)%bind_inv_ok.
  apply (fetch_with_sync_ok P) in Hf as [Hw1 Hc]; [|done..].
  apply on_net_ok in Hd as [Hs Hd]. destruct (Hd d eq_refl) as (h' & Hd'%from_hex_or_ok).
  split; [unfold pull_ok; by rewrite Hs|]. split_and!; [done| |done]. by apply Hc.
Qed.

Lemma resolve_image_ok puller fuel image_ref explicit plat (h : H) r h' :
  resolve_image ARCH puller fuel image_ref explicit plat h = (Ok r, h') →
  r_config_digest r = digest (m_config (r_manifest r)) ∧
  ∃ b, verify_oci b (r_config_digest r) = Ok tt ∧ parse_config b = Some (r_config r).
Proof.
  unfold resolve_image. destruct (image_parts _ _) as [repository tag].
  intros (token & h1 & _ & (m & h2 & _ & (c & h3 & Hc%fetch_config_ok & [= <- <-])%bind_inv_ok)%bind_inv_ok)%bind_inv_ok.
  done.
Qed.

(** Pulling through peers is as safe as pulling from the registry.  Whatever
    peers and the registry answer, a successful pull returns layers whose bytes
    hash to the digests in the manifest and a configuration decoded from bytes
    that hash to the manifest's configuration digest, as long as the local blobs of
    those digests are stored under their content's digest, which the pull keeps. *)
Lemma sync_pull_integrity P p fuel image_ref explicit plat (w : PullWorld H) img w' :
  pull_ok P w →
  sync_pull ARCH p fuel image_ref explicit plat w = (Ok img, w') →
  (∀ layer d, layer ∈ layers (manifest img) → from_hex (digest layer) = Ok d → P d) →
  verified_image img ∧ pull_ok P w'.
Proof.
  intros Hw. unfold sync_pull. destruct (bloom_cache p) as [cache|].
  - intros (r & w1 & Hr & (blobs & w2 & Hb & (cd & w3 & Hcd & [= <- <-])%bind_inv_ok)%bind_inv_ok)%bind_inv_ok HP.
    apply on_net_ok in Hr as [Hs1 Hr]. destruct (Hr r eq_refl) as (h' & (Hd & b & Hv & Hp)%resolve_image_ok).
    apply on_net_ok in Hcd as [Hs3 Hcd]. destruct (Hcd cd eq_refl) as (h2 & Hcd'%from_hex_or_ok).
    apply (map_eff_inv (pull_ok P) verified_layer) in Hb as [Hw2 Hl].
    + split; [|unfold pull_ok; by rewrite Hs3]. split; [|done]. simpl. rewrite Hd in *. split; [done|].
      exists b. split; [|done]. by eapply verified_digest.
    + intros layer b' v v' Hin Hi. apply sync_layer_ok; [done|]. intros d. by apply (HP layer d).
    + unfold pull_ok. by rewrite Hs1.
  - intros Hp _. apply on_net_ok in Hp as [Hs Hp]. destruct (Hp img eq_refl) as (h' & Hp').
    split; [|unfold pull_ok; by rewrite Hs]. clear Hp. unfold pull_with_platform in Hp'.
    destruct (image_parts _ _) as [repository tag].
    apply bind_inv_ok in Hp' as (token & h1 & _ & (m & h2 & _ & Hi)%bind_inv_ok).
    by apply fetch_image_ok in Hi as [_ Hi].
Qed.

End pull.
