(* ===== verification/Peers.v ===== *)
(** * Peers: [runtime/pullrun-sync/src/{registrar,discovery}.rs]

    The registrar keeps the peers that registered, with the time of their last sign of
    life; discovery keeps those whose announcements it hears.  What the code reads of
    the clock is an argument: seconds since the epoch for the registrar, nanoseconds of
    a monotonic clock for discovery.  Each definition that changes a table is one
    critical section of its lock; the theorems are about every sequence of them.  The
    order of the values of a [HashMap] is not specified; here it is that of the map's
    list. *)

From stdpp Require Import base gmap strings list.
From Stdlib Require Import ZArith Lia.
From S2P Require Import Prelude Strs Crates Bloom.

(** ** The registrar *)

Record PeerRegistration := MkRegistration {
  pr_node_id : string;
  pr_sync_addr : string;
  pr_last_seen_unix_secs : Z;
}.

Definition PEER_TTL_SECS : Z := 120.

Abbreviation registrar := (gmap string PeerRegistration).

(** The answer to a registration or a heartbeat, [count as i32]: the table is read
    again, after the write lock is released. *)
Definition peer_count (peers : registrar) : Z :=
  let n := wrap32 (Z.of_nat (size peers)) in if (n <? 2147483648)%Z then n else (n - u32_mod)%Z.

Definition evict_stale (now : Z) (peers : registrar) : registrar :=
  let cutoff := Z.max 0 (now - PEER_TTL_SECS) in
  filter (λ kv, cutoff ≤ wrap64 (pr_last_seen_unix_secs kv.2))%Z peers.

Definition register (now : Z) (node_id sync_addr : string) (peers : registrar) : registrar :=
  <[node_id := MkRegistration node_id sync_addr (as_i64 now)]> peers.

Definition lookup_peer (node_id : string) (peers : registrar) : option PeerRegistration * bool :=
  let found := peers !! node_id in (found, bool_decide (is_Some found)).

Definition list_peers (peers : registrar) : list PeerRegistration := (map_to_list peers).*2.

(** A heartbeat of a peer that is not in the table is answered and changes nothing. *)
Definition heartbeat (now : Z) (node_id : string) (peers : registrar) : registrar :=
  alter (λ p, MkRegistration (pr_node_id p) (pr_sync_addr p) (as_i64 now)) node_id peers.

Definition deregister (node_id : string) (peers : registrar) : registrar := delete node_id peers.

Inductive registrar_op :=
| Register (node_id sync_addr : string)
| Heartbeat (node_id : string)
| Deregister (node_id : string)
| Evict.

Definition registrar_step (peers : registrar) (x : Z * registrar_op) : registrar :=
  match x.2 with
  | Register id addr => register x.1 id addr peers
  | Heartbeat id => heartbeat x.1 id peers
  | Deregister id => deregister id peers
  | Evict => evict_stale x.1 peers
  end.

Definition registrar_run (peers : registrar) (ops : list (Z * registrar_op)) : registrar :=
  foldl registrar_step peers ops.

(** ** Discovery *)

Record NodeAnnouncement := MkAnnouncement { na_node_id : string; na_sync_addr : string; na_version : Z }.

(** serde's JSON, and the parsing of socket addresses. *)
Class Announcements (Addr : Type) := {
  announcement_from_slice : bytes → option NodeAnnouncement;
  parse_addr : string → option Addr;
}.

Record PeerInfo (Addr : Type) := MkPeerInfo { pi_node_id : string; pi_sync_addr : Addr; pi_last_seen : Z }.
Arguments MkPeerInfo {Addr}.
Arguments pi_node_id {Addr}.
Arguments pi_sync_addr {Addr}.
Arguments pi_last_seen {Addr}.

Record Discovery (Addr : Type) := MkDiscovery {
  d_node_id : string;
  d_sync_addr : Addr;
  d_peers : gmap string (PeerInfo Addr);
  d_rate_limiter : gmap string Z;
}.
Arguments MkDiscovery {Addr}.
Arguments d_node_id {Addr}.
Arguments d_sync_addr {Addr}.
Arguments d_peers {Addr}.
Arguments d_rate_limiter {Addr}.

Definition SECOND : Z := 1000000000.
Definition PEER_TIMEOUT : Z := 90 * SECOND.
Definition RATE_LIMIT : Z := 10 * SECOND.
Definition DATAGRAM_BUF : nat := 4096.

Section discovery.
Context {Addr : Type} `{Announcements Addr}.

Definition Discovery_new (node_id : string) (sync_addr : Addr) : Discovery Addr :=
  MkDiscovery node_id sync_addr ∅ ∅.

Definition evict_peers (now : Z) (d : Discovery Addr) : Discovery Addr :=
  MkDiscovery (d_node_id d) (d_sync_addr d)
    (filter (λ kv, now - PEER_TIMEOUT ≤ pi_last_seen kv.2)%Z (d_peers d)) (d_rate_limiter d).

(** The rate limit of one source: [None] when the announcement is dropped.  The clock
    is read for the comparison and again for the entry. *)
Definition rate_limit (asked noted : Z) (src_ip : string) (rl : gmap string Z) : option (gmap string Z) :=
  match rl !! src_ip with
  | Some last => if (duration_since asked last <? RATE_LIMIT)%Z then None else Some (<[src_ip := noted]> rl)
  | None => Some (<[src_ip := noted]> rl)
  end.

(** A datagram; what does not fit the buffer is cut off.  The clock is read three
    times. *)
Definition receive (asked noted seen : Z) (src_ip : string) (datagram : bytes) (d : Discovery Addr) : Discovery Addr :=
  match announcement_from_slice (take DATAGRAM_BUF datagram) with
  | None => d
  | Some ann =>
    if String.eqb (na_node_id ann) (d_node_id d) then d
    else
      match rate_limit asked noted src_ip (d_rate_limiter d) with
      | None => d
      | Some rl =>
        MkDiscovery (d_node_id d) (d_sync_addr d)
          (match parse_addr (na_sync_addr ann) with
           | Some addr => <[na_node_id ann := MkPeerInfo (na_node_id ann) addr seen]> (d_peers d)
           | None => d_peers d
           end) rl
      end
  end.

Definition get_peers (d : Discovery Addr) : list (PeerInfo Addr) := (map_to_list (d_peers d)).*2.

Inductive discovery_op :=
| Receive (asked noted seen : Z) (src_ip : string) (datagram : bytes)
| EvictPeers (now : Z).

Definition discovery_step (d : Discovery Addr) (op : discovery_op) : Discovery Addr :=
  match op with
  | Receive asked noted seen src data => receive asked noted seen src data d
  | EvictPeers now => evict_peers now d
  end.

End discovery.

(** ** Lemmas of the registrar *)

(** Times before 2^63 seconds are kept as they are. *)
Definition is_time (t : Z) : Prop := (0 ≤ t < 2 ^ 63)%Z.

Lemma time_kept (t : Z) : is_time t → wrap64 (as_i64 t) = t.
Proof.
  unfold is_time. intros Ht. unfold as_i64, wrap64, u64_mod in *.
  repeat case_match; rewrite ?Z.mod_small by lia; lia.
Qed.

(** [id] shows a sign of life within the limit before every eviction, and is not
    deregistered; [last] is the last sign. *)
Fixpoint in_time (id : string) (last : Z) (ops : list (Z * registrar_op)) : Prop :=
  match ops with
  | [] => True
  | (t, Register i _) :: ops => is_time t ∧ in_time id (if String.eqb i id then t else last) ops
  | (t, Heartbeat i) :: ops => is_time t ∧ in_time id (if String.eqb i id then t else last) ops
  | (_, Deregister i) :: ops => i ≠ id ∧ in_time id last ops
  | (t, Evict) :: ops => (t ≤ last + PEER_TTL_SECS)%Z ∧ in_time id last ops
  end.

(** The address of the last registration. *)
Definition address_after (id addr : string) (ops : list (Z * registrar_op)) : string :=
  foldl (λ a x, match x.2 with Register i b => if String.eqb i id then b else a | _ => a end) addr ops.

(** Steps leave a peer that is in time where the last registration puts it. *)
Lemma live_peer_kept (ops : list (Z * registrar_op)) : ∀ peers id addr last,
  is_time last → peers !! id = Some (MkRegistration id addr (as_i64 last)) → in_time id last ops →
  ∃ t, registrar_run peers ops !! id = Some (MkRegistration id (address_after id addr ops) t).
Proof.
  unfold registrar_run, address_after.
  induction ops as [|[t op] ops IH]; intros peers id addr last Hl Hp Hin; [eauto|].
  destruct op as [i b|i|i|]; simpl in *; destruct Hin as [Ht Hin].
  - unfold registrar_step, register; simpl. destruct (String.eqb_spec i id) as [->|Hne];
      [apply (IH _ id b t)|apply (IH _ id addr last)]; try done;
      [by rewrite lookup_insert_eq|by rewrite lookup_insert_ne].
  - unfold registrar_step, heartbeat; simpl. destruct (String.eqb_spec i id) as [->|Hne];
      [apply (IH _ id addr t)|apply (IH _ id addr last)]; try done;
      [by rewrite lookup_alter_eq, Hp|by rewrite lookup_alter_ne].
  - apply (IH _ id addr last); try done. unfold registrar_step, deregister; simpl. by rewrite lookup_delete_ne.
  - apply (IH _ id addr last); try done. unfold registrar_step, evict_stale; simpl.
    apply map_lookup_filter_Some. split; [done|]. simpl. rewrite time_kept by done. unfold is_time in Hl. lia.
Qed.

(** A peer that registers, sends a sign of life within 120 s before every eviction and
    is not deregistered is found, with the address it gave last. *)
Lemma registered_found (peers : registrar) (t : Z) (id addr : string) (ops : list (Z * registrar_op)) :
  is_time t → in_time id t ops →
  ∃ p, lookup_peer id (registrar_run peers ((t, Register id addr) :: ops)) = (Some p, true) ∧
    pr_node_id p = id ∧ pr_sync_addr p = address_after id addr ops.
Proof.
  intros Ht Hin.
  destruct (live_peer_kept ops (register t id addr peers) id addr t Ht) as [u Hu];
    [by unfold register; rewrite lookup_insert_eq|done|].
  eexists. unfold lookup_peer.
  change (registrar_run peers ((t, Register id addr) :: ops)) with (registrar_run (register t id addr peers) ops).
  by rewrite Hu.
Qed.

(** After an eviction every listed peer gave a sign of life in the last 120 s. *)
Lemma evicted_recent (now : Z) (peers : registrar) (p : PeerRegistration) :
  (0 ≤ pr_last_seen_unix_secs p)%Z → p ∈ list_peers (evict_stale now peers) →
  (now - PEER_TTL_SECS ≤ pr_last_seen_unix_secs p)%Z.
Proof.
  intros Hpos Hp. apply list_elem_of_fmap in Hp as ([k q] & -> & Hq).
  apply elem_of_map_to_list, map_lookup_filter_Some in Hq as [_ Hq]. simpl in *.
  assert (wrap64 (pr_last_seen_unix_secs q) ≤ pr_last_seen_unix_secs q)%Z; [|lia].
  unfold wrap64, u64_mod. apply Z.mod_le; lia.
Qed.

(** A peer that was evicted stays out, whatever heartbeats it sends: only a new
    registration brings it back, and the client registers once. *)
Lemma evicted_stays_out (ops : list (Z * registrar_op)) : ∀ (peers : registrar) (id : string),
  peers !! id = None → (∀ t addr, (t, Register id addr) ∉ ops) →
  lookup_peer id (registrar_run peers ops) = (None, false).
Proof.
  unfold lookup_peer, registrar_run.
  induction ops as [|[t op] ops IH]; intros peers id Hp Hno; [simpl; by rewrite Hp|].
  simpl. apply IH; [|intros ?? ?; eapply Hno; by right].
  destruct op as [i b|i|i|]; unfold registrar_step; simpl.
  - unfold register. rewrite lookup_insert_ne; [done|]. intros ->. eapply Hno. by left.
  - unfold heartbeat. destruct (decide (i = id)) as [->|];
      [by rewrite lookup_alter_eq, Hp|by rewrite lookup_alter_ne].
  - unfold deregister. apply lookup_delete_None. by right.
  - unfold evict_stale. apply map_lookup_filter_None. by left.
Qed.

(** ** Lemmas of discovery *)

Section discovery_facts.
Context {Addr : Type} `{Announcements Addr}.

(** Every peer is under its own id, and the node itself is not one of them. *)
Definition discovery_ok (node_id : string) (d : Discovery Addr) : Prop :=
  d_node_id d = node_id ∧ ∀ id p, d_peers d !! id = Some p → pi_node_id p = id ∧ id ≠ node_id.

Lemma discovery_step_ok (node_id : string) (op : discovery_op) (d : Discovery Addr) :
  discovery_ok node_id d → discovery_ok node_id (discovery_step d op).
Proof.
  intros [Hid Hok]. destruct op as [asked noted seen src data|now]; simpl.
  - unfold receive. destruct (announcement_from_slice _) as [ann|]; [|done].
    destruct (String.eqb_spec (na_node_id ann) (d_node_id d)) as [|Hne]; [done|].
    destruct (rate_limit _ _ _ _) as [rl|]; [|done]. split; [done|].
    intros id p. destruct (parse_addr _) as [addr|]; simpl; [|apply Hok].
    rewrite lookup_insert_Some. intros [[<- <-]|[_ Hp]]; [split; [done|congruence]|by apply Hok].
  - split; [done|]. intros id q Hq. apply map_lookup_filter_Some in Hq as [Hq _]. by apply Hok.
Qed.

(** Whatever arrives, a node never lists itself among its peers. *)
Lemma discovery_never_self (ops : list discovery_op) (node_id : string) (sync_addr : Addr) (p : PeerInfo Addr) :
  p ∈ get_peers (foldl discovery_step (Discovery_new node_id sync_addr) ops) → pi_node_id p ≠ node_id.
Proof.
  assert (∀ d, discovery_ok node_id d → discovery_ok node_id (foldl discovery_step d ops)) as Hall.
  { induction ops as [|op ops IH]; intros d Hd; [done|]. by apply IH, discovery_step_ok. }
  intros ([k q] & -> & Hp)%list_elem_of_fmap. apply elem_of_map_to_list in Hp. simpl.
  destruct (Hall (Discovery_new node_id sync_addr)) as [_ Hok]; [done|].
  by destruct (Hok _ _ Hp) as [-> Hne].
Qed.

(** Within ten seconds of an announcement that was noted, another one of the same
    source changes nothing. *)
Lemma receive_limited (asked noted seen last : Z) (src : string) (data : bytes) (d : Discovery Addr) :
  d_rate_limiter d !! src = Some last → (asked < last + RATE_LIMIT)%Z →
  receive asked noted seen src data d = d.
Proof.
  intros Hl Hlt. unfold receive, rate_limit. rewrite Hl.
  destruct (Z.ltb_spec (duration_since asked last) RATE_LIMIT) as [_|Hge];
    [|unfold duration_since, RATE_LIMIT, SECOND in *; lia].
  by repeat case_match.
Qed.

End discovery_facts.
