(* ===== verification/Dockerfile.v ===== *)
(** * Dockerfiles: the parser of [runtime/pullrun-oci/src/dockerfile.rs]

    A file is split into logical lines, these into build stages, each of which
    starts with a [FROM] line.  Unicode's upper-case table (outside ASCII) and
    serde's arrays of strings are parameters. *)

From stdpp Require Import base strings list.
From Stdlib Require Import ZArith Ascii Lia.
From S2P Require Import Prelude Strs Utf8.

(** ** Strings *)

(** The upper case of a character outside ASCII, which may be several characters. *)
Class UpperTable := upper_other : Z → list Z.

(** [serde_json::from_str::<Vec<String>>]. *)
Class StringsJson := json_strings : string → option (list string).

(** The UTF-8 encoding of a code point. *)
Definition encode_char (c : Z) : bytes :=
  byte_of <$>
    (if (c <? 0x80)%Z then [c]
     else if (c <? 0x800)%Z then [0xC0 + c / 0x40; 0x80 + c mod 0x40]
     else if (c <? 0x10000)%Z then [0xE0 + c / 0x1000; 0x80 + c / 0x40 mod 0x40; 0x80 + c mod 0x40]
     else [0xF0 + c / 0x40000; 0x80 + c / 0x1000 mod 0x40; 0x80 + c / 0x40 mod 0x40; 0x80 + c mod 0x40])%Z.

Definition upper_char `{UpperTable} (c : Z) : list Z :=
  if (c <? 0x80)%Z then [if ((0x61 <=? c) && (c <=? 0x7A))%Z then (c - 0x20)%Z else c] else upper_other c.

Definition to_uppercase `{UpperTable} (s : string) : string :=
  str_of_bytes (flat_map encode_char (flat_map upper_char (chars s))).

(** The bytes before the first white-space character, and the rest. *)
Fixpoint break_ws (l : bytes) : bytes * bytes :=
  match strip_any white_space l with
  | Some _ => ([], l)
  | None => match l with
            | [] => ([], [])
            | b :: l => let '(x, y) := break_ws l in (b :: x, y)
            end
  end.

(** [s.find(char::is_whitespace)], as the two pieces around it. *)
Definition split_ws (s : string) : string * string :=
  let '(x, y) := break_ws (as_bytes s) in (str_of_bytes x, str_of_bytes y).

Fixpoint words (fuel : nat) (l : bytes) : list bytes :=
  match fuel with
  | O => []
  | S fuel => match break_ws (trim_start_bytes l) with
              | ([], _) => []
              | (w, r) => w :: words fuel r
              end
  end.

(** [s.split_whitespace()]; every word takes a byte. *)
Definition split_whitespace (s : string) : list string :=
  str_of_bytes <$> words (S (String.length s)) (as_bytes s).

(** [s.strip_suffix(c)]. *)
Fixpoint strip_suffix (s : string) (c : ascii) : option string :=
  match s with
  | EmptyString => None
  | String a EmptyString => if decide (a = c) then Some EmptyString else None
  | String a s => String a <$> strip_suffix s c
  end.

(** [&s[n..]], which panics inside a character. *)
Definition slice_from (n : nat) (s : string) : option string :=
  let t := str_drop n s in
  if decide (String.length s < n) then None
  else match as_bytes t with
       | b :: _ => if cont b then None else Some t
       | [] => Some t
       end.

(** ** Instructions *)

Inductive Instruction :=
| Run (command : list string)
| Copy (sources : list string) (dest : string)
| WorkDir (s : string)
| Env (key value : string)
| Cmd (l : list string)
| Entrypoint (l : list string)
| Expose (port : Z)
| Label (key value : string)
| User (s : string)
| Arg (name : string) (dflt : option string)
| Shell (l : list string)
| Add (sources : list string) (dest : string)
| Comment (s : string).

Record BuildStage := MkStage {
  bs_from : string;
  bs_instructions : list Instruction;
  bs_name : option string;
  bs_platform : option string;
}.

(** The messages of the parser; [Panicked] is a panic. *)
Inductive ParseError :=
| Panicked
| NoStages
| NotFrom (line : string)
| BareArray (line : string)
| InvalidExecForm (instruction : string)
| InvalidPort (args : string)
| CopyOperands (got : list string).

Definition or_panic {A} (o : option A) : result ParseError A := ok_or o Panicked.

(** ** Lines *)

(** One turn of the loop over the lines: those finished, and the one that continues. *)
Definition preprocess_line (st : list string * string) (raw : string) : list string * string :=
  let '(out, current) := st in
  let line := trim raw in
  if bool_decide (line = EmptyString) || starts_with line "#" then
    if decide (current = EmptyString) then (out, current) else (out ++ [trim current], EmptyString)
  else
    match strip_suffix line "\"%char with
    | Some stripped => (out, current +:+ stripped +:+ " ")
    | None => (out ++ [trim (current +:+ line)], EmptyString)
    end.

Definition preprocess_lines (content : string) : list string :=
  let '(out, current) := foldl preprocess_line ([], EmptyString) (lines content) in
  if decide (current = EmptyString) then out else out ++ [trim current].

Section parser.
Context `{UpperTable, StringsJson}.

Definition is_from (line : string) : bool := starts_with (to_uppercase line) "FROM ".

Definition push_block (blocks : list (list string)) (current : list string) : list (list string) :=
  match current with
  | [] => blocks
  | _ => blocks ++ [current]
  end.

Definition split_line (st : list (list string) * list string) (line : string)
    : list (list string) * list string :=
  let '(blocks, current) := st in
  if is_from line then (push_block blocks current, [line]) else (blocks, current ++ [line]).

Definition split_into_blocks (l : list string) : list (list string) :=
  let '(blocks, current) := foldl split_line ([], []) l in
  push_block blocks current.

(** ** Instruction forms *)

Definition is_array (s : string) : bool := starts_with s "[" && ends_with s "]".

Definition shell_form (s : string) : list string := ["/bin/sh"; "-c"; s].

Definition parse_key_value (s : string) : result ParseError (string * string) :=
  let s := trim s in
  match split_once s "="%char with
  | Some (key, value) => Ok (trim key, trim value)
  | None =>
    match split_ws s with
    | (_, EmptyString) => Ok (s, EmptyString)
    | (key, rest) =>
      value ← or_panic (slice_from 1 rest);
      Ok (trim key, trim value)
    end
  end.

Definition parse_json_or_shell (args : string) : list string :=
  let t := trim args in
  if is_array t then default (shell_form t) (json_strings t) else shell_form t.

(** The loop that skips [--flag] operands; each turn drops two characters. *)
Fixpoint skip_flags (fuel : nat) (rest : string) : string :=
  match fuel with
  | O => rest
  | S fuel =>
    let t := trim_start rest in
    if starts_with t "--" then
      skip_flags fuel (match split_once t " "%char with
                       | Some (_, r) => trim (" " +:+ r)
                       | None => EmptyString
                       end)
    else rest
  end.

(** [parsed[..len - 1]] and [parsed.last()]. *)
Definition sources_dest (parts : list string) : result ParseError Instruction :=
  match reverse parts with
  | dest :: s :: sources => Ok (Copy (reverse (s :: sources)) dest)
  | _ => Err (CopyOperands parts)
  end.

Definition parse_copy_add (args : string) (_is_add : bool) : result ParseError Instruction :=
  let rest := skip_flags (String.length args) (trim args) in
  if is_array rest then
    parsed ← ok_or (json_strings rest) (InvalidExecForm "COPY");
    sources_dest parsed
  else sources_dest (split_whitespace rest).

Definition parse_instruction (line : string) : result ParseError Instruction :=
  let trimmed := trim line in
  if is_array trimmed then Err (BareArray trimmed)
  else
    let '(word, rest) := split_ws line in
    let instruction := to_uppercase word in
    let args := trim rest in
    if decide (instruction = "RUN") then
      if is_array args then command ← ok_or (json_strings args) (InvalidExecForm "RUN"); Ok (Run command)
      else Ok (Run (shell_form args))
    else if decide (instruction = "COPY") then parse_copy_add args false
    else if decide (instruction = "ADD") then parse_copy_add args true
    else if decide (instruction = "WORKDIR") then Ok (WorkDir args)
    else if decide (instruction = "ENV") then
      '(key, value) ← parse_key_value args; Ok (Env key value)
    else if decide (instruction = "CMD") then Ok (Cmd (parse_json_or_shell args))
    else if decide (instruction = "ENTRYPOINT") then Ok (Entrypoint (parse_json_or_shell args))
    else if decide (instruction = "EXPOSE") then
      port ← ok_or (parse_u16 (trim (default args (head (split args "/"%char))))) (InvalidPort args);
      Ok (Expose port)
    else if decide (instruction = "LABEL") then
      '(key, value) ← parse_key_value args; Ok (Label key value)
    else if decide (instruction = "USER") then Ok (User args)
    else if decide (instruction = "ARG") then
      match split_once args "="%char with
      | Some (name, dflt) => Ok (Arg (trim name) (Some (trim dflt)))
      | None => Ok (Arg (trim args) None)
      end
    else if decide (instruction = "SHELL") then
      if is_array args then l ← ok_or (json_strings args) (InvalidExecForm "SHELL"); Ok (Shell l)
      else Ok (Shell ["/bin/sh"; "-c"])
    else Ok (Comment (instruction +:+ " " +:+ args)).

(** ** Stages *)

Definition parse_from (s : string) : result ParseError (string * option string * option string) :=
  let rest := trim s in
  let '(platform, rest) :=
    match strip_prefix "--platform=" rest with
    | Some p => match split_once p " "%char with
                | Some (x, y) => (Some x, trim (" " +:+ y))
                | None => (Some p, EmptyString)
                end
    | None => (None, rest)
    end in
  match split_whitespace rest with
  | [] => Err Panicked
  | image :: parts =>
    let name := match parts with
                | as_word :: n :: ns => if decide (to_uppercase as_word = "AS") then Some (join " " (n :: ns)) else None
                | _ => None
                end in
    Ok (image, name, platform)
  end.

Definition parse_block (block : list string) : result ParseError BuildStage :=
  match block with
  | [] => Err Panicked
  | from_line :: rest_lines =>
    if is_from from_line then
      rest ← or_panic (slice_from 5 from_line);
      '(from, name, platform) ← parse_from (trim rest);
      instructions ← collect_results parse_instruction rest_lines;
      Ok (MkStage from instructions name platform)
    else Err (NotFrom from_line)
  end.

(** [Dockerfile::parse]. *)
Definition parse (content : string) : result ParseError (list BuildStage) :=
  stages ← collect_results parse_block (split_into_blocks (preprocess_lines content));
  match stages with
  | [] => Err NoStages
  | _ => Ok stages
  end.

End parser.
