(* ===== verification/Scan.v ===== *)
(** * Directories to DAG nodes: [runtime/pullrun-oci/src/dockerfile.rs]

    [build_dag_from_directory_with_platform] stores the files of a host directory as
    blob nodes and its directories as tree nodes, below a layer and a manifest.  It
    is how builds and commits make an image of a root file system. *)

From stdpp Require Import base gmap strings list pretty.
From Stdlib Require Import ZArith Ascii Lia.
From S2P Require Import Prelude Strs Utf8 Crates Node Fs Worklist Store OciTypes.
From S2P Require Import Puller HostFs Convert Materialize.

Record DagDirectory := MkDagDirectory {
  dd_manifest_digest : Digest;
  dd_node_count : Z;
  dd_blob_bytes : Z;
}.

Inductive DirEntry :=
| MkDirEntry (name : string) (is_dir : bool) (file_digest : Digest) (mode size : Z) (children : list DirEntry).

Definition dn_name (e : DirEntry) : string := let '(MkDirEntry x _ _ _ _ _) := e in x.
Definition dn_is_dir (e : DirEntry) : bool := let '(MkDirEntry _ x _ _ _ _) := e in x.
Definition dn_mode (e : DirEntry) : Z := let '(MkDirEntry _ _ _ x _ _) := e in x.
Definition dn_size (e : DirEntry) : Z := let '(MkDirEntry _ _ _ _ x _) := e in x.

Abbreviation results := (gmap string (Digest * Z)).

(** [path.to_string_lossy()]. *)
Definition lossy_text (s : string) : string := from_utf8_lossy (as_bytes s).

Definition path_to_rel (root p : path) : string :=
  match strip_dir root p with
  | Some rel => lossy_text (join "/" rel)
  | None => EmptyString
  end.

(** What [WalkDir] visits: the directory and everything in it, links not followed.
    The entries are processed in parallel; their order is of no account. *)
Definition walk_dir (dir : path) (fs : HostFs) : list path :=
  dir :: filter (λ p, below_dir dir p = true) (map_to_list fs).*1.

(** [permissions().readonly()]. *)
Definition readonly (i : inode) : bool := bool_decide (Z.land (fmode (imeta i)) 146 = 0)%Z.

(** ** The tree of entries *)

Section entries.
Context (fs : HostFs) (root : path) (file_results symlink_results : results).

Definition entry_digest (current : path) (is_dir is_symlink : bool) : Digest * Z :=
  let rel := path_to_rel root current in
  if is_symlink || is_dir then
    if is_symlink then default (zero_digest, 0%Z) (symlink_results !! rel) else (zero_digest, 0%Z)
  else default (zero_digest, 0%Z) (file_results !! rel).

(** [child.file_type()] succeeds; every type there is is taken. *)
Definition has_type (child : path) : bool :=
  match (resolve false child fs).1 with
  | Ok q => bool_decide (is_Some (content_at fs q))
  | Err _ => false
  end.

(** [fuel] bounds the depth of nested directories; [None] when it is used up. *)
Fixpoint build_dir_entry_tree (fuel : nat) (current : path) : option DirEntry :=
  match fuel with
  | O => None
  | S fuel =>
    let name := if decide (current = root) then "/" else lossy_text (file_name current) in
    children ← match (read_dir current fs).1 with
               | Ok l =>
                 mapM (build_dir_entry_tree fuel) (filter (λ child, has_type child = true) l)
               | Err _ => Some []
               end;
    let meta := ok (metadata current fs).1 in
    let is_dir := match meta with Some (MkInode Dir _) => true | _ => false end in
    let is_symlink := match meta with Some (MkInode (Symlink _) _) => true | _ => false end in
    let mode := match meta with
                | Some m => if readonly m then 292 else if is_dir then 493 else 420
                | None => 420
                end%Z in
    let '(file_digest, size) := entry_digest current is_dir is_symlink in
    Some (MkDirEntry name is_dir file_digest mode size children)
  end.

End entries.

Section scan.
Context `{Hex, Sha2, Rkyv DagNode, EntryJson}.

(** ** Files *)

Definition scan_link (full_path : path) (rel : string) (acc : results * results) : mat_eff (results * results) :=
  r ← try_eff (on_host (read_link full_path));
  match r with
  | Err _ => mret acc
  | Ok t =>
    let target := as_bytes (lossy_text t) in
    r ← try_eff (on_mat_store (put (DagNode.blob target)));
    mret match r with
         | Ok d => (acc.1, <[rel := (d, len target)]> acc.2)
         | Err _ => acc
         end
  end.

Definition scan_data (full_path : path) (rel : string) (acc : results * results) : mat_eff (results * results) :=
  r ← try_eff (on_host (read_host full_path));
  match r with
  | Err _ => mret acc
  | Ok data =>
    if decide (data = []) then mret acc
    else
      r ← try_eff (on_mat_store (put (DagNode.blob data)));
      match r with
      | Ok d =>
        (if decide (len data > SMALL_FILE_THRESHOLD)%Z then ignore_eff (on_mat_store (put_blob d data)) else mret tt) ;;
        mret (<[rel := (d, len data)]> acc.1, acc.2)
      | Err _ => mret acc
      end
  end.

(** An entry of the walk: the results for files and for links. *)
Definition scan_file (dir : path) (acc : results * results) (p : path) : mat_eff (results * results) :=
  w ← get_world;
  let rel := path_to_rel dir p in
  let full_path := path_join dir rel in
  match content_at (mw_host w) p with
  | Some (Symlink _) => scan_link full_path rel acc
  | Some (File _) => scan_data full_path rel acc
  | _ => mret acc
  end.

(** ** Nodes *)

Definition entry_members (child : DirEntry) (d : Digest) : list (string * Value) :=
  [("name", VString (dn_name child)); ("digest", VString (as_hex d));
   ("mode", VNumber (pretty (dn_mode child))); ("size", VNumber (pretty (dn_size child)));
   ("is_dir", VBool (dn_is_dir child)); ("is_symlink", VBool false)].

Definition entries_inline (l : list (DirEntry * Digest)) : bytes :=
  concat ((λ '(child, d), json_object (entry_members child d) ++ [newline]) <$> l).

(** The loop over the children of a directory; the pair counts nodes and the bytes of
    files. *)
Definition build_children (f : DirEntry → Z * Z → oci_store_eff (Digest * (Z * Z)))
    : list DirEntry → Z * Z → oci_store_eff (list (DirEntry * Digest) * (Z * Z)) :=
  fix go children counts :=
    match children with
    | [] => mret ([], counts)
    | child :: children =>
      '(d, counts) ← f child counts;
      '(l, counts) ← go children counts;
      mret ((child, d) :: l, counts)
    end.

Fixpoint build_tree (entry : DirEntry) (counts : Z * Z) : oci_store_eff (Digest * (Z * Z)) :=
  let '(MkDirEntry _ is_dir file_digest _ size children) := entry in
  if is_dir then
    '(l, counts) ← build_children build_tree children counts;
    tree_digest ← map_err_eff (λ e, OciError.Other (StoreTree e)) (put (DagNode.tree l.*2 (entries_inline l)));
    mret (tree_digest, (counts.1 + 1, counts.2)%Z)
  else mret (file_digest, if decide (file_digest = zero_digest) then counts
                          else (counts.1, wrap64 (counts.2 + size))).

Definition empty_manifest_data (architecture os : string) : ManifestData :=
  MkManifestData [] [] [] None architecture os None None None None None None None.

(** The first three phases: the walk, the files, the tree of entries. *)
Definition scan_dir (fuel : nat) (dir : path) : mat_eff DirEntry :=
  dir ← map_err_eff (λ _, OciError.Other Canonicalize) (on_host (canonicalize dir));
  w ← get_world;
  '(file_results, symlink_results) ← fold_eff (scan_file dir) (∅, ∅) (walk_dir dir (mw_host w));
  lift_result (ok_or (build_dir_entry_tree (mw_host w) dir file_results symlink_results fuel dir)
                 OciError.OutOfFuel).

Definition build_dag_from_directory_with_platform (fuel : nat) (dir : path) (architecture os : string)
    : mat_eff DagDirectory :=
  root_entry ← scan_dir fuel dir;
  '(tree_digest, counts) ← on_mat_store (build_tree root_entry (0, 0)%Z);
  layer_digest ← on_mat_store (oci_store (put (DagNode.layer [tree_digest] (as_bytes "/"))));
  manifest_digest ← on_mat_store (oci_store (put (DagNode.manifest [layer_digest]
                      (default [] (manifest_data_to_vec (empty_manifest_data architecture os))))));
  mret (MkDagDirectory manifest_digest (counts.1 + 2) counts.2)%Z.

Definition build_dag_from_directory (fuel : nat) (dir : path) : mat_eff DagDirectory :=
  build_dag_from_directory_with_platform fuel dir "amd64" "linux".

End scan.
