(* ===== verification/ScanSpec.v ===== *)
(** * What parsing a Dockerfile and scanning a directory give

    Every logical line becomes the head of a stage or one instruction of it, in
    order; and some texts that are not read as their authors mean them.
    The nodes of a scanned directory are stored, and an image made of them unpacks
    to nothing: the texts of its directory entries lack members that reading them
    back requires. *)

From stdpp Require Import base gmap strings list pretty.
From Stdlib Require Import ZArith Ascii Lia.
From S2P Require Import Utf8 Dockerfile Prelude Strs Crates Node Fs Worklist Store StoreFacts.
From S2P Require Import OciTypes Puller Archive HostFs Convert Materialize ConvertSpec UnpackSpec.
From S2P Require Import Scan.

Lemma collect_results_Forall2 {E A B} (f : A → result E B) l k :
  collect_results f l = Ok k → Forall2 (λ x y, f x = Ok y) l k.
Proof.
  revert k. induction l as [|x l IH]; intros k; simpl; [intros [= <-]; constructor|].
  unfold mbind, result_bind. destruct (f x) eqn:Ex; [|done].
  destruct (collect_results f l) eqn:El; [|done]. intros [= <-]. constructor; auto.
Qed.

Section spec.
Context `{UpperTable, StringsJson}.

(** ** Blocks *)

(** Only the head of a block may be a [FROM] line. *)
Definition one_from (block : list string) : Prop :=
  ∃ l ls, block = l :: ls ∧ Forall (λ x, is_from x = false) ls.

Lemma push_block_concat blocks current : concat (push_block blocks current) = concat blocks ++ current.
Proof.
  destruct current; simpl; [by rewrite app_nil_r|]. rewrite concat_app. simpl. by rewrite app_nil_r.
Qed.

Lemma push_block_one_from blocks current :
  Forall one_from blocks → current = [] ∨ one_from current → Forall one_from (push_block blocks current).
Proof.
  intros Hb [->|Hc]; [done|]. destruct Hc as (l & ls & -> & Hl). apply Forall_app. split; [done|].
  constructor; [|constructor]. by exists l, ls.
Qed.

Lemma split_lines l blocks current blocks' current' :
  foldl split_line (blocks, current) l = (blocks', current') →
  Forall one_from blocks → current = [] ∨ one_from current →
  concat blocks' ++ current' = concat blocks ++ current ++ l ∧
  Forall one_from blocks' ∧ (current' = [] ∨ one_from current').
Proof.
  revert blocks current. induction l as [|x l IH]; intros blocks current; simpl.
  { intros [= <- <-]. by rewrite app_nil_r. }
  intros Hf Hb Hc. destruct (is_from x) eqn:Ex.
  - apply IH in Hf as (Heq & Hb' & Hc').
    + split; [|done]. rewrite Heq, push_block_concat, <- app_assoc. done.
    + by apply push_block_one_from.
    + right. by exists x, [].
  - apply IH in Hf as (Heq & Hb' & Hc'); [split; [by rewrite Heq, <- app_assoc|done]|done|].
    right. destruct Hc as [->|(y & ls & -> & Hls)]; [by exists x, []|].
    exists y, (ls ++ [x]). split; [done|]. apply Forall_app. split; [done|]. by repeat constructor.
Qed.

Lemma split_into_blocks_spec l :
  concat (split_into_blocks l) = l ∧ Forall one_from (split_into_blocks l).
Proof.
  unfold split_into_blocks. destruct (foldl split_line ([], []) l) as [blocks current] eqn:E.
  apply split_lines in E as (Heq & Hb & Hc); [|constructor|by left].
  rewrite push_block_concat, Heq. split; [done|]. by apply push_block_one_from.
Qed.

(** ** Stages *)

(** A stage is what its block says. *)
Definition stage_of (block : list string) (st : BuildStage) : Prop :=
  ∃ l ls, block = l :: ls ∧ is_from l = true ∧ Forall (λ x, is_from x = false) ls ∧
    (∃ rest, slice_from 5 l = Some rest ∧ parse_from (trim rest) = Ok (bs_from st, bs_name st, bs_platform st)) ∧
    Forall2 (λ x i, parse_instruction x = Ok i) ls (bs_instructions st).

Lemma parse_block_spec block st : one_from block → parse_block block = Ok st → stage_of block st.
Proof.
  intros (l & ls & -> & Hls). unfold parse_block. destruct (is_from l) eqn:El; [|done].
  unfold mbind, result_bind, or_panic. destruct (slice_from 5 l) as [rest|] eqn:Es; [|done]. cbn [ok_or].
  destruct (parse_from (trim rest)) as [[[from name] platform]|] eqn:Ef; [|done].
  destruct (collect_results parse_instruction ls) as [ins|] eqn:Ei; [|done]. intros [= <-].
  exists l, ls. split_and!; [done..|by exists rest|]. by apply collect_results_Forall2.
Qed.

(** A Dockerfile that parses is the sequence of its stages: its logical lines,
    in order and each exactly once, are cut into blocks, one for each stage; the
    first line of a block is a [FROM] line that gives the stage its image, name and
    platform, none of the others is one, and each of them is one instruction. *)
Lemma parse_stages content stages :
  parse content = Ok stages →
  stages ≠ [] ∧
  ∃ blocks, concat blocks = preprocess_lines content ∧ Forall2 stage_of blocks stages.
Proof.
  unfold parse, mbind, result_bind.
  destruct (collect_results parse_block _) as [sts|] eqn:E; [|done].
  intros Hs. assert (sts = stages ∧ stages ≠ []) as [-> Hne] by (destruct sts; simplify_eq; done).
  split; [done|]. exists (split_into_blocks (preprocess_lines content)).
  destruct (split_into_blocks_spec (preprocess_lines content)) as [Hc Hb]. split; [done|].
  apply collect_results_Forall2 in E. clear Hne Hc Hs. revert Hb.
  induction E as [|b st bs sts Hst _ IH]; intros Hb; [constructor|]. inversion_clear Hb.
  constructor; [by apply parse_block_spec|auto].
Qed.

(** ** Texts read otherwise than meant *)

Definition nl : string := String "010"%char EmptyString.

(** A comment between the lines of a continued instruction ends it. *)
Lemma comment_cuts_instruction :
  preprocess_lines ("RUN make \" +:+ nl +:+ "# all of it" +:+ nl +:+ "  install") = ["RUN make"; "install"].
Proof. done. Qed.

(** The stage that [COPY --from] names is dropped: the file is looked for in the
    build context. *)
Lemma copy_from_dropped :
  parse_instruction "COPY --from=builder /app /app" = parse_instruction "COPY /app /app".
Proof. by vm_compute. Qed.

(** [ADD] is [COPY]. *)
Lemma add_is_copy args : parse_copy_add args true = parse_copy_add args false.
Proof. done. Qed.

(** Several variables in one [ENV] become one. *)
Lemma env_takes_one : parse_instruction "ENV A=1 B=2" = Ok (Env "A" "1 B=2").
Proof. by vm_compute. Qed.


(** A [FROM] line with a platform and no image stops the program: the image is taken
    as the first word of an empty list. *)
Lemma from_without_image_panics : parse "FROM --platform=linux/amd64" = Err Panicked.
Proof. by vm_compute. Qed.

(** So does a variable that is set after a wide space. *)
Lemma wide_space_panics :
  parse_instruction ("ENV A" +:+ str_of_bytes [Byte.xe3; Byte.x80; Byte.x80] +:+ "1") = Err Panicked.
Proof. by vm_compute. Qed.

End spec.

(** ** Entries *)

Lemma DirEntry_nested_ind (P : DirEntry → Prop) :
  (∀ name is_dir d mode size children, Forall P children → P (MkDirEntry name is_dir d mode size children)) →
  ∀ e, P e.
Proof.
  intros Hc. fix IH 1. intros [name is_dir d mode size children]. apply Hc.
  induction children as [|c children IHl]; constructor; [apply IH|exact IHl].
Qed.

Fixpoint dir_depth (e : DirEntry) : nat :=
  let '(MkDirEntry _ _ _ _ _ children) := e in S (foldr (λ c n, Nat.max (dir_depth c) n) 0 children).

Lemma dir_depth_child c children : c ∈ children → dir_depth c ≤ foldr (λ c n, Nat.max (dir_depth c) n) 0 children.
Proof.
  induction children as [|x l IH]; [by intros ?%elem_of_nil|]. intros [->|Hin]%elem_of_cons; simpl; [lia|].
  specialize (IH Hin). lia.
Qed.

(** The digests of the files in it. *)
Fixpoint file_digests (e : DirEntry) : list Digest :=
  let '(MkDirEntry _ is_dir d _ _ children) := e in
  if is_dir then concat (file_digests <$> children) else [d].

Section spec.
Context `{Hex, Sha2, Rkyv DagNode, EntryJson, LayerTar, GzDecoder, ZstdDecoder, SpecJson}.
Context `{!HexLaws, !RkyvLaws DagNode, !EntryJsonLaws}.

(** ** Nodes of a scanned directory *)

Definition dir_node (f : DirEntry → Digest) (children : list DirEntry) : DagNode :=
  DagNode.tree (f <$> children) (entries_inline ((λ c, (c, f c)) <$> children)).

Fixpoint dir_digest (e : DirEntry) : Digest :=
  let '(MkDirEntry _ is_dir d _ _ children) := e in
  if is_dir then dig (dir_node dir_digest children) else d.

Fixpoint dir_nodes (e : DirEntry) : list DagNode :=
  let '(MkDirEntry _ is_dir d _ _ children) := e in
  if is_dir then concat (dir_nodes <$> children) ++ [dir_node dir_digest children] else [].

Definition image_layer (e : DirEntry) : DagNode := DagNode.layer [dir_digest e] (as_bytes "/").

Definition image_manifest (e : DirEntry) (architecture os : string) : DagNode :=
  DagNode.manifest [dig (image_layer e)] (default [] (manifest_data_to_vec (empty_manifest_data architecture os))).

Definition image_nodes (e : DirEntry) (architecture os : string) : list DagNode :=
  dir_nodes e ++ [image_layer e; image_manifest e architecture os].

Lemma build_children_spec N children counts w :
  Forall (λ e, ∀ counts w, storable N w → (∀ n, n ∈ dir_nodes e → N n) →
    ∃ counts' w', build_tree e counts w = (Ok (dir_digest e, counts'), w') ∧ grows w w' ∧ storable N w' ∧
      Forall (holds w') (dir_nodes e)) children →
  storable N w → (∀ n, n ∈ concat (dir_nodes <$> children) → N n) →
  ∃ counts' w', build_children build_tree children counts w
      = (Ok ((λ c, (c, dir_digest c)) <$> children, counts'), w') ∧
    grows w w' ∧ storable N w' ∧ Forall (holds w') (concat (dir_nodes <$> children)).
Proof.
  intros HP. revert counts w. induction HP as [|c l Hc _ IH]; intros counts w Hs HN; cbn [build_children fmap list_fmap concat].
  { exists counts, w. split_and!; [done|apply grows_refl|done|constructor]. }
  destruct (Hc counts w Hs) as (n1 & w1 & E1 & G1 & S1 & F1); [intros n Hn; apply HN; simpl; set_solver|].
  destruct (IH n1 w1 S1) as (n2 & w2 & E2 & G2 & S2 & F2); [intros n Hn; apply HN; simpl; set_solver|].
  exists n2, w2. erewrite bind_ok by exact E1. cbv beta iota. erewrite bind_ok by exact E2. cbv beta iota.
  split_and!; [done|by eapply grows_trans|done|]. apply Forall_app. split; [|done].
  eapply Forall_impl; [exact F1|]. intros. by eapply grows_holds.
Qed.

Lemma build_tree_spec N e counts w :
  storable N w → (∀ n, n ∈ dir_nodes e → N n) →
  ∃ counts' w', build_tree e counts w = (Ok (dir_digest e, counts'), w') ∧ grows w w' ∧ storable N w' ∧
    Forall (holds w') (dir_nodes e).
Proof.
  revert counts w. induction e as [name is_dir d mode size children IH] using DirEntry_nested_ind.
  intros counts w Hs HN. cbn [build_tree dir_digest dir_nodes] in *. destruct is_dir.
  - destruct (build_children_spec N children counts w IH Hs) as (n1 & w1 & E1 & G1 & S1 & F1);
      [intros n Hn; apply HN; set_solver|].
    erewrite bind_ok by exact E1. cbv beta iota.
    replace (((λ c, (c, dir_digest c)) <$> children).*2) with (dir_digest <$> children)
      by (rewrite <- list_fmap_compose; done).
    fold (dir_node dir_digest children).
    destruct (put_storable N (dir_node dir_digest children) w1 S1) as (w2 & E2 & P2 & G2 & S2);
      [apply HN; set_solver|].
    eexists _, w2. erewrite bind_ok by (unfold map_err_eff; rewrite E2; done).
    split_and!; [done|by eapply grows_trans|done|]. apply Forall_app. split; [|by repeat constructor].
    eapply Forall_impl; [exact F1|]. intros. by eapply grows_holds.
  - eexists _, w. split_and!; [done|apply grows_refl|done|constructor].
Qed.

(** ** Scanning the files *)

(** [N] has a blob node for each file and each link of the host. *)
Definition scannable (N : DagNode → Prop) (fs : HostFs) : Prop :=
  (∀ p data, (read_host p fs).1 = Ok data → N (DagNode.blob data)) ∧
  (∀ p t, (read_link p fs).1 = Ok t → N (DagNode.blob (as_bytes (lossy_text t)))).

(** Each digest among the results is that of a stored blob node. *)
Definition stored_blob (w : World) (d : Digest) : Prop :=
  ∃ data, d = dig (DagNode.blob data) ∧ holds w (DagNode.blob data).

Definition good_results (w : World) (acc : results * results) : Prop :=
  ∀ rel d sz, acc.1 !! rel = Some (d, sz) ∨ acc.2 !! rel = Some (d, sz) → stored_blob w d.

Lemma good_results_grows w w' acc : grows w w' → good_results w acc → good_results w' acc.
Proof.
  intros Hg Ha rel d sz Hl. destruct (Ha rel d sz Hl) as (data & -> & Hd). exists data. eauto using grows_holds.
Qed.

Lemma good_results_insert w f s rel data (sz : Z) :
  good_results w (f, s) → holds w (DagNode.blob data) →
  good_results w (<[rel := (dig (DagNode.blob data), sz)]> f, s) ∧
  good_results w (f, <[rel := (dig (DagNode.blob data), sz)]> s).
Proof.
  intros Ha Hd. split; intros rel' d sz'; simpl.
  all: intros [Hl|Hl]; try (eapply (Ha rel'); eauto; done).
  all: apply lookup_insert_Some in Hl as [[_ [= <- <-]]|[_ Hl]]; [by eexists|eapply (Ha rel'); eauto].
Qed.

Lemma scan_file_spec N dir acc p w fs :
  storable N w → scannable N fs → good_results w acc →
  ∃ acc' w', scan_file dir acc p (MkMat w fs) = (Ok acc', MkMat w' fs) ∧ grows w w' ∧ storable N w' ∧
    good_results w' acc'.
Proof.
  intros Hs [HNf HNl] Ha. destruct acc as [f s].
  assert (Hsame : ∀ acc, good_results w acc → ∃ acc' w', (Ok acc, MkMat w fs) = (Ok (E := OciError.t) acc', MkMat w' fs) ∧
    grows w w' ∧ storable N w' ∧ good_results w' acc').
  { intros acc Hacc. exists acc, w. split_and!; [done|apply grows_refl|done..]. }
  unfold scan_file. erewrite bind_ok by done. cbn [mw_host].
  set (rel := path_to_rel dir p). set (full := path_join dir rel).
  assert (Hro : ∀ A (h : host_eff A), (h fs).2 = fs →
    try_eff (F := OciError.t) (on_host h) (MkMat w fs) = (Ok (map_err (λ _, OciError.Io) (h fs).1), MkMat w fs)).
  { intros A h Hh. unfold try_eff, on_host. cbn [mw_host mw_store]. destruct (h fs) as [r fs']. simpl in Hh. by subst fs'. }
  destruct (content_at fs p) as [[|old|old]|]; try by apply Hsame.
  - unfold scan_data. erewrite bind_ok by (apply Hro; unfold read_host, mbind, eff_bind, resolve, get_world; by repeat case_match; simplify_eq).
    destruct (read_host full fs).1 as [data|] eqn:Er; cbn [map_err]; [|by apply Hsame].
    case_decide; [by apply Hsame|].
    destruct (put_storable N (DagNode.blob data) w Hs (HNf _ _ Er)) as (w1 & E1 & P1 & G1 & S1).
    erewrite bind_ok by (unfold try_eff, on_mat_store; cbn [mw_store mw_host]; rewrite E1; done). cbv beta iota.
    destruct (put_blob_storable N data w1 S1 (HNf _ _ Er)) as (w2 & E2 & G2 & S2).
    assert (Hg : ∀ w', grows w1 w' → good_results w' (<[rel := (dig (DagNode.blob data), len data)]> f, s)).
    { intros w' Hg. eapply good_results_insert; [eapply good_results_grows; [|exact Ha]|]; eauto using grows_trans, grows_holds. }
    case_decide.
    + erewrite bind_ok by (unfold ignore_eff, on_mat_store; cbn [mw_store mw_host]; rewrite E2; done).
      eexists _, w2. split_and!; [done|by eapply grows_trans|done|by apply Hg].
    + erewrite bind_ok by done. eexists _, w1. split_and!; [done..|]. apply Hg, grows_refl.
  - unfold scan_link. erewrite bind_ok by (apply Hro; unfold read_link, mbind, eff_bind, resolve, get_world; by repeat case_match; simplify_eq).
    destruct (read_link full fs).1 as [t|] eqn:Er; cbn [map_err]; [|by apply Hsame].
    destruct (put_storable N _ w Hs (HNl _ _ Er)) as (w1 & E1 & P1 & G1 & S1).
    erewrite bind_ok by (unfold try_eff, on_mat_store; cbn [mw_store mw_host]; rewrite E1; done). cbv beta iota.
    eexists _, w1. split_and!; [done..|]. eapply good_results_insert; [by eapply good_results_grows|done].
Qed.

Lemma scan_files_spec N dir l acc w fs :
  storable N w → scannable N fs → good_results w acc →
  ∃ acc' w', fold_eff (scan_file dir) acc l (MkMat w fs) = (Ok acc', MkMat w' fs) ∧ grows w w' ∧ storable N w' ∧
    good_results w' acc'.
Proof.
  intros Hs Hn. revert acc w Hs. induction l as [|p l IH]; intros acc w Hs Ha; cbn [fold_eff].
  { exists acc, w. split_and!; [done|apply grows_refl|done..]. }
  destruct (scan_file_spec N dir acc p w fs Hs Hn Ha) as (acc1 & w1 & E1 & G1 & S1 & A1).
  destruct (IH acc1 w1 S1 A1) as (acc2 & w2 & E2 & G2 & ?). exists acc2, w2.
  erewrite bind_ok by exact E1. split_and!; [done|by eapply grows_trans|by destruct_and!..].
Qed.

(** ** The tree of entries *)

Lemma entry_digest_blob root w f s current is_dir is_symlink :
  good_results w (f, s) →
  (entry_digest root f s current is_dir is_symlink).1 = zero_digest ∨
  stored_blob w (entry_digest root f s current is_dir is_symlink).1.
Proof.
  intros Ha. set (rel := path_to_rel root current).
  assert (Hm : ∀ m : results, (∀ d sz, m !! rel = Some (d, sz) → stored_blob w d) →
    (default (zero_digest, 0%Z) (m !! rel)).1 = zero_digest ∨ stored_blob w (default (zero_digest, 0%Z) (m !! rel)).1).
  { intros m Hm. destruct (m !! rel) as [[d sz]|] eqn:E; simpl; [right; by eapply Hm|by left]. }
  unfold entry_digest. destruct is_dir, is_symlink; cbn [orb]; try by left.
  all: apply Hm; eauto.
Qed.

Lemma entry_tree_blobs fs root w f s fuel current e :
  good_results w (f, s) → build_dir_entry_tree fs root f s fuel current = Some e →
  Forall (λ d, d = zero_digest ∨ stored_blob w d) (file_digests e).
Proof.
  intros Ha. revert current e. induction fuel as [|fuel IH]; intros current e; cbn [build_dir_entry_tree]; [done|].
  set (l := match (read_dir current fs).1 with Ok l => _ | Err _ => _ end).
  assert (Hl : ∀ cs, l = Some cs → Forall (λ d, d = zero_digest ∨ stored_blob w d) (concat (file_digests <$> cs))).
  { unfold l. intros cs. destruct (read_dir current fs).1; [|by intros [= <-]]. intros Hm%mapM_Some.
    induction Hm as [|x c ps cs Hx _ IHl]; simpl; [constructor|]. apply Forall_app. split; [by eapply IH|done]. }
  destruct l as [cs|]; simpl; [|done]. specialize (Hl cs eq_refl).
  match goal with |- context [entry_digest root f s current ?a ?b] =>
    pose proof (entry_digest_blob root w f s current a b Ha) as Hd; destruct (entry_digest root f s current a b) as [d sz] end.
  intros [= <-]. cbn [file_digests]. match goal with |- context [if ?b then _ else [_]] => destruct b end; [done|].
  apply Forall_singleton. exact Hd.
Qed.

Lemma scan_dir_spec N fuel dir w fs e w1 :
  storable N w → scannable N fs → scan_dir fuel dir (MkMat w fs) = (Ok e, w1) →
  ∃ w', w1 = MkMat w' fs ∧ grows w w' ∧ storable N w' ∧
    Forall (λ d, d = zero_digest ∨ stored_blob w' d) (file_digests e).
Proof.
  intros Hs Hn. unfold scan_dir. intros (dir' & wc & Ec & Er)%bind_inv_ok.
  assert (wc = MkMat w fs) as ->.
  { revert Ec. unfold map_err_eff, on_host, canonicalize, mbind, eff_bind, resolve, get_world. cbn [mw_host mw_store].
    destruct (resolve_from MAXSYMLINKS fs true [] dir) as [q|]; simpl; [|by intros [=]].
    destruct (content_at fs q); simpl; by intros [=]. }
  apply bind_inv_ok in Er as (w0 & w0' & [= <- <-] & Er). cbn [mw_host] in Er.
  destruct (scan_files_spec N dir' (walk_dir dir' fs) (∅, ∅) w fs Hs Hn) as ([f s] & w2 & E2 & G2 & S2 & A2).
  { intros rel d sz. simpl. rewrite !lookup_empty. by intros [?|?]. }
  erewrite bind_ok in Er by exact E2. cbv beta iota in Er. unfold lift_result in Er.
  destruct (build_dir_entry_tree _ _ _ _ _ _) as [e'|] eqn:Ee; simplify_eq/=.
  exists w2. split_and!; [done..|]. by eapply entry_tree_blobs.
Qed.

(** ** Nothing comes back *)

Lemma scanned_entries_refused l : from_inline_bytes (entries_inline l) = [].
Proof.
  unfold from_inline_bytes, entries_inline. induction l as [|[c d] l IH]; simpl; [done|].
  rewrite <- app_assoc. simpl. rewrite split_bytes_line by apply json_object_line. simpl.
  rewrite (json_object_missing _ "uid"); [|unfold required_members; set_solver|simpl; set_solver].
  by case_decide.
Qed.

(** Nothing is stored under the digest, or a blob node. *)
Definition inert (w : World) (d : Digest) : Prop :=
  node_file w d = None ∨ ∃ data, node_at w d = Some (DagNode.blob data).

Lemma host_run_nop {A} (w0 : World) (f : A → mat_eff unit) l :
  (∀ x, x ∈ l → host_run w0 (f x) (mret tt)) → host_run w0 (for_each f l) (mret tt).
Proof.
  induction l as [|x l IH]; intros Hl; cbn [for_each]; [apply host_run_ret|].
  apply (host_run_read w0 _ tt); [apply Hl; by left|]. apply IH. intros. apply Hl. by right.
Qed.

Lemma host_run_try_get_missing (w0 : World) d :
  healthy w0 → node_file w0 d = None →
  ∃ e, host_run w0 (try_eff (on_mat_store (get d))) (mret (Err e)).
Proof.
  intros Hh Hn. eexists. intros w fs Hi Hd. unfold try_eff, on_mat_store. cbn [mw_store mw_host].
  destruct (get d w) as [r w'] eqn:Eg. apply get_spec in Eg as (Hi' & Hd' & Hr); [|done].
  exists w'. split_and!; [|done|by eapply same_disk_trans]. do 2 f_equal. destruct Hr as [->|[_ []]].
  - unfold get_result. by rewrite (same_disk_node _ _ _ Hd), Hn.
  - unfold healthy in *. destruct Hd as [-> _]. done.
Qed.

Lemma inert_child_run (w0 : World) d fuel rootfs base :
  healthy w0 → inert w0 d → host_run w0 (child_step (S fuel) rootfs base d) (mret tt).
Proof.
  intros Hh [Hn|[data Hn]]; unfold child_step.
  - destruct (host_run_try_get_missing w0 d Hh Hn) as [e He]. eapply host_run_read; [exact He|]. apply host_run_ret.
  - destruct (host_run_try_get w0 d _ Hh Hn) as [b Hb]. eapply host_run_read; [exact Hb|]. cbv beta iota.
    cbn [materialize_tree]. eapply host_run_read; [by apply host_run_archived|]. apply host_run_ret.
Qed.

Lemma scanned_child_run (w0 : World) e fuel rootfs base :
  healthy w0 → Forall (holds w0) (dir_nodes e) → Forall (inert w0) (file_digests e) → dir_depth e ≤ fuel →
  host_run w0 (child_step fuel rootfs base (dir_digest e)) (mret tt) ∧
  (dn_is_dir e = true → host_run w0 (materialize_tree fuel (dir_digest e) rootfs base) (mret tt)).
Proof.
  intros Hh. revert fuel. induction e as [name is_dir d mode size children IH] using DirEntry_nested_ind.
  intros fuel Hn Hi Hf. destruct fuel as [|fuel]; [simpl in Hf; lia|].
  cbn [dir_nodes file_digests dir_digest dn_is_dir dir_depth] in *. destruct is_dir.
  2:{ split; [|done]. inversion_clear Hi. by apply inert_child_run. }
  apply Forall_app in Hn as [Hn Hr]. inversion_clear Hr as [|?? Hr' _].
  assert (Hm : host_run w0 (materialize_tree (S fuel) (dig (dir_node dir_digest children)) rootfs base) (mret tt)).
  { cbn [materialize_tree]. eapply host_run_read; [by apply host_run_archived|].
    cbn [dir_node DagNode.is_layer DagNode.is_tree kind DagNode.tree inline_data edges negb].
    rewrite scanned_entries_refused. eapply host_run_read; [apply host_run_ret|].
    apply host_run_nop. intros x (c & -> & Hc)%list_elem_of_fmap.
    rewrite Forall_forall in IH. apply (IH c Hc).
    - rewrite Forall_forall in *. intros n Hnn. apply Hn. apply list_elem_of_In, in_concat.
      exists (dir_nodes c). rewrite <- !list_elem_of_In. split; [by apply list_elem_of_fmap_2|done].
    - rewrite Forall_forall in *. intros x Hx. apply Hi. apply list_elem_of_In, in_concat.
      exists (file_digests c). rewrite <- !list_elem_of_In. split; [by apply list_elem_of_fmap_2|done].
    - pose proof (dir_depth_child c children Hc). lia. }
  split; [|done]. unfold child_step. destruct (host_run_try_get w0 _ _ Hh Hr') as [b Hb].
  eapply host_run_read; [exact Hb|]. exact Hm.
Qed.

Lemma scanned_layer_run (w0 : World) e fuel rootfs :
  healthy w0 → dn_is_dir e = true → Forall (holds w0) (dir_nodes e ++ [image_layer e]) →
  Forall (inert w0) (file_digests e) → dir_depth e ≤ fuel →
  host_run w0 (materialize_layer fuel (dig (image_layer e)) rootfs) (mret tt).
Proof.
  intros Hh Hd [Hn Hl]%Forall_app Hi Hf. inversion_clear Hl as [|?? Hl' _].
  unfold materialize_layer. eapply host_run_read; [by apply host_run_archived|].
  change (DagNode.is_layer (image_layer e)) with true. cbn [image_layer DagNode.layer inline_data edges negb].
  destruct (scanned_child_run w0 e fuel rootfs (from_utf8_lossy (as_bytes "/")) Hh Hn Hi Hf) as [_ Hm].
  assert (He : ∃ n, node_at w0 (dir_digest e) = Some n ∧ (DagNode.is_whiteout n || DagNode.is_opaque_dir n) = false).
  { destruct e as [name is_dir d mode size children]. simpl in Hd. subst is_dir. cbn [dir_nodes dir_digest] in *.
    apply Forall_app in Hn as [_ Hr]. inversion_clear Hr. eexists. split; [done|]. done. }
  destruct He as (n & En & Ew).
  apply (host_run_read w0 _ ([dir_digest e], [])).
  { cbn [fold_eff]. eapply host_run_read; [|apply host_run_ret]. unfold classify_edge.
    eapply host_run_read; [by apply host_run_try_archived|]. cbv beta iota. rewrite Ew. apply host_run_ret. }
  cbv beta iota. eapply host_run_read; [apply host_run_ret|].
  apply host_run_nop. intros x ->%list_elem_of_singleton. by apply Hm.
Qed.

Lemma scanned_image_run (w0 : World) e architecture os fuel target :
  healthy w0 → dn_is_dir e = true → Forall (holds w0) (image_nodes e architecture os) →
  Forall (inert w0) (file_digests e) → dir_depth e ≤ fuel →
  host_run w0 (materialize_into fuel (dig (image_manifest e architecture os)) target) (create_dir_all target).
Proof.
  intros Hh Hd Hall Hi Hf wx fx Hix Hdx. unfold materialize_into.
  assert (Hr : host_run w0 (manifest_node ← archived_or CorruptManifest (dig (image_manifest e architecture os));
    for_each (λ layer, materialize_layer fuel layer target) (edges manifest_node)) (mret tt)).
  { unfold image_nodes in Hall.
    change [image_layer e; image_manifest e architecture os] with ([image_layer e] ++ [image_manifest e architecture os]) in Hall.
    rewrite app_assoc in Hall. apply Forall_app in Hall as [Hl Hm]. inversion_clear Hm as [|?? Hm1 _].
    eapply host_run_read; [apply host_run_archived; [done|exact Hm1]|]. cbn [image_manifest DagNode.manifest edges].
    apply host_run_nop. intros x ->%list_elem_of_singleton. by apply scanned_layer_run. }
  destruct (host_run_on_host w0 (create_dir_all target) wx fx Hix Hdx) as (w3 & E & Hi3 & Hd3).
  unfold mbind at 1, eff_bind at 1. rewrite E.
  destruct (create_dir_all target fx) as [[[]|err] fx']; simpl; [|by exists w3].
  by apply Hr.
Qed.

(** An image made of a directory, as builds and commits make it, unpacks to an
    empty directory: scanning stores every node and succeeds, and unpacking the
    manifest it returns does, on any host, exactly what creating the target
    directory does and no more.  The JSON texts of the scanned entries have no
    owner, group and time, which reading an entry requires, so every one of them
    is dropped. *)
Lemma scanned_image_empty N fuel dir architecture os w fs e w1 :
  storable N w → scannable N fs →
  scan_dir fuel dir (MkMat w fs) = (Ok e, w1) → dn_is_dir e = true →
  (∀ n, n ∈ image_nodes e architecture os → N n) →
  ∃ r w2, build_dag_from_directory_with_platform fuel dir architecture os (MkMat w fs) = (Ok r, MkMat w2 fs) ∧
    store_inv w2 ∧ grows w w2 ∧ Forall (holds w2) (image_nodes e architecture os) ∧
    dd_manifest_digest r = dig (image_manifest e architecture os) ∧
    (node_file w2 zero_digest = None → ∀ fuel' target, dir_depth e ≤ fuel' →
       host_run w2 (materialize_into fuel' (dd_manifest_digest r) target) (create_dir_all target)).
Proof.
  intros Hs Hn Es Hd HN. destruct (scan_dir_spec N fuel dir w fs e w1 Hs Hn Es) as (v1 & -> & G1 & S1 & F1).
  unfold image_nodes in *.
  destruct (build_tree_spec N e (0, 0)%Z v1 S1) as (counts & v2 & E2 & G2 & S2 & F2); [intros; apply HN; set_solver|].
  destruct (put_oci N (image_layer e) v2 S2) as (v3 & E3 & P3 & G3 & S3); [apply HN; set_solver|].
  destruct (put_oci N (image_manifest e architecture os) v3 S3) as (v4 & E4 & P4 & G4 & S4); [apply HN; set_solver|].
  unfold build_dag_from_directory_with_platform. erewrite bind_ok by exact Es.
  erewrite bind_ok by (unfold on_mat_store; cbn [mw_store mw_host]; rewrite E2; done). cbv beta iota.
  fold (image_layer e). erewrite bind_ok by (unfold on_mat_store; cbn [mw_store mw_host]; rewrite E3; done).
  fold (image_manifest e architecture os).
  erewrite bind_ok by (unfold on_mat_store; cbn [mw_store mw_host]; rewrite E4; done).
  assert (Hall : Forall (holds v4) (dir_nodes e ++ [image_layer e; image_manifest e architecture os])).
  { apply Forall_app. split; [eapply Forall_impl; [exact F2|]|repeat constructor]; eauto using grows_holds, grows_trans. }
  eexists _, v4. split_and!; [done|apply S4|eauto using grows_trans|done|done|].
  intros Hz fuel' target Hf. apply scanned_image_run; [apply S4|done..| |done].
  eapply Forall_impl; [exact F1|]. intros d [->|(data & -> & Hb)]; [by left|right; exists data].
  change (holds v4 (DagNode.blob data)). eauto using grows_holds, grows_trans.
Qed.

End spec.
