(* ===== verification/Push.v ===== *)
(** * Images out of the store: [runtime/pullrun-oci/src/{push,oci_layout}.rs]

    A stored image is turned back into layers, a configuration and a manifest, which are
    uploaded to a registry or written as an OCI image layout.  Writing archives,
    compression, serde's JSON and the HTTP exchange are parameters. *)

From stdpp Require Import base gmap strings list.
From Stdlib Require Import ZArith Ascii.
From S2P Require Import Prelude Strs Utf8 Crates Node Fs Store OciTypes HostFs Puller Convert Materialize.

(** ** Archives *)

(** What [tar::Builder] gets for a member; a field that is not set is zero. *)
Record Header := MkHeader {
  th_type : EntryType;
  th_mode : Z;
  th_mtime : Z;
  th_uid : Z;
  th_gid : Z;
  th_size : Z;
}.

Record TarEntry := MkTarEntry {
  te_path : string;
  te_header : Header;
  te_link : option string;
  te_data : bytes;
}.

(** Whether [append_data] or [append_link] takes the member; the archive of the members
    taken; the encoders, of which zstd's may not be available. *)
Class LayerBuilder := {
  tar_accepts : TarEntry → bool;
  tar_bytes : list TarEntry → bytes;
  gz_encode : bytes → bytes;
  zstd_encoder : option (bytes → bytes);
}.

(** [serde_json::to_vec]. *)
Class OciWriteJson := {
  manifest_to_vec : OciManifest → option bytes;
  config_to_vec : OciImageConfig → option bytes;
  index_to_vec : OciImageIndex → option bytes;
}.

Definition REF_NAME : string := "org.opencontainers.image.ref.name".

Section walk.
Context `{Hex, Sha2, Rkyv DagNode, EntryJson, LayerBuilder}.

Definition read_node (d : Digest) : oci_store_eff DagNode :=
  map_err_eff (λ e, OciError.Other (ReadNode d e)) (get_archived d).

Definition append_entry (acc : list TarEntry) (e : TarEntry) : oci_store_eff (list TarEntry) :=
  if tar_accepts e then mret (acc ++ [e]) else throw OciError.Io.

(** *** The walk of [push.rs] *)

(** A link is added twice, first without its target. *)
Definition push_entry (base_path : string) (acc : list TarEntry) (e : DirectoryEntry) : oci_store_eff (list TarEntry) :=
  let entry_path := sub_path base_path (de_name e) in
  if de_is_dir e then
    append_entry acc (MkTarEntry entry_path (MkHeader TDirectory (de_mode e) 0 0 0 0) None [])
  else if de_is_symlink e then
    match de_symlink_target e with
    | Some target =>
      let header := MkHeader TSymlink 511 0 0 0 0 in
      acc ← append_entry acc (MkTarEntry entry_path header None []);
      append_entry acc (MkTarEntry entry_path header (Some target) [])
    | None => mret acc
    end
  else
    blob ← map_err_eff (λ e', OciError.Other (ReadBlob (de_digest e) e')) (get (de_digest e));
    blob_node ← lift_result (ok_or (check_archived_root (A := DagNode) blob) (OciError.Other (CorruptBlob (de_digest e))));
    let file_data := inline_data blob_node in
    let mode := if decide (de_mode e = 0)%Z then 420%Z else de_mode e in
    append_entry acc (MkTarEntry entry_path (MkHeader TOther mode 0 0 0 (len file_data)) None file_data).

(** [fuel] is the depth of the nodes. *)
Fixpoint push_walk (fuel : nat) (d : Digest) (base_path : string) (acc : list TarEntry)
    : oci_store_eff (list TarEntry) :=
  match fuel with
  | O => throw OciError.OutOfFuel
  | S fuel =>
    node ← read_node d;
    if DagNode.is_layer node then
      fold_eff (λ acc child, push_walk fuel child (from_utf8_lossy (inline_data node)) acc) acc (edges node)
    else if negb (DagNode.is_tree node) then mret acc
    else
      acc ← fold_eff (push_entry base_path) acc (from_inline_bytes (inline_data node));
      fold_eff (λ acc child,
        w ← get_world;
        if exists_ w child then
          r ← try_eff (get_archived child);
          match r with
          | Ok child_node => if DagNode.is_tree child_node then push_walk fuel child base_path acc else mret acc
          | Err _ => mret acc
          end
        else mret acc) acc (edges node)
  end.

Definition sha256_text (b : bytes) : string := "sha256:" +:+ hex_encode (arr_bytes (sha256 b)).

Definition push_reconstruct_layer (fuel : nat) (layer_digest : Digest) (c : CompressionFormat)
    : oci_store_eff (bytes * string) :=
  buf ← match c with
        | Gzip => l ← push_walk fuel layer_digest EmptyString []; mret (gz_encode (tar_bytes l))
        | Zstd =>
          encode ← lift_result (ok_or zstd_encoder (OciError.Other ZstdError));
          l ← push_walk fuel layer_digest EmptyString [];
          mret (encode (tar_bytes l))
        end;
  mret (buf, sha256_text buf).

(** *** The walk of [oci_layout.rs] *)

(** The blob file, the data of the blob node, or nothing. *)
Definition layout_file_data (d : Digest) : oci_store_eff bytes :=
  w ← get_world;
  if blob_exists w d then map_err_eff (λ _, OciError.Io) (on_os (read_file (path_for_blob (root (store w)) d)))
  else
    r ← try_eff (get_archived d);
    mret match r with Ok blob_node => inline_data blob_node | Err _ => [] end.

Definition layout_entry (base_path : string) (acc : list TarEntry) (e : DirectoryEntry) : oci_store_eff (list TarEntry) :=
  let entry_path := sub_path base_path (de_name e) in
  if de_is_dir e then
    append_entry acc
      (MkTarEntry entry_path (MkHeader TDirectory (de_mode e) (wrap64 (de_mtime e)) (de_uid e) (de_gid e) 0) None [])
  else if de_is_symlink e then
    match de_symlink_target e with
    | Some target => append_entry acc (MkTarEntry entry_path (MkHeader TSymlink 511 0 0 0 0) (Some target) [])
    | None => mret acc
    end
  else
    data ← layout_file_data (de_digest e);
    append_entry acc
      (MkTarEntry entry_path (MkHeader TOther (de_mode e) (wrap64 (de_mtime e)) (de_uid e) (de_gid e) (de_size e)) None data).

Fixpoint layout_walk (fuel : nat) (d : Digest) (base_path : string) (acc : list TarEntry)
    : oci_store_eff (list TarEntry) :=
  match fuel with
  | O => throw OciError.OutOfFuel
  | S fuel =>
    node ← read_node d;
    if DagNode.is_layer node then
      fold_eff (λ acc child, layout_walk fuel child (from_utf8_lossy (inline_data node)) acc) acc (edges node)
    else if negb (DagNode.is_tree node) then mret acc
    else
      acc ← fold_eff (layout_entry base_path) acc (from_inline_bytes (inline_data node));
      fold_eff (λ acc child,
        r ← try_eff (get child);
        match r with
        | Ok _ => layout_walk fuel child base_path acc
        | Err _ => mret acc
        end) acc (edges node)
  end.

Definition layout_reconstruct_layer (fuel : nat) (layer_digest : Digest) : oci_store_eff bytes :=
  l ← layout_walk fuel layer_digest EmptyString [];
  mret (gz_encode (tar_bytes l)).

End walk.

(** ** Configurations *)

Definition empty_objects (l : list string) : gmap string Value := list_to_map ((λ p, (p, VObject [])) <$> l).

(** The image configuration that the kept data gives. *)
Definition oci_config (d : ManifestData) : OciImageConfig :=
  MkImageConfig None None (md_architecture d) (md_os d) None None (md_variant d)
    (Some (MkRuntimeConfig (md_user d) (empty_objects <$> md_exposed_ports d) (Some (md_env d)) (Some (md_entrypoint d))
             (Some (md_cmd d)) (empty_objects <$> md_volumes d) (md_working_dir d) None (md_stop_signal d) false))
    (MkRootFs "layers" []) None.

Definition plain_descriptor (media_type digest : string) (size : Z) : OciDescriptor :=
  MkDescriptor media_type digest size None None None None None.

Definition oci_manifest (config : OciDescriptor) (layers : list OciDescriptor) (d : ManifestData) : OciManifest :=
  MkManifest 2 media_types.IMAGE_MANIFEST None config layers (md_subject d) (md_annotations d).

(** ** Uploading *)

Inductive Method := GET | POST | PUT.

Record PushRequest := MkPushRequest {
  pq_method : Method;
  pq_url : string;
  pq_authorization : option string;
  pq_content_type : option string;
  pq_body : bytes;
}.

(** The [Location] header, when it is text; the body, when it can be read. *)
Record PushResponse := MkPushResponse {
  ps_status : Z;
  ps_location : option string;
  ps_body : option bytes;
}.

Class HttpUpload (H : Type) := upload_send : PushRequest → H → option PushResponse * H.

Record DagPusher := MkPusher {
  dp_auth : option OciAuth;
  dp_insecure_registries : gset string;
  dp_compression : CompressionFormat;
}.

Definition DagPusher_new (auth : option OciAuth) (insecure : gset string) : DagPusher := MkPusher auth insecure Gzip.

Definition with_compression (c : CompressionFormat) (p : DagPusher) : DagPusher :=
  MkPusher (dp_auth p) (dp_insecure_registries p) c.

Definition push_scheme (p : DagPusher) (registry : string) : string :=
  if decide (registry ∈ dp_insecure_registries p) then "http:" else "https:".

(** Registry, repository and tag. *)
Definition push_target (target_ref : string) : string * string * string :=
  let parts := split target_ref "/"%char in
  let first := default EmptyString (head parts) in
  let '(registry, rest) :=
    if bool_decide (1 < length parts) && is_registry first then (first, join "/" (tail parts))
    else ("registry-1.docker.io", target_ref) in
  let '(repository, tag) := splitn2 rest ":"%char in
  (registry, repository, default "latest" tag).

Record PushWorld (H : Type) := MkPushWorld { pw_store : World; pw_net : H }.
Arguments MkPushWorld {H}.
Arguments pw_store {H}.
Arguments pw_net {H}.

Section push.
Context {H : Type} `{HttpUpload H, OciJson, OciWriteJson, Base64, Hex, Sha2, Rkyv DagNode, EntryJson, LayerBuilder}.
Context (fuel : nat) (p : DagPusher).

Abbreviation push_eff := (eff (PushWorld H) OciError.t).

Definition push_store {A} (m : oci_store_eff A) : push_eff A := λ w,
  let '(r, s) := m (pw_store w) in (r, MkPushWorld s (pw_net w)).

Definition push_http (r : PushRequest) : push_eff PushResponse := λ w,
  let '(o, h) := upload_send r (pw_net w) in (ok_or o OciError.Http, MkPushWorld (pw_store w) h).

Definition is_success (r : PushResponse) : bool := bool_decide (200 ≤ ps_status r < 300)%Z.

Definition push_token (registry repository scope : string) : push_eff (option string) :=
  let url :=
    if is_docker_hub registry then
      "https://auth.docker.io/token?service=registry.docker.io&scope=repository:" +:+ repository +:+ ":" +:+ scope
    else push_scheme p registry +:+ "//" +:+ registry +:+ "/token?scope=repository:" +:+ repository +:+ ":" +:+ scope in
  let authorization :=
    a ← dp_auth p; user ← username a; pass ← password a;
    Some ("Basic " +:+ base64_encode (user +:+ ":" +:+ pass)) in
  resp ← push_http (MkPushRequest GET url authorization None []);
  if is_success resp then
    body ← lift_result (ok_or (ps_body resp) OciError.Http);
    '(token, access_token) ← lift_result (ok_or (parse_token body) OciError.Http);
    mret match token with Some t => Some t | None => access_token end
  else mret None.

Definition upload_blob (registry repository digest : string) (data : bytes) (token : option string) : push_eff unit :=
  let base := push_scheme p registry +:+ "//" +:+ registry +:+ "/v2/" +:+ repository +:+ "/blobs/" in
  check_resp ← push_http (MkPushRequest GET (base +:+ digest) (bearer token) None []);
  if is_success check_resp then mret tt
  else
    session_resp ← push_http (MkPushRequest POST (base +:+ "uploads/") (bearer token) None []);
    location ← lift_result (ok_or (ps_location session_resp) (OciError.Other NoLocation));
    let upload_url :=
      if starts_with location "http" then location
      else push_scheme p registry +:+ "//" +:+ registry +:+ location in
    let sep := if contains_char upload_url "?"%char then "&" else "?" in
    put_resp ← push_http (MkPushRequest PUT (upload_url +:+ sep +:+ "digest=" +:+ digest) (bearer token)
                            (Some "application/octet-stream") data);
    if is_success put_resp then mret tt
    else throw (OciError.Other (BlobUploadFailed digest (default [] (ps_body put_resp)))).

(** The layers in order: a descriptor for each, and the bytes. *)
Definition push_layer (registry repository : string) (token : option string) (acc : list OciDescriptor * Z)
    (layer_digest : Digest) : push_eff (list OciDescriptor * Z) :=
  '(layer_data, oci_digest) ← push_store (push_reconstruct_layer fuel layer_digest (dp_compression p));
  upload_blob registry repository oci_digest layer_data token ;;
  mret (acc.1 ++ [plain_descriptor (media_type (dp_compression p)) oci_digest (len layer_data)],
        acc.2 + len layer_data)%Z.

Definition push_oci_manifest (manifest_digest : Digest) (registry repository : string) (token : option string)
    : push_eff (OciManifest * Z) :=
  node ← push_store (read_node manifest_digest);
  if DagNode.is_manifest node then
    d ← lift_result (ok_or (manifest_data_from_slice (inline_data node)) OciError.Json);
    '(oci_layers, total) ← fold_eff (push_layer registry repository token) ([], 0%Z) (edges node);
    '(config, total) ←
      (if decide (edges node = []) then mret (empty_json_descriptor, total)
       else
         config_json ← lift_result (ok_or (config_to_vec (oci_config d)) OciError.Json);
         upload_blob registry repository (sha256_text config_json) config_json token ;;
         mret (plain_descriptor media_types.IMAGE_CONFIG (sha256_text config_json) (len config_json),
               total + len config_json)%Z);
    mret (oci_manifest config oci_layers d, total)
  else throw (OciError.InvalidManifest (NotAManifest manifest_digest)).

Definition put_manifest (registry repository reference media_type : string) (body : bytes) (token : option string)
    (failed : bytes → other_message) : push_eff unit :=
  let url := push_scheme p registry +:+ "//" +:+ registry +:+ "/v2/" +:+ repository +:+ "/manifests/" +:+ reference in
  resp ← push_http (MkPushRequest PUT url (bearer token) (Some media_type) body);
  if is_success resp then mret tt else throw (OciError.Other (failed (default [] (ps_body resp)))).

(** A child of a list: its descriptor, and the bytes. *)
Definition push_child (registry repository : string) (token : option string) (acc : list OciDescriptor * Z)
    (child : Digest) : push_eff (list OciDescriptor * Z) :=
  node ← push_store (read_node child);
  d ← lift_result (ok_or (manifest_data_from_slice (inline_data node)) OciError.Json);
  '(m, bytes) ← push_oci_manifest child registry repository token;
  manifest_json ← lift_result (ok_or (manifest_to_vec m) OciError.Json);
  let child_digest := sha256_text manifest_json in
  put_manifest registry repository child_digest media_types.IMAGE_MANIFEST manifest_json token
    (ManifestUploadFailed child_digest) ;;
  mret (acc.1 ++ [MkDescriptor media_types.IMAGE_MANIFEST child_digest (len manifest_json) None (md_annotations d) None
                    (Some (MkPlatform (md_architecture d) (md_os d) None None (md_variant d))) None],
        acc.2 + bytes + len manifest_json)%Z.

Definition push_manifest_list (list_digest : Digest) (target_ref : string) : push_eff (string * Z) :=
  let '(registry, repository, tag) := push_target target_ref in
  node ← push_store (read_node list_digest);
  if DagNode.is_manifest_list node then
    token ← push_token registry repository "push,pull";
    let list_index := if decide (inline_data node = []) then None else parse_index (inline_data node) in
    '(manifests, total) ← fold_eff (push_child registry repository token) ([], 0%Z) (edges node);
    let index := MkIndex 2 media_types.IMAGE_INDEX (list_index ≫= i_artifact_type) manifests
                   (list_index ≫= i_subject) (list_index ≫= i_annotations) in
    index_json ← lift_result (ok_or (index_to_vec index) OciError.Json);
    put_manifest registry repository tag media_types.IMAGE_INDEX index_json token (ManifestUploadFailed tag) ;;
    mret (sha256_text index_json, total)
  else throw (OciError.InvalidManifest NotAManifestList).

Definition push (root_digest target_ref : string) : push_eff (string * Z) :=
  let '(registry, repository, tag) := push_target target_ref in
  token ← push_token registry repository "push,pull";
  rd ← lift_result (map_err (λ e, OciError.Other (InvalidArchiveDigest e)) (from_hex root_digest));
  root_node ← push_store (read_node rd);
  if DagNode.is_manifest_list root_node then push_manifest_list rd target_ref
  else if negb (DagNode.is_manifest root_node) then throw (OciError.InvalidManifest (NotAManifest rd))
  else
    '(m, total) ← push_oci_manifest rd registry repository token;
    manifest_json ← lift_result (ok_or (manifest_to_vec m) OciError.Json);
    put_manifest registry repository tag media_types.IMAGE_MANIFEST manifest_json token (ManifestUploadFailed tag) ;;
    mret (sha256_text manifest_json, total).

End push.

(** ** Layouts *)

Section layout.
Context `{OciWriteJson, Hex, Sha2, Rkyv DagNode, EntryJson, LayerBuilder}.
Context (fuel : nat).

Definition hex_of (b : bytes) : string := hex_encode (arr_bytes (sha256 b)).

Definition write_layout (p : path) (b : bytes) : mat_eff unit := on_host (write_host p b).

Definition layer_descriptor (data : bytes) : OciDescriptor :=
  plain_descriptor media_types.LAYER_TAR_GZIP (sha256_text data) (len data).

Definition layout_layer (blobs_dir : path) (layer_digest : Digest) : mat_eff OciDescriptor :=
  layer_data ← on_mat_store (layout_reconstruct_layer fuel layer_digest);
  write_layout (blobs_dir ++ [hex_of layer_data]) layer_data ;;
  mret (layer_descriptor layer_data).

Definition config_descriptor (config_json : bytes) : OciDescriptor :=
  plain_descriptor media_types.IMAGE_CONFIG (sha256_text config_json) (len config_json).

Definition json_of (o : option bytes) : mat_eff bytes := lift_result (ok_or o OciError.Json).

(** An entry per tag, or one without. *)
Definition tag_descriptors (manifest_json : bytes) (tags : list string) : list OciDescriptor :=
  let entry a :=
    MkDescriptor media_types.IMAGE_MANIFEST (sha256_text manifest_json) (len manifest_json) None a None None None in
  match tags with
  | [] => [entry None]
  | _ => (λ tag, entry (Some {[ REF_NAME := tag ]})) <$> tags
  end.

Definition plain_index (manifests : list OciDescriptor) : OciImageIndex :=
  MkIndex 2 media_types.IMAGE_INDEX None manifests None None.

Definition layout_node (d : Digest) : mat_eff DagNode := on_mat_store (read_node d).

Definition layout_data (node : DagNode) : mat_eff ManifestData :=
  lift_result (ok_or (manifest_data_from_slice (inline_data node)) (OciError.InvalidManifest ManifestDataParse)).

Definition export_single_manifest (manifest_digest : Digest) (blobs_dir output_dir : path) (tags : list string)
    : mat_eff path :=
  node ← layout_node manifest_digest;
  d ← layout_data node;
  config_json ← json_of (config_to_vec (oci_config d));
  write_layout (blobs_dir ++ [hex_of config_json]) config_json ;;
  oci_layers ← map_eff (layout_layer blobs_dir) (edges node);
  manifest_json ← json_of (manifest_to_vec (oci_manifest (config_descriptor config_json) oci_layers d));
  write_layout (blobs_dir ++ [hex_of manifest_json]) manifest_json ;;
  index_json ← json_of (index_to_vec (plain_index (tag_descriptors manifest_json tags)));
  write_layout (output_dir ++ ["index.json"]) index_json ;;
  mret (output_dir ++ ["index.json"]).

(** The layers are made once more for the descriptor of a child. *)
Definition export_child (blobs_dir output_dir : path) (child : Digest) : mat_eff OciDescriptor :=
  export_single_manifest child blobs_dir output_dir [] ;;
  node ← layout_node child;
  d ← layout_data node;
  config_json ← json_of (config_to_vec (oci_config d));
  oci_layers ← map_eff (λ ld,
    layer_data ← on_mat_store (layout_reconstruct_layer fuel ld);
    mret (layer_descriptor layer_data)) (edges node);
  manifest_json ← json_of (manifest_to_vec (oci_manifest (config_descriptor config_json) oci_layers d));
  write_layout (blobs_dir ++ [hex_of manifest_json]) manifest_json ;;
  mret (plain_descriptor media_types.IMAGE_MANIFEST (sha256_text manifest_json) (len manifest_json)).

(** The tags are not used for a list. *)
Definition export_manifest_list (list_digest : Digest) (blobs_dir output_dir : path) (tags : list string)
    : mat_eff path :=
  node ← layout_node list_digest;
  child_descriptors ← map_eff (export_child blobs_dir output_dir) (edges node);
  index_json ← json_of (index_to_vec (plain_index child_descriptors));
  write_layout (output_dir ++ ["index.json"]) index_json ;;
  mret (output_dir ++ ["index.json"]).

Definition quote_byte : byte := Byte.x22.

Definition layout_version : bytes :=
  as_bytes "{" ++ [quote_byte] ++ as_bytes "imageLayoutVersion" ++ [quote_byte] ++ as_bytes ": " ++ [quote_byte]
  ++ as_bytes "1.0.0" ++ [quote_byte] ++ as_bytes "}" ++ [newline].

Definition export_to_oci_layout (root_digest : Digest) (output_dir : path) (tags : list string) : mat_eff path :=
  let blobs_dir := output_dir ++ ["blobs"; "sha256"] in
  on_host (create_dir_all blobs_dir) ;;
  write_layout (output_dir ++ ["oci-layout"]) layout_version ;;
  root_node ← layout_node root_digest;
  if DagNode.is_manifest_list root_node then export_manifest_list root_digest blobs_dir output_dir tags
  else if DagNode.is_manifest root_node then export_single_manifest root_digest blobs_dir output_dir tags
  else throw (OciError.Other (NotAnImage root_digest)).

End layout.
