(* ===== verification/PushSpec.v ===== *)
(** * What leaves the store: theorems about [Push.v]

    The archive of a layer in an OCI layout has all its members; the one that is pushed
    has those of the root directory only.  A push that succeeds refers to nothing that
    the registry has not confirmed. *)

From stdpp Require Import base gmap strings list relations.
From Stdlib Require Import ZArith Ascii Lia.
From S2P Require Import GcFacts RefcountFacts Prelude Strs Utf8 Crates Node Fs Worklist Store StoreFacts Tasks.
From S2P Require Import OciTypes HostFs Puller Convert Materialize ConvertSpec UnpackSpec LayerSpec Push.

(** ** Members of a layer *)

Definition push_members (data : DirectoryEntry → bytes) (base : string) (e : DirectoryEntry) : list TarEntry :=
  let p := sub_path base (de_name e) in
  if de_is_dir e then [MkTarEntry p (MkHeader TDirectory (de_mode e) 0 0 0 0) None []]
  else if de_is_symlink e then
    match de_symlink_target e with
    | Some target => [MkTarEntry p (MkHeader TSymlink 511 0 0 0 0) None [];
                      MkTarEntry p (MkHeader TSymlink 511 0 0 0 0) (Some target) []]
    | None => []
    end
  else [MkTarEntry p (MkHeader TOther (if decide (de_mode e = 0)%Z then 420 else de_mode e) 0 0 0 (len (data e))) None (data e)].

Definition layout_members (data : DirectoryEntry → bytes) (base : string) (e : DirectoryEntry) : list TarEntry :=
  let p := sub_path base (de_name e) in
  let header type size := MkHeader type (de_mode e) (wrap64 (de_mtime e)) (de_uid e) (de_gid e) size in
  if de_is_dir e then [MkTarEntry p (header TDirectory 0%Z) None []]
  else if de_is_symlink e then
    match de_symlink_target e with
    | Some target => [MkTarEntry p (MkHeader TSymlink 511 0 0 0 0) (Some target) []]
    | None => []
    end
  else [MkTarEntry p (header TOther (de_size e)) None (data e)].

(** The entries of a directory, then each of its sub-directories. *)
Definition dir_members (f : string → DirectoryEntry → list TarEntry) (t : ltree) (base : string) : list TarEntry :=
  concat (f base <$> entries_of t).

Fixpoint sub_members (f : string → DirectoryEntry → list TarEntry) (t : ltree) (base : string) : list TarEntry :=
  match t with
  | LNil => []
  | LFile _ r => sub_members f r base
  | LDir e s r =>
    let b := sub_path base (de_name e) in
    (dir_members f s b ++ sub_members f s b) ++ sub_members f r base
  end.

Definition tree_members (f : string → DirectoryEntry → list TarEntry) (t : ltree) (base : string) : list TarEntry :=
  dir_members f t base ++ sub_members f t base.

(** ** Reading the store *)

Section walks.
Context `{Hex, Sha2, Rkyv DagNode, EntryJson, LayerBuilder, !HexLaws, !RkyvLaws DagNode, !EntryJsonLaws}.
Context (w0 : World) (Hh : healthy w0).

(** [m] returns [x] in every store with the files of [w0] and changes the caches only. *)
Definition reads {E A} (m : eff World E A) (x : A) : Prop :=
  ∀ w, store_inv w → same_disk w0 w → ∃ w', m w = (Ok x, w') ∧ store_inv w' ∧ same_disk w0 w'.

Lemma store_reads_ret {E A} (x : A) : reads (E := E) (mret x) x.
Proof. intros w ??. by exists w. Qed.

Lemma store_reads_bind {E A B} (m : eff World E A) x (f : A → eff World E B) y :
  reads m x → reads (f x) y → reads (m ≫= f) y.
Proof.
  intros Hm Hf w Hi Hd. destruct (Hm w Hi Hd) as (w1 & E1 & Hi1 & Hd1).
  destruct (Hf w1 Hi1 Hd1) as (w2 & E2 & Hi2 & Hd2). exists w2. by erewrite bind_ok.
Qed.

(** A function that looks at the files. *)
Lemma reads_get {E B} (f : World → eff World E B) y :
  (∀ w, same_disk w0 w → reads (f w) y) → reads (get_world ≫= f) y.
Proof. intros Hf w Hi Hd. rewrite get_bind. by apply Hf. Qed.

Lemma reads_archived d n : node_at w0 d = Some n → reads (get_archived d) n.
Proof.
  intros Hn w Hi Hd. destruct (get_archived d w) as [r w'] eqn:E. exists w'.
  apply get_archived_spec in E as (Hi' & Hd' & Hr); [|done].
  split_and!; [|done|by eapply same_disk_trans]. f_equal. destruct Hr as [->|[_ []]].
  - apply archived_result_Ok. by rewrite (same_disk_node_at _ _ _ Hd).
  - by eapply same_disk_healthy.
Qed.

Lemma reads_map_err {E F A} (g : E → F) (m : eff World E A) x : reads m x → reads (map_err_eff g m) x.
Proof. intros Hm w Hi Hd. destruct (Hm w Hi Hd) as (w' & E1 & ?). exists w'. unfold map_err_eff. by rewrite E1. Qed.

Lemma reads_try {E F A} (m : eff World E A) x : reads m x → reads (E := F) (try_eff m) (Ok x).
Proof. intros Hm w Hi Hd. destruct (Hm w Hi Hd) as (w' & E1 & ?). exists w'. unfold try_eff. by rewrite E1. Qed.

Lemma reads_blob d n : node_at w0 d = Some n → ∃ b, reads (get d) b ∧ check_archived_root (A := DagNode) b = Some n.
Proof.
  unfold node_at. intros Hn. destruct (node_file w0 d) as [b|] eqn:Eb; [|done]. exists b. split; [|done].
  intros w Hi Hd. destruct (get d w) as [r w'] eqn:E. exists w'.
  apply get_spec in E as (Hi' & Hd' & Hr); [|done].
  split_and!; [|done|by eapply same_disk_trans]. f_equal. destruct Hr as [->|[_ []]].
  - unfold get_result. by rewrite (same_disk_node _ _ _ Hd), Eb.
  - by eapply same_disk_healthy.
Qed.

Lemma reads_fold {E A B} (f : list B → A → eff World E (list B)) (g : A → list B) l acc :
  (∀ x acc, x ∈ l → reads (f acc x) (acc ++ g x)) → reads (fold_eff f acc l) (acc ++ concat (g <$> l)).
Proof.
  revert acc. induction l as [|x l IH]; intros acc Hf; simpl; [rewrite app_nil_r; apply store_reads_ret|].
  eapply store_reads_bind; [apply Hf; by left|]. rewrite app_assoc. apply IH. intros. apply Hf. by right.
Qed.

Lemma reads_append acc e : tar_accepts e = true → reads (append_entry acc e) (acc ++ [e]).
Proof. intros Ha. unfold append_entry. rewrite Ha. apply store_reads_ret. Qed.

(** ** Entries *)

Context (data : DirectoryEntry → bytes).

Abbreviation accepted := (Forall (λ x, tar_accepts x = true)).

Lemma push_entry_reads base acc e :
  good_entry w0 data e → accepted (push_members data base e) →
  reads (push_entry base acc e) (acc ++ push_members data base e).
Proof.
  intros [_ [Hn _]]. unfold push_entry, push_members. destruct (de_is_dir e).
  { intros Ha. inversion_clear Ha. by apply reads_append. }
  destruct (de_is_symlink e).
  - destruct (de_symlink_target e); [|rewrite app_nil_r; intros; apply store_reads_ret].
    intros Ha. inversion_clear Ha as [|?? Ha1 Hb]. inversion_clear Hb.
    eapply store_reads_bind; [by apply reads_append|].
    match goal with |- reads _ (acc ++ [?x; ?y]) => change [x; y] with ([x] ++ [y]) end.
    rewrite app_assoc. by apply reads_append.
  - intros Ha. inversion_clear Ha. destruct (reads_blob _ _ Hn) as (b & Hb & Ec).
    eapply store_reads_bind; [by apply reads_map_err|]. unfold lift_result. rewrite Ec.
    eapply store_reads_bind; [apply store_reads_ret|]. by apply reads_append.
Qed.

Lemma file_data_reads d b : file_at w0 d b → reads (layout_file_data d) b.
Proof.
  intros [Hn Hb]. unfold layout_file_data. apply reads_get. intros w Hd. rewrite blob_exists_spec.
  rewrite (same_disk_blob_file _ _ _ Hd). destruct Hb as [Hb|Hb]; rewrite Hb.
  - rewrite bool_decide_false by (by intros []). eapply store_reads_bind; [by apply reads_try, reads_archived|]. apply store_reads_ret.
  - rewrite bool_decide_true by (by eexists). intros w' Hi Hd'. exists w'. split; [|done].
    unfold map_err_eff. rewrite on_os_read. unfold read_file.
    assert (files (os w') !! path_for_blob (root (store w)) d = Some b) as ->.
    { rewrite <- Hb, <- (same_disk_blob_file _ _ _ Hd'). unfold blob_file. by destruct Hd as [_ ->], Hd' as [_ ->]. }
    rewrite not_faulty by (destruct Hd' as [-> _]; done). done.
Qed.

Lemma layout_entry_reads base acc e :
  good_entry w0 data e → accepted (layout_members data base e) →
  reads (layout_entry base acc e) (acc ++ layout_members data base e).
Proof.
  intros [_ Hf]. unfold layout_entry, layout_members. destruct (de_is_dir e).
  { intros Ha. inversion_clear Ha. by apply reads_append. }
  destruct (de_is_symlink e).
  - destruct (de_symlink_target e); [|rewrite app_nil_r; intros; apply store_reads_ret].
    intros Ha. inversion_clear Ha. by apply reads_append.
  - intros Ha. inversion_clear Ha. eapply store_reads_bind; [by apply file_data_reads|by apply reads_append].
Qed.

(** ** Trees *)

Definition layout_child (fuel : nat) (base : string) (acc : list TarEntry) (child : Digest) : oci_store_eff (list TarEntry) :=
  r ← try_eff (get child);
  match r with
  | Ok _ => layout_walk fuel child base acc
  | Err _ => mret acc
  end.

Lemma layout_tree_reads fuel t base acc more :
  holds w0 (tree_node t base) → Forall (good_entry w0 data) (entries_of t) → accepted (dir_members (layout_members data) t base) →
  (∀ acc, reads (fold_eff (layout_child fuel base) acc (child_digests t base)) (acc ++ more)) →
  reads (layout_walk (S fuel) (dig (tree_node t base)) base acc) (acc ++ dir_members (layout_members data) t base ++ more).
Proof.
  intros Hn He Ha Hc. cbn [layout_walk]. eapply store_reads_bind; [by apply reads_map_err, reads_archived|].
  cbn [DagNode.is_layer DagNode.is_tree kind tree_node DagNode.tree inline_data edges]. rewrite from_layer_inline.
  eapply store_reads_bind; [|rewrite app_assoc; apply Hc]. apply reads_fold. intros e acc' Hel. apply layout_entry_reads.
  - by eapply Forall_forall in He.
  - unfold dir_members in Ha. rewrite Forall_concat, Forall_fmap, Forall_forall in Ha. by apply Ha.
Qed.

Lemma layout_children_reads t base fuel acc :
  utf8 base → Forall (holds w0) (sub_nodes t base) → tree_all (good_entry w0 data) t →
  accepted (sub_members (layout_members data) t base) → 2 * ldepth t + 1 ≤ fuel →
  reads (fold_eff (layout_child fuel base) acc (child_digests t base)) (acc ++ sub_members (layout_members data) t base).
Proof.
  revert base fuel acc. induction t as [|e r IH|e s IHs r IHr]; intros base fuel acc Hu Hn Ht Ha Hf.
  - rewrite app_nil_r. apply store_reads_ret.
  - cbn [child_digests fold_eff]. destruct Ht as ([_ [Hb _]] & _ & Ht). cbn [ldepth sub_nodes sub_members] in *.
    eapply store_reads_bind; [|by apply IH]. destruct (reads_blob _ _ Hb) as (b & Hg & _).
    eapply store_reads_bind; [by apply reads_try|]. cbv beta iota. destruct fuel as [|fuel]; [lia|]. cbn [layout_walk].
    eapply store_reads_bind; [by apply reads_map_err, reads_archived|]. apply store_reads_ret.
  - cbn [child_digests fold_eff]. destruct Ht as ([Hue _] & _ & Hts & Htr). cbn [sub_members] in *.
    rewrite sub_nodes_dir in Hn. apply Forall_app in Hn as [Hns Hnr]. cbn [ldepth] in Hf.
    fold (tree_node s (sub_path base (de_name e))). set (b := sub_path base (de_name e)) in *.
    unfold tree_nodes in Hns. rewrite !Forall_app, !Forall_cons in Hns. destruct Hns as (Hns & Ht & Hl & _).
    rewrite !Forall_app in Ha. destruct Ha as ((Ha1 & Ha2) & Ha3).
    eapply store_reads_bind; [|rewrite app_assoc; apply IHr; [done..|lia]].
    destruct (reads_blob _ _ Hl) as (x & Hg & _). eapply store_reads_bind; [by apply reads_try|]. cbv beta iota.
    destruct fuel as [|fuel]; [lia|]. cbn [layout_walk].
    eapply store_reads_bind; [by apply reads_map_err, reads_archived|].
    change (DagNode.is_layer (layer_node b (dig (tree_node s b)))) with true. cbv iota.
    cbn [layer_node DagNode.layer inline_data edges fold_eff].
    assert (utf8 b) by (by apply utf8_sub_path). rewrite from_utf8_lossy_as_bytes by done.
    eapply store_reads_bind; [|apply store_reads_ret]. destruct fuel as [|fuel]; [lia|].
    apply layout_tree_reads; [done|by apply tree_all_entries|done|]. intros. apply IHs; [done..|lia].
Qed.

(** Nodes of files and of whiteouts are passed over. *)
Lemma layout_whiteouts_reads ws fuel base acc :
  Forall (holds w0) (whiteout_node <$> ws) →
  reads (fold_eff (λ acc child, layout_walk (S fuel) child base acc) acc (dig <$> (whiteout_node <$> ws))) acc.
Proof.
  revert acc. induction ws as [|e ws IH]; intros acc Hn; [apply store_reads_ret|]. cbn [fmap list_fmap fold_eff].
  inversion_clear Hn as [|?? He Hws]. eapply store_reads_bind; [|by apply IH]. cbn [layout_walk].
  eapply store_reads_bind; [by apply reads_map_err, reads_archived|]. destruct e; apply store_reads_ret.
Qed.

(** No child of a tree node is a tree node: a directory is a layer node. *)
Lemma push_children_reads t base base' fuel acc :
  Forall (holds w0) (sub_nodes t base) → tree_all (good_entry w0 data) t →
  reads (fold_eff (λ acc child,
    w ← get_world;
    if exists_ w child then
      r ← try_eff (get_archived child);
      match r with
      | Ok child_node => if DagNode.is_tree child_node then push_walk fuel child base' acc else mret acc
      | Err _ => mret acc
      end
    else mret acc) acc (child_digests t base)) acc.
Proof.
  revert acc. induction t as [|e r IH|e s _ r IHr]; intros acc Hn Ht; cbn [child_digests fold_eff].
  - apply store_reads_ret.
  - destruct Ht as ([_ [Hb _]] & _ & Ht). eapply store_reads_bind; [|by apply IH].
    apply reads_get. intros w _. destruct (exists_ w _); [|apply store_reads_ret].
    eapply store_reads_bind; [by apply reads_try, reads_archived|]. apply store_reads_ret.
  - destruct Ht as (_ & _ & _ & Htr). rewrite sub_nodes_dir in Hn. apply Forall_app in Hn as [Hns Hnr].
    unfold tree_nodes in Hns. rewrite !Forall_app, !Forall_cons in Hns. destruct Hns as (_ & _ & Hl & _).
    eapply store_reads_bind; [|by apply IHr]. apply reads_get. intros w _. destruct (exists_ w _); [|apply store_reads_ret].
    eapply store_reads_bind; [by apply reads_try, reads_archived|]. apply store_reads_ret.
Qed.

Lemma push_whiteouts_reads ws fuel base acc :
  Forall (holds w0) (whiteout_node <$> ws) →
  reads (fold_eff (λ acc child, push_walk (S fuel) child base acc) acc (dig <$> (whiteout_node <$> ws))) acc.
Proof.
  revert acc. induction ws as [|e ws IH]; intros acc Hn; [apply store_reads_ret|]. cbn [fmap list_fmap fold_eff].
  inversion_clear Hn as [|?? He Hws]. eapply store_reads_bind; [|by apply IH]. cbn [push_walk].
  eapply store_reads_bind; [by apply reads_map_err, reads_archived|]. destruct e; apply store_reads_ret.
Qed.

Context (t : ltree) (ws : list WhiteoutEntry) (Hl : layer_stored t ws w0) (Hg : tree_all (good_entry w0 data) t).

Lemma layout_layer_reads fuel :
  accepted (tree_members (layout_members data) t EmptyString) → 2 * ldepth t + 3 ≤ fuel →
  reads (layout_walk fuel (dig (layer_root t ws)) EmptyString []) (tree_members (layout_members data) t EmptyString).
Proof.
  destruct Hl as [_ _ Hr Hn Hw]. unfold tree_members. intros [Ha1 Ha2]%Forall_app Hf. destruct fuel as [|[|fuel]]; [lia..|].
  cbn [layout_walk]. eapply store_reads_bind; [by apply reads_map_err, reads_archived|].
  change (DagNode.is_layer (layer_root t ws)) with true. cbn [layer_root DagNode.layer inline_data edges fold_eff].
  change (from_utf8_lossy []) with EmptyString. eapply store_reads_bind; [|by apply layout_whiteouts_reads].
  unfold tree_nodes in Hn. rewrite !Forall_app, !Forall_cons in Hn. destruct Hn as (Hns & Ht & _).
  apply (layout_tree_reads fuel t EmptyString []); [done|by apply tree_all_entries|done|].
  intros. apply layout_children_reads; [done..|lia].
Qed.

Lemma push_layer_reads fuel :
  accepted (dir_members (push_members data) t EmptyString) → 2 ≤ fuel →
  reads (push_walk fuel (dig (layer_root t ws)) EmptyString []) (dir_members (push_members data) t EmptyString).
Proof.
  destruct Hl as [_ _ Hr Hn Hw]. intros Ha Hf. destruct fuel as [|[|fuel]]; [lia..|].
  cbn [push_walk]. eapply store_reads_bind; [by apply reads_map_err, reads_archived|].
  change (DagNode.is_layer (layer_root t ws)) with true. cbn [layer_root DagNode.layer inline_data edges fold_eff].
  change (from_utf8_lossy []) with EmptyString. eapply store_reads_bind; [|by apply push_whiteouts_reads].
  unfold tree_nodes in Hn. rewrite !Forall_app, !Forall_cons in Hn. destruct Hn as (Hns & Ht & _).
  cbn [push_walk]. eapply store_reads_bind; [by apply reads_map_err, reads_archived|].
  cbn [DagNode.is_layer DagNode.is_tree kind tree_node DagNode.tree inline_data edges]. rewrite from_layer_inline.
  eapply store_reads_bind; [|by apply push_children_reads]. apply (reads_fold _ _ _ []). intros e acc' Hel.
  apply push_entry_reads.
  - apply tree_all_entries in Hg. by eapply Forall_forall in Hg.
  - unfold dir_members in Ha. rewrite Forall_concat, Forall_fmap, Forall_forall in Ha. by apply Ha.
Qed.

End walks.


(** ** Uploads *)

(** A client that keeps what was sent and what came back. *)
Abbreviation exchange := (PushRequest * option PushResponse)%type.

#[local] Instance logged {H} `{HttpUpload H} : HttpUpload (list exchange * H) := λ r lh,
  let '(o, h) := upload_send r lh.2 in (o, (lh.1 ++ [(r, o)], h)).

Definition succeeded (x : exchange) : Prop := ∃ resp, x.2 = Some resp ∧ is_success resp = true.

(** The registry says that it has the blob, or takes it, the blob being what the digest
    says. *)
Definition confirms `{Hex, Sha2} (d : string) (x : exchange) : Prop :=
  succeeded x ∧
  ((pq_method x.1 = GET ∧ ∃ u, pq_url x.1 = u +:+ "/blobs/" +:+ d) ∨
   (pq_method x.1 = PUT ∧ (∃ u, pq_url x.1 = u +:+ "digest=" +:+ d) ∧ sha256_text (pq_body x.1) = d)).

(** The registry takes a manifest under a reference. *)
Definition takes (reference : string) (body : bytes) (x : exchange) : Prop :=
  succeeded x ∧ pq_method x.1 = PUT ∧ (∃ u, pq_url x.1 = u +:+ "/manifests/" +:+ reference) ∧ pq_body x.1 = body.

Section uploads.
Context {H : Type} {Hup : HttpUpload H} `{OciJson, OciWriteJson, Base64, Hex, Sha2, Rkyv DagNode, EntryJson, LayerBuilder}.
Context (fuel : nat) (p : DagPusher).

Abbreviation world := (PushWorld (list exchange * H)).

Definition log (w : world) : list exchange := (pw_net w).1.

Definition confirmed (l : list exchange) (d : string) : Prop := ∃ x, x ∈ l ∧ confirms d x.

(** All that a manifest refers to is confirmed; a manifest without layers refers to the
    empty object. *)
Definition published (l : list exchange) (m : OciManifest) : Prop :=
  Forall (λ d, confirmed l (digest d)) (layers m) ∧
  (confirmed l (digest (m_config m)) ∨ layers m = [] ∧ m_config m = empty_json_descriptor).

Lemma confirmed_mono l l' d : l `prefix_of` l' → confirmed l d → confirmed l' d.
Proof. intros [k ->] (x & Hx & Hc). exists x. split; [|done]. apply elem_of_app. by left. Qed.

Lemma published_mono l l' m : l `prefix_of` l' → published l m → published l' m.
Proof.
  intros Hp [Hl Hc]. split; [|destruct Hc; eauto using confirmed_mono].
  eapply Forall_impl; [exact Hl|]. eauto using confirmed_mono.
Qed.

(** ** What is sent stays sent *)

Definition after (l : list exchange) (w : world) : Prop := l `prefix_of` log w.

Lemma keeps_push_store {A} l (m : oci_store_eff A) : keeps (after l) (push_store m).
Proof. intros w Hw. unfold push_store. by destruct (m (pw_store w)). Qed.

Lemma push_http_spec r (w : world) :
  ∃ o, (push_http r w).1 = ok_or o OciError.Http ∧ log (push_http r w).2 = log w ++ [(r, o)].
Proof.
  unfold push_http, upload_send, logged, log. destruct (pw_net w) as [l h]. simpl. unfold upload_send.
  destruct (Hup r h) as [o h']. by exists o.
Qed.

Lemma keeps_push_http l r : keeps (after l) (push_http r).
Proof.
  intros w Hw. destruct (push_http_spec r w) as (o & _ & E). unfold after. rewrite E. by apply prefix_app_r.
Qed.

#[local] Hint Resolve keeps_push_store keeps_push_http : keeps.

Lemma keeps_token l registry repository scope : keeps (after l) (push_token p registry repository scope).
Proof. unfold push_token. keeps_solve. Qed.

Lemma keeps_upload l registry repository d b token : keeps (after l) (upload_blob p registry repository d b token).
Proof. unfold upload_blob. keeps_solve. Qed.

Lemma keeps_put_manifest l registry repository reference mt body token failed :
  keeps (after l) (put_manifest p registry repository reference mt body token failed).
Proof. unfold put_manifest. keeps_solve. Qed.

#[local] Hint Resolve keeps_token keeps_upload keeps_put_manifest : keeps.

Lemma keeps_push_layer l registry repository token acc d : keeps (after l) (push_layer fuel p registry repository token acc d).
Proof. unfold push_layer. keeps_solve. Qed.

#[local] Hint Resolve keeps_push_layer : keeps.

Lemma keeps_push_oci_manifest l d registry repository token : keeps (after l) (push_oci_manifest fuel p d registry repository token).
Proof. unfold push_oci_manifest. keeps_solve. Qed.

Lemma push_http_ok r (w : world) resp w' :
  push_http r w = (Ok resp, w') → log w' = log w ++ [(r, Some resp)].
Proof.
  intros E. destruct (push_http_spec r w) as (o & E1 & E2). rewrite E in E1, E2. simpl in *.
  rewrite E2. destruct o; by simplify_eq/=.
Qed.

Lemma keeps_after {E A} (m : eff world E A) w r w' :
  (∀ l, keeps (after l) m) → m w = (r, w') → log w `prefix_of` log w'.
Proof. intros Hk Em. specialize (Hk (log w) w). rewrite Em in Hk. apply Hk. unfold after. reflexivity. Qed.

(** ** Specifications *)

Lemma upload_blob_ok registry repository b token (w w' : world) :
  upload_blob p registry repository (sha256_text b) b token w = (Ok tt, w') →
  confirmed (log w') (sha256_text b).
Proof.
  unfold upload_blob. intros (check & w1 & E1%push_http_ok & E)%bind_inv_ok.
  destruct (is_success check) eqn:Ec.
  { injection E as <-. rewrite E1. eexists. split; [apply elem_of_app; right; by left|]. split; [by exists check|left].
    split; [done|]. exists (push_scheme p registry +:+ "//" +:+ registry +:+ "/v2/" +:+ repository). simpl. by rewrite !str_app_assoc. }
  apply bind_inv_ok in E as (session & w2 & _ & E). apply bind_inv_ok in E as (location & w3 & _ & E).
  cbv zeta in E. apply bind_inv_ok in E as (put & w4 & E4%push_http_ok & E).
  destruct (is_success put) eqn:Ep; [|done]. injection E as <-. rewrite E4.
  eexists. split; [apply elem_of_app; right; by left|]. split; [by exists put|right].
  split_and!; [done| |done]. eexists. simpl. by rewrite <- str_app_assoc.
Qed.

Lemma put_manifest_ok registry repository reference mt body token failed (w w' : world) :
  put_manifest p registry repository reference mt body token failed w = (Ok tt, w') →
  ∃ x, log w' = log w ++ [x] ∧ takes reference body x.
Proof.
  unfold put_manifest. intros (resp & w1 & E1%push_http_ok & E)%bind_inv_ok.
  destruct (is_success resp) eqn:Er; [|done]. injection E as <-. eexists. split; [exact E1|].
  split; [by exists resp|]. split_and!; [done| |done]. exists (push_scheme p registry +:+ "//" +:+ registry +:+ "/v2/" +:+ repository). simpl.
  by rewrite !str_app_assoc.
Qed.

Lemma push_layers_ok registry repository token l acc (w w' : world) r :
  fold_eff (push_layer fuel p registry repository token) acc l w = (Ok r, w') →
  Forall (λ d, confirmed (log w) (digest d)) acc.1 →
  Forall (λ d, confirmed (log w') (digest d)) r.1 ∧ length r.1 = length acc.1 + length l.
Proof.
  revert acc w. induction l as [|d l IH]; intros acc w; cbn [fold_eff].
  { intros [= <- <-] Ha. split; [done|simpl; lia]. }
  intros (acc1 & w1 & E1 & E)%bind_inv_ok Ha.
  pose proof (keeps_after _ _ _ _ (λ l, keeps_push_layer l registry repository token acc d) E1) as Hp.
  unfold push_layer in E1. apply bind_inv_ok in E1 as ([b dg] & w2 & E2 & E1).
  apply bind_inv_ok in E1 as ([] & w3 & E3 & [= <- <-]).
  assert (dg = sha256_text b) as ->.
  { unfold push_store in E2. destruct (push_reconstruct_layer _ _ _ _) as [r2 s2] eqn:E4. injection E2 as -> _.
    unfold push_reconstruct_layer in E4. by apply bind_inv_ok in E4 as (buf & ? & _ & [= <- <- _]). }
  apply upload_blob_ok in E3. apply IH in E as [Hr Hn].
  - split; [done|]. rewrite Hn. simpl. rewrite length_app. simpl. lia.
  - simpl. apply Forall_app. split; [|by apply Forall_singleton].
    eapply Forall_impl; [exact Ha|]. intros. by eapply confirmed_mono.
Qed.

Lemma push_oci_manifest_ok d registry repository token (w w' : world) m n :
  push_oci_manifest fuel p d registry repository token w = (Ok (m, n), w') → published (log w') m.
Proof.
  unfold push_oci_manifest. intros (node & w1 & _ & E)%bind_inv_ok. destruct (DagNode.is_manifest node); [|done].
  apply bind_inv_ok in E as (md & w2 & _ & E). apply bind_inv_ok in E as ([ls total] & w3 & E3 & E).
  apply push_layers_ok in E3 as [Hls Hlen]; [|done]. simpl in Hls, Hlen. cbv beta iota in E.
  apply bind_inv_ok in E as ([config total'] & w4 & E4 & E). injection E as <- _ <-. unfold published. simpl.
  case_decide as He.
  - injection E4 as <- _ <-. split; [done|right]. split; [|done]. rewrite He in Hlen. by apply nil_length_inv.
  - apply bind_inv_ok in E4 as (cj & w5 & E5 & E4). unfold lift_result in E5. injection E5 as _ <-.
    apply bind_inv_ok in E4 as ([] & w6 & E6 & [= <- _ <-]).
    pose proof (keeps_after _ _ _ _ (λ l, keeps_upload l _ _ _ _ _) E6) as Hp. apply upload_blob_ok in E6.
    split; [|by left]. eapply Forall_impl; [exact Hls|]. intros. by eapply confirmed_mono.
Qed.

(** A child of a list that was pushed: its manifest was taken, after everything it
    refers to. *)
Definition child_published (l : list exchange) (d : OciDescriptor) : Prop :=
  ∃ m body x, manifest_to_vec m = Some body ∧ digest d = sha256_text body ∧ x ∈ l ∧ takes (digest d) body x ∧ published l m.

Lemma child_published_mono l l' d : l `prefix_of` l' → child_published l d → child_published l' d.
Proof.
  intros [k ->] (m & body & x & Hm & Hd & Hx & Ht & Hp). exists m, body, x. split_and!; [done..| |done|].
  - apply elem_of_app. by left.
  - eapply published_mono; [|done]. by exists k.
Qed.

Lemma push_child_ok registry repository token acc child (w w' : world) acc' :
  push_child fuel p registry repository token acc child w = (Ok acc', w') →
  ∃ d, acc'.1 = acc.1 ++ [d] ∧ child_published (log w') d ∧ log w `prefix_of` log w'.
Proof.
  intros E. assert (Hk : log w `prefix_of` log w').
  { eapply keeps_after; [|exact E]. intros l. unfold push_child. pose proof keeps_push_oci_manifest. keeps_solve. }
  unfold push_child in E. apply bind_inv_ok in E as (node & w1 & _ & E). apply bind_inv_ok in E as (md & w2 & _ & E).
  apply bind_inv_ok in E as ([m n] & w3 & E3%push_oci_manifest_ok & E). cbv beta iota in E.
  apply bind_inv_ok in E as (body & w4 & E4 & E). cbv zeta in E.
  unfold lift_result in E4. destruct (manifest_to_vec m) as [body'|] eqn:Em; [|done]. injection E4 as <- <-.
  apply bind_inv_ok in E as ([] & w5 & (x & El & Ht)%put_manifest_ok & [= <- <-]).
  eexists. split; [done|]. split; [|done]. exists m, body', x. rewrite El. split_and!; [done..| |done|].
  - apply elem_of_app. right. by left.
  - eapply published_mono; [|done]. by exists [x].
Qed.

Lemma push_children_ok registry repository token l acc (w w' : world) r :
  fold_eff (push_child fuel p registry repository token) acc l w = (Ok r, w') →
  Forall (child_published (log w)) acc.1 → Forall (child_published (log w')) r.1.
Proof.
  revert acc w. induction l as [|d l IH]; intros acc w; cbn [fold_eff]; [by intros [= <- <-]|].
  intros (acc1 & w1 & (c & Ea & Hc & Hp)%push_child_ok & E)%bind_inv_ok Ha. apply (IH _ _ E). rewrite Ea.
  apply Forall_app. split; [|by apply Forall_singleton].
  eapply Forall_impl; [exact Ha|]. intros. by eapply child_published_mono.
Qed.

(** What the last request of a push publishes. *)
Definition pushed (l : list exchange) (body : bytes) : Prop :=
  (∃ m, manifest_to_vec m = Some body ∧ published l m) ∨
  (∃ i, index_to_vec i = Some body ∧ Forall (child_published l) (i_manifests i)).

Lemma push_list_ok d target (w w' : world) digest n :
  push_manifest_list fuel p d target w = (Ok (digest, n), w') →
  ∃ l x body, log w' = l ++ [x] ∧ takes (push_target target).2 body x ∧ digest = sha256_text body ∧ pushed l body.
Proof.
  unfold push_manifest_list. destruct (push_target target) as [[registry repository] tag].
  intros (node & w1 & _ & E)%bind_inv_ok. destruct (DagNode.is_manifest_list node); [|done].
  apply bind_inv_ok in E as (token & w2 & _ & E). cbv zeta in E.
  apply bind_inv_ok in E as ([ms total] & w3 & E3%push_children_ok & E); [|done]. cbv beta iota in E.
  apply bind_inv_ok in E as (body & w4 & E4 & E). unfold lift_result in E4.
  destruct (index_to_vec _) as [body'|] eqn:Ei; [|done]. injection E4 as <- <-.
  apply bind_inv_ok in E as ([] & w5 & (x & El & Ht)%put_manifest_ok & [= <- _ <-]).
  exists (log w3), x, body'. split_and!; [done..|]. right. by eexists.
Qed.


End uploads.
