(* ===== verification/Kernel.v ===== *)
(** * Kernels and emulators: [runtime/pullrun-vm/src/oci_kernel.rs],
    [runtime/pullrun-runtime/src/binfmt.rs]

    A kernel for a virtual machine is an OCI image with [/boot/vmlinux].  It is pulled,
    converted and unpacked like every other image, into a temporary directory.  For an
    image of another architecture an emulator is registered with the kernel's
    [binfmt_misc], whose files are files of the host here. *)

From stdpp Require Import base gmap strings list.
From Stdlib Require Import ZArith.
From S2P Require Import Prelude Strs Crates Node Fs Store OciTypes HostFs Puller Convert Materialize Exec Container.

Inductive BinfmtError :=
| BinfmtNotAvailable.

Definition binfmt_misc : path := ["proc"; "sys"; "fs"; "binfmt_misc"].

(** The handler and the emulator of an architecture. *)
Definition binfmt_handler (target_arch : string) : option (string * string) :=
  if decide (target_arch ∈ ["arm64"; "aarch64"]) then Some ("qemu-aarch64", "/usr/bin/qemu-aarch64-static")
  else if decide (target_arch ∈ ["arm"; "armv7"; "armv7l"]) then Some ("qemu-arm", "/usr/bin/qemu-arm-static")
  else if decide (target_arch ∈ ["amd64"; "x86_64"]) then Some ("qemu-x86_64", "/usr/bin/qemu-x86_64-static")
  else if decide (target_arch ∈ ["ppc64le"; "powerpc64"]) then Some ("qemu-ppc64le", "/usr/bin/qemu-ppc64le-static")
  else if decide (target_arch = "s390x") then Some ("qemu-s390x", "/usr/bin/qemu-s390x-static")
  else if decide (target_arch = "riscv64") then Some ("qemu-riscv64", "/usr/bin/qemu-riscv64-static")
  else None.

(** The start of an executable of the architecture, as [binfmt_misc] wants it. *)
Definition binfmt_magic (target_arch : string) : option string :=
  if decide (target_arch ∈ ["arm64"; "aarch64"]) then
    Some "\x7fELF\x02\x01\x01\x00\x00\x00\x00\x00\x00\x00\x00\x00\x02\x00\xb7\x00"
  else if decide (target_arch ∈ ["arm"; "armv7"; "armv7l"]) then
    Some "\x7fELF\x01\x01\x01\x00\x00\x00\x00\x00\x00\x00\x00\x00\x02\x00\x28\x00"
  else if decide (target_arch ∈ ["amd64"; "x86_64"]) then
    Some "\x7fELF\x02\x01\x01\x00\x00\x00\x00\x00\x00\x00\x00\x00\x02\x00\x3e\x00"
  else if decide (target_arch = "ppc64le") then
    Some "\x7fELF\x02\x01\x01\x00\x00\x00\x00\x00\x00\x00\x00\x00\x02\x00\x15\x00"
  else if decide (target_arch = "s390x") then
    Some "\x7fELF\x02\x02\x01\x00\x00\x00\x00\x00\x00\x00\x00\x00\x00\x02\x00\x16\x00"
  else if decide (target_arch = "riscv64") then
    Some "\x7fELF\x02\x01\x01\x00\x00\x00\x00\x00\x00\x00\x00\x00\x02\x00\xf3\x00"
  else None.

Definition binfmt_mask : string :=
  "\xff\xff\xff\xff\xff\xff\xff\x00\xff\xff\xff\xff\xff\xff\xff\xff\xff\xfe\xff\xff\xff".

Definition register_line (handler_name magic qemu_binary : string) : string :=
  ":" +:+ handler_name +:+ ":M:0:" +:+ magic +:+ ":" +:+ binfmt_mask +:+ ":" +:+ qemu_binary +:+ ":F".

(** What is written to [register] may be
    refused, which is only logged. *)
Definition ensure_binfmt_for_arch (target_arch : string) : eff HostFs BinfmtError unit :=
  fs ← get_world;
  if negb (path_exists binfmt_misc fs) then throw BinfmtNotAvailable
  else
    match binfmt_handler target_arch with
    | None => mret tt
    | Some (handler_name, qemu_binary) =>
      if path_exists (path_join binfmt_misc handler_name) fs then mret tt
      else if negb (path_exists (components qemu_binary) fs) then mret tt
      else
        match binfmt_magic target_arch with
        | None => mret tt
        | Some magic =>
          ignore_eff (write_host (path_join binfmt_misc "register")
                        (as_bytes (register_line handler_name magic qemu_binary)))
        end
    end.

Definition register_common_binfmts : eff HostFs BinfmtError unit :=
  for_each (λ arch, ignore_eff (ensure_binfmt_for_arch arch)) ["arm64"; "arm"; "ppc64le"; "s390x"; "riscv64"].

Definition KERNEL_VMLINUX_PATH : string := "boot/vmlinux".
Definition KERNEL_INITRAMFS_PATH : string := "boot/initramfs.cpio.gz".

(** [tempfile]: the path picked for a new directory with a prefix. *)
Class TempDir (H : Type) := temp_path : string → H → path * H.

Inductive OciKernelError :=
| KernelPull (e : OciError.t)
| MissingFile (p : path)
| EmptyFile (p : path)
| KernelIo (e : errno).

Record StagedKernel := MkKernel {
  vmlinux_path : path;
  initramfs_path : option path;
  temp_dir : option path;
  kernel_root_digest : option string;
}.

Definition file_len (fs : HostFs) (p : path) : option Z :=
  match (metadata p fs).1 with
  | Ok i => Some match icontent i with File d => Z.of_nat (length d) | _ => 0%Z end
  | Err _ => None
  end.

Definition from_paths (vmlinux : path) (initramfs : option path) (fs : HostFs) : result OciKernelError StagedKernel :=
  if negb (path_exists vmlinux fs) then Err (MissingFile vmlinux)
  else
    match (metadata vmlinux fs).1 with
    | Err e => Err (KernelIo e)
    | Ok _ =>
      if decide (file_len fs vmlinux = Some 0%Z) then Err (EmptyFile vmlinux)
      else
        match initramfs with
        | Some p => if path_exists p fs then Ok (MkKernel vmlinux initramfs None None) else Err (MissingFile p)
        | None => Ok (MkKernel vmlinux None None None)
        end
    end.

Definition vmlinux_size (fs : HostFs) (k : StagedKernel) : Z := default 0%Z (file_len fs (vmlinux_path k)).

Section kernel.
Context {H : Type} `{HttpClient H, TempDir H, OciJson, GzDecoder, Base64, Hex, Sha2, Rkyv DagNode}.
Context `{EntryJson, LayerTar, ZstdDecoder, JsonText}.
#[local] Existing Instance spec_text.
Context (ARCH : string) (fuel : nat).

Record KernelWorld := MkKernelWorld { kw_store : World; kw_fs : HostFs; kw_net : H }.

Abbreviation kernel_eff := (eff KernelWorld OciKernelError).

Definition kernel_net {A} (m : eff H OciError.t A) : kernel_eff A := λ w,
  let '(r, h) := m (kw_net w) in (map_err KernelPull r, MkKernelWorld (kw_store w) (kw_fs w) h).

Definition kernel_store {A} (m : eff World OciError.t A) : kernel_eff A := λ w,
  let '(r, s) := m (kw_store w) in (map_err KernelPull r, MkKernelWorld s (kw_fs w) (kw_net w)).

Definition kernel_fs {A} (m : host_eff A) : kernel_eff A := λ w,
  let '(r, fs) := m (kw_fs w) in (map_err KernelIo r, MkKernelWorld (kw_store w) fs (kw_net w)).

Definition kernel_mat {A} (m : mat_eff A) : kernel_eff A := λ w,
  let '(r, mw) := m (MkMat (kw_store w) (kw_fs w)) in
  (map_err KernelPull r, MkKernelWorld (mw_store mw) (mw_host mw) (kw_net w)).

Definition tempdir (prefix : string) : kernel_eff path := λ w,
  let '(p, h) := temp_path prefix (kw_net w) in
  kernel_fs (mkdir 448 p ;; mret p) (MkKernelWorld (kw_store w) (kw_fs w) h).

(** What happens while the temporary directory is owned by the function. *)
Definition stage_into (root_digest : Digest) (dir : path) : kernel_eff StagedKernel :=
  bundle ← kernel_mat (materialize_bundle fuel root_digest dir);
  let rootfs := rootfs_path bundle in
  let vmlinux := path_join rootfs KERNEL_VMLINUX_PATH in
  let initramfs := path_join rootfs KERNEL_INITRAMFS_PATH in
  w ← get_world;
  if negb (path_exists vmlinux (kw_fs w)) then throw (MissingFile vmlinux)
  else mret (MkKernel vmlinux (if path_exists initramfs (kw_fs w) then Some initramfs else None)
               (Some dir) (Some (as_hex root_digest))).

(** An error drops the temporary directory. *)
Definition from_image_with_insecure (image_ref : string) (registry : option string) (insecure : gset string)
    : kernel_eff StagedKernel :=
  pulled ← kernel_net (pull ARCH (with_insecure_registries None insecure) fuel image_ref registry);
  root_digest ← kernel_store (convert fuel pulled);
  dir ← tempdir "pullrun-kernel-";
  r ← try_eff (stage_into root_digest dir);
  match r with
  | Ok k => mret k
  | Err e => ignore_eff (kernel_fs (remove_dir_all dir)) ;; throw e
  end.

Definition from_image (image_ref : string) (registry : option string) : kernel_eff StagedKernel :=
  from_image_with_insecure image_ref registry ∅.

End kernel.

Arguments MkKernelWorld {H}.
Arguments kw_store {H}.
Arguments kw_fs {H}.
Arguments kw_net {H}.
