(* ===== verification/Builder.v ===== *)
(** * Building images: [runtime/pullrun-runtime/src/builder.rs]

    A stage of a Dockerfile is built instruction by instruction.  The image so far is
    unpacked into a temporary directory, changed there by a command in a container or
    by files of the build context, and scanned into the store again; the last manifest
    gets the configuration that the other instructions set. *)

From stdpp Require Import base gmap strings list pretty.
From Stdlib Require Import ZArith Ascii.
From S2P Require Import Prelude Strs Utf8 Crates Node Fs Store OciTypes HostFs Puller Convert Materialize Dockerfile Scan.
From S2P Require Import Exec Workload Container Kernel.

(** [runc run] in a directory: the command of the container may change files.  The
    process id, and the time since the epoch. *)
Class BuildHost (H : Type) := {
  run_in : path → string → list string → HostFs → H → Output * HostFs * H;
  process_id : H → Z;
  elapsed_nanos : H → option Z * H;
}.

Inductive PullMessage :=
| PullBase (from : string) (e : OciError.t)
| ConvertBase (from : string) (e : OciError.t)
| BaseManifest (from : string) (e : OciError.t).

Inductive ExecuteMessage :=
| CrossArch (e : BinfmtError)
| SpawnRunc
| CommandFailed (command : list string) (code : option Z) (stderr : string)
| CanonicalizeContext (e : errno)
| SourceAbsolute (src : string)
| SourceMissing (src : string) (e : errno)
| SourceEscapes (src : string).

Inductive StoreMessage :=
| StoreManifestList (e : StoreError)
| StoreManifest (e : StoreError)
| ManifestNotFound (d : Digest).

(** An error of the host, or one of the two that copying makes itself. *)
Inductive BuildIoError :=
| HostError (e : errno)
| LinkUnresolved (e : errno)
| LinkEscapes (p : path) (target : string).

Module BuildError.
(** [Panicked] is the panic of [stages[0]]; [CopyDepth] is running out of fuel. *)
Inductive t :=
| Pull (m : PullMessage)
| Materialize (e : OciError.t)
| Execute (m : ExecuteMessage)
| Scan (e : OciError.t)
| Store (m : StoreMessage)
| Io (e : BuildIoError)
| Panicked
| CopyDepth.
End BuildError.

Record BuildResult := MkBuildResult {
  br_root_digest : Digest;
  br_layer_count : Z;
  br_node_count : Z;
  br_bytes_stored : Z;
}.

Record DagBuilder := MkBuilder {
  db_runc_path : string;
  db_bundle_root : path;
  db_insecure_registries : gset string;
  db_platform : option string;
}.

Definition with_platform (runc_path : string) (bundle_root : path) (insecure : gset string) (platform : option string)
    : DagBuilder := MkBuilder runc_path bundle_root insecure platform.

Definition DagBuilder_new (runc_path : string) (bundle_root : path) (insecure : gset string) : DagBuilder :=
  with_platform runc_path bundle_root insecure None.

(** ** References *)

Definition names_registry (part : string) : bool :=
  contains_char part "." || contains_char part ":" || bool_decide (part = "localhost").

Definition extract_registry (image_ref : string) : string :=
  match split_once image_ref "/" with
  | Some (first, _) => if names_registry first then first else "docker.io"
  | None => "docker.io"
  end.

Definition extract_image_ref (image_ref : string) : string :=
  match split_once image_ref "/" with
  | Some (first, rest) => if names_registry first then rest else image_ref
  | None => image_ref
  end.

(** Architecture and system of a build from nothing. *)
Definition scratch_platform (platform : option string) : string * string :=
  match platform ≫= λ p, split_once p "/" with
  | Some (o, a) => (a, o)
  | None => (default "amd64" platform, "linux")
  end.

(** ** The cache of layers *)

Definition nul : byte := Byte.x00.

Definition arg_part (arg : string) : bytes := nul :: as_bytes arg.

Definition run_preimage `{Hex} (parent_manifest : Digest) (command : list string) : bytes :=
  as_bytes "RUN:" ++ as_bytes (as_hex parent_manifest) ++ concat (arg_part <$> command).

Definition cache_key_run `{Hex, Sha2} (parent_manifest : Digest) (command : list string) : string :=
  hex_encode (arr_bytes (sha256 (run_preimage parent_manifest command))).

(** A source that cannot be read as a file contributes its name only. *)
Definition source_part `{Hex, Sha2} (fs : HostFs) (context_dir : path) (src : string) : bytes :=
  nul :: as_bytes src ++
  match (read_host (path_join context_dir src) fs).1 with
  | Ok content => as_bytes ":" ++ as_bytes (hex_encode (arr_bytes (sha256 content)))
  | Err _ => []
  end.

Definition cache_key_copy `{Hex, Sha2} (fs : HostFs) (parent_manifest : Digest) (context_dir : path)
    (sources : list string) (dest : string) : string :=
  hex_encode (arr_bytes (sha256
    (as_bytes "COPY:" ++ as_bytes (as_hex parent_manifest) ++ as_bytes ":" ++ as_bytes dest ++
     concat (source_part fs context_dir <$> sources)))).

(** ** Copying *)

(** [Path::is_symlink]. *)
Definition is_symlink (p : path) (fs : HostFs) : bool :=
  match (resolve false p fs).1 with
  | Ok q => match content_at fs q with Some (Symlink _) => true | _ => false end
  | Err _ => false
  end.

(** [std::fs::copy]: the contents and the permissions. *)
Definition copy_contents (src dest : path) : host_eff unit :=
  data ← read_host src;
  i ← metadata src;
  write_host dest data ;;
  chmod dest (fmode (imeta i)).

Abbreviation copy_eff := (eff HostFs BuildError.t).

Definition copy_io {A} (m : host_eff A) : copy_eff A := map_err_eff (λ e, BuildError.Io (HostError e)) m.

(** A directory is looked for first, and [is_dir] follows links. *)
Fixpoint copy_recursive (fuel : nat) (src dest context_canonical : path) : copy_eff unit :=
  match fuel with
  | O => throw BuildError.CopyDepth
  | S fuel =>
    fs ← get_world;
    if is_dir src fs then
      copy_io (create_dir_all dest) ;;
      entries ← copy_io (read_dir src);
      for_each (λ child, copy_recursive fuel child (dest ++ [file_name child]) context_canonical) entries
    else if is_symlink src fs then
      target ← copy_io (read_link src);
      let resolved := if is_absolute target then components target else path_join (parent src) target in
      canonical_target ← map_err_eff (λ e, BuildError.Io (LinkUnresolved e)) (canonicalize resolved);
      if path_starts_with canonical_target context_canonical then copy_io (symlink target dest)
      else throw (BuildError.Io (LinkEscapes src target))
    else copy_io (copy_contents src dest)
  end.

(** The place of a copy: one leading slash is removed. *)
Definition copy_dest (rootfs_dir : path) (dest : string) : path :=
  path_join rootfs_dir (default dest (strip_prefix "/" dest)).

Definition last_part (src : string) : string := default src (last (split src "/")).

Definition copy_source (fuel : nat) (context_canonical dest_path : path) (src : string) : copy_eff unit :=
  if is_absolute src then throw (BuildError.Execute (SourceAbsolute src))
  else
    canonical_src ← map_err_eff (λ e, BuildError.Execute (SourceMissing src e)) (canonicalize (path_join context_canonical src));
    if path_starts_with canonical_src context_canonical
    then copy_recursive fuel canonical_src (path_join dest_path (last_part src)) context_canonical
    else throw (BuildError.Execute (SourceEscapes src)).

(** ** Configurations *)

Definition build_capabilities : Json :=
  strs ["CAP_CHOWN"; "CAP_DAC_OVERRIDE"; "CAP_FOWNER"; "CAP_FSETID"; "CAP_KILL"; "CAP_SETGID"; "CAP_SETUID";
        "CAP_SETPCAP"; "CAP_NET_BIND_SERVICE"; "CAP_NET_RAW"; "CAP_SYS_CHROOT"; "CAP_MKNOD"; "CAP_AUDIT_WRITE";
        "CAP_SETFCAP"].

Definition build_mount (dest type : string) (options : list string) : Json :=
  obj ([("destination", JStr dest); ("type", JStr type); ("source", JStr type)] ++
       match options with [] => [] | l => [("options", strs l)] end).

Definition build_config (command : list string) (rootfs_dir : path) : Json :=
  obj [("ociVersion", JStr "1.0.2");
       ("process", obj
         [("args", strs command);
          ("env", strs ["PATH=/usr/local/sbin:/usr/local/bin:/usr/sbin:/usr/bin:/sbin:/bin"]);
          ("cwd", JStr "/");
          ("capabilities", obj [("bounding", build_capabilities); ("effective", build_capabilities);
                                ("permitted", build_capabilities)]);
          ("rlimits", JArr [obj [("type", JStr "RLIMIT_NOFILE"); ("hard", JNum 1024); ("soft", JNum 1024)]])]);
       ("root", obj [("path", JStr (path_str rootfs_dir)); ("readonly", JBool false)]);
       ("hostname", JStr "pullrun-build");
       ("mounts", JArr
         [build_mount "/proc" "proc" []; build_mount "/dev" "tmpfs" ["nosuid"; "strictatime"; "mode=755"; "size=65536k"];
          build_mount "/dev/pts" "devpts" ["nosuid"; "noexec"; "newinstance"; "ptmxmode=0666"; "mode=0620"];
          build_mount "/sys" "sysfs" ["nosuid"; "noexec"; "nodev"; "ro"];
          build_mount "/tmp" "tmpfs" ["nosuid"; "nodev"; "mode=1777"];
          build_mount "/dev/shm" "tmpfs" ["nosuid"; "nodev"; "mode=1777"]]);
       ("linux", obj [("namespaces", JArr ((λ t, obj [("type", JStr t)]) <$> ["pid"; "ipc"; "uts"; "mount"; "network"]))])].

Definition build_hosts : bytes := as_bytes "127.0.0.1 localhost" ++ [newline] ++ as_bytes "::1 localhost ip6-localhost" ++ [newline].

Definition fallback_dns : bytes := as_bytes "nameserver 8.8.8.8" ++ [newline] ++ as_bytes "nameserver 1.1.1.1" ++ [newline].

(** What an instruction sets in the configuration of the image. *)
Definition configure (d : ManifestData) (i : Instruction) : ManifestData :=
  let '(MkManifestData ep cmd env wd arch os ann sub user sig ports vols variant) := d in
  match i with
  | WorkDir s => MkManifestData ep cmd env (Some s) arch os ann sub user sig ports vols variant
  | Env key value => MkManifestData ep cmd (env ++ [key +:+ "=" +:+ value]) wd arch os ann sub user sig ports vols variant
  | Cmd l => MkManifestData ep l env wd arch os ann sub user sig ports vols variant
  | Entrypoint l => MkManifestData l cmd env wd arch os ann sub user sig ports vols variant
  | _ => d
  end.

(** ** Builds *)

Record BuildWorld (H : Type) := MkBuildWorld {
  bw_store : World;
  bw_fs : HostFs;
  bw_host : H;
  bw_cache : gmap string Digest;
}.
Arguments MkBuildWorld {H}.
Arguments bw_store {H}.
Arguments bw_fs {H}.
Arguments bw_host {H}.
Arguments bw_cache {H}.

(** What the loop over the instructions carries: the image so far, its configuration,
    the layers made and the bytes of their files. *)
Record Progress := MkProgress {
  pr_manifest : Digest;
  pr_data : ManifestData;
  pr_layers : Z;
  pr_bytes : Z;
}.

Section build.
Context {H : Type} `{HttpClient H, TempDir H, BuildHost H, OciJson, GzDecoder, Base64, Hex, Sha2, Rkyv DagNode}.
Context `{EntryJson, LayerTar, ZstdDecoder, JsonText}.
#[local] Existing Instance spec_text.
Context (ARCH : string) (fuel : nat).

Abbreviation build_eff := (eff (BuildWorld H) BuildError.t).

Definition build_net {A} (m : eff H OciError.t A) (f : OciError.t → BuildError.t) : build_eff A := λ w,
  let '(r, h) := m (bw_host w) in (map_err f r, MkBuildWorld (bw_store w) (bw_fs w) h (bw_cache w)).

Definition build_store {E A} (m : eff World E A) (f : E → BuildError.t) : build_eff A := λ w,
  let '(r, s) := m (bw_store w) in (map_err f r, MkBuildWorld s (bw_fs w) (bw_host w) (bw_cache w)).

Definition build_files {E A} (m : eff HostFs E A) (f : E → BuildError.t) : build_eff A := λ w,
  let '(r, fs) := m (bw_fs w) in (map_err f r, MkBuildWorld (bw_store w) fs (bw_host w) (bw_cache w)).

Definition build_io {A} (m : host_eff A) : build_eff A := build_files m (λ e, BuildError.Io (HostError e)).

Definition build_mat {A} (m : mat_eff A) (f : OciError.t → BuildError.t) : build_eff A := λ w,
  let '(r, mw) := m (MkMat (bw_store w) (bw_fs w)) in
  (map_err f r, MkBuildWorld (mw_store mw) (mw_host mw) (bw_host w) (bw_cache w)).

Definition ask_host {A} (m : H → A * H) : build_eff A := λ w,
  let '(a, h) := m (bw_host w) in (Ok a, MkBuildWorld (bw_store w) (bw_fs w) h (bw_cache w)).

Definition modify_cache (f : gmap string Digest → gmap string Digest) : build_eff unit :=
  modify_world (λ w, MkBuildWorld (bw_store w) (bw_fs w) (bw_host w) (f (bw_cache w))).

(** [tempfile::tempdir], and its removal when the value is dropped. *)
Definition with_tempdir {A} (f : path → build_eff A) : build_eff A :=
  dir ← ask_host (temp_path ".tmp");
  build_io (mkdir 448 dir) ;;
  r ← try_eff (f dir);
  ignore_eff (build_io (remove_dir_all dir)) ;;
  lift_result r.

(** [fs::write] of a file of [etc] that the image has not, whatever comes of it. *)
Definition write_if_missing (p : path) (text : HostFs → bytes) : build_eff unit :=
  w ← get_world;
  if path_exists p (bw_fs w) then mret tt else ignore_eff (build_io (write_host p (text (bw_fs w)))).

(** [read_to_string] of the host's file, or the public servers. *)
Definition host_dns (fs : HostFs) : bytes :=
  match (read_host ["etc"; "resolv.conf"] fs).1 with
  | Ok b => match from_utf8 b with Some _ => b | None => fallback_dns end
  | Err _ => fallback_dns
  end.

Definition scan_rootfs (rootfs_dir : path) (d : ManifestData) (total_bytes : Z) : build_eff (Digest * Z) :=
  r ← build_mat (build_dag_from_directory_with_platform fuel rootfs_dir (md_architecture d) (md_os d)) BuildError.Scan;
  mret (dd_manifest_digest r, wrap64 (total_bytes + dd_blob_bytes r))%Z.

Definition run_runc (bundle_dir : path) (runc_path workload_id : string) : build_eff Output := λ w,
  let '(o, fs, h) := run_in bundle_dir runc_path ["run"; workload_id] (bw_fs w) (bw_host w) in
  (Ok o, MkBuildWorld (bw_store w) fs h (bw_cache w)).

Definition prepare_run (b : DagBuilder) (rootfs_dir : path) (command : list string) (d : ManifestData)
    : build_eff (path * string) :=
  nanos ← ask_host elapsed_nanos;
  w ← get_world;
  let workload_id := "build-run-" +:+ pretty (process_id (bw_host w)) +:+ "-" +:+ pretty (default 0%Z nanos) in
  let bundle_dir := path_join (db_bundle_root b) workload_id in
  build_io (create_dir_all bundle_dir) ;;
  build_io (write_host (bundle_dir ++ ["config.json"]) (json_to_string_pretty (build_config command rootfs_dir))) ;;
  let etc_dir := rootfs_dir ++ ["etc"] in
  ignore_eff (build_io (create_dir_all etc_dir)) ;;
  write_if_missing (etc_dir ++ ["hosts"]) (λ _, build_hosts) ;;
  write_if_missing (etc_dir ++ ["resolv.conf"]) host_dns ;;
  let bundle_rootfs := bundle_dir ++ ["rootfs"] in
  w ← get_world;
  (if path_exists bundle_rootfs (bw_fs w) then ignore_eff (build_io (remove_dir_all bundle_rootfs)) else mret tt) ;;
  build_io (symlink (path_str rootfs_dir) bundle_rootfs) ;;
  (if decide (md_architecture d = current_arch ARCH) then mret tt
   else build_files (ensure_binfmt_for_arch (md_architecture d)) (λ e, BuildError.Execute (CrossArch e))) ;;
  mret (bundle_dir, workload_id).

(** The command has run: the bundle and the two files of [etc] are removed, whether
    or not the image had them. *)
Definition finish_run (rootfs_dir bundle_dir : path) : build_eff unit :=
  ignore_eff (build_io (remove_dir_all bundle_dir)) ;;
  ignore_eff (build_io (unlink (path_join rootfs_dir "etc/resolv.conf"))) ;;
  ignore_eff (build_io (unlink (path_join rootfs_dir "etc/hosts"))).

Definition execute_run (b : DagBuilder) (current_manifest : Digest) (command : list string) (d : ManifestData)
    (total_bytes : Z) : build_eff (Digest * Z) :=
  with_tempdir (λ temp_dir,
    let rootfs_dir := temp_dir ++ ["rootfs"] in
    build_mat (materialize_into fuel current_manifest rootfs_dir) BuildError.Materialize ;;
    '(bundle_dir, workload_id) ← prepare_run b rootfs_dir command d;
    output ← run_runc bundle_dir (db_runc_path b) workload_id;
    match output with
    | SpawnFailed => throw (BuildError.Execute SpawnRunc)
    | Exited code _ stderr =>
      finish_run rootfs_dir bundle_dir ;;
      if success output then scan_rootfs rootfs_dir d total_bytes
      else throw (BuildError.Execute (CommandFailed command code (from_utf8_lossy stderr)))
    end).

Definition copy_sources (context_dir : path) (sources : list string) (dest_path : path) : build_eff unit :=
  build_io (create_dir_all dest_path) ;;
  context_canonical ← build_files (canonicalize context_dir) (λ e, BuildError.Execute (CanonicalizeContext e));
  for_each (λ src, build_files (copy_source fuel context_canonical dest_path src) id) sources.

Definition execute_copy (current_manifest : Digest) (context_dir : path) (sources : list string) (dest : string)
    (d : ManifestData) (total_bytes : Z) : build_eff (Digest * Z) :=
  with_tempdir (λ temp_dir,
    let rootfs_dir := temp_dir ++ ["rootfs"] in
    build_mat (materialize_into fuel current_manifest rootfs_dir) BuildError.Materialize ;;
    copy_sources context_dir sources (copy_dest rootfs_dir dest) ;;
    scan_rootfs rootfs_dir d total_bytes).

(** [get_deserialized] with any error, for [if let Ok]. *)
Definition node_or_none (d : Digest) : build_eff (option DagNode) :=
  r ← try_eff (build_store (get_deserialized d) (λ _, BuildError.Panicked));
  mret (ok r).

Definition update_manifest (current_manifest : Digest) (d : ManifestData) : build_eff Digest :=
  node ← node_or_none current_manifest;
  match node with
  | Some node =>
    build_store (put (DagNode.manifest (edges node) (default [] (manifest_data_to_vec d))))
      (λ e, BuildError.Store (StoreManifest e))
  | None => throw (BuildError.Store (ManifestNotFound current_manifest))
  end.

Definition cached_layer (key : string) (execute : build_eff (Digest * Z)) (p : Progress) : build_eff Progress :=
  w ← get_world;
  match bw_cache w !! key with
  | Some cached => mret (MkProgress cached (pr_data p) (pr_layers p + 1) (pr_bytes p))%Z
  | None =>
    '(m, bytes) ← execute;
    modify_cache <[key := m]> ;;
    mret (MkProgress m (pr_data p) (pr_layers p + 1) bytes)%Z
  end.

Definition execute_instruction (b : DagBuilder) (context_dir : path) (p : Progress) (i : Instruction)
    : build_eff Progress :=
  w ← get_world;
  match i with
  | Run command =>
    cached_layer (cache_key_run (pr_manifest p) command)
      (execute_run b (pr_manifest p) command (pr_data p) (pr_bytes p)) p
  | Copy sources dest | Add sources dest =>
    cached_layer (cache_key_copy (bw_fs w) (pr_manifest p) context_dir sources dest)
      (execute_copy (pr_manifest p) context_dir sources dest (pr_data p) (pr_bytes p)) p
  | _ => mret (MkProgress (pr_manifest p) (configure (pr_data p) i) (pr_layers p) (pr_bytes p))
  end.

(** The image that a stage starts from. *)
Definition scratch_image (platform : option string) : build_eff (Digest * ManifestData) :=
  with_tempdir (λ tdir,
    let scratch_dir := tdir ++ ["scratch"] in
    build_io (create_dir_all scratch_dir) ;;
    let '(arch, os) := scratch_platform platform in
    r ← build_mat (build_dag_from_directory_with_platform fuel scratch_dir arch os) BuildError.Scan;
    mret (dd_manifest_digest r, empty_manifest_data arch os)).

Definition pulled_image (b : DagBuilder) (from : string) (platform : option string) : build_eff (Digest * ManifestData) :=
  let puller := with_insecure_registries None (db_insecure_registries b) in
  pulled ← build_net (pull_with_platform ARCH puller fuel (extract_image_ref from) (Some (extract_registry from)) platform)
             (λ e, BuildError.Pull (PullBase from e));
  base_manifest ← build_store (convert fuel pulled) (λ e, BuildError.Pull (ConvertBase from e));
  d ← build_mat (materialize_manifest base_manifest) (λ e, BuildError.Pull (BaseManifest from e));
  mret (base_manifest, d).

Definition base_image (b : DagBuilder) (stage : BuildStage) : build_eff (Digest * ManifestData) :=
  let effective_platform := match db_platform b with Some p => Some p | None => bs_platform stage end in
  if eq_ignore_ascii_case (bs_from stage) "scratch" then scratch_image effective_platform
  else pulled_image b (bs_from stage) effective_platform.

(** The manifest, its layers and what is right below these. *)
Definition count_nodes (d : Digest) : build_eff Z :=
  node ← node_or_none d;
  match node with
  | None => mret 0%Z
  | Some node =>
    fold_eff (λ n edge,
      layer ← node_or_none edge;
      mret (n + 1 + match layer with Some l => Z.of_nat (length (edges l)) | None => 0 end)%Z) 1%Z (edges node)
  end.

Definition build_stage (b : DagBuilder) (stage : BuildStage) (context_dir : path) : build_eff BuildResult :=
  '(base_manifest, d) ← base_image b stage;
  p ← fold_eff (execute_instruction b context_dir) (MkProgress base_manifest d 0 0) (bs_instructions stage);
  total_nodes ← count_nodes (pr_manifest p);
  final_manifest ← update_manifest (pr_manifest p) (pr_data p);
  mret (MkBuildResult final_manifest (pr_layers p) total_nodes (pr_bytes p)).

(** The first stage only; the build arguments are not used. *)
Definition build (b : DagBuilder) (dockerfile : list BuildStage) (context_dir : path) : build_eff BuildResult :=
  match dockerfile with
  | stage :: _ => build_stage b stage context_dir
  | [] => throw BuildError.Panicked
  end.

(** A builder of its own for every platform, so a new cache; the node of the list. *)
Definition build_one (b : DagBuilder) (dockerfile : list BuildStage) (context_dir : path) (pf : string)
    : build_eff BuildResult := λ w,
  let b' := with_platform (db_runc_path b) (db_bundle_root b) (db_insecure_registries b) (Some pf) in
  let '(r, w') := build b' dockerfile context_dir (MkBuildWorld (bw_store w) (bw_fs w) (bw_host w) ∅) in
  (r, MkBuildWorld (bw_store w') (bw_fs w') (bw_host w') (bw_cache w)).

Definition build_multi (b : DagBuilder) (dockerfile : list BuildStage) (context_dir : path) (platforms : list string)
    : build_eff (Digest * list BuildResult) :=
  results ← map_eff (build_one b dockerfile context_dir) platforms;
  list_digest ← build_store (put (DagNode.manifest_list (br_root_digest <$> results) []))
                  (λ e, BuildError.Store (StoreManifestList e));
  mret (list_digest, results).

End build.
