(* ===== verification/BuilderSpec.v ===== *)
(** * What a build does: theorems about [Builder.v]

    A build only adds to the store, whatever the registry answers and the commands do;
    the image it returns has the configuration of its instructions; and the keys of the
    layer cache tell commands apart. *)

From stdpp Require Import base gmap strings list.
From Stdlib Require Import ZArith Lia.
From S2P Require Import Prelude Strs Crates Node Fs Store StoreFacts GcFacts RefcountFacts Archive OciTypes HostFs.
From S2P Require Import Puller Convert Materialize ConvertSpec UnpackSpec Dockerfile Scan ScanSpec Tasks.
From S2P Require Import Exec Container Kernel Builder.

(** ** What is stored stays *)

Section adds.
Context `{HexLaws, Sha2, RkyvLaws DagNode}.

(** [w] has what [w0] has, and its new nodes are found under the digest of their
    bytes. *)
Record adds (w0 w : World) : Prop := {
  ad_inv : store_inv w;
  ad_nodes d b : node_file w0 d = Some b → node_file w d = Some b;
  ad_blobs d b : blob_file w0 d = Some b → blob_file w d = Some b;
  ad_new d b : node_file w d = Some b →
    node_file w0 d = Some b ∨ compute b = d ∧ is_Some (check_archived_root (A := DagNode) b);
}.

Lemma adds_refl w : store_inv w → adds w w.
Proof. constructor; auto. Qed.

Lemma adds_trans w1 w2 w3 : adds w1 w2 → adds w2 w3 → adds w1 w3.
Proof.
  intros [_ Hn1 Hb1 Hw1] [Hi Hn2 Hb2 Hw2]. constructor; [done|auto..|].
  intros d b [?|?]%Hw2; [by apply Hw1|by right].
Qed.

Lemma adds_same_disk w0 w w' : store_inv w' → same_disk w w' → adds w0 w → adds w0 w'.
Proof.
  intros Hi Hd [_ Hn Hb Hw]. constructor; [done|..]; intros d b.
  - rewrite (same_disk_node _ _ _ Hd). apply Hn.
  - rewrite (same_disk_blob_file _ _ _ Hd). apply Hb.
  - rewrite (same_disk_node _ _ _ Hd). apply Hw.
Qed.

Lemma adds_safe w0 w w' : import_safe w w' → adds w0 w → adds w0 w'.
Proof.
  intros Hs [Hi Hn Hb Hw]. constructor; [by eapply import_safe_inv|..]; intros d b.
  - intros ?%Hn. by apply Hs.
  - intros ?%Hb. by apply Hs.
  - intros [?|?]%(safe_new _ _ Hs); [by apply Hw|by right].
Qed.

Lemma keeps_adds_get w0 d : keeps (adds w0) (get d).
Proof.
  intros w Hw. destruct (get d w) as [r w'] eqn:E. apply get_spec in E as (? & ? & _); [|apply Hw].
  by eapply adds_same_disk.
Qed.

Lemma keeps_adds_archived w0 d : keeps (adds w0) (get_archived d).
Proof.
  intros w Hw. destruct (get_archived d w) as [r w'] eqn:E. apply get_archived_spec in E as (? & ? & _); [|apply Hw].
  by eapply adds_same_disk.
Qed.

Lemma keeps_adds_put_blob w0 d data : keeps (adds w0) (put_blob d data).
Proof.
  intros w Hw. destruct (put_blob d data w) as [r w'] eqn:E. apply put_blob_safe in E. by eapply adds_safe.
Qed.

Lemma keeps_adds_read w0 p : keeps (adds w0) (on_os (read_file p)).
Proof. intros w Hw. by rewrite on_os_read. Qed.

(** Writing a new node; the counters are files of their own. *)
Lemma put_spec n w r w' :
  store_inv w → put n w = (r, w') → adds w w' ∧
  ∀ d, r = Ok d → ∃ b, rkyv_to_bytes n = Some b ∧ d = compute b ∧
    (node_file w' d = Some b ∨ is_Some (node_file w d) ∧ w' = w).
Proof.
  intros Hi E. pose proof (put_inv n w r w' Hi E) as Hi'. revert E. unfold put.
  destruct (rkyv_to_bytes n) as [b|] eqn:Eb; [|intros [= <- <-]; split; [by apply adds_refl|done]].
  unfold mbind, eff_bind, get_world. rewrite node_exists_spec.
  case_bool_decide as He.
  { intros [= <- <-]. split; [by apply adds_refl|]. intros d [= <-]. exists b. auto. }
  apply eq_None_not_Some in He.
  destruct (on_os _ w) as [r1 w1] eqn:E1. unfold on_os in E1.
  destruct (write_atomically _ b (os w)) as [r0 s0] eqn:Ew. injection E1 as <- <-.
  apply write_atomically_frame in Ew as [_ Ho Hp Hok].
  set (v := MkWorld s0 (store w)) in *.
  assert (Hv : ∀ e, e ≠ compute b → node_file v e = node_file w e).
  { intros e Hne. apply Ho; [apply path_for_tmp|]. by intros ?%path_for_inj. }
  assert (Hvb : ∀ e, blob_file v e = blob_file w e).
  { intros e. apply Ho; [apply path_for_blob_tmp|apply not_eq_sym, node_blob_ne]. }
  assert (Hvn : node_file v (compute b) = None ∨ node_file v (compute b) = Some b).
  { destruct Hp as [Hp|Hp]; [left|right; done]. unfold node_file. simpl. by rewrite Hp. }
  assert (Hframe : ∀ v', store_inv v' → (∀ e, node_file v' e = node_file v e) →
            (∀ e, blob_file v' e = blob_file v e) → adds w v').
  { intros v' Hv' Hn Hb. constructor; [done|..]; intros e c.
    - intros Hc. rewrite Hn, Hv; [done|]. intros ->. congruence.
    - by rewrite Hb, Hvb.
    - rewrite Hn. destruct (decide (e = compute b)) as [->|Hne]; [|rewrite Hv by done; by left].
      destruct Hvn as [Hvn|Hvn]; rewrite Hvn; [done|]. intros [= <-]. right. split; [done|].
      rewrite (check_to_bytes n b) by done. by eexists. }
  destruct r0 as [[]|e]; simpl; [|intros [= <- <-]; split; [by apply Hframe|done]].
  destruct (for_each _ _ v) as [r2 w2] eqn:E2. apply increments_frame in E2 as (-> & Hs2 & _ & Hn2 & Hb2).
  intros [= <- <-]. split; [by apply Hframe|]. intros d [= <-]. exists b. split_and!; [done..|left].
  rewrite Hn2. by apply Hok.
Qed.

Lemma keeps_adds_put w0 n : keeps (adds w0) (put n).
Proof.
  intros w Hw. destruct (put n w) as [r w'] eqn:E. apply put_spec in E as [? _]; [|apply Hw]. by eapply adds_trans.
Qed.

#[local] Hint Resolve keeps_adds_get keeps_adds_archived keeps_adds_put_blob keeps_adds_read keeps_adds_put : keeps.

Lemma keeps_adds_deserialized w0 d : keeps (adds w0) (get_deserialized d).
Proof. unfold get_deserialized. keeps_solve. Qed.

End adds.

#[local] Hint Resolve keeps_adds_get keeps_adds_archived keeps_adds_put_blob keeps_adds_read keeps_adds_put
  keeps_adds_deserialized : keeps.

(** ** Images *)

Section images.
Context `{HexLaws, Sha2, RkyvLaws DagNode, EntryJson, LayerTar, GzDecoder, ZstdDecoder, SpecJson}.
Context (w0 : World).

Lemma keeps_adds_oci {A} (m : store_eff A) : keeps (adds w0) m → keeps (adds w0) (oci_store m).
Proof. intros. unfold oci_store. auto with keeps. Qed.

#[local] Hint Resolve keeps_adds_oci : keeps.

Lemma keeps_adds_io {A} (o : option A) : keeps (adds w0) (io o).
Proof. unfold io. auto with keeps. Qed.

#[local] Hint Resolve keeps_adds_io : keeps.

Lemma keeps_adds_store_trees fuel dir_index entries p : keeps (adds w0) (store_trees fuel dir_index entries p).
Proof. revert p. induction fuel as [|fuel IH]; intros p; simpl; keeps_solve. Qed.

Lemma keeps_adds_extract_item x i : keeps (adds w0) (extract_item x i).
Proof. unfold extract_item, store_file. keeps_solve. Qed.

Lemma keeps_adds_build_entry acc r : keeps (adds w0) (build_entry acc r).
Proof. unfold build_entry. keeps_solve. Qed.

#[local] Hint Resolve keeps_adds_store_trees keeps_adds_extract_item keeps_adds_build_entry : keeps.

Lemma keeps_adds_convert_layer fuel blob media_type : keeps (adds w0) (convert_layer fuel blob media_type).
Proof. unfold convert_layer, extract_tar_entries_sync. keeps_solve. Qed.

#[local] Hint Resolve keeps_adds_convert_layer : keeps.

Lemma keeps_adds_convert fuel image : keeps (adds w0) (convert fuel image).
Proof. unfold convert, create_manifest_node. keeps_solve. Qed.

(** Of the two parts of the state that unpacking and scanning use, the store. *)
Definition mat_adds (w : MatWorld) : Prop := adds w0 (mw_store w).

Lemma keeps_mat_store {E A} (m : eff World E A) : keeps (adds w0) m → keeps mat_adds (on_mat_store m).
Proof. intros Hm w Hw. specialize (Hm _ Hw). unfold on_mat_store, mat_adds. by destruct (m (mw_store w)). Qed.

Lemma keeps_mat_host {A} (m : host_eff A) : keeps mat_adds (on_host m).
Proof. intros w Hw. unfold on_host. by destruct (m (mw_host w)). Qed.

#[local] Hint Resolve keeps_mat_store keeps_mat_host : keeps.

Lemma keeps_mat_archived f d : keeps mat_adds (archived_or f d).
Proof. unfold archived_or. auto with keeps. Qed.

#[local] Hint Resolve keeps_mat_archived : keeps.

Lemma keeps_materialize_entry rootfs base e : keeps mat_adds (materialize_entry rootfs base e).
Proof. unfold materialize_entry, write_file_entry. keeps_solve. Qed.

#[local] Hint Resolve keeps_materialize_entry : keeps.

Lemma keeps_materialize_tree fuel d rootfs base : keeps mat_adds (materialize_tree fuel d rootfs base).
Proof. revert d base. induction fuel as [|fuel IH]; intros d base; simpl; keeps_solve. Qed.

Lemma keeps_whiteout rootfs layer_path wd : keeps mat_adds (apply_whiteout rootfs layer_path wd).
Proof. unfold apply_whiteout. keeps_solve. Qed.

Lemma keeps_classify acc d : keeps mat_adds (classify_edge acc d).
Proof. unfold classify_edge. keeps_solve. Qed.

#[local] Hint Resolve keeps_materialize_tree keeps_whiteout keeps_classify : keeps.

Lemma keeps_materialize_into fuel d target : keeps mat_adds (materialize_into fuel d target).
Proof. unfold materialize_into, materialize_layer. keeps_solve. Qed.

Lemma keeps_materialize_manifest d : keeps mat_adds (materialize_manifest d).
Proof. unfold materialize_manifest. keeps_solve. Qed.

Lemma keeps_scan_file dir acc p : keeps mat_adds (scan_file dir acc p).
Proof. unfold scan_file, scan_link, scan_data. keeps_solve. Qed.

#[local] Hint Resolve keeps_scan_file : keeps.

Lemma keeps_build_children f children counts :
  Forall (λ c, ∀ counts, keeps (adds w0) (f c counts)) children → keeps (adds w0) (build_children f children counts).
Proof. intros Hf. revert counts. induction Hf; intros counts; simpl; keeps_solve. Qed.

Lemma keeps_build_tree e counts : keeps (adds w0) (build_tree e counts).
Proof.
  revert counts. induction e as [name is_dir d mode size children IH] using DirEntry_nested_ind. intros counts.
  assert (keeps (adds w0) (build_children build_tree children counts)) by (by apply keeps_build_children).
  cbn [build_tree]. keeps_solve.
Qed.

#[local] Hint Resolve keeps_build_tree : keeps.

Lemma keeps_scan fuel dir architecture os :
  keeps mat_adds (build_dag_from_directory_with_platform fuel dir architecture os).
Proof.
  unfold build_dag_from_directory_with_platform, scan_dir. keeps_solve; apply keeps_mat_store; auto with keeps.
Qed.

End images.

Create HintDb agrees.

#[local] Hint Resolve keeps_adds_convert keeps_materialize_into keeps_materialize_manifest keeps_scan : keeps.

(** ** Builds *)

Section build.
Context {H : Type} `{HttpClient H, TempDir H, BuildHost H, OciJson, GzDecoder, Base64, HexLaws, Sha2, RkyvLaws DagNode}.
Context `{EntryJson, LayerTar, ZstdDecoder, JsonText}.
Context (ARCH : string) (fuel : nat).

Section adds_only.
Context (w0 : World).

Definition build_adds (w : BuildWorld H) : Prop := adds w0 (bw_store w).

Lemma keeps_build_net {A} (m : eff H OciError.t A) f : keeps build_adds (build_net m f).
Proof. intros w Hw. unfold build_net. by destruct (m (bw_host w)). Qed.

Lemma keeps_build_store {E A} (m : eff World E A) f : keeps (adds w0) m → keeps build_adds (build_store m f).
Proof. intros Hm w Hw. specialize (Hm _ Hw). unfold build_store, build_adds. by destruct (m (bw_store w)). Qed.

Lemma keeps_build_files {E A} (m : eff HostFs E A) f : keeps build_adds (build_files m f).
Proof. intros w Hw. unfold build_files. by destruct (m (bw_fs w)). Qed.

Lemma keeps_build_io {A} (m : host_eff A) : keeps build_adds (build_io m).
Proof. apply keeps_build_files. Qed.

Lemma keeps_build_mat {A} (m : mat_eff A) f : keeps (mat_adds w0) m → keeps build_adds (build_mat m f).
Proof.
  intros Hm w Hw. specialize (Hm (MkMat (bw_store w) (bw_fs w)) Hw). unfold build_mat, build_adds.
  by destruct (m (MkMat (bw_store w) (bw_fs w))).
Qed.

Lemma keeps_ask_host {A} (m : H → A * H) : keeps build_adds (ask_host m).
Proof. intros w Hw. unfold ask_host. by destruct (m (bw_host w)). Qed.

Lemma keeps_modify_cache f : keeps build_adds (modify_cache f).
Proof. by intros w Hw. Qed.

Lemma keeps_run_runc dir runc id : keeps build_adds (run_runc dir runc id).
Proof. intros w Hw. unfold run_runc. by destruct (run_in _ _ _ _ _) as [[o fs] h]. Qed.

#[local] Hint Resolve keeps_build_net keeps_build_store keeps_build_files keeps_build_io keeps_build_mat
  keeps_ask_host keeps_modify_cache keeps_run_runc : keeps.

Lemma keeps_with_tempdir {A} (f : path → eff (BuildWorld H) BuildError.t A) :
  (∀ dir, keeps build_adds (f dir)) → keeps build_adds (with_tempdir f).
Proof. intros. unfold with_tempdir. keeps_solve. Qed.

Lemma keeps_node_or_none d : keeps build_adds (node_or_none d).
Proof. unfold node_or_none. keeps_solve. Qed.

Lemma keeps_scan_rootfs dir d n : keeps build_adds (scan_rootfs fuel dir d n).
Proof. unfold scan_rootfs. keeps_solve. Qed.

#[local] Hint Resolve keeps_node_or_none keeps_scan_rootfs : keeps.

Lemma keeps_execute_run b m command d n : keeps build_adds (execute_run ARCH fuel b m command d n).
Proof.
  unfold execute_run. apply keeps_with_tempdir. intros dir. cbv zeta.
  unfold prepare_run, write_if_missing, finish_run. keeps_solve.
Qed.

Lemma keeps_execute_copy m context_dir sources dest d n :
  keeps build_adds (execute_copy fuel m context_dir sources dest d n).
Proof. unfold execute_copy. apply keeps_with_tempdir. intros dir. cbv zeta. unfold copy_sources. keeps_solve. Qed.

#[local] Hint Resolve keeps_execute_run keeps_execute_copy : keeps.

Lemma keeps_execute_instruction b context_dir p i :
  keeps build_adds (execute_instruction ARCH fuel b context_dir p i).
Proof. unfold execute_instruction, cached_layer. keeps_solve. Qed.

Lemma keeps_base_image b stage : keeps build_adds (base_image ARCH fuel b stage).
Proof.
  unfold base_image, scratch_image, pulled_image. apply keeps_bool; [|keeps_solve].
  apply keeps_with_tempdir. intros dir. cbv zeta. keeps_solve.
Qed.

Lemma keeps_update_manifest m d : keeps build_adds (update_manifest m d).
Proof. unfold update_manifest. keeps_solve. Qed.

Lemma keeps_count_nodes d : keeps build_adds (count_nodes d).
Proof. unfold count_nodes. keeps_solve. Qed.

#[local] Hint Resolve keeps_execute_instruction keeps_base_image keeps_update_manifest keeps_count_nodes : keeps.

Lemma keeps_build b dockerfile context_dir : keeps build_adds (build ARCH fuel b dockerfile context_dir).
Proof. unfold build, build_stage. keeps_solve. Qed.

Lemma keeps_build_one b dockerfile context_dir pf : keeps build_adds (build_one ARCH fuel b dockerfile context_dir pf).
Proof.
  intros w Hw. unfold build_one.
  pose proof (keeps_build (with_platform (db_runc_path b) (db_bundle_root b) (db_insecure_registries b) (Some pf))
                dockerfile context_dir (MkBuildWorld (bw_store w) (bw_fs w) (bw_host w) ∅) Hw) as Hk.
  by destruct (build _ _ _ _ _ _).
Qed.

#[local] Hint Resolve keeps_build_one : keeps.

Lemma keeps_build_multi b dockerfile context_dir platforms :
  keeps build_adds (build_multi ARCH fuel b dockerfile context_dir platforms).
Proof. unfold build_multi. keeps_solve. Qed.

End adds_only.

(** Whatever a Dockerfile says, the registry answers and the commands do, and
    however the build ends, it only adds to the store: every node and every blob that
    was there is there unchanged, and every new node sits under the digest of its
    bytes.  The same holds for a build for several platforms. *)
Lemma build_adds_only b dockerfile context_dir platforms (w : BuildWorld H) :
  store_inv (bw_store w) →
  adds (bw_store w) (bw_store (build ARCH fuel b dockerfile context_dir w).2) ∧
  adds (bw_store w) (bw_store (build_multi ARCH fuel b dockerfile context_dir platforms w).2).
Proof.
  intros Hi%adds_refl. split; [by apply keeps_build|by apply keeps_build_multi].
Qed.

(** ** The image of a build *)

Definition makes_layer (i : Instruction) : bool :=
  match i with Run _ | Copy _ _ | Add _ _ => true | _ => false end.

Definition layer_instructions (l : list Instruction) : Z := Z.of_nat (length (filter (λ i, makes_layer i = true) l)).

Lemma adds_addressed w w' : adds w w' → addressed w → addressed w'.
Proof. intros Ha Hc d b [?%Hc|[? _]]%(ad_new _ _ Ha); done. Qed.

Lemma cached_layer_spec key execute p (w w' : BuildWorld H) p' :
  cached_layer key execute p w = (Ok p', w') → pr_data p' = pr_data p ∧ pr_layers p' = (pr_layers p + 1)%Z.
Proof.
  unfold cached_layer. intros (v & v' & [= <- <-] & E)%bind_inv_ok.
  destruct (bw_cache w !! key); [by injection E as <- _|].
  apply bind_inv_ok in E as ([m bytes] & v & _ & E). apply bind_inv_ok in E as (u & v' & _ & E).
  by injection E as <- _.
Qed.

Lemma instruction_spec b context_dir p i (w w' : BuildWorld H) p' :
  execute_instruction ARCH fuel b context_dir p i w = (Ok p', w') →
  pr_data p' = configure (pr_data p) i ∧ pr_layers p' = (pr_layers p + layer_instructions [i])%Z.
Proof.
  unfold execute_instruction. intros (v & v' & [= <- <-] & E)%bind_inv_ok.
  assert (Hc : configure (pr_data p) i = pr_data p ∨ makes_layer i = false) by (destruct i, (pr_data p); auto).
  unfold layer_instructions. rewrite filter_cons. destruct i; simpl in *;
    try (injection E as <- _; simpl; split; [done|lia]);
    apply cached_layer_spec in E as [-> ->]; split; simpl; try lia; by destruct Hc.
Qed.

Lemma instructions_spec b context_dir l p (w w' : BuildWorld H) p' :
  fold_eff (execute_instruction ARCH fuel b context_dir) p l w = (Ok p', w') →
  pr_data p' = foldl configure (pr_data p) l ∧ pr_layers p' = (pr_layers p + layer_instructions l)%Z.
Proof.
  revert p w. induction l as [|i l IH]; intros p w; simpl.
  { intros [= <- _]. split; [done|]. unfold layer_instructions. simpl. lia. }
  intros (q & v & [E1 E2]%instruction_spec & [E3 E4]%IH)%bind_inv_ok. rewrite E3, E4, E1, E2. split; [done|].
  unfold layer_instructions. rewrite !filter_cons. destruct (decide _); simpl; lia.
Qed.

Lemma node_or_none_spec d (w w' : BuildWorld H) n :
  store_inv (bw_store w) → node_or_none d w = (Ok (Some n), w') →
  store_inv (bw_store w') ∧ same_disk (bw_store w) (bw_store w') ∧ node_at (bw_store w) d = Some n.
Proof.
  intros Hi. unfold node_or_none. rewrite try_bind. unfold build_store.
  destruct (get_deserialized d (bw_store w)) as [r s] eqn:E. simpl. unfold mret, eff_ret. intros [= Hn <-]. simpl.
  revert E. unfold get_deserialized, mbind at 1, eff_bind. destruct (get d (bw_store w)) as [rb v] eqn:Eg.
  apply get_spec in Eg as (? & ? & Hr); [|done]. destruct rb as [bs|e]; [|by intros [= <- <-]].
  destruct Hr as [Hr|[[? [=]] _]]. unfold get_result in Hr. unfold node_at.
  destruct (node_file (bw_store w) d) as [b'|] eqn:Ef; [|done]. injection Hr as <-. simpl.
  destruct (check_archived_root bs) as [x|] eqn:Ex; intros [= <- <-]; simplify_eq/=; auto.
Qed.

(** The node of a manifest with its configuration. *)
Definition configured (es : list Digest) (d : ManifestData) : DagNode :=
  DagNode.manifest es (default [] (manifest_data_to_vec d)).

Lemma update_manifest_spec m d (w w' : BuildWorld H) root :
  store_inv (bw_store w) → addressed (bw_store w) → update_manifest m d w = (Ok root, w') →
  ∃ node b, node_at (bw_store w) m = Some node ∧ rkyv_to_bytes (configured (edges node) d) = Some b ∧
    root = compute b ∧
    (node_at (bw_store w') root = Some (configured (edges node) d) ∨ ∃ b', b' ≠ b ∧ compute b' = compute b).
Proof.
  intros Hi Hc. unfold update_manifest. intros ([node|] & v & En & E)%bind_inv_ok; [|done].
  apply node_or_none_spec in En as (Hv & Hd & Hn); [|done].
  unfold build_store in E. destruct (put _ _) as [r s] eqn:Ep. apply put_spec in Ep as [_ Hput]; [|done].
  destruct r as [r|]; simplify_eq/=. destruct (Hput _ eq_refl) as (b & Eb & -> & Hcase). exists node, b.
  split_and!; [done..|]. unfold node_at. destruct Hcase as [Hb|[[b' Hb'] ->]].
  - left. rewrite Hb. by apply check_to_bytes.
  - rewrite Hb'. destruct (decide (b' = b)) as [->|Hne]; [left; by apply check_to_bytes|right].
    exists b'. split; [done|]. apply Hc. by rewrite <- (same_disk_node _ _ _ Hd).
Qed.

(** The image of a build that succeeds: its root is the digest of a manifest over the
    layers of the last image, with the configuration of the base image (an empty one of
    the wanted platform for [scratch]) changed by the instructions in order; that
    manifest is stored, unless other bytes have the same hash; and each [RUN], [COPY]
    and [ADD] counts as a layer. *)
Definition image_built (b : DagBuilder) (stage : BuildStage) (w w' : BuildWorld H) (r : BuildResult) : Prop :=
  ∃ m d w1 es bs, base_image ARCH fuel b stage w = (Ok (m, d), w1) ∧
    (eq_ignore_ascii_case (bs_from stage) "scratch" = true →
       ∃ platform, d = (let '(arch, os) := scratch_platform platform in empty_manifest_data arch os) ∧
         platform = match db_platform b with Some p => Some p | None => bs_platform stage end) ∧
    let node := configured es (foldl configure d (bs_instructions stage)) in
    rkyv_to_bytes node = Some bs ∧ br_root_digest r = compute bs ∧
    (node_at (bw_store w') (br_root_digest r) = Some node ∨ ∃ b', b' ≠ bs ∧ compute b' = compute bs) ∧
    br_layer_count r = layer_instructions (bs_instructions stage).

Lemma with_tempdir_inv {A} (f : path → eff (BuildWorld H) BuildError.t A) w a w' :
  with_tempdir f w = (Ok a, w') → ∃ dir v v', f dir v = (Ok a, v').
Proof.
  unfold with_tempdir. intros (dir & v & _ & (? & v1 & _ & E)%bind_inv_ok)%bind_inv_ok.
  rewrite try_bind, ignore_bind in E. unfold lift_result in E. injection E as E _.
  exists dir, v1, (f dir v1).2. rewrite <- E. by destruct (f dir v1).
Qed.

Lemma scratch_image_data platform (w w' : BuildWorld H) m d :
  scratch_image fuel platform w = (Ok (m, d), w') →
  d = let '(arch, os) := scratch_platform platform in empty_manifest_data arch os.
Proof.
  unfold scratch_image. intros (dir & v & v' & E)%with_tempdir_inv. cbv zeta in E.
  apply bind_inv_ok in E as (u & v1 & _ & E). destruct (scratch_platform platform) as [arch os].
  apply bind_inv_ok in E as (r & v2 & _ & E). by injection E as _ <- _.
Qed.


(** ** Layers over a scanned image *)

(** Two states that differ in the caches of the store only. *)
Definition same_build (v1 v2 : BuildWorld H) : Prop :=
  same_disk (bw_store v1) (bw_store v2) ∧ bw_fs v1 = bw_fs v2 ∧ bw_host v1 = bw_host v2 ∧ bw_cache v1 = bw_cache v2.

(** [m] does the same in related states. *)
Definition agrees {W E A} (R : W → W → Prop) (m : eff W E A) : Prop :=
  ∀ v1 v2, R v1 v2 → (m v1).1 = (m v2).1 ∧ R (m v1).2 (m v2).2.

Section agrees.
Context {W E : Type} (R : W → W → Prop).

Lemma agrees_pure {A} (r : result E A) : agrees R (λ w, (r, w)).
Proof. by intros v1 v2 HR. Qed.

Lemma agrees_bind {A B} (m : eff W E A) (f : A → eff W E B) : agrees R m → (∀ a, agrees R (f a)) → agrees R (m ≫= f).
Proof.
  intros Hm Hf v1 v2 HR. specialize (Hm v1 v2 HR) as [E1 E2]. unfold mbind, eff_bind.
  destruct (m v1) as [r1 u1], (m v2) as [r2 u2]. simpl in *. subst r2. destruct r1; [by apply Hf|done].
Qed.

(** A function that looks at a part of the state that related states share. *)
Lemma agrees_get {A} (f : W → eff W E A) :
  (∀ v1 v2, R v1 v2 → f v1 = f v2) → (∀ v, agrees R (f v)) → agrees R (get_world ≫= f).
Proof. intros Hf Hk v1 v2 HR. rewrite !get_bind, (Hf _ _ HR). by apply Hk. Qed.

Lemma agrees_try {F A} (m : eff W E A) : agrees R m → agrees (E := F) R (try_eff m).
Proof.
  intros Hm v1 v2 HR. specialize (Hm v1 v2 HR) as [E1 E2]. unfold try_eff.
  destruct (m v1), (m v2). simpl in *. by subst.
Qed.

Lemma agrees_ignore {F A} (m : eff W E A) : agrees R m → agrees (E := F) R (ignore_eff m).
Proof. intros Hm v1 v2 HR. specialize (Hm v1 v2 HR) as [_ E2]. unfold ignore_eff. by destruct (m v1), (m v2). Qed.

Lemma agrees_map_err {F A} (g : E → F) (m : eff W E A) : agrees R m → agrees R (map_err_eff g m).
Proof.
  intros Hm v1 v2 HR. specialize (Hm v1 v2 HR) as [E1 E2]. unfold map_err_eff.
  destruct (m v1), (m v2). simpl in *. by subst.
Qed.

Lemma agrees_for_each {A} (f : A → eff W E unit) l : (∀ a, agrees R (f a)) → agrees R (for_each f l).
Proof. intros Hf. induction l; simpl; [apply agrees_pure|by apply agrees_bind]. Qed.

Lemma agrees_fold {A B} (f : B → A → eff W E B) b l : (∀ b a, agrees R (f b a)) → agrees R (fold_eff f b l).
Proof. intros Hf. revert b. induction l; intros b; simpl; [apply agrees_pure|by apply agrees_bind]. Qed.

End agrees.

Ltac agrees_step :=
  match goal with
  | |- agrees _ (mret _) => apply agrees_pure
  | |- agrees _ (throw _) => apply agrees_pure
  | |- agrees _ (lift_result _) => apply agrees_pure
  | |- agrees _ (get_world ≫= _) => apply agrees_get; [|intros ?]
  | |- agrees _ (_ ≫= _) => apply agrees_bind; [|intros ?]
  | |- agrees _ (for_each _ _) => apply agrees_for_each; intros ?
  | |- agrees _ (fold_eff _ _ _) => apply agrees_fold; intros ? ?
  | |- agrees _ (try_eff _) => apply agrees_try
  | |- agrees _ (ignore_eff _) => apply agrees_ignore
  | |- agrees _ (map_err_eff _ _) => apply agrees_map_err
  | |- agrees _ (match ?x with _ => _ end) => destruct x
  | |- agrees _ (let _ := _ in _) => cbv zeta
  | |- agrees _ _ => solve [eauto 4 with agrees]
  end.
Ltac agrees_solve := repeat agrees_step.

Lemma agrees_os {A} (m : eff Os IoError A) : agrees same_disk (on_os m).
Proof. intros v1 v2 [E1 E2]. unfold on_os. rewrite E1. destruct (m (os v1)). by repeat split. Qed.

#[local] Hint Resolve agrees_os : agrees.

(** The two sides of a look at the store: the files and the root are the same. *)
Ltac same_view := intros [] [] [E1 E2]; simpl in E1, E2; unfold node_exists, blob_exists; simpl; by rewrite ?E1, ?E2.

Lemma agrees_increment d : agrees same_disk (increment_refcount d).
Proof. unfold increment_refcount, get_refcount, set_refcount. agrees_solve; same_view. Qed.

#[local] Hint Resolve agrees_increment : agrees.

Lemma agrees_put n : agrees same_disk (put n).
Proof. unfold put. agrees_solve; same_view. Qed.

Lemma agrees_put_blob d data : agrees same_disk (put_blob d data).
Proof. unfold put_blob. agrees_solve; same_view. Qed.

#[local] Hint Resolve agrees_put agrees_put_blob : agrees.

Definition same_mat (v1 v2 : MatWorld) : Prop := same_disk (mw_store v1) (mw_store v2) ∧ mw_host v1 = mw_host v2.

Lemma agrees_mat_store {E A} (m : eff World E A) : agrees same_disk m → agrees same_mat (on_mat_store m).
Proof.
  intros Hm v1 v2 [Hs Hh]. specialize (Hm _ _ Hs) as [E1 E2]. unfold on_mat_store.
  destruct (m (mw_store v1)), (m (mw_store v2)). by simpl in *.
Qed.

Lemma agrees_mat_host {A} (m : host_eff A) : agrees same_mat (on_host m).
Proof. intros v1 v2 [Hs Hh]. unfold on_host. rewrite <- Hh. by destruct (m (mw_host v1)). Qed.

#[local] Hint Resolve agrees_mat_store agrees_mat_host : agrees.

Lemma agrees_scan_file dir acc p : agrees same_mat (scan_file dir acc p).
Proof. unfold scan_file, scan_link, scan_data. agrees_solve. intros v1 v2 [_ Hh]. by rewrite Hh. Qed.

#[local] Hint Resolve agrees_scan_file : agrees.

Lemma agrees_build_children f children counts :
  Forall (λ c, ∀ counts, agrees same_disk (f c counts)) children → agrees same_disk (build_children f children counts).
Proof. intros Hf. revert counts. induction Hf; intros counts; simpl; agrees_solve. Qed.

Lemma agrees_build_tree e counts : agrees same_disk (build_tree e counts).
Proof.
  revert counts. induction e as [name is_dir d mode size children IH] using DirEntry_nested_ind. intros counts.
  assert (agrees same_disk (build_children build_tree children counts)) by (by apply agrees_build_children).
  cbn [build_tree]. agrees_solve.
Qed.

#[local] Hint Resolve agrees_build_tree : agrees.

Lemma agrees_scan dir architecture os : agrees same_mat (build_dag_from_directory_with_platform fuel dir architecture os).
Proof.
  unfold build_dag_from_directory_with_platform, scan_dir. agrees_solve;
    try (apply agrees_mat_store, agrees_map_err; auto with agrees).
  intros v1 v2 [_ Hh]. by rewrite Hh.
Qed.

Lemma agrees_build_files {E A} (m : eff HostFs E A) f : agrees same_build (build_files m f).
Proof. intros v1 v2 (Hs & Hf & Hh & Hc). unfold build_files. rewrite Hf. by destruct (m (bw_fs v2)). Qed.

Lemma agrees_build_io {A} (m : host_eff A) : agrees same_build (build_io m).
Proof. apply agrees_build_files. Qed.

Lemma agrees_build_mat {A} (m : mat_eff A) f : agrees same_mat m → agrees same_build (build_mat m f).
Proof.
  intros Hm v1 v2 (Hs & Hf & Hh & Hc). unfold build_mat.
  destruct (Hm (MkMat (bw_store v1) (bw_fs v1)) (MkMat (bw_store v2) (bw_fs v2))) as [E1 [E2 E3]]; [by split|].
  destruct (m (MkMat (bw_store v1) (bw_fs v1))) as [r1 u1], (m (MkMat (bw_store v2) (bw_fs v2))) as [r2 u2].
  simpl in *. by subst.
Qed.

Lemma agrees_ask_host {A} (m : H → A * H) : agrees same_build (ask_host m).
Proof. intros v1 v2 (Hs & Hf & Hh & Hc). unfold ask_host. rewrite Hh. by destruct (m (bw_host v2)). Qed.

Lemma agrees_run_runc dir runc id : agrees same_build (run_runc dir runc id).
Proof.
  intros v1 v2 (Hs & Hf & Hh & Hc). unfold run_runc. rewrite Hf, Hh. by destruct (run_in _ _ _ _ _) as [[o fs] h].
Qed.

#[local] Hint Resolve agrees_build_files agrees_build_io agrees_build_mat agrees_ask_host agrees_run_runc agrees_scan : agrees.

Lemma agrees_scan_rootfs dir d n : agrees same_build (scan_rootfs fuel dir d n).
Proof. unfold scan_rootfs. agrees_solve. Qed.

Lemma agrees_copy_sources context_dir sources dest : agrees same_build (copy_sources (H := H) fuel context_dir sources dest).
Proof. unfold copy_sources. agrees_solve. Qed.

Lemma agrees_prepare_run b rootfs_dir command d : agrees same_build (prepare_run ARCH b rootfs_dir command d).
Proof.
  unfold prepare_run, write_if_missing. agrees_solve; intros v1 v2 (_ & Hf & Hh & _); by rewrite ?Hf, ?Hh.
Qed.

#[local] Hint Resolve agrees_scan_rootfs agrees_copy_sources agrees_prepare_run : agrees.

(** The image [m], in the store of [w], was made of a directory: [RUN], [COPY], [ADD]
    and [FROM scratch] make such images. *)
Definition scanned (w : World) (m : Digest) : Prop :=
  ∃ e architecture os, m = dig (image_manifest e architecture os) ∧ dn_is_dir e = true ∧
    Forall (holds w) (image_nodes e architecture os) ∧ Forall (inert w) (file_digests e) ∧ dir_depth e ≤ fuel.

(** The result of a function with a temporary directory: creating it leaves the store. *)
Lemma with_tempdir_run {A} (f : path → eff (BuildWorld H) BuildError.t A) w :
  (with_tempdir f w).1 =
    let '(dir, h) := temp_path ".tmp" (bw_host w) in
    match mkdir 448 dir (bw_fs w) with
    | (Ok _, fs) => (f dir (MkBuildWorld (bw_store w) fs h (bw_cache w))).1
    | (Err e, _) => Err (BuildError.Io (HostError e))
    end.
Proof.
  unfold with_tempdir. erewrite bind_ok; [|unfold ask_host; by rewrite (surjective_pairing (temp_path _ _))].
  destruct (temp_path ".tmp" (bw_host w)) as [dir h]. simpl. unfold mbind at 1, eff_bind at 1, build_io at 1, build_files at 1.
  simpl. destruct (mkdir 448 dir (bw_fs w)) as [[[]|e] fs]; simpl; [|done]. by rewrite try_bind, ignore_bind.
Qed.

(** Unpacking a scanned image makes its directory and nothing in it. *)
Lemma scanned_then {A} `{!EntryJsonLaws} m target (f : eff (BuildWorld H) BuildError.t A) v :
  healthy (bw_store v) → store_inv (bw_store v) → scanned (bw_store v) m → agrees same_build f →
  ((build_mat (materialize_into fuel m target) BuildError.Materialize ;; f) v).1 =
    match create_dir_all target (bw_fs v) with
    | (Ok _, fs) => (f (MkBuildWorld (bw_store v) fs (bw_host v) (bw_cache v))).1
    | (Err _, _) => Err (BuildError.Materialize OciError.Io)
    end.
Proof.
  intros Hh Hi (e & architecture & os & -> & Hd & Hn & Hf & Hl) Ha.
  destruct (scanned_image_run (bw_store v) e architecture os fuel target Hh Hd Hn Hf Hl (bw_store v) (bw_fs v) Hi
              (same_disk_refl _)) as (w' & Em & _ & Hs).
  unfold mbind, eff_bind, build_mat. rewrite Em. destruct (create_dir_all target (bw_fs v)) as [[[]|err] fs]; simpl; [|done].
  symmetry. by apply Ha.
Qed.

(** Every layer forgets the ones below it.  Two images made of directories,
    whatever files these had, are the same to the next [RUN] and to the next [COPY]:
    the result of the instruction, with the digest of the new image, does not depend
    on the image it is applied to. *)
Lemma layers_forgotten `{!EntryJsonLaws} m1 m2 (w : BuildWorld H) :
  healthy (bw_store w) → store_inv (bw_store w) → scanned (bw_store w) m1 → scanned (bw_store w) m2 →
  (∀ b command d n, (execute_run ARCH fuel b m1 command d n w).1 = (execute_run ARCH fuel b m2 command d n w).1) ∧
  (∀ context_dir sources dest d n,
     (execute_copy fuel m1 context_dir sources dest d n w).1 = (execute_copy fuel m2 context_dir sources dest d n w).1).
Proof.
  intros Hh Hi Hm1 Hm2. split; intros; unfold execute_run, execute_copy; rewrite !with_tempdir_run;
    destruct (temp_path ".tmp" (bw_host w)) as [dir h]; destruct (mkdir 448 dir (bw_fs w)) as [[[]|e] fs]; try done;
    cbv zeta; rewrite !scanned_then; try done; unfold finish_run; agrees_solve.
Qed.

End build.

(** ** Keys of the layer cache *)

Section keys.
Context `{HexLaws, Sha2}.

Lemma length_list_byte (s : string) : length (as_bytes s) = String.length s.
Proof. induction s as [|a s IH]; [done|]. exact (f_equal S IH). Qed.

Definition starts_nul (t : bytes) : Prop := t = [] ∨ ∃ k, t = nul :: k.

Lemma split_nul (x y t u : bytes) :
  nul ∉ x → nul ∉ y → starts_nul t → starts_nul u → (x ++ t = y ++ u → x = y ∧ t = u)%list.
Proof.
  intros Hx Hy Ht Hu. revert y Hy. induction x as [|a x IH]; intros [|b y] Hy; simpl; intros E.
  - done.
  - destruct Ht as [->|[k ->]]; simplify_eq. set_solver.
  - destruct Hu as [->|[k ->]]; simplify_eq. set_solver.
  - injection E as -> E. apply IH in E as [-> ->]; [done|set_solver..].
Qed.

Lemma args_start (c : list string) : starts_nul (concat (arg_part <$> c)).
Proof. destruct c as [|a c]; [by left|right]. by eexists. Qed.

Lemma args_inj (c1 c2 : list string) :
  Forall (λ a, nul ∉ as_bytes a) c1 → Forall (λ a, nul ∉ as_bytes a) c2 →
  concat (arg_part <$> c1) = concat (arg_part <$> c2) → c1 = c2.
Proof.
  intros Hc1. revert c2. induction Hc1 as [|a c1 Ha Hc1 IH]; intros c2 [|b c2' Hb Hc2] E; [done..|].
  injection E as E. apply split_nul in E as [Eab Ec]; auto using args_start.
  apply (f_equal str_of_bytes) in Eab. rewrite !str_of_as_bytes in Eab. f_equal; auto.
Qed.

(** Two [RUN] instructions with the same key have the same parent and the same command,
    unless the hash collides; arguments hold no zero byte. *)
Lemma cache_key_run_inj p1 c1 p2 c2 :
  Forall (λ a, nul ∉ as_bytes a) c1 → Forall (λ a, nul ∉ as_bytes a) c2 →
  cache_key_run p1 c1 = cache_key_run p2 c2 →
  (p1 = p2 ∧ c1 = c2) ∨ ∃ x y, x ≠ y ∧ sha256 x = sha256 y.
Proof.
  intros Hc1 Hc2. unfold cache_key_run. intros E%(f_equal hex_decode). rewrite !hex_decode_encode in E.
  injection E as Es%arr_eq.
  destruct (decide (run_preimage p1 c1 = run_preimage p2 c2)) as [Ep|Hne]; [left|right; eauto].
  unfold run_preimage in Ep. apply app_inv_head, app_inj_1 in Ep as [Ep Ec].
  - apply (f_equal str_of_bytes) in Ep. rewrite !str_of_as_bytes in Ep. split; [by apply as_hex_inj|by apply args_inj].
  - by rewrite !length_list_byte, !as_hex_length.
Qed.

End keys.

(** ** Destinations *)

(** One slash is removed from the destination of a copy: one that starts with two is a
    path of the host. *)
Lemma copy_dest_host (rootfs : path) : copy_dest rootfs "//etc/cron.d" = ["etc"; "cron.d"].
Proof. reflexivity. Qed.

(** A build from [scratch] takes a platform without a slash for an architecture, and the
    variant for a part of it. *)
Lemma scratch_variant : scratch_platform (Some "linux/arm/v7") = ("arm/v7", "linux").
Proof. reflexivity. Qed.
