(* ===== verification/Service.v ===== *)
(** * Workloads in the runtime service: [runtime/pullrun-runtime/src/service.rs]

    The state of the service, the choice of an executor, and the handlers that pull
    images, run, stop and inspect workloads.  The model is the Linux build of the
    service.  A handler is one piece here; [Requests.v] cuts it where it waits. *)

From stdpp Require Import base gmap strings list pretty.
From Stdlib Require Import ZArith Ascii Lia.
From S2P Require Import Prelude Strs Utf8 Crates Node Fs Worklist Store OpLock Gc OciTypes HostFs.
From S2P Require Import Puller Convert Materialize Bloom Policy Secrets Ipam Net Exec Container Rootless Kernel.
From S2P Require Sync.
From S2P Require Import Workload Images.

(** ** Executors *)

(** The VM backend: its executor and where it keeps the sidecar file of a machine. *)
Record VmBackend (H : Type) := MkVmBackend {
  vm_executor : Executor (ExecWorld H);
  sidecar_path_for : string → path;
}.

Arguments MkVmBackend {H}.
Arguments vm_executor {H}.
Arguments sidecar_path_for {H}.

Record ExecutorRouter (H : Type) := MkRouter {
  er_container : LinuxContainerExecutor;
  er_rootless : option RootlessContainerExecutor;
  er_vm : option (VmBackend H);
  (** [is_running_as_root()]. *)
  er_as_root : bool;
  (** The depth to which images are unpacked. *)
  er_depth : nat;
}.

Arguments MkRouter {H}.
Arguments er_container {H}.
Arguments er_rootless {H}.
Arguments er_vm {H}.
Arguments er_as_root {H}.
Arguments er_depth {H}.

(** ** State *)

(** [cwd] and [host_arch] are those of the daemon's process. *)
Record ServiceConfig := MkConfig {
  store_root : path;
  bundle_root : path;
  checkpoints_dir : path;
  vm_root : option path;
  cwd : path;
  host_arch : string;
  insecure : gset string;
  (** The filters of peers, when block sync is enabled. *)
  peer_filters : option Bloom.PeerBloomCache;
}.

Definition ServiceConfig_new (store_root cwd : path) (host_arch : string) : ServiceConfig :=
  MkConfig store_root (path_join store_root "bundles") (path_join store_root "checkpoints") None cwd host_arch ∅ None.

(** The executors open the store's directory with caches of their own: of [ew_store]
    in [sv_exec] only the caches count, the disk is that of [sv_images]. *)
Record RuntimeService (H : Type) := MkService {
  sv_images : ImageService;
  sv_exec : ExecWorld H;
  kernel_cache : gmap string StagedKernel;
  rootfs_cache : gmap string path;
  (** The events emitted so far; the channel to subscribers is not modelled. *)
  event_bus : list Event;
  (** Seconds since the epoch. *)
  sv_now : Z;
  sv_draws : nat;
  sv_key_cache : option bytes;
}.

Arguments MkService {H}.
Arguments sv_images {H}.
Arguments sv_exec {H}.
Arguments kernel_cache {H}.
Arguments rootfs_cache {H}.
Arguments event_bus {H}.
Arguments sv_now {H}.
Arguments sv_draws {H}.
Arguments sv_key_cache {H}.

Inductive SvcError :=
| BadId (e : id_error)
| BadBackend (s : string)
| JoinSelf
| JoinVm
| JoinNotContainer (target backend : string)
| JoinMissing (target : string)
| KernelRequired
| KernelFailed (image : string) (e : OciKernelError)
| Denied (r : deny_reason)
| PolicyFailed (e : PolicyError)
| BadDigest (e : DigestError)
| BadRootDigest (e : DigestError)
| ManifestFailed (e : OciError.t)
| BinfmtFailed (e : BinfmtError)
| StageDirFailed (e : errno)
| SecretFailed (name : string) (e : SecretError)
| StageFailed (name : string) (e : SecretError)
| MountRejected (e : mount_error)
| CreateFailed (e : ExecError)
| StartFailed (e : ExecError)
| StopFailed (e : ExecError)
| WorkloadNotFound (id : string)
| ExecMissing (id : string)
| ExecFailed (e : ExecError)
| StatsFailed (e : ExecError)
| PullFailed (e : OciError.t)
| PullPanicked
| ConversionFailed (e : OciError.t)
| OpLockFailed
| ServiceNameEmpty
| Tags (s : Images.Status).

Inductive Code :=
| InvalidArgument
| NotFoundCode
| FailedPreconditionCode
| PermissionDenied
| InternalCode
| NoCode.

(** The gRPC code of an error. *)
Definition code_of (e : SvcError) : Code :=
  match e with
  | BadId _ | BadBackend _ | JoinSelf | JoinVm | JoinNotContainer _ _ | KernelRequired | BadRootDigest _
  | SecretFailed _ _ | MountRejected _ | ServiceNameEmpty => InvalidArgument
  | JoinMissing _ | WorkloadNotFound _ | ExecMissing _ | StatsFailed _ => NotFoundCode
  | Denied _ => PermissionDenied
  | KernelFailed _ _ | PolicyFailed _ | BadDigest _ | ManifestFailed _ | BinfmtFailed _ | StageDirFailed _
  | StageFailed _ _ | CreateFailed _ | StartFailed _ | StopFailed _ | ExecFailed _ | PullFailed _
  | PullPanicked | ConversionFailed _ | OpLockFailed => InternalCode
  | Tags _ => NoCode
  end.

(** ** Requests *)

Record ProtoRule := MkProtoRule {
  pr_direction : string;
  pr_protocol : string;
  pr_port : Z;
  pr_host_port : Z;
  pr_to_host : string;
  pr_from_cidrs : list string;
}.

Record SecretRef := MkSecretRef { sr_name : string; sr_target_path : string }.

Record RunRequest := MkRunRequest {
  rq_id : string;
  rq_root_digest : string;
  rq_backend : string;
  rq_command : list string;
  rq_env : gmap string string;
  rq_cpu_millicores : Z;
  rq_memory_bytes : Z;
  rq_network_mode : string;
  rq_network_rules : list ProtoRule;
  rq_kernel_image : string;
  rq_working_dir : string;
  rq_bridge_name : string;
  rq_mounts : list Mount;
  rq_health_check : option HealthCheck;
  rq_restart_policy : Z;
  rq_secrets : list SecretRef;
  rq_configs : list SecretRef;
  rq_privileged : bool;
  rq_readonly_rootfs : bool;
  rq_no_new_privileges : bool;
  rq_seccomp_profile : string;
  rq_allowed_syscalls : list string;
  rq_dns : option DnsConfig;
}.

Record RunResponse := MkRunResponse {
  rr_id : string;
  rr_pid : Z;
  rr_backend_used : string;
  rr_internal_ip : string;
}.

Definition some_text (s : string) : option string := if decide (s = EmptyString) then None else Some s.
Definition positive_limit (z : Z) : option Z := if decide (0 < z)%Z then Some z else None.

Record SecurityFlags := MkFlags {
  sf_privileged : bool;
  sf_readonly_rootfs : bool;
  sf_no_new_privileges : bool;
  sf_seccomp_profile : option string;
  sf_allowed_syscalls : list string;
}.

Definition effective_security_flags (policy : Policy) (req : RunRequest) : SecurityFlags :=
  let privileged := rq_privileged req in
  MkFlags privileged
    (if privileged then false else rq_readonly_rootfs req || Policy.readonly_rootfs policy)
    (if privileged then false else rq_no_new_privileges req || Policy.no_new_privileges policy)
    (if privileged then None
     else if decide (rq_seccomp_profile req ≠ EmptyString) then Some (rq_seccomp_profile req)
     else Policy.seccomp_profile policy)
    (if privileged then []
     else match rq_allowed_syscalls req with
          | [] => Policy.allowed_syscalls policy
          | l => l
          end).

(** Ports are cut to 16 bits. *)
Definition rule_of_proto (r : ProtoRule) : NetworkRule :=
  MkRule (if decide (pr_direction r = "outbound") then Outbound else Inbound)
    (if decide (pr_protocol r = "udp") then Udp else Tcp)
    (pr_port r `mod` u16_mod)%Z (pr_host_port r `mod` u16_mod)%Z
    (some_text (pr_to_host r))
    (match pr_from_cidrs r with [] => None | l => Some l end).

Definition Policy_default : Policy := MkPolicy false false false None [] ∅ None [] [] false.

Section service.
Context {H : Type} `{Processes H, HttpClient H, Sync.PeerNet H, Sync.Clock H, TempDir H, DefaultHasher, Hex, Sha2}.
Context `{Rkyv DagNode, EntryJson, JsonText, OciJson, GzDecoder, Puller.Base64, LayerTar, ZstdDecoder, StateJson, Lowercase}.
Context `{Aes256Gcm, OsRng, CharClass, Ed25519, Rkyv SignatureBlob, Rkyv SbomBlob}.

Abbreviation svc_eff := (eff (RuntimeService H) SvcError).

(** ** The parts of the state *)

Definition with_images (i : ImageService) (s : RuntimeService H) : RuntimeService H :=
  MkService i (sv_exec s) (kernel_cache s) (rootfs_cache s) (event_bus s) (sv_now s) (sv_draws s) (sv_key_cache s).
Definition with_exec (x : ExecWorld H) (s : RuntimeService H) : RuntimeService H :=
  MkService (sv_images s) x (kernel_cache s) (rootfs_cache s) (event_bus s) (sv_now s) (sv_draws s) (sv_key_cache s).
Definition with_kernel_cache (m : gmap string StagedKernel) (s : RuntimeService H) : RuntimeService H :=
  MkService (sv_images s) (sv_exec s) m (rootfs_cache s) (event_bus s) (sv_now s) (sv_draws s) (sv_key_cache s).
Definition with_rootfs_cache (m : gmap string path) (s : RuntimeService H) : RuntimeService H :=
  MkService (sv_images s) (sv_exec s) (kernel_cache s) m (event_bus s) (sv_now s) (sv_draws s) (sv_key_cache s).
Definition with_events (l : list Event) (s : RuntimeService H) : RuntimeService H :=
  MkService (sv_images s) (sv_exec s) (kernel_cache s) (rootfs_cache s) l (sv_now s) (sv_draws s) (sv_key_cache s).

Definition sv_workloads (s : RuntimeService H) : gmap string WorkloadState := workloads (sv_images s).
Definition sv_fs (s : RuntimeService H) : HostFs := ew_fs (sv_exec s).

Definition set_workloads (m : gmap string WorkloadState) (s : RuntimeService H) : RuntimeService H :=
  with_images (with_workloads m (sv_images s)) s.

Definition emit (e : Event) : svc_eff unit := modify_world (λ s, with_events (event_bus s ++ [e]) s).

Definition with_disk (o : Os) (i : ImageService) : ImageService :=
  with_gc (MkGcWorld (MkWorld o (store (im_store i))) (gw_ops (im_gc i))) i.

(** An executor's operation: its own caches over the shared disk. *)
Definition on_exec {E A} (m : eff (ExecWorld H) E A) : eff (RuntimeService H) E A := λ s,
  let x := sv_exec s in
  let w := MkWorld (os (im_store (sv_images s))) (store (ew_store x)) in
  let '(r, x') := m (MkExecWorld w (ew_fs x) (ew_net x) (ew_procs x) (ew_routes x) (ew_children x) (ew_net_handles x)) in
  (r, with_exec x' (with_images (with_disk (os (ew_store x')) (sv_images s)) s)).

Definition on_svc_fs {E A} (m : eff HostFs E A) : eff (RuntimeService H) E A := λ s,
  let '(r, fs) := m (sv_fs s) in (r, with_exec (with_fs fs (sv_exec s)) s).

Definition on_images_as {E A} (f : Images.Status → E) (m : image_eff A) : eff (RuntimeService H) E A := λ s,
  let '(r, i) := m (sv_images s) in (map_err f r, with_images i s).

Definition on_images {A} (m : image_eff A) : svc_eff A := on_images_as Tags m.

Definition on_svc_store {E A} (m : eff World E A) : eff (RuntimeService H) E A := λ s,
  let i := sv_images s in
  let '(r, w) := m (im_store i) in (r, with_images (with_gc (MkGcWorld w (gw_ops (im_gc i))) i) s).

(** The service's own materializer, which reads the store only. *)
Definition on_svc_mat {A} (m : mat_eff A) : eff (RuntimeService H) OciError.t A := λ s,
  let i := sv_images s in
  let '(r, mw) := m (MkMat (im_store i) (sv_fs s)) in
  (r, with_exec (with_fs (mw_host mw) (sv_exec s)) (with_images (with_gc (MkGcWorld (mw_store mw) (gw_ops (im_gc i))) i) s)).

Definition on_secrets {A} (m : secret_eff A) : eff (RuntimeService H) SecretError A := λ s,
  let '(r, w) := m (MkSecretWorld (sv_fs s) (sv_draws s) (sv_key_cache s)) in
  (r, MkService (sv_images s) (with_fs (sw_fs w) (sv_exec s)) (kernel_cache s) (rootfs_cache s) (event_bus s) (sv_now s)
        (sw_draws w) (key_cache w)).

Definition on_ops {A} (m : ops_eff A) : svc_eff A := λ s,
  let i := sv_images s in
  let '(r, o) := m (gw_ops (im_gc i)) in
  (map_err (λ _, OpLockFailed) r, with_images (with_gc (MkGcWorld (im_store i) o) i) s).

(** ** The router *)

Section router.
Context (router : ExecutorRouter H).

Abbreviation exec_eff := (eff (ExecWorld H) ExecError).

Definition container_exec : Executor (ExecWorld H) := linux_executor (er_depth router) (er_container router).
Definition rootless_exec (e : RootlessContainerExecutor) : Executor (ExecWorld H) := rootless_executor e (er_depth router).

Definition router_create (spec : WorkloadSpec) : exec_eff ProcessHandle :=
  match ws_backend spec with
  | Backend.Container =>
    match er_rootless router with
    | Some e => if negb (er_as_root router) then ex_create (rootless_exec e) spec else ex_create container_exec spec
    | None => ex_create container_exec spec
    end
  | Backend.ContainerRootless =>
    match er_rootless router with
    | Some e => ex_create (rootless_exec e) spec
    | None => throw (BackendNotAvailable "container-rootless")
    end
  | Backend.Vm =>
    match er_vm router with
    | Some vm => ex_create (vm_executor vm) spec
    | None => throw (BackendNotAvailable "vm")
    end
  | Backend.Sandbox => throw (BackendNotAvailable "sandbox")
  end.

Definition router_start (handle : ProcessHandle) : exec_eff ProcessHandle :=
  let b := ph_backend handle in
  if decide (b = "container") then ex_start container_exec handle
  else if decide (b = "container-rootless") then
    match er_rootless router with
    | Some e => ex_start (rootless_exec e) handle
    | None => throw (BackendNotAvailable b)
    end
  else if decide (b = "vm") then
    match er_vm router with
    | Some vm => ex_start (vm_executor vm) handle
    | None => throw (BackendNotAvailable b)
    end
  else throw (BackendNotAvailable b).

(** The executor that owns an id: the rootless one if it has a bundle, the VM one if
    it has a sidecar file, otherwise the container executor. *)
Definition route (id : string) (w : ExecWorld H) : Executor (ExecWorld H) :=
  let by_vm :=
    match er_vm router with
    | Some vm => if path_exists (sidecar_path_for vm id) (ew_fs w) then vm_executor vm else container_exec
    | None => container_exec
    end in
  match er_rootless router with
  | Some e => if path_exists (bundle_dir_for e id) (ew_fs w) then rootless_exec e else by_vm
  | None => by_vm
  end.

Definition router_stop (id : string) : exec_eff unit := λ w, ex_stop (route id w) id w.
Definition router_wait (id : string) : exec_eff ExitStatus := λ w, ex_wait (route id w) id w.
Definition router_status (id : string) : exec_eff string := λ w, ex_status (route id w) id w.
Definition router_update (id : string) (cpu mem : option Z) : exec_eff unit := λ w, ex_update (route id w) id cpu mem w.
Definition router_stats (id : string) : exec_eff WorkloadStats := λ w, ex_stats (route id w) id w.
Definition router_exec (id : string) (cmd : list string) (timeout : Z) : exec_eff ExecOutput :=
  λ w, ex_exec (route id w) id cmd timeout w.

End router.

(** ** Checkpoints *)

Definition checkpoint_path (dir : path) (id : string) : path := path_join dir (id +:+ ".json").

Definition write_workload_checkpoint (dir : path) (id : string) (state : WorkloadState) : host_eff unit :=
  match state_to_string_pretty state with
  | Some json => ignore_eff (write_host (checkpoint_path dir id) json)
  | None => mret tt
  end.

(** [Path::file_stem] and [Path::extension] of a name: a dot in front does not count. *)
Definition stem_ext (name : string) : string * option string :=
  match rsplit_once name "." with
  | Some (EmptyString, _) | None => (name, None)
  | Some (stem, ext) => (stem, Some ext)
  end.

(** A file that cannot be read or parsed is skipped. *)
Definition load_checkpoint (fs : HostFs) (acc : gmap string WorkloadState) (p : path) : gmap string WorkloadState :=
  let '(id, ext) := stem_ext (file_name p) in
  if decide (ext = Some "json") then
    match (data ← ok (read_host p fs).1; state_from_str data) with
    | Some state => <[id := state]> acc
    | None => acc
    end
  else acc.

Definition load_workload_checkpoints (dir : path) (fs : HostFs) : gmap string WorkloadState :=
  match (read_dir dir fs).1 with
  | Ok entries => foldl (load_checkpoint fs) ∅ entries
  | Err _ => ∅
  end.

(** ** Policy *)

Section handlers.
Context (config : ServiceConfig) (router : ExecutorRouter H) (policy_engine : option PolicyEngine).
(** The text of an error, and the bound of the recursions of pulls and conversions. *)
Context (error_text : SvcError → string) (fuel : nat).

Definition svc_checkpoint (id : string) (state : WorkloadState) : svc_eff unit :=
  ignore_eff (on_svc_fs (write_workload_checkpoint (checkpoints_dir config) id state)).

Definition decide_policy (image_ref root_digest : string) : svc_eff unit :=
  match policy_engine with
  | None => mret tt
  | Some engine =>
    d ← map_err_eff PolicyFailed (on_svc_store (evaluate_for_image engine (default_policy engine) image_ref root_digest));
    match d with
    | Allow => mret tt
    | Deny reason => throw (Denied reason)
    end
  end.

Definition evaluate_pulled (image_ref : string) (manifest_digest : Digest) : svc_eff unit :=
  decide_policy image_ref (as_hex manifest_digest).

(** Without a recorded reference the digest itself is taken for one. *)
Definition evaluate_for_run (root_digest : string) : svc_eff unit :=
  match policy_engine with
  | None => mret tt
  | Some _ =>
    tags ← on_images read_tags;
    decide_policy (default root_digest (tags !! root_digest)) root_digest
  end.

(** ** Running *)

Definition current_policy : Policy :=
  match policy_engine with
  | Some engine => default_policy engine
  | None => Policy_default
  end.

Definition check_join (req : RunRequest) (backend : Backend.t) (mode : NetworkMode.t) : svc_eff unit :=
  match mode with
  | NetworkMode.Container target =>
    if decide (target = rq_id req) then throw JoinSelf
    else if decide (backend = Backend.Vm) then throw JoinVm
    else
      s ← get_world;
      match sv_workloads s !! target with
      | Some ts => if starts_with (Workload.backend ts) "container" then mret tt
                   else throw (JoinNotContainer target (Workload.backend ts))
      | None => throw (JoinMissing target)
      end
  | _ => mret tt
  end.

Definition event (id : string) (kind : EventKind.t) (l : list (string * string)) : svc_eff unit :=
  s ← get_world;
  emit (foldl (λ e kv, with_metadata kv.1 kv.2 e) (Event_new (sv_now s) id kind) l).

(** An event with the text of an error. *)
Definition event_error (id : string) (kind : EventKind.t) (l : list (string * string)) (e : SvcError) : svc_eff unit :=
  event id kind (l ++ [("error", error_text e)]).

(** *** Kernels *)

Definition stage_kernel_image (image_ref : string) : eff (RuntimeService H) OciKernelError StagedKernel := λ s,
  let i := sv_images s in
  let '(r, w) := from_image_with_insecure (host_arch config) fuel image_ref None (insecure config)
                   (MkKernelWorld (im_store i) (sv_fs s) (ew_procs (sv_exec s))) in
  (r, with_exec (with_procs (kw_net w) (with_fs (kw_fs w) (sv_exec s)))
        (with_images (with_gc (MkGcWorld (kw_store w) (gw_ops (im_gc i))) i) s)).

Definition stage_kernel (req : RunRequest) (b : Backend.t) : svc_eff unit :=
  let image := rq_kernel_image req in
  if decide (b ≠ Backend.Vm) then mret tt
  else if decide (image = EmptyString ∧ vm_root config = None) then throw KernelRequired
  else if decide (image = EmptyString) then mret tt
  else
    s ← get_world;
    if decide (is_Some (kernel_cache s !! image)) then mret tt
    else
      r ← try_eff (stage_kernel_image image);
      match r with
      | Ok kernel =>
        s ← get_world;
        event (rq_id req) EventKind.ImagePulled
          [("kind", "kernel"); ("image", image); ("vmlinux_bytes", pretty (vmlinux_size (sv_fs s) kernel))] ;;
        modify_world (λ s, with_kernel_cache (<[image := kernel]> (kernel_cache s)) s)
      | Err e =>
        event_error (rq_id req) EventKind.ImagePulled
          [("kind", "kernel"); ("image", image); ("outcome", "failed")] (KernelFailed image e) ;;
        throw (KernelFailed image e)
      end.

Definition cached_kernel (s : RuntimeService H) (image : string) : option StagedKernel :=
  if decide (image = EmptyString) then None else kernel_cache s !! image.

(** *** Other architectures *)

Definition check_arch (req : RunRequest) (b : Backend.t) : svc_eff unit :=
  if decide (b = Backend.Vm) then mret tt
  else
    root_digest ← lift_result (map_err BadDigest (from_hex (rq_root_digest req)));
    md ← map_err_eff ManifestFailed (on_svc_mat (materialize_manifest root_digest));
    if decide (md_architecture md = current_arch (host_arch config)) then mret tt
    else map_err_eff BinfmtFailed (on_svc_fs (ensure_binfmt_for_arch (md_architecture md))).

(** *** Secrets and configs *)

Definition staged_secret_dir (id : string) : path :=
  path_join (path_join (path_join (store_root config) "run") "secrets-stage") id.

Definition stage_ref (dir : path) (read : string → secret_eff bytes) (prefix : string) (r : SecretRef) : svc_eff Mount :=
  content ← map_err_eff (SecretFailed (sr_name r)) (on_secrets (read (sr_name r)));
  let target := if decide (sr_target_path r = EmptyString) then prefix +:+ sr_name r else sr_target_path r in
  let stage_path := path_join dir (sr_name r) in
  map_err_eff (StageFailed (sr_name r)) (on_secrets (write_stage_file stage_path content)) ;;
  mret (MkMount "bind" (path_str stage_path) target ["ro"; "rbind"]).

Definition stage_refs (req : RunRequest) : svc_eff (list Mount) :=
  let dir := staged_secret_dir (rq_id req) in
  (if decide (rq_secrets req = [] ∧ rq_configs req = []) then mret tt
   else
     map_err_eff StageDirFailed (on_svc_fs (create_dir_all dir)) ;;
     ignore_eff (on_svc_fs (chmod dir 448))) ;;
  secrets ← map_eff (stage_ref dir (read_secret_raw (store_root config)) "/run/secrets/") (rq_secrets req);
  configs ← map_eff (stage_ref dir (read_config_raw (store_root config)) "/") (rq_configs req);
  mret (secrets ++ configs).

(** *** The request *)

Definition strip_sha256 (s : string) : string := default s (strip_prefix "sha256:" s).

Definition with_root_digest (d : string) (r : RunRequest) : RunRequest :=
  MkRunRequest (rq_id r) d (rq_backend r) (rq_command r) (rq_env r) (rq_cpu_millicores r) (rq_memory_bytes r)
    (rq_network_mode r) (rq_network_rules r) (rq_kernel_image r) (rq_working_dir r) (rq_bridge_name r) (rq_mounts r)
    (rq_health_check r) (rq_restart_policy r) (rq_secrets r) (rq_configs r) (rq_privileged r) (rq_readonly_rootfs r)
    (rq_no_new_privileges r) (rq_seccomp_profile r) (rq_allowed_syscalls r) (rq_dns r).

Definition has_inbound_ports (req : RunRequest) : bool :=
  existsb (λ r, bool_decide (pr_direction r = "inbound")) (rq_network_rules req).

Definition spec_of_run (req : RunRequest) (b : Backend.t) (image_root : Digest) (kernel_path : option path)
    (extra_mounts : list Mount) : WorkloadSpec :=
  let flags := effective_security_flags current_policy req in
  MkSpec (rq_id req) image_root b (rq_command req) (rq_env req) (positive_limit (rq_cpu_millicores req))
    (positive_limit (rq_memory_bytes req)) (parse_network_mode (rq_network_mode req) (has_inbound_ports req))
    (rule_of_proto <$> rq_network_rules req) kernel_path (some_text (rq_bridge_name req))
    (rq_mounts req ++ extra_mounts) (rq_health_check req) (parse_restart_policy (rq_restart_policy req))
    (sf_readonly_rootfs flags) (sf_no_new_privileges flags) (sf_seccomp_profile flags) (sf_allowed_syscalls flags)
    (sf_privileged flags) (dns_from_req (rq_dns req)).

(** Everything up to the call of the executor.  The root digest has no prefix here. *)
Definition prepare (req : RunRequest) : svc_eff WorkloadSpec :=
  b ← lift_result (map_err BadBackend (Backend.from_str (rq_backend req)));
  check_join req b (parse_network_mode (rq_network_mode req) (has_inbound_ports req)) ;;
  stage_kernel req b ;;
  evaluate_for_run (rq_root_digest req) ;;
  check_arch req b ;;
  s ← get_world;
  let kernel_path := vmlinux_path <$> cached_kernel s (rq_kernel_image req) in
  extra_mounts ← stage_refs req;
  s ← get_world;
  lift_result (map_err MountRejected (sanitize_mounts (sv_fs s) (cwd config) (store_root config) (rq_mounts req))) ;;
  image_root ← lift_result (map_err BadRootDigest (from_hex (rq_root_digest req)));
  mret (spec_of_run req b image_root kernel_path extra_mounts).

(** *** The executor *)

Definition started_failed (id backend outcome : string) (e : SvcError) : svc_eff ProcessHandle :=
  event_error id EventKind.WorkloadStarted [("backend", backend); ("outcome", outcome)] e ;;
  throw e.

Definition launch (req : RunRequest) (spec : WorkloadSpec) : svc_eff ProcessHandle :=
  let backend_label := Backend.as_str (ws_backend spec) in
  event (rq_id req) EventKind.BackendSelected
    [("requested_backend", backend_label); ("selected_backend", backend_label); ("image_root", rq_root_digest req)] ;;
  r ← try_eff (on_exec (router_create router spec));
  match r with
  | Err e => started_failed (rq_id req) backend_label "create_failed" (CreateFailed e)
  | Ok handle =>
    r ← try_eff (on_exec (router_start router handle));
    match r with
    | Err e => started_failed (rq_id req) (ph_backend handle) "start_failed" (StartFailed e)
    | Ok handle => mret handle
    end
  end.

(** *** The record *)

Definition ext4_path_for (rootfs_dir : path) (vm_id : string) : path := path_join rootfs_dir (vm_id +:+ ".ext4").

Definition if_vm (handle : ProcessHandle) (p : option path) : option path :=
  if decide (ph_backend handle = "vm") then p else None.

Definition allow_decisions : gmap string string :=
  match policy_engine with
  | Some _ => {[ "default" := "allow" ]}
  | None => ∅
  end.

Definition state_of_run (req : RunRequest) (spec : WorkloadSpec) (handle : ProcessHandle) (s : RuntimeService H)
    : WorkloadState :=
  MkState "running" (sv_now s) 0 None (ph_backend handle) (ph_internal_ip handle) (default 0%Z (ph_pid handle))
    (rq_root_digest req) (rq_command req) (ws_network_rules spec) allow_decisions (rq_kernel_image req)
    (default EmptyString (k ← cached_kernel s (rq_kernel_image req); kernel_root_digest k))
    (if decide (rq_working_dir req = EmptyString) then "/" else rq_working_dir req)
    (if_vm handle (match rootfs_cache s !! rq_id req with
                   | Some p => Some p
                   | None => (λ root, ext4_path_for root (rq_id req)) <$> vm_root config
                   end))
    (ws_health_check spec) "starting" 0 0 (ws_restart_policy spec) 0 (ws_env spec) (ws_cpu_millicores spec)
    (ws_memory_bytes spec) (ws_bridge_name spec) (network_mode_str (ws_network_mode spec)) (ws_mounts spec)
    (ws_privileged spec) (ws_readonly_rootfs spec) (ws_no_new_privileges spec) (ws_seccomp_profile spec)
    (ws_allowed_syscalls spec) (ws_dns spec)
    (if_vm handle ((λ root, path_join (path_join root (rq_id req)) "console.log") <$> vm_root config)).

Definition record_run (req : RunRequest) (spec : WorkloadSpec) (handle : ProcessHandle) : svc_eff RunResponse :=
  s ← get_world;
  let id := rq_id req in
  let state := state_of_run req spec handle s in
  let final_ip := default "loopback" (ph_internal_ip handle) in
  modify_world (λ s, set_workloads (<[id := state]> (sv_workloads s)) s) ;;
  svc_checkpoint id state ;;
  event id EventKind.WorkloadStarted
    [("backend", ph_backend handle); ("image_root", rq_root_digest req); ("internal_ip", final_ip);
     ("pid", pretty (default 0%Z (ph_pid handle)))] ;;
  mret (MkRunResponse id (default 0%Z (ph_pid handle)) (ph_backend handle) final_ip).

Definition run_workload (req : RunRequest) : svc_eff RunResponse :=
  lift_result (map_err BadId (validate_workload_id (rq_id req))) ;;
  let req := with_root_digest (strip_sha256 (rq_root_digest req)) req in
  spec ← prepare req;
  handle ← launch req spec;
  record_run req spec handle.

(** ** Stopping *)

(** What the spawned task does after the executor's stop. *)
Definition finish_stop (id : string) : svc_eff unit :=
  modify_world (λ s, with_rootfs_cache (delete id (rootfs_cache s)) s) ;;
  ignore_eff (on_svc_fs (remove_dir_all (staged_secret_dir id))) ;;
  s ← get_world;
  match sv_workloads s !! id with
  | Some st =>
    let stopped_as :=
      if decide (Workload.status st = "running") then Some "stopped"
      else if decide (Workload.status st = "pending") then Some "exited"
      else None in
    match stopped_as with
    | Some name =>
      let st' := set_exit name (sv_now s) (Some 0%Z) st in
      modify_world (λ s, set_workloads (<[id := st']> (sv_workloads s)) s) ;;
      svc_checkpoint id st' ;;
      event id EventKind.WorkloadStopped [("backend", Workload.backend st); ("exit_code", "0"); ("source", "operator")]
    | None => mret tt
    end
  | None => mret tt
  end.

Definition stop_workload (id : string) : svc_eff bool :=
  lift_result (map_err BadId (validate_workload_id id)) ;;
  s ← get_world;
  match sv_workloads s !! id with
  | None => throw (WorkloadNotFound id)
  | Some st =>
    if decide (Workload.status st = "running") then
      r ← try_eff (on_exec (router_stop router id));
      match r with
      | Ok _ => finish_stop id ;; mret true
      | Err e => if decide (Workload.backend st = "vm") then finish_stop id ;; mret true else throw (StopFailed e)
      end
    else mret true
  end.

(** ** Reading *)

Record WorkloadStatus := MkWorkloadStatus {
  wst_id : string;
  wst_state : string;
  wst_backend : string;
  wst_exit_code : Z;
  wst_start_time : Z;
  wst_internal_ip : string;
  wst_network_isolated : bool;
  wst_health : string;
  wst_restart_policy : Z;
  wst_restart_count : Z;
}.

Definition status_of (id : string) (st : WorkloadState) : WorkloadStatus :=
  MkWorkloadStatus id (Workload.status st) (Workload.backend st) (default 0%Z (exit_code st)) (start_time st)
    (default EmptyString (internal_ip st)) (is_network_isolated st) (health st) (restart_proto (restart_policy st))
    (restart_count st).

Definition get_workload (id : string) : svc_eff WorkloadStatus :=
  s ← get_world;
  match sv_workloads s !! id with
  | Some st => mret (status_of id st)
  | None => throw (WorkloadNotFound id)
  end.

Definition list_workloads : svc_eff (list WorkloadStatus) :=
  s ← get_world;
  mret ((λ kv, status_of kv.1 kv.2) <$> map_to_list (sv_workloads s)).

(** ** Operations on running workloads *)

Definition exec_in_workload (id : string) (command : list string) : svc_eff ExecOutput :=
  lift_result (map_err BadId (validate_workload_id id)) ;;
  s ← get_world;
  if decide (sv_workloads s !! id = None) then throw (WorkloadNotFound id)
  else map_err_eff (λ e, match e with ExecNotFound _ => ExecMissing id | e => ExecFailed e end)
         (on_exec (router_exec router id command 30)).

(** A request that changes nothing, or an executor that fails, is no error. *)
Definition update_workload (id : string) (cpu mem : Z) : svc_eff bool :=
  let cpu := positive_limit cpu in
  let mem := positive_limit mem in
  if decide (cpu = None ∧ mem = None) then mret false
  else
    r ← try_eff (on_exec (router_update router id cpu mem));
    mret match r with Ok _ => true | Err _ => false end.

Definition get_workload_stats (id : string) : svc_eff WorkloadStats :=
  map_err_eff StatsFailed (on_exec (router_stats router id)).

(** ** Pulling *)

Record PullRequest := MkPullRequest {
  pq_image_ref : string;
  pq_registry : string;
  pq_username : string;
  pq_password : string;
  pq_token : string;
  pq_platform : string;
}.

Record PullResponse := MkPullResponse { pp_root_digest : string; pp_bytes_stored : Z }.

Definition build_auth (username password token : string) : option OciAuth :=
  if decide (username = EmptyString ∧ password = EmptyString ∧ token = EmptyString) then None
  else Some (MkAuth (some_text username) (some_text password) (some_text token)).

(** With peers the blobs may come from them, otherwise all come from the registry. *)
Definition fetch (req : PullRequest) : svc_eff PulledImage := λ s,
  let auth := build_auth (pq_username req) (pq_password req) (pq_token req) in
  let p := Sync.MkSyncPuller (with_insecure_registries auth (insecure config)) (peer_filters config) in
  let i := sv_images s in
  let '(r, w) := Sync.sync_pull (host_arch config) p fuel (pq_image_ref req) (some_text (pq_registry req))
                   (some_text (pq_platform req)) (Sync.MkPull (im_store i) (ew_procs (sv_exec s))) in
  (map_err (λ e, match e with Sync.SyncPanic => PullPanicked | Sync.SyncOci e => PullFailed e end) r,
   with_exec (with_procs (Sync.pw_net w) (sv_exec s))
     (with_images (with_gc (MkGcWorld (Sync.pw_store w) (gw_ops (im_gc i))) i) s)).

Definition bytes_stored (p : PulledImage) : Z :=
  foldr (λ b n, (Z.of_nat (length b.1.2) + n)%Z) 0%Z (layer_blobs p).

(** A panic ends the task, without an event. *)
Definition pull_failed {A} (image_ref registry_label : string) (e : SvcError) : svc_eff A :=
  (match e with
   | PullPanicked => mret tt
   | e => event_error image_ref EventKind.ImagePulled [("registry", registry_label); ("outcome", "failed")] e
   end) ;;
  throw e.

Definition pull_image (req : PullRequest) : svc_eff PullResponse :=
  let image_ref := pq_image_ref req in
  known ← on_images (local_tag image_ref);
  match known with
  | Some digest => mret (MkPullResponse digest 0)
  | None =>
    let registry_label := default "default" (some_text (pq_registry req)) in
    r ← try_eff (fetch req);
    match r with
    | Err e => pull_failed image_ref registry_label e
    | Ok pulled =>
      op_lock ← on_ops OpLock_new;
      r ← try_eff (on_svc_store (convert fuel pulled));
      match r with
      | Err e => ignore_eff (on_ops (remove op_lock)) ;; pull_failed image_ref registry_label (ConversionFailed e)
      | Ok root_digest =>
        on_images (tag_image root_digest image_ref) ;;
        ignore_eff (on_ops (remove op_lock)) ;;
        r ← try_eff (evaluate_pulled image_ref root_digest);
        match r with
        | Err e =>
          event image_ref EventKind.PolicyDenied
            [("registry", registry_label); ("phase", "pull"); ("reason", error_text e)] ;;
          throw e
        | Ok _ =>
          s ← get_world;
          let already_present := exists_ (im_store (sv_images s)) root_digest in
          event image_ref (if already_present then EventKind.ImageDeduped else EventKind.ImagePulled)
            [("registry", registry_label); ("root_digest", as_hex root_digest);
             ("bytes_stored", pretty (bytes_stored pulled))] ;;
          mret (MkPullResponse (as_hex root_digest) (bytes_stored pulled))
        end
      end
    end
  end.

(** ** Compose projects *)

Record ComposePort := MkComposePort { cp_container_port : Z; cp_host_port : Z; cp_protocol : string }.

Record ComposeService := MkComposeService {
  cs_name : string;
  cs_image : string;
  cs_root_digest : string;
  cs_backend : string;
  cs_command : list string;
  cs_environment : gmap string string;
  cs_cpu_millicores : Z;
  cs_memory_bytes : Z;
  cs_network_mode : string;
  cs_ports : list ComposePort;
  cs_working_dir : string;
  cs_bridge_name : string;
  cs_mounts : list Mount;
  cs_health_check : option HealthCheck;
}.

Definition or_text (s d : string) : string := if decide (s = EmptyString) then d else s.

Definition compose_rule (p : ComposePort) : ProtoRule :=
  MkProtoRule "inbound" (or_text (cp_protocol p) "tcp") (cp_container_port p) (cp_host_port p) EmptyString [].

Definition compose_request (id root_digest : string) (c : ComposeService) : RunRequest :=
  MkRunRequest id root_digest (or_text (cs_backend c) "container") (cs_command c) (cs_environment c)
    (cs_cpu_millicores c) (cs_memory_bytes c) (or_text (cs_network_mode c) "bridge") (compose_rule <$> cs_ports c)
    EmptyString (cs_working_dir c) (cs_bridge_name c) (cs_mounts c) (cs_health_check c) 0 [] [] false false false
    EmptyString [] None.

Definition run_compose_service (project_name : string) (c : ComposeService) : svc_eff (string * string) :=
  if decide (cs_name c = EmptyString) then throw ServiceNameEmpty
  else
    root_digest ←
      (if decide (cs_root_digest c = EmptyString) then
         r ← pull_image (MkPullRequest (cs_image c) EmptyString EmptyString EmptyString EmptyString EmptyString);
         mret (pp_root_digest r)
       else mret (cs_root_digest c));
    r ← run_workload (compose_request (project_name +:+ "-" +:+ cs_name c) root_digest c);
    mret (cs_name c, rr_id r).

(** The ids in order and the map from names to ids; the first error ends the loop. *)
Definition run_compose (project_name : string) (services : list ComposeService)
    : svc_eff (list string * gmap string string) :=
  l ← map_eff (run_compose_service project_name) services;
  mret (l.*2, foldl (λ m kv, <[kv.1 := kv.2]> m) ∅ l).

End handlers.
End service.
