(* ===== verification/Publish.v ===== *)
(** * Building and pushing on request: [runtime/pullrun-runtime/src/service.rs]

    The handlers [build_image] and [push_image] put the builder, the table of tags, the
    operation locks and the upload together. *)

From stdpp Require Import base gmap strings list relations.
From Stdlib Require Import ZArith Lia.
From S2P Require Import Prelude Strs Utf8 Crates Node Fs Worklist Store StoreFacts GcFacts RefcountFacts OpLock Gc Tasks OciTypes HostFs.
From S2P Require Import Exec Workload Images ImagesSpec Archive Puller Convert Materialize Dockerfile Container Kernel Push.
From S2P Require Import Builder BuilderSpec Service.

(** Paths are absolute, as the clients send them; [None] is an empty context. *)
Record BuildRequest := MkBuildRequest {
  bq_dockerfile : path;
  bq_context_dir : option path;
  bq_platforms : list string;
  bq_platform : string;
  bq_tag : string;
  bq_push : bool;
}.

Record PushImageRequest := MkPushImageRequest {
  pi_root_digest : string;
  pi_target_ref : string;
  pi_username : string;
  pi_password : string;
  pi_token : string;
}.

(** Without an error number the Dockerfile is not UTF-8. *)
Inductive PublishError :=
| ReadDockerfile (e : option errno)
| ParseDockerfile (e : ParseError)
| PublishOpLock
| MultiBuildFailed (e : BuildError.t)
| BuildFailed (e : BuildError.t)
| PublishTags (e : Images.Status)
| PushNeedsTag
| PushFailed (e : OciError.t).

(** [Path::is_file]. *)
Definition is_file (p : path) (fs : HostFs) : bool :=
  match (resolve true p fs).1 with
  | Ok q => match content_at fs q with Some (File _) => true | _ => false end
  | Err _ => false
  end.

Section publish.
Context {H : Type} `{HttpClient H, HttpUpload H, TempDir H, BuildHost H, OciJson, OciWriteJson, GzDecoder, Puller.Base64}.
Context `{Hex, Sha2, Rkyv DagNode, EntryJson, LayerTar, ZstdDecoder, JsonText, LayerBuilder, UpperTable, StringsJson}.
Context (config : ServiceConfig) (fuel : nat).

Abbreviation publish_eff := (eff (RuntimeService H) PublishError).

Definition with_store (w : World) (s : RuntimeService H) : RuntimeService H :=
  with_images (with_gc (MkGcWorld w (gw_ops (im_gc (sv_images s)))) (sv_images s)) s.

(** A new builder has an empty cache. *)
Definition on_builder {A} (f : BuildError.t → PublishError) (m : eff (BuildWorld H) BuildError.t A) : publish_eff A := λ s,
  let x := sv_exec s in
  let '(r, w) := m (MkBuildWorld (im_store (sv_images s)) (ew_fs x) (ew_procs x) ∅) in
  (map_err f r, with_exec (with_procs (bw_host w) (with_fs (bw_fs w) x)) (with_store (bw_store w) s)).

Definition on_pusher {A} (m : eff (PushWorld H) OciError.t A) : publish_eff A := λ s,
  let '(r, w) := m (MkPushWorld (im_store (sv_images s)) (ew_procs (sv_exec s))) in
  (map_err PushFailed r, with_exec (with_procs (pw_net w) (sv_exec s)) (with_store (pw_store w) s)).

Definition publish_ops {A} (m : ops_eff A) : publish_eff A := map_err_eff (λ _, PublishOpLock) (on_ops m).

Definition read_dockerfile (p : path) : publish_eff (list BuildStage) :=
  data ← map_err_eff (λ e, ReadDockerfile (Some e)) (on_svc_fs (read_host p));
  content ← lift_result (ok_or (from_utf8 data) (ReadDockerfile None));
  lift_result (map_err ParseDockerfile (parse content)).

(** Of the parent only the root has none, and the root is not a file. *)
Definition context_of (req : BuildRequest) : path := default (parent (bq_dockerfile req)) (bq_context_dir req).

Definition runc_of (fs : HostFs) : string :=
  let p := bundle_root config ++ [".."; "runc"] in
  if is_file p fs then path_str p else "runc".

Definition run_build (req : BuildRequest) (runc_path : string) (dockerfile : list BuildStage) : publish_eff Digest :=
  let bundles := bundle_root config ++ ["build"] in
  match bq_platforms req with
  | [] =>
    result ← on_builder BuildFailed
      (build (host_arch config) fuel (with_platform runc_path bundles (insecure config) (some_text (bq_platform req)))
         dockerfile (context_of req));
    mret (br_root_digest result)
  | platforms =>
    let platforms := (λ p, if decide (p = EmptyString) then "linux/amd64" else p) <$> platforms in
    '(list_digest, _) ← on_builder MultiBuildFailed
      (build_multi (host_arch config) fuel (DagBuilder_new runc_path bundles (insecure config)) dockerfile
         (context_of req) platforms);
    mret list_digest
  end.

(** The lock file goes away with [op_lock], before the push. *)
Definition build_and_tag (req : BuildRequest) (runc_path : string) (dockerfile : list BuildStage)
    : publish_eff (Digest * string) :=
  op_lock ← publish_ops OpLock_new;
  r ← try_eff (
    root_digest ← run_build req runc_path dockerfile;
    let tag := if decide (bq_tag req = EmptyString) then str_take 12 (as_hex root_digest) else bq_tag req in
    on_images_as PublishTags (tag_image root_digest tag) ;;
    mret (root_digest, tag));
  ignore_eff (publish_ops (remove op_lock)) ;;
  lift_result r.

Definition request_build_image (req : BuildRequest) : publish_eff (string * string) :=
  dockerfile ← read_dockerfile (bq_dockerfile req);
  s ← get_world;
  '(root_digest, tag) ← build_and_tag req (runc_of (sv_fs s)) dockerfile;
  (if bq_push req then
     if decide (bq_tag req = EmptyString) then throw PushNeedsTag
     else on_pusher (push fuel (DagPusher_new None (insecure config)) (as_hex root_digest) (bq_tag req)) ;; mret tt
   else mret tt) ;;
  mret (as_hex root_digest, tag).

Definition request_push_image (req : PushImageRequest) : publish_eff (string * Z) :=
  let auth := build_auth (pi_username req) (pi_password req) (pi_token req) in
  on_pusher (push fuel (DagPusher_new auth (insecure config)) (pi_root_digest req) (pi_target_ref req)).

End publish.

(** ** A built image is kept *)

Section kept.
Context {H : Type} `{HttpClient H, HttpUpload H, TempDir H, BuildHost H, OciJson, OciWriteJson, GzDecoder, Puller.Base64}.
Context `{HexLaws, Sha2, RkyvLaws DagNode, EntryJson, LayerTar, ZstdDecoder, JsonText, LayerBuilder, UpperTable, StringsJson}.
Context (config : ServiceConfig) (fuel : nat).

Section pushing.
Context (w0 : World).

#[local] Hint Resolve keeps_adds_get keeps_adds_archived : keeps.

Lemma keeps_read_node d : keeps (adds w0) (read_node d).
Proof. unfold read_node. keeps_solve. Qed.

#[local] Hint Resolve keeps_read_node : keeps.

Lemma keeps_push_entry base acc e : keeps (adds w0) (push_entry base acc e).
Proof. unfold push_entry, append_entry. keeps_solve. Qed.

#[local] Hint Resolve keeps_push_entry : keeps.

Lemma keeps_push_walk n d base acc : keeps (adds w0) (push_walk n d base acc).
Proof. revert d base acc. induction n as [|n IH]; intros d base acc; simpl; keeps_solve. Qed.

Lemma keeps_reconstruct n d c : keeps (adds w0) (push_reconstruct_layer n d c).
Proof. unfold push_reconstruct_layer. keeps_solve; apply keeps_push_walk. Qed.

Definition push_adds (w : PushWorld H) : Prop := adds w0 (pw_store w).

Lemma keeps_pusher_store {A} (m : oci_store_eff A) : keeps (adds w0) m → keeps push_adds (push_store m).
Proof. intros Hm w Hw. specialize (Hm _ Hw). unfold push_store, push_adds. by destruct (m (pw_store w)). Qed.

Lemma keeps_pusher_http r : keeps push_adds (push_http r).
Proof. intros w Hw. unfold push_http. by destruct (upload_send r (pw_net w)). Qed.

#[local] Hint Resolve keeps_reconstruct keeps_pusher_store keeps_pusher_http : keeps.

Lemma keeps_push p root target : keeps push_adds (push fuel p root target).
Proof.
  unfold push, push_manifest_list, push_child, push_oci_manifest, push_layer, put_manifest, upload_blob, push_token.
  keeps_solve.
Qed.

End pushing.

(** Storage only grows, the guard is free, and the locks and the tags are the given ones. *)
Record serving (w0 : World) (o : OpDir) (tags : gmap string string) (s : RuntimeService H) : Prop := {
  sg_adds : adds w0 (im_store (sv_images s));
  sg_free : tags_writer (sv_images s) = false;
  sg_ops : gw_ops (im_gc (sv_images s)) = o;
  sg_tags : image_tags (sv_images s) = tags;
}.

Section serving.
Context (w0 : World) (o : OpDir) (tags : gmap string string).

Lemma keeps_on_builder {A} f (m : eff (BuildWorld H) BuildError.t A) :
  keeps (build_adds w0) m → keeps (serving w0 o tags) (on_builder f m).
Proof.
  intros Hm s [Ha ???]. specialize (Hm (MkBuildWorld (im_store (sv_images s)) (ew_fs (sv_exec s)) (ew_procs (sv_exec s)) ∅) Ha).
  unfold on_builder. by destruct (m _) as [r w].
Qed.

Lemma keeps_on_pusher {A} (m : eff (PushWorld H) OciError.t A) :
  keeps (push_adds w0) m → keeps (serving w0 o tags) (on_pusher m).
Proof.
  intros Hm s [Ha ???]. specialize (Hm (MkPushWorld (im_store (sv_images s)) (ew_procs (sv_exec s))) Ha).
  unfold on_pusher. by destruct (m _) as [r w].
Qed.

Lemma keeps_publish_fs {E A} (m : eff HostFs E A) : keeps (serving w0 o tags) (on_svc_fs m).
Proof. intros s [????]. unfold on_svc_fs. by destruct (m (sv_fs s)). Qed.

#[local] Hint Resolve keeps_on_builder keeps_on_pusher keeps_publish_fs keeps_build keeps_build_multi keeps_push : keeps.

Lemma keeps_read_dockerfile p : keeps (serving w0 o tags) (read_dockerfile p).
Proof. unfold read_dockerfile. keeps_solve. Qed.

Lemma keeps_run_build req runc_path dockerfile : keeps (serving w0 o tags) (run_build config fuel req runc_path dockerfile).
Proof. unfold run_build. keeps_solve. Qed.

Lemma tag_image_serving {F} (f : Images.Status → F) d tag s :
  serving w0 o tags s →
  ∃ s', on_images_as f (tag_image d tag) s = (Ok tt, s') ∧ serving w0 o (<[as_hex d := tag]> tags) s'.
Proof.
  intros [Ha Hl Ho <-]. unfold on_images_as, tag_image. erewrite bind_ok by (by apply write_tags_spec).
  destruct (increment_refcount d (im_store (sv_images s))) as [r w] eqn:E.
  erewrite bind_ok by (apply on_image_store_spec; exact E). rewrite save_image_tags_spec by done.
  eexists. split; [done|]. split; simpl; [|done..]. apply increment_frame in E as Hf.
  pose proof Hf as (_ & _ & Hn & Hb). destruct Ha as [Hi Hn0 Hb0 Hw0]. constructor; [by eapply node_frame_inv|..].
  - intros e b. change (im_store _) with w. rewrite Hn. apply Hn0.
  - intros e b. change (im_store _) with w. rewrite Hb. apply Hb0.
  - intros e b. change (im_store _) with w. rewrite Hn. apply Hw0.
Qed.

End serving.

Lemma publish_ops_serving {A} w0 o tags (m : ops_eff A) s :
  serving w0 o tags s →
  (publish_ops m s).1 = map_err (λ _, PublishOpLock) (m o).1 ∧ serving w0 (m o).2 tags (publish_ops m s).2.
Proof.
  intros [Ha Hl <- Ht]. unfold publish_ops, map_err_eff, on_ops.
  destruct (m (gw_ops (im_gc (sv_images s)))) as [[a|e] o']; by split.
Qed.

(** The lock that was made is gone at the end. *)
Lemma lock_released o l o1 :
  OpLock_new o = (Ok l, o1) → ops (remove l o1).2 ⊆ ops o.
Proof.
  unfold OpLock_new, ops_access, mbind, eff_bind, remove, get_world, modify_world. destruct (ops_fault o) eqn:Ef; [done|].
  intros [= <- <-]. unfold mbind, eff_bind. cbn. rewrite Ef. cbn. rewrite delete_insert_eq. apply delete_subseteq.
Qed.

Lemma build_and_tag_serving w0 o tags req runc_path dockerfile s r s' :
  serving w0 o tags s → build_and_tag config fuel req runc_path dockerfile s = (r, s') →
  ∃ o', ops o' ⊆ ops o ∧
    serving w0 o' match r with Ok (d, tag) => <[as_hex d := tag]> tags | Err _ => tags end s'.
Proof.
  intros Hs. unfold build_and_tag.
  destruct (publish_ops_serving w0 o tags OpLock_new s Hs) as [E1 Hs1].
  intros [(l & s1 & E & Er)|(e & E & ->)]%bind_cases; rewrite E in E1, Hs1;
    destruct (OpLock_new o) as [[l'|e'] o1] eqn:El; simplify_eq/=.
  2: { exists o1. split; [|done]. revert El. unfold OpLock_new, ops_access, mbind, eff_bind.
       destruct (ops_fault o); [by intros [= _ <-]|done]. }
  rewrite try_bind, ignore_bind in Er. unfold lift_result in Er. injection Er as <- <-.
  match goal with |- context [(?m s1).2] => set (body := m) end.
  assert (Hb : serving w0 o1 match (body s1).1 with Ok (d, tag) => <[as_hex d := tag]> tags | Err _ => tags end (body s1).2).
  { subst body. pose proof (keeps_run_build w0 o1 tags req runc_path dockerfile s1 Hs1) as Hk. unfold mbind at 1 3, eff_bind at 1 3.
    destruct (run_build config fuel req runc_path dockerfile s1) as [[d|e] s2]; [|done]. cbv zeta.
    match goal with |- context [tag_image d ?t] =>
      destruct (tag_image_serving w0 o1 tags PublishTags d t s2 Hk) as (s3 & E3 & Hs3) end.
    by erewrite !bind_ok by exact E3. }
  destruct (publish_ops_serving w0 o1 _ (remove l') _ Hb) as [_ Hs2]. eexists. split; [by eapply lock_released|exact Hs2].
Qed.

(** What a request for a build that answers [r] leaves in [s'], having found [s]. *)
Definition build_kept (s s' : RuntimeService H) (r : result PublishError (string * string)) : Prop :=
  adds (im_store (sv_images s)) (im_store (sv_images s')) ∧
  ops (gw_ops (im_gc (sv_images s'))) ⊆ ops (gw_ops (im_gc (sv_images s))) ∧
  match r with
  | Ok (root, tag) =>
    image_tags (sv_images s') = <[root := tag]> (image_tags (sv_images s)) ∧
    ∃ d, root = as_hex d ∧
      ∀ dry_run force g i x, gc dry_run force (sv_images s') = (g, i) →
        rtc (edge (im_store (sv_images s'))) d x → is_Some (node_file (im_store (sv_images s')) x) →
        node_file (im_store i) x = node_file (im_store (sv_images s')) x ∧
        blob_file (im_store i) x = blob_file (im_store (sv_images s')) x
  | Err (PushFailed _ | PushNeedsTag) => True
  | Err _ => image_tags (sv_images s') = image_tags (sv_images s)
  end.


End kept.
