(* ===== verification/Handlers.v ===== *)
(** * More handlers of the runtime service: [runtime/pullrun-runtime/src/service.rs]

    Inspecting a workload's image, copying files in and out of a workload, committing
    and comparing its root file system, networks, and pruning. *)

From stdpp Require Import base gmap strings list sorting pretty.
From Stdlib Require Import ZArith Ascii.
From S2P Require Import Prelude Strs Utf8 Crates Node Fs Worklist Store OpLock Gc OciTypes HostFs.
From S2P Require Import Convert Materialize Secrets Net Exec Container Scan Workload Images Service.

Inductive HandlerError :=
| IdRequired
| CopyArgsRequired
| NoWorkload (id : string)
| NotMaterialized (id : string)
| Unresolved (e : errno)
| Escapes
| NoFileName
| FileMissing (e : errno)
| NotAFile
| CopyIo (e : errno)
| BadDirection (s : string)
| NetworkNameRequired
| BridgeFailed
| NetworksIo
| CommitDigest (e : DigestError)
| CommitManifest (e : OciError.t)
| CommitFailed (e : OciError.t)
| CommitOpLock
| CommitTags (e : Images.Status)
| WalkRootfs (e : errno)
| WalkFuel
| ParseImage (e : DigestError)
| ReadImage (e : StoreError)
| NotManifestNode.

Definition handler_code (e : HandlerError) : Code :=
  match e with
  | IdRequired | CopyArgsRequired | Escapes | NoFileName | NotAFile | BadDirection _ | NetworkNameRequired => InvalidArgument
  | NoWorkload _ | FileMissing _ => NotFoundCode
  | NotMaterialized _ => FailedPreconditionCode
  | CommitTags _ | WalkFuel => NoCode
  | _ => InternalCode
  end.

(** ** Walking a stored image *)

Record DagNodeInfo := MkDagNodeInfo { di_digest : string; di_kind : string }.

Definition kind_name (n : DagNode) : string :=
  if DagNode.is_manifest n then "manifest"
  else if DagNode.is_tree n then "tree"
  else if DagNode.is_layer n then "layer"
  else if DagNode.is_blob n then "blob"
  else "unknown".

Section walk.
Context `{Hex, Sha2, Rkyv DagNode, EntryJson}.

(** A node that cannot be read is skipped; [size_bytes] is always 0. *)
Definition walk_dag_body (d : Digest) : eff (World * list DagNodeInfo) StoreError (list Digest) :=
  r ← try_eff (on_world (get_archived d));
  match r with
  | Ok n => on_locals (λ out, out ++ [MkDagNodeInfo (as_hex d) (kind_name n)]) ;; mret (edges n)
  | Err _ => mret []
  end.

Definition walk_dag (image_root : string) : store_eff (list DagNodeInfo) :=
  let queue :=
    if decide (image_root = EmptyString) then []
    else match from_hex image_root with Ok d => [d] | Err _ => [] end in
  traverse walk_dag_body queue [].

(** The files of a tree by path; [fuel] is the depth. *)
Fixpoint walk_tree_node (fuel : nat) (tree_digest : Digest) (prefix : string) (files : gmap string string)
    : eff World HandlerError (gmap string string) :=
  match fuel with
  | O => throw WalkFuel
  | S fuel =>
    tree_node ← map_err_eff ReadImage (get_deserialized tree_digest);
    if DagNode.is_tree tree_node then
      fold_eff (λ files e,
        let child_path := sub_path prefix (de_name e) in
        if de_is_dir e then walk_tree_node fuel (de_digest e) child_path files
        else mret (<[child_path := as_hex (de_digest e)]> files)) files (from_inline_bytes (inline_data tree_node))
    else mret files
  end.

Definition walk_layer (fuel : nat) (files : gmap string string) (layer : Digest)
    : eff World HandlerError (gmap string string) :=
  layer_node ← map_err_eff ReadImage (get_deserialized layer);
  if DagNode.is_layer layer_node then
    match edges layer_node with
    | tree_digest :: _ => walk_tree_node fuel tree_digest EmptyString files
    | [] => mret files
    end
  else mret files.

Definition walk_dag_tree (fuel : nat) (manifest_digest : string) : eff World HandlerError (gmap string string) :=
  digest ← lift_result (map_err ParseImage (from_hex manifest_digest));
  manifest_node ← map_err_eff ReadImage (get_deserialized digest);
  if DagNode.is_manifest manifest_node then fold_eff (walk_layer fuel) ∅ (edges manifest_node)
  else throw NotManifestNode.

End walk.

(** ** Inspecting *)

Record InspectResponse := MkInspect {
  ir_id : string;
  ir_state : string;
  ir_backend : string;
  ir_image_root : string;
  ir_internal_ip : string;
  ir_pid : Z;
  ir_start_time : Z;
  ir_exit_time : Z;
  ir_exit_code : Z;
  ir_command : list string;
  ir_network_rules : list ProtoRule;
  ir_dag_path : list DagNodeInfo;
  ir_policy_decisions : gmap string string;
  ir_found : bool;
  ir_restart_policy : Z;
  ir_restart_count : Z;
}.

Definition proto_of_rule (r : NetworkRule) : ProtoRule :=
  MkProtoRule (match direction r with Inbound => "inbound" | Outbound => "outbound" end)
    (match protocol r with Tcp => "tcp" | Udp => "udp" end)
    (port r) (host_port r) (default EmptyString (to_host r)) (default [] (from_cidrs r)).

(** ** Paths and text *)

Fixpoint trim_start_slashes (s : string) : string :=
  match s with
  | String c s' => if decide (c = "/"%char) then trim_start_slashes s' else s
  | EmptyString => EmptyString
  end.

(** [Path::file_name]: none for the root and for [..]. *)
Definition path_file_name (p : path) : option string :=
  match last p with
  | Some c => if decide (c = "..") then None else Some c
  | None => None
  end.

(** The bits of a regular file in [st_mode]. *)
Definition S_IFREG : Z := 32768.

Record CopyRequest := MkCopyRequest {
  cq_id : string;
  cq_container_path : string;
  cq_direction : string;
  cq_content : bytes;
  cq_mode : Z;
}.

Record CopyResponse := MkCopyResponse { cpr_content : bytes; cpr_mode : Z; cpr_size : Z }.

(** ** Networks *)

Definition networks_registry_path (store_root : path) : path := path_join store_root "networks.json".

(** The first octet of the hash gives the third of the subnet. *)
Definition network_subnet_for `{Sha2} (name : string) : string :=
  let hash0 := default 0%Z (u8_of <$> head (arr_bytes (sha256 (as_bytes name)))) in
  "10.43." +:+ pretty (hash0 `mod` 255 + 1)%Z +:+ ".0/24".

(** [HashMap<String, String>] as JSON; an object with a member that is not a string
    does not parse. *)
Definition map_json (m : gmap string string) : Json := obj ((λ kv, (kv.1, JStr kv.2)) <$> map_to_list m).

Definition map_of_json (v : Json) : option (gmap string string) :=
  l ← as_object v;
  foldl (λ acc kv, m ← acc; s ← as_str kv.2; Some (<[kv.1 := s]> m)) (Some ∅) l.

Definition parse_networks `{JsonText} (data : bytes) : gmap string string :=
  default ∅ (v ← json_from_slice data; map_of_json v).

Definition read_networks (store_root : path) : host_eff bytes :=
  data ← read_host (networks_registry_path store_root);
  match from_utf8 data with
  | Some _ => mret data
  | None => throw EINVAL
  end.

Definition persist_network `{JsonText} (store_root : path) (name subnet : string) : host_eff unit :=
  fs ← get_world;
  networks ← (if path_exists (networks_registry_path store_root) fs
              then data ← read_networks store_root; mret (parse_networks data)
              else mret ∅);
  write_host (networks_registry_path store_root) (json_to_string_pretty (map_json (<[name := subnet]> networks))).

Definition unpersist_network `{JsonText} (store_root : path) (name : string) : host_eff unit :=
  fs ← get_world;
  if path_exists (networks_registry_path store_root) fs then
    data ← read_networks store_root;
    write_host (networks_registry_path store_root) (json_to_string_pretty (map_json (delete name (parse_networks data))))
  else mret tt.

Definition name_le (a b : string * string) : Prop := String.leb a.1 b.1 = true.

#[global] Instance name_le_dec a b : Decision (name_le a b).
Proof. unfold name_le. apply _. Defined.

Definition list_persisted_networks `{JsonText} (store_root : path) : host_eff (list (string * string)) :=
  fs ← get_world;
  if path_exists (networks_registry_path store_root) fs then
    data ← read_networks store_root;
    mret (merge_sort name_le (map_to_list (parse_networks data)))
  else mret [].

Record NetworkInfo := MkNetworkInfo { ni_name : string; ni_bridge_name : string; ni_subnet : string; ni_attached : nat }.

(** ** The root file system of a workload as a map *)

(** The files below a directory with the hash of their content or link target; [fuel]
    is the depth. *)
Fixpoint walk_dir_recursive `{Hex, Sha2} (fuel : nat) (root dir : path) (files : gmap string string)
    : eff HostFs HandlerError (gmap string string) :=
  match fuel with
  | O => throw WalkFuel
  | S fuel =>
    entries ← map_err_eff WalkRootfs (read_dir dir);
    fold_eff (λ files p,
      fs ← get_world;
      let relative := path_to_rel root p in
      if decide (relative = EmptyString) then mret files
      else
        match icontent <$> fs !! p with
        | Some Dir => walk_dir_recursive fuel root p files
        | Some (File _) =>
          content ← map_err_eff WalkRootfs (read_host p);
          mret (<[relative := as_hex (compute content)]> files)
        | Some (Symlink target) => mret (<[relative := as_hex (compute (as_bytes (lossy_text target)))]> files)
        | None => throw (WalkRootfs ENOENT)
        end) files entries
  end.

Definition walk_rootfs_for_diff `{Hex, Sha2} (fuel : nat) (root : path) : eff HostFs HandlerError (gmap string string) :=
  root ← map_err_eff WalkRootfs (canonicalize root);
  walk_dir_recursive fuel root root ∅.

Record DiffResponse := MkDiff { added : list string; deleted : list string; modified : list string }.

#[global] Instance leb_dec (a b : string) : Decision (String.leb a b = true) := _.

Definition sort_paths (l : list string) : list string := merge_sort (λ a b, String.leb a b = true) l.

(** The comparison of the two maps. *)
Definition compare_files (container original : gmap string string) : DiffResponse :=
  MkDiff (sort_paths (filter (λ p, original !! p = None) (map_to_list container).*1))
    (sort_paths (filter (λ p, container !! p = None) (map_to_list original).*1))
    (sort_paths (filter (λ p, is_Some (original !! p) ∧ original !! p ≠ container !! p) (map_to_list container).*1)).

Section handlers.
Context {H : Type} `{Processes H, Hex, Sha2, Rkyv DagNode, EntryJson, JsonText}.
Context (config : ServiceConfig) (fuel : nat).

Abbreviation rpc_eff := (eff (RuntimeService H) HandlerError).

Definition on_files_err {A} (f : errno → HandlerError) (m : host_eff A) : rpc_eff A := map_err_eff f (on_svc_fs m).

(** An id that is unknown is answered with [found = false]. *)
Definition inspect_workload (id : string) : rpc_eff InspectResponse :=
  s ← get_world;
  match sv_workloads s !! id with
  | None => mret (MkInspect id "unknown" EmptyString EmptyString EmptyString 0 0 0 0 [] [] [] ∅ false 0 0)
  | Some st =>
    dag_path ← map_err_eff ReadImage (on_svc_store (walk_dag (image_root st)));
    mret (MkInspect id (Workload.status st) (Workload.backend st) (image_root st) (default EmptyString (internal_ip st))
            (pid st) (start_time st) (exit_time st) (default 0%Z (exit_code st)) (command st)
            (proto_of_rule <$> network_rules st) dag_path (policy_decisions st) true
            (restart_proto (restart_policy st)) (restart_count st))
  end.

Definition find_workload (id : string) : rpc_eff WorkloadState :=
  s ← get_world;
  lift_result (ok_or (sv_workloads s !! id) (NoWorkload id)).

Definition workload_rootfs (id : string) (st : WorkloadState) : rpc_eff path :=
  if decide (Workload.backend st ∈ ["vm"; "sandbox"]) then
    s ← get_world;
    lift_result (ok_or (rootfs_cache s !! id) (NotMaterialized id))
  else mret (path_join (path_join (bundle_root config) id) "rootfs").

(** *** Copying *)

(** The checks that keep the path inside the root file system. *)
Definition resolve_in (rootfs full_path : path) : rpc_eff path :=
  parent_canonical ← on_files_err Unresolved (canonicalize (parent full_path));
  if path_starts_with parent_canonical rootfs then
    name ← lift_result (ok_or (path_file_name full_path) NoFileName);
    mret (parent_canonical ++ [name])
  else throw Escapes.

Definition copy_path (rootfs : path) (req : CopyRequest) : rpc_eff path :=
  let full_path := path_join rootfs (trim_start_slashes (cq_container_path req)) in
  canonical ← (if decide (cq_direction req = "in") then resolve_in rootfs full_path
               else on_files_err Unresolved (canonicalize full_path));
  if path_starts_with canonical rootfs then mret canonical else throw Escapes.

Definition stat_response (content : bytes) (i : inode) : CopyResponse :=
  MkCopyResponse content (S_IFREG + fmode (imeta i))
    match icontent i with File d => Z.of_nat (length d) | _ => 0 end.

Definition copy_out (canonical : path) : rpc_eff CopyResponse :=
  i ← on_files_err FileMissing (metadata canonical);
  match icontent i with
  | File _ =>
    content ← on_files_err CopyIo (read_host canonical);
    mret (stat_response content i)
  | _ => throw NotAFile
  end.

(** [write] and [set_permissions] follow a link at the path. *)
Definition copy_in (canonical : path) (req : CopyRequest) : rpc_eff CopyResponse :=
  on_files_err CopyIo (create_dir_all (parent canonical)) ;;
  on_files_err CopyIo (write_host canonical (cq_content req)) ;;
  (if decide (cq_mode req = 0)%Z then mret tt else on_files_err CopyIo (chmod canonical (Z.land (cq_mode req) 4095))) ;;
  i ← on_files_err CopyIo (metadata canonical);
  mret (stat_response [] i).

Definition copy_file (req : CopyRequest) : rpc_eff CopyResponse :=
  if decide (cq_id req = EmptyString ∨ cq_container_path req = EmptyString) then throw CopyArgsRequired
  else
    st ← find_workload (cq_id req);
    rootfs ← workload_rootfs (cq_id req) st;
    canonical ← copy_path rootfs req;
    if decide (cq_direction req = "out") then copy_out canonical
    else if decide (cq_direction req = "in") then copy_in canonical req
    else throw (BadDirection (cq_direction req)).

(** *** Committing *)

(** The lock file goes away with [op_lock]. *)
Definition commit_image (id tag : string) : rpc_eff (string * Z) :=
  if decide (id = EmptyString) then throw IdRequired
  else
    st ← find_workload id;
    rootfs ← workload_rootfs id st;
    root ← lift_result (map_err CommitDigest (from_hex (image_root st)));
    md ← map_err_eff CommitManifest (on_svc_mat (materialize_manifest root));
    op_lock ← map_err_eff (λ _, CommitOpLock) (on_ops OpLock_new);
    r ← try_eff (on_svc_mat (build_dag_from_directory_with_platform fuel rootfs (md_architecture md) (md_os md)));
    match r with
    | Err e => ignore_eff (on_ops (remove op_lock)) ;; throw (CommitFailed e)
    | Ok dag =>
      on_images_as CommitTags (tag_commit (dd_manifest_digest dag) tag) ;;
      ignore_eff (on_ops (remove op_lock)) ;;
      mret (as_hex (dd_manifest_digest dag), dd_node_count dag)
    end.

(** *** Comparing *)

Definition diff_workload (id : string) : rpc_eff DiffResponse :=
  if decide (id = EmptyString) then throw IdRequired
  else
    st ← find_workload id;
    rootfs ← workload_rootfs id st;
    container_files ← on_svc_fs (walk_rootfs_for_diff fuel rootfs);
    original_files ← on_svc_store (walk_dag_tree fuel (image_root st));
    mret (compare_files container_files original_files).

(** *** Networks *)

(** [Command::status]: whether the command succeeded, if it could be started. *)
Definition on_cmd (cmd : string) (args : list string) : rpc_eff bool :=
  o ← map_err_eff (λ _ : ExecError, BridgeFailed) (on_exec (exec_cmd cmd args));
  match o with
  | SpawnFailed => throw BridgeFailed
  | o => mret (success o)
  end.

(** A bridge that exists already is no error, and is not set up again. *)
Definition bridge_create (name : string) : rpc_eff unit :=
  created ← on_cmd "ip" ["link"; "add"; name; "type"; "bridge"];
  if (created : bool) then on_cmd "ip" ["link"; "set"; name; "up"] ;; mret tt else mret tt.

Definition bridge_delete (name : string) : rpc_eff unit :=
  on_cmd "ip" ["link"; "delete"; name] ;; mret tt.

Definition create_network (name subnet : string) : rpc_eff (string * string) :=
  if decide (name = EmptyString) then throw NetworkNameRequired
  else
    bridge_create name ;;
    let subnet := or_text subnet (network_subnet_for name) in
    on_files_err (λ _, NetworksIo) (persist_network (store_root config) name subnet) ;;
    mret (name, subnet).

Definition remove_network (name : string) : rpc_eff bool :=
  if decide (name = EmptyString) then throw NetworkNameRequired
  else
    on_files_err (λ _, NetworksIo) (unpersist_network (store_root config) name) ;;
    bridge_delete name ;;
    mret true.

Definition attached_workloads (wl : gmap string WorkloadState) (name : string) : nat :=
  length (filter (λ kv, bridge_name kv.2 = Some name) (map_to_list wl)).

Definition list_networks : rpc_eff (list NetworkInfo) :=
  r ← try_eff (on_svc_fs (list_persisted_networks (store_root config)));
  s ← get_world;
  mret ((λ kv : string * string, MkNetworkInfo kv.1 kv.1 kv.2 (attached_workloads (sv_workloads s) kv.1)) <$> default [] (ok r)).

(** *** Pruning *)

(** The directories in [dir] whose name is not that of a workload are removed; the
    result is the number removed.  The sizes added up in [bytes_freed] are those of
    directory inodes, which the model does not have. *)
Definition prune_entry (active : gset string) (removed : Z) (p : path) : rpc_eff Z :=
  s ← get_world;
  if negb (is_dir p (sv_fs s)) then mret removed
  else if decide (lossy_text (file_name p) ∈ active) then mret removed
  else
    r ← try_eff (on_svc_fs (remove_dir_all p));
    mret match r with Ok _ => (removed + 1)%Z | Err _ => removed end.

Definition prune_dir (active : gset string) (dir : path) : rpc_eff Z :=
  r ← try_eff (on_svc_fs (read_dir dir));
  match r with
  | Ok entries => fold_eff (prune_entry active) 0%Z entries
  | Err _ => mret 0%Z
  end.

Definition not_exited (kv : string * WorkloadState) : Prop := Workload.status kv.2 ≠ "exited".

Definition prune : rpc_eff Z :=
  modify_world (λ s, set_workloads (filter not_exited (sv_workloads s)) s) ;;
  s ← get_world;
  let active : gset string := dom (sv_workloads s) in
  bundles_removed ← prune_dir active (path_join (store_root config) "bundles");
  for_each (λ kv : string * path, if decide (kv.1 ∈ active) then mret tt else ignore_eff (on_svc_fs (remove_dir_all kv.2)))
    (map_to_list (rootfs_cache s)) ;;
  modify_world (λ s, with_rootfs_cache (filter (λ kv, kv.1 ∈ active) (rootfs_cache s)) s) ;;
  prune_dir active (path_join (path_join (store_root config) "run") "secrets-stage") ;;
  mret bundles_removed.

End handlers.
