(* ===== verification/Requests.v ===== *)
(** * The handlers as tasks: [runtime/pullrun-runtime/src/service.rs]

    The handlers that wait for the executor or the network, cut where they wait.  The
    pieces are those of [Service.v], in the same order; the other handlers are short
    and make one piece. *)

From stdpp Require Import base gmap strings list pretty.
From Stdlib Require Import ZArith.
From S2P Require Import Prelude Strs Utf8 Crates Node Fs Store OpLock Gc OciTypes HostFs Tasks.
From S2P Require Import Puller Convert Materialize Bloom Policy Secrets Ipam Net Exec Container Rootless Kernel.
From S2P Require Sync.
From S2P Require Import Workload Images Service Handlers.

(** The requests that change the state of the service. *)
Inductive Request :=
| ReqRun (req : RunRequest)
| ReqStop (id : string)
| ReqPull (req : PullRequest)
| ReqCompose (project_name : string) (services : list ComposeService)
| ReqExec (id : string) (command : list string)
| ReqUpdate (id : string) (cpu mem : Z)
| ReqStats (id : string)
| ReqRemoveImage (root_digest : string)
| ReqGc (dry_run force : bool)
| ReqInspect (id : string)
| ReqCopy (req : CopyRequest)
| ReqCommit (id tag : string)
| ReqDiff (id : string)
| ReqCreateNetwork (name subnet : string)
| ReqRemoveNetwork (name : string)
| ReqPrune.

Section requests.
Context {H : Type} `{Processes H, HttpClient H, Sync.PeerNet H, Sync.Clock H, TempDir H, DefaultHasher, Hex, Sha2}.
Context `{Rkyv DagNode, EntryJson, JsonText, OciJson, GzDecoder, Puller.Base64, LayerTar, ZstdDecoder, StateJson, Lowercase}.
Context `{Aes256Gcm, OsRng, CharClass, Ed25519, Rkyv SignatureBlob, Rkyv SbomBlob}.
Context (config : ServiceConfig) (router : ExecutorRouter H) (policy_engine : option PolicyEngine).
Context (error_text : SvcError → string) (fuel : nat).

Abbreviation svc_task := (task (RuntimeService H) SvcError).

(** ** Running *)

Definition prepare_task (req : RunRequest) : svc_task WorkloadSpec :=
  b ← Answer (map_err BadBackend (Backend.from_str (rq_backend req)));
  atomic (check_join req b (parse_network_mode (rq_network_mode req) (has_inbound_ports req))) ;;
  atomic (stage_kernel config error_text fuel req b) ;;
  atomic (evaluate_for_run policy_engine (rq_root_digest req)) ;;
  atomic (check_arch config req b) ;;
  s ← atomic get_world;
  let kernel_path := vmlinux_path <$> cached_kernel s (rq_kernel_image req) in
  extra_mounts ← atomic (stage_refs config req);
  s ← atomic get_world;
  Answer (map_err MountRejected (sanitize_mounts (sv_fs s) (cwd config) (store_root config) (rq_mounts req))) ;;
  image_root ← Answer (map_err BadRootDigest (from_hex (rq_root_digest req)));
  mret (spec_of_run policy_engine req b image_root kernel_path extra_mounts).

Definition launch_task (req : RunRequest) (spec : WorkloadSpec) : svc_task ProcessHandle :=
  let backend_label := Backend.as_str (ws_backend spec) in
  atomic (event (rq_id req) EventKind.BackendSelected
    [("requested_backend", backend_label); ("selected_backend", backend_label); ("image_root", rq_root_digest req)]) ;;
  r ← atomic (try_eff (on_exec (router_create router spec)));
  match r with
  | Err e => atomic (started_failed error_text (rq_id req) backend_label "create_failed" (CreateFailed e))
  | Ok handle =>
    r ← atomic (try_eff (on_exec (router_start router handle)));
    match r with
    | Err e => atomic (started_failed error_text (rq_id req) (ph_backend handle) "start_failed" (StartFailed e))
    | Ok handle => mret handle
    end
  end.

Definition run_task (req : RunRequest) : svc_task RunResponse :=
  Answer (map_err BadId (validate_workload_id (rq_id req))) ;;
  let req := with_root_digest (strip_sha256 (rq_root_digest req)) req in
  spec ← prepare_task req;
  handle ← launch_task req spec;
  atomic (record_run config policy_engine req spec handle).

(** ** Stopping *)

(** Whether a failed stop of the executor ends the request. *)
Definition is_vm (id : string) (s : RuntimeService H) : bool :=
  match sv_workloads s !! id with
  | Some st => bool_decide (Workload.backend st = "vm")
  | None => false
  end.

Definition stop_task (id : string) : svc_task bool :=
  Answer (map_err BadId (validate_workload_id id)) ;;
  s ← atomic get_world;
  match sv_workloads s !! id with
  | None => Answer (Err (WorkloadNotFound id))
  | Some st =>
    if decide (Workload.status st = "running") then
      r ← atomic (try_eff (on_exec (router_stop router id)));
      match r with
      | Ok _ => atomic (finish_stop config id) ;; mret true
      | Err e =>
        s ← atomic get_world;
        if is_vm id s then atomic (finish_stop config id) ;; mret true else Answer (Err (StopFailed e))
      end
    else mret true
  end.

(** ** Pulling *)

Definition pull_task (req : PullRequest) : svc_task PullResponse :=
  let image_ref := pq_image_ref req in
  known ← atomic (on_images (local_tag image_ref));
  match known with
  | Some digest => mret (MkPullResponse digest 0)
  | None =>
    let registry_label := default "default" (some_text (pq_registry req)) in
    r ← atomic (try_eff (fetch config fuel req));
    match r with
    | Err e => atomic (pull_failed error_text image_ref registry_label e)
    | Ok pulled =>
      op_lock ← atomic (on_ops OpLock_new);
      r ← atomic (try_eff (on_svc_store (convert fuel pulled)));
      match r with
      | Err e =>
        atomic (ignore_eff (on_ops (remove op_lock)) ;;
                pull_failed error_text image_ref registry_label (ConversionFailed e))
      | Ok root_digest =>
        atomic (on_images (tag_image root_digest image_ref)) ;;
        atomic (ignore_eff (on_ops (remove op_lock))) ;;
        r ← atomic (try_eff (evaluate_pulled policy_engine image_ref root_digest));
        match r with
        | Err e =>
          atomic (event image_ref EventKind.PolicyDenied
            [("registry", registry_label); ("phase", "pull"); ("reason", error_text e)]) ;;
          Answer (Err e)
        | Ok _ =>
          s ← atomic get_world;
          let already_present := exists_ (im_store (sv_images s)) root_digest in
          atomic (event image_ref (if already_present then EventKind.ImageDeduped else EventKind.ImagePulled)
            [("registry", registry_label); ("root_digest", as_hex root_digest);
             ("bytes_stored", pretty (bytes_stored pulled))]) ;;
          mret (MkPullResponse (as_hex root_digest) (bytes_stored pulled))
        end
      end
    end
  end.

(** ** Compose projects *)

Definition compose_service_task (project_name : string) (c : ComposeService) : svc_task (string * string) :=
  if decide (cs_name c = EmptyString) then Answer (Err ServiceNameEmpty)
  else
    root_digest ←
      (if decide (cs_root_digest c = EmptyString) then
         r ← pull_task (MkPullRequest (cs_image c) EmptyString EmptyString EmptyString EmptyString EmptyString);
         mret (pp_root_digest r)
       else mret (cs_root_digest c));
    r ← run_task (compose_request (project_name +:+ "-" +:+ cs_name c) root_digest c);
    mret (cs_name c, rr_id r).

Definition compose_task (project_name : string) (services : list ComposeService)
    : svc_task (list string * gmap string string) :=
  l ← map_task (compose_service_task project_name) services;
  mret (l.*2, foldl (λ m kv, <[kv.1 := kv.2]> m) ∅ l).

(** ** Requests *)

Definition finished {A} (t : svc_task A) : svc_task unit := t ;; mret tt.

Definition task_of (r : Request) : svc_task unit :=
  match r with
  | ReqRun req => finished (run_task req)
  | ReqStop id => finished (stop_task id)
  | ReqPull req => finished (pull_task req)
  | ReqCompose project_name services => finished (compose_task project_name services)
  | ReqExec id command => atomic (ignore_eff (exec_in_workload router id command))
  | ReqUpdate id cpu mem => atomic (ignore_eff (update_workload router id cpu mem))
  | ReqStats id => atomic (ignore_eff (get_workload_stats router id))
  | ReqRemoveImage d => atomic (ignore_eff (on_images (remove_image d)))
  | ReqGc dry_run force => atomic (ignore_eff (on_images (gc dry_run force)))
  | ReqInspect id => atomic (ignore_eff (inspect_workload id))
  | ReqCopy req => atomic (ignore_eff (copy_file config req))
  | ReqCommit id tag => atomic (ignore_eff (commit_image config fuel id tag))
  | ReqDiff id => atomic (ignore_eff (diff_workload config fuel id))
  | ReqCreateNetwork name subnet => atomic (ignore_eff (create_network config name subnet))
  | ReqRemoveNetwork name => atomic (ignore_eff (remove_network config name))
  | ReqPrune => atomic (ignore_eff (prune config))
  end.

(** The state after a request that nobody interrupts.  A handler that fails has changed
    the state up to the failure. *)
Definition serve (r : Request) (s : RuntimeService H) : RuntimeService H :=
  match r with
  | ReqRun req => (run_workload config router policy_engine error_text fuel req s).2
  | ReqStop id => (stop_workload config router id s).2
  | ReqPull req => (pull_image config policy_engine error_text fuel req s).2
  | ReqCompose project_name services => (run_compose config router policy_engine error_text fuel project_name services s).2
  | ReqExec id command => (exec_in_workload router id command s).2
  | ReqUpdate id cpu mem => (update_workload router id cpu mem s).2
  | ReqStats id => (get_workload_stats router id s).2
  | ReqRemoveImage d => (on_images (remove_image d) s).2
  | ReqGc dry_run force => (on_images (gc dry_run force) s).2
  | ReqInspect id => (inspect_workload id s).2
  | ReqCopy req => (copy_file config req s).2
  | ReqCommit id tag => (commit_image config fuel id tag s).2
  | ReqDiff id => (diff_workload config fuel id s).2
  | ReqCreateNetwork name subnet => (create_network config name subnet s).2
  | ReqRemoveNetwork name => (remove_network config name s).2
  | ReqPrune => (prune config s).2
  end.

End requests.
