(* ===== verification/Watcher.v ===== *)
(** * The daemon: recovery, watchers and requests: [runtime/pullrun-runtime/src/service.rs]

    What the daemon does besides answering a request: it recovers workloads from their
    checkpoints when it starts, notices that they exit, restarts them, and checks their
    health.  The two watchers and the requests share the state; [step] interleaves
    them.  A watcher, like a request, lets others run where its task waits: for the
    executor, for the end of a pause, and for the table of workloads. *)

From stdpp Require Import base gmap strings list pretty.
From Stdlib Require Import ZArith Ascii.
From S2P Require Import Prelude Strs Utf8 Crates Node Fs Store OpLock Gc OciTypes HostFs Tasks.
From S2P Require Import Puller Convert Materialize Bloom Policy Secrets Ipam Net Exec Container Rootless Kernel.
From S2P Require Sync.
From S2P Require Import Workload Images Service Handlers Requests.

Definition dquote : string := String (ascii_of_nat 34) EmptyString.
Definition quoted (s : string) : string := dquote +:+ s +:+ dquote.

(** ** Restarting *)

Definition wants_restart (p : RestartPolicy.t) (code : option Z) : bool :=
  match p with
  | RestartPolicy.Always | RestartPolicy.UnlessStopped => true
  | RestartPolicy.OnFailure => bool_decide (code ≠ Some 0%Z)
  | RestartPolicy.No => false
  end.

(** 1, 2, 4, 8, 16, and then 30 seconds. *)
Definition backoff_secs (restart_count : Z) : Z := Z.min (Z.shiftl 1 (Z.min restart_count 63)) 30.

(** What [attempt_restart] keeps while it sleeps. *)
Record RestartPlan := MkPlan {
  rp_id : string;
  rp_backend : string;
  rp_state : WorkloadState;
  rp_wake : Z;
}.

(** The mode of a checkpoint without one is guessed. *)
Definition restart_network_mode (st : WorkloadState) : string :=
  if decide (network_mode st ≠ EmptyString) then network_mode st
  else if decide (is_Some (internal_ip st)) then "bridge" else "isolated".

Definition plan_restart (now : Z) (wl : gmap string WorkloadState) (id backend : string) : option RestartPlan :=
  st ← wl !! id;
  if decide (status st ≠ "exited") then None
  else Some (MkPlan id backend st (now + backoff_secs (restart_count st))).

Definition restart_spec `{Lowercase, Hex} (p : RestartPlan) : option WorkloadSpec :=
  let st := rp_state p in
  b ← ok (Backend.from_str (rp_backend p));
  d ← ok (from_hex (image_root st));
  Some (MkSpec (rp_id p) d b (command st) (env st) (cpu_millicores st) (memory_bytes st)
          (parse_network_mode (restart_network_mode st) (bool_decide (network_rules st ≠ []))) (network_rules st) None
          (bridge_name st) (mounts st) (health_check st) RestartPolicy.Always (readonly_rootfs st)
          (no_new_privileges st) (seccomp_profile st) (allowed_syscalls st) (privileged st) (dns st)).

(** ** Health *)

Record Probe := MkProbe {
  pb_id : string;
  pb_test : list string;
  pb_timeout : Z;
  pb_retries : Z;
  pb_grace_end : Z;
}.

Definition probe_of (id : string) (st : WorkloadState) (hc : HealthCheck) : Probe :=
  MkProbe id (hc_test hc) (Z.max (timeout_seconds hc) 1) (Z.max (retries hc) 1)
    (start_time st + start_period_seconds hc).

(** Whether a tick probes a workload. *)
Definition due `{DefaultHasher} (now : Z) (id : string) (st : WorkloadState) (hc : HealthCheck) : bool :=
  bool_decide (wrap64 (now + hash_str id) `mod` Z.max (interval_seconds hc) 1 = 0)%Z
  || bool_decide (wrap64 (start_time st + start_period_seconds hc) ≤ now)%Z.

Definition probes `{DefaultHasher} (now : Z) (wl : gmap string WorkloadState) : list Probe :=
  omap (λ '(id, st),
    if decide (status st = "running") then
      hc ← health_check st;
      if due now id st hc then Some (probe_of id st hc) else None
    else None) (map_to_list wl).

(** The effect of one answer. *)
Definition health_result (healthy : bool) (retries now : Z) (st : WorkloadState) : WorkloadState :=
  if healthy then set_health "healthy" 0 now st
  else
    let failures := wrap32 (health_failures st + 1) in
    let h :=
      if decide (retries ≤ failures)%Z then "unhealthy"
      else if decide (health st = "unhealthy") then "unhealthy" else "starting" in
    set_health h failures (health_last_success st) st.

(** ** The system *)

(** Where the exit watcher is: before a round; between two workloads; with the
    executor's answer on one; about to read the record of one that exited; in the
    pause before a restart; with a started workload not yet recorded.  The workloads
    that are still to be looked at come last. *)
Inductive phase :=
| Idle
| Scanning (todo : list (string * string))
| Answered (id backend : string) (answer : result ExecError string) (todo : list (string * string))
| Planning (id backend : string) (todo : list (string * string))
| Sleeping (plan : RestartPlan) (todo : list (string * string))
| Starting (plan : RestartPlan) (handle : ProcessHandle) (todo : list (string * string)).

Record Watcher := MkWatcher { announced : gset string; w_phase : phase }.

(** The probes of a tick that are left, and one that was answered, with the time at
    which it began. *)
Record Health := MkHealth { h_todo : list Probe; h_answer : option (Probe * Z * bool) }.

Record System (H : Type) := MkSystem {
  sys_service : RuntimeService H;
  sys_watcher : Watcher;
  sys_health : Health;
  sys_tasks : list (task (RuntimeService H) SvcError unit);
}.

Arguments MkSystem {H}.
Arguments sys_service {H}.
Arguments sys_watcher {H}.
Arguments sys_health {H}.
Arguments sys_tasks {H}.

(** What a look at one workload leads to. *)
Inductive scan_result :=
| NextWorkload
| TryRestart
| Announce.

Section daemon.
Context {H : Type} `{Processes H, HttpClient H, Sync.PeerNet H, Sync.Clock H, TempDir H, DefaultHasher, Hex, Sha2}.
Context `{Rkyv DagNode, EntryJson, JsonText, OciJson, GzDecoder, Puller.Base64, LayerTar, ZstdDecoder, StateJson, Lowercase}.
Context `{Aes256Gcm, OsRng, CharClass, Ed25519, Rkyv SignatureBlob, Rkyv SbomBlob}.
Context (config : ServiceConfig) (router : ExecutorRouter H) (policy_engine : option PolicyEngine).
Context (error_text : SvcError → string) (fuel : nat).

Abbreviation svc_eff := (eff (RuntimeService H) SvcError).

Definition put_workload (id : string) (st : WorkloadState) : svc_eff unit :=
  modify_world (λ s, set_workloads (<[id := st]> (sv_workloads s)) s).

(** *** The exit watcher *)

Definition snapshot (s : RuntimeService H) : list (string * string) :=
  omap (λ '(id, st), if decide (status st = "running") then Some (id, backend st) else None)
    (map_to_list (sv_workloads s)).

(** Marks a workload as exited; nothing if it is not running any more.  The result
    is whether [restart] of its policy. *)
Definition mark_exited (id : string) (code : option Z) (restart : RestartPolicy.t → bool) : svc_eff (option bool) :=
  s ← get_world;
  match sv_workloads s !! id with
  | Some st =>
    if decide (status st = "running") then
      let st' := set_exit "exited" (sv_now s) code st in
      put_workload id st' ;;
      svc_checkpoint config id st' ;;
      mret (Some (restart (restart_policy st)))
    else mret None
  | None => mret (Some false)
  end.

Definition after_exit (id backend code source : string) (r : option bool) : svc_eff scan_result :=
  match r with
  | None => mret NextWorkload
  | Some restart =>
    event id EventKind.WorkloadExited [("backend", backend); ("exit_code", code); ("source", source)] ;;
    mret (if restart : bool then TryRestart else Announce)
  end.

(** What follows the executor's answer. *)
Definition observe (id backend : string) (answer : result ExecError string) : svc_eff scan_result :=
  match answer with
  | Ok text =>
    if decide (text = "running" ∨ text = EmptyString) then mret NextWorkload
    else
      let code := parse_exit_code text in
      r ← mark_exited id code (λ p, wants_restart p code);
      (* A workload that is gone has no code to report. *)
      s ← get_world;
      let shown := if decide (sv_workloads s !! id = None) then None else code in
      after_exit id backend (default "unknown" (pretty <$> shown)) "watcher" r
  | Err _ =>
    if decide (backend = "vm") then mret NextWorkload
    else
      r ← mark_exited id (Some 137%Z) (λ p, bool_decide (p ≠ RestartPolicy.No));
      after_exit id backend "137" "watcher_best_effort" r
  end.

(** What follows the pause. *)
Definition restart_start (spec : WorkloadSpec) : eff (RuntimeService H) ExecError ProcessHandle :=
  on_exec (handle ← router_create router spec; router_start router handle).

Definition restart_record (p : RestartPlan) (handle : ProcessHandle) : svc_eff unit :=
  s ← get_world;
  match sv_workloads s !! rp_id p with
  | None => mret tt
  | Some st =>
    let st' := set_restarted (sv_now s) (default 0%Z (ph_pid handle)) (ph_internal_ip handle) st in
    put_workload (rp_id p) st' ;;
    svc_checkpoint config (rp_id p) st' ;;
    event (rp_id p) EventKind.WorkloadStarted
      [("backend", ph_backend handle); ("source", "restart_watcher"); ("restart_count", pretty (restart_count st'))]
  end.

(** One step of the watcher's task. *)
Definition watch (wt : Watcher) (s : RuntimeService H) : Watcher * RuntimeService H :=
  let go := MkWatcher (announced wt) in
  match w_phase wt with
  | Idle => (go (Scanning (snapshot s)), s)
  | Scanning [] => (MkWatcher (announced wt ∩ dom (sv_workloads s)) Idle, s)
  | Scanning ((id, b) :: todo) =>
    if decide (id ∈ announced wt) then (go (Scanning todo), s)
    else let '(answer, s') := on_exec (router_status router id) s in (go (Answered id b answer todo), s')
  | Answered id b answer todo =>
    match observe id b answer s with
    | (Ok TryRestart, s') => (go (Planning id b todo), s')
    | (Ok Announce, s') => (MkWatcher ({[id]} ∪ announced wt) (Scanning todo), s')
    | (_, s') => (go (Scanning todo), s')
    end
  | Planning id b todo =>
    match plan_restart (sv_now s) (sv_workloads s) id b with
    | Some p => (go (Sleeping p todo), s)
    | None => (go (Scanning todo), s)
    end
  | Sleeping p todo =>
    if decide (rp_wake p ≤ sv_now s)%Z then
      match restart_spec p with
      | None => (go (Scanning todo), s)
      | Some spec =>
        match restart_start spec s with
        | (Ok handle, s') => (go (Starting p handle todo), s')
        | (Err _, s') => (go (Scanning todo), s')
        end
      end
    else (wt, s)
  | Starting p handle todo => (go (Scanning todo), (restart_record p handle s).2)
  end.

(** *** The health watcher *)

(** The answer to a probe; none in the grace period. *)
Definition probe (p : Probe) (s : RuntimeService H) : option bool * RuntimeService H :=
  if decide (sv_now s < pb_grace_end p)%Z then (None, s)
  else
    let '(r, s') := on_exec (router_exec router (pb_id p) (pb_test p) (pb_timeout p)) s in
    (Some match r with Ok out => bool_decide (eo_exit_code out = 0%Z) | Err _ => false end, s').

Definition probe_record (p : Probe) (now : Z) (healthy : bool) : svc_eff unit :=
  s ← get_world;
  match sv_workloads s !! pb_id p with
  | Some st => put_workload (pb_id p) (health_result healthy (pb_retries p) now st)
  | None => mret tt
  end.

(** One step of the health watcher's task. *)
Definition check (h : Health) (s : RuntimeService H) : Health * RuntimeService H :=
  match h_answer h, h_todo h with
  | Some (p, now, healthy), ps => (MkHealth ps None, (probe_record p now healthy s).2)
  | None, [] => (MkHealth (probes (sv_now s) (sv_workloads s)) None, s)
  | None, p :: ps =>
    let '(healthy, s') := probe p s in
    (MkHealth ps ((λ b : bool, (p, sv_now s, b)) <$> healthy), s')
  end.

(** *** Steps *)

Definition with_now (t : Z) (s : RuntimeService H) : RuntimeService H :=
  MkService (sv_images s) (sv_exec s) (kernel_cache s) (rootfs_cache s) (event_bus s) t (sv_draws s) (sv_key_cache s).

(** Processes run and exit on their own. *)
Definition with_outside (h : H) (s : RuntimeService H) : RuntimeService H :=
  with_exec (with_procs h (sv_exec s)) s.

(** The label is the request that arrives, if one does. *)
Inductive step : option Request → System H → System H → Prop :=
| step_watch sv wt hl ts :
    step None (MkSystem sv wt hl ts) (MkSystem (watch wt sv).2 (watch wt sv).1 hl ts)
| step_health sv wt hl ts :
    step None (MkSystem sv wt hl ts) (MkSystem (check hl sv).2 wt (check hl sv).1 ts)
| step_request sv wt hl ts r :
    step (Some r) (MkSystem sv wt hl ts)
      (MkSystem sv wt hl (task_of config router policy_engine error_text fuel r :: ts))
| step_piece sv wt hl ts1 f ts2 :
    step None (MkSystem sv wt hl (ts1 ++ Await f :: ts2)) (MkSystem (f sv).2 wt hl (ts1 ++ (f sv).1 :: ts2))
| step_answer sv wt hl ts1 a ts2 :
    step None (MkSystem sv wt hl (ts1 ++ Answer a :: ts2)) (MkSystem sv wt hl (ts1 ++ ts2))
| step_time sv wt hl ts t :
    (sv_now sv ≤ t)%Z → step None (MkSystem sv wt hl ts) (MkSystem (with_now t sv) wt hl ts)
| step_outside sv wt hl ts h :
    step None (MkSystem sv wt hl ts) (MkSystem (with_outside h sv) wt hl ts).

(** Steps whose requests are of a kind. *)
Definition step_with (ok : Request → Prop) (x y : System H) : Prop :=
  ∃ l, step l x y ∧ match l with Some r => ok r | None => True end.

Definition any_step : System H → System H → Prop := step_with (λ _, True).

(** *** Recovery *)

(** Whether [runc state] calls the container running. *)
Definition runc_alive (id : string) (s : RuntimeService H) : bool * RuntimeService H :=
  let x := sv_exec s in
  let '(o, h) := run_command "runc" ["state"; id] (ew_fs x) (ew_procs x) in
  (success o && bool_decide (is_Some (find_after (quoted "status" +:+ ": " +:+ quoted "running")
                                        (from_utf8_lossy (stdout_of o)))),
   with_exec (with_procs h x) s).

Definition mark_recovered (now : Z) (st : WorkloadState) : WorkloadState :=
  set_exit "exited" (if decide (exit_time st = 0)%Z then now else exit_time st)
    (match exit_code st with Some c => Some c | None => Some 137%Z end) st.

Definition recover_one (acc : gmap string WorkloadState * RuntimeService H) (kv : string * WorkloadState)
    : gmap string WorkloadState * RuntimeService H :=
  let '(wl, s) := acc in
  let '(id, st) := kv in
  if decide (status st = "running" ∧ backend st ≠ "vm") then
    let '(alive, s') := runc_alive id s in
    (<[id := if alive then st else mark_recovered (sv_now s) st]> wl, s')
  else (<[id := st]> wl, s).

(** The table of workloads at start-up. *)
Definition recover_workloads (s : RuntimeService H) : RuntimeService H :=
  let loaded := load_workload_checkpoints (checkpoints_dir config) (sv_fs s) in
  let '(wl, s') := foldl recover_one (∅, s) (map_to_list loaded) in
  set_workloads wl s'.

(** A workload whose kernel digest start-up fills in. *)
Definition migrates (tags : gmap string string) (ws : WorkloadState) : bool :=
  bool_decide (kernel_image_ref ws ≠ EmptyString ∧ kernel_image_digest ws = EmptyString)
  && existsb (λ kv, bool_decide (kv.2 = kernel_image_ref ws)) (map_to_list tags).

(** If one workload migrates, all checkpoints are written. *)
Definition write_migrated (before : gmap string WorkloadState) : svc_eff unit :=
  s ← get_world;
  if existsb (λ kv, migrates (image_tags (sv_images s)) kv.2) (map_to_list before)
  then for_each (λ kv, svc_checkpoint config kv.1 kv.2) (map_to_list (sv_workloads s))
  else mret tt.

Definition start_service : svc_eff unit :=
  modify_world recover_workloads ;;
  s ← get_world;
  on_images startup ;;
  write_migrated (sv_workloads s).

Definition initial (s : RuntimeService H) : System H := MkSystem (start_service s).2 (MkWatcher ∅ Idle) (MkHealth [] None) [].

End daemon.
