(* ===== verification/ServiceFacts.v ===== *)
(** * What the handlers do to the table of workloads

    Only running, stopping and pruning change the table.  [Q] is any property of it. *)

From stdpp Require Import base gmap strings list pretty.
From Stdlib Require Import ZArith Lia.
From S2P Require Import Prelude Strs Utf8 Crates Node Fs Store OpLock Gc OciTypes HostFs Tasks.
From S2P Require Import Puller Convert Materialize Scan Bloom Policy Secrets Ipam Net Exec Container Rootless Kernel.
From S2P Require Sync.
From S2P Require Import Workload Images Service Handlers Watcher.

Section table.
Context {H : Type} `{Processes H, HttpClient H, Sync.PeerNet H, Sync.Clock H, TempDir H, DefaultHasher, Hex, Sha2}.
Context `{Rkyv DagNode, EntryJson, JsonText, OciJson, GzDecoder, Puller.Base64, LayerTar, ZstdDecoder, StateJson, Lowercase}.
Context `{Aes256Gcm, OsRng, CharClass, Ed25519, Rkyv SignatureBlob, Rkyv SbomBlob}.
Context (config : ServiceConfig) (router : ExecutorRouter H) (policy_engine : option PolicyEngine).
Context (error_text : SvcError → string) (fuel : nat).
Context (Q : gmap string WorkloadState → Prop).

Definition on_table (s : RuntimeService H) : Prop := Q (sv_workloads s).
Definition on_image_table (i : ImageService) : Prop := Q (workloads i).

(** ** The parts of the state *)

Lemma keeps_exec {E A} (m : eff (ExecWorld H) E A) : keeps on_table (on_exec m).
Proof. intros s Hs. unfold on_exec. by destruct (m _). Qed.

Lemma keeps_svc_fs {E A} (m : eff HostFs E A) : keeps on_table (on_svc_fs m).
Proof. intros s Hs. unfold on_svc_fs. by destruct (m _). Qed.

Lemma keeps_svc_store {E A} (m : eff World E A) : keeps on_table (on_svc_store m).
Proof. intros s Hs. unfold on_svc_store. by destruct (m _). Qed.

Lemma keeps_svc_mat {A} (m : mat_eff A) : keeps on_table (on_svc_mat m).
Proof. intros s Hs. unfold on_svc_mat. by destruct (m _). Qed.

Lemma keeps_secrets {A} (m : secret_eff A) : keeps on_table (on_secrets m).
Proof. intros s Hs. unfold on_secrets. by destruct (m _). Qed.

Lemma keeps_ops {A} (m : ops_eff A) : keeps on_table (on_ops m).
Proof. intros s Hs. unfold on_ops. by destruct (m _). Qed.

Lemma keeps_images_as {E A} (f : Images.Status → E) (m : image_eff A) :
  keeps on_image_table m → keeps on_table (on_images_as f m).
Proof. intros Hm s Hs. specialize (Hm (sv_images s) Hs). unfold on_images_as. by destruct (m _). Qed.

Lemma keeps_images {A} (m : image_eff A) : keeps on_image_table m → keeps on_table (on_images m).
Proof. apply keeps_images_as. Qed.

Lemma keeps_emit e : keeps on_table (emit e).
Proof. by intros s Hs. Qed.

#[local] Hint Resolve keeps_exec keeps_svc_fs keeps_svc_store keeps_svc_mat keeps_secrets keeps_ops keeps_images_as keeps_images keeps_emit : keeps.

(** ** Images *)

Lemma keeps_image_modify f : (∀ i, workloads (f i) = workloads i) → keeps (E := Images.Status) on_image_table (modify_world f).
Proof. intros Hf. apply keeps_modify. intros i Hi. unfold on_image_table. by rewrite Hf. Qed.

Lemma keeps_read_tags : keeps on_image_table read_tags.
Proof. unfold read_tags, acquire_tags. keeps_solve. Qed.

Lemma keeps_image_store {A} (m : store_eff A) : keeps on_image_table (on_image_store m).
Proof. intros i Hi. unfold on_image_store. by destruct (m _). Qed.

#[local] Hint Resolve keeps_read_tags keeps_image_store keeps_image_modify : keeps.

Lemma keeps_acquire : keeps on_image_table acquire_tags.
Proof. unfold acquire_tags. keeps_solve. Qed.

#[local] Hint Resolve keeps_acquire : keeps.

Lemma keeps_tag_image d r : keeps on_image_table (tag_image d r).
Proof. unfold tag_image, write_tags, save_image_tags. keeps_solve. Qed.

Lemma keeps_tag_commit d t : keeps on_image_table (tag_commit d t).
Proof. unfold tag_commit, write_tags, save_image_tags. keeps_solve. Qed.

Lemma keeps_local_tag r : keeps on_image_table (local_tag r).
Proof. unfold local_tag. keeps_solve. Qed.

Lemma keeps_remove_tags n d t : keeps on_image_table (remove_tags n d t).
Proof. revert t. induction n as [|n IH]; intros t; simpl; keeps_solve. Qed.

#[local] Hint Resolve keeps_tag_image keeps_tag_commit keeps_local_tag keeps_remove_tags : keeps.

Lemma keeps_remove_image d : keeps on_image_table (remove_image d).
Proof. unfold remove_image, write_tags, save_image_tags. keeps_solve. Qed.

Lemma keeps_gc b f : keeps on_image_table (gc b f).
Proof.
  unfold gc, enumerate_gc_roots. keeps_solve. intros i Hi. by destruct (collect _ _ _).
Qed.

#[local] Hint Resolve keeps_remove_image keeps_gc : keeps.

(** ** Running *)

Lemma keeps_event id k l : keeps on_table (event id k l).
Proof. unfold event. keeps_solve. Qed.

#[local] Hint Resolve keeps_event : keeps.

Lemma keeps_stage_kernel_image r : keeps on_table (stage_kernel_image config fuel r).
Proof. intros s Hs. unfold stage_kernel_image. by destruct (from_image_with_insecure _ _ _ _ _ _). Qed.

#[local] Hint Resolve keeps_stage_kernel_image : keeps.

Lemma keeps_service_modify {E} f :
  (∀ s, sv_workloads (f s) = sv_workloads s) → keeps (E := E) on_table (modify_world f).
Proof. intros Hf. apply keeps_modify. intros i Hi. unfold on_table. by rewrite Hf. Qed.

#[local] Hint Resolve keeps_service_modify : keeps.

Lemma keeps_stage_kernel req b : keeps on_table (stage_kernel config error_text fuel req b).
Proof. unfold stage_kernel, event_error. keeps_solve. Qed.

Lemma keeps_evaluate r d : keeps on_table (decide_policy policy_engine r d).
Proof. unfold decide_policy. keeps_solve. Qed.

#[local] Hint Resolve keeps_stage_kernel keeps_evaluate : keeps.

Lemma keeps_check_arch req b : keeps on_table (check_arch config req b).
Proof. unfold check_arch. keeps_solve. Qed.

Lemma keeps_stage_refs req : keeps on_table (stage_refs config req).
Proof. unfold stage_refs, stage_ref. keeps_solve. Qed.

#[local] Hint Resolve keeps_check_arch keeps_stage_refs : keeps.

Lemma keeps_check_join req b mode : keeps on_table (check_join req b mode).
Proof. unfold check_join. keeps_solve. Qed.

Lemma keeps_evaluate_run d : keeps on_table (evaluate_for_run policy_engine d).
Proof. unfold evaluate_for_run. keeps_solve. Qed.

Lemma keeps_started_failed id b outcome e : keeps on_table (started_failed error_text id b outcome e).
Proof. unfold started_failed, event_error. keeps_solve. Qed.

#[local] Hint Resolve keeps_check_join keeps_evaluate_run keeps_started_failed : keeps.

Lemma keeps_prepare req : keeps on_table (prepare config policy_engine error_text fuel req).
Proof. unfold prepare. keeps_solve. Qed.

Lemma keeps_launch req spec : keeps on_table (launch router error_text req spec).
Proof. unfold launch. keeps_solve. Qed.

Lemma keeps_checkpoint id st : keeps on_table (svc_checkpoint config id st).
Proof. unfold svc_checkpoint. keeps_solve. Qed.

Lemma keeps_fetch req : keeps on_table (fetch config fuel req).
Proof. intros s Hs. unfold fetch. by destruct (Sync.sync_pull _ _ _ _ _ _ _). Qed.

Lemma keeps_pull_failed {A} r l e : keeps on_table (pull_failed (A := A) error_text r l e).
Proof. unfold pull_failed, event_error. keeps_solve. Qed.

Lemma keeps_evaluate_pulled r d : keeps on_table (evaluate_pulled policy_engine r d).
Proof. apply keeps_evaluate. Qed.

#[local] Hint Resolve keeps_fetch keeps_pull_failed keeps_evaluate_pulled : keeps.

Lemma keeps_pull req : keeps on_table (pull_image config policy_engine error_text fuel req).
Proof. unfold pull_image. keeps_solve. Qed.

(** ** Other handlers *)

Lemma keeps_files_err {A} (g : errno → HandlerError) (m : host_eff A) : keeps on_table (on_files_err g m).
Proof. unfold on_files_err. keeps_solve. Qed.

#[local] Hint Resolve keeps_files_err : keeps.

Lemma keeps_inspect id : keeps on_table (inspect_workload id).
Proof. unfold inspect_workload. keeps_solve. Qed.

Lemma keeps_find id : keeps on_table (find_workload id).
Proof. unfold find_workload. keeps_solve. Qed.

Lemma keeps_rootfs id st : keeps on_table (workload_rootfs config id st).
Proof. unfold workload_rootfs. keeps_solve. Qed.

#[local] Hint Resolve keeps_find keeps_rootfs : keeps.

Lemma keeps_copy req : keeps on_table (copy_file config req).
Proof. unfold copy_file, copy_path, resolve_in, copy_out, copy_in. keeps_solve. Qed.

Lemma keeps_commit id tag : keeps on_table (commit_image config fuel id tag).
Proof. unfold commit_image. keeps_solve. Qed.

Lemma keeps_diff id : keeps on_table (diff_workload config fuel id).
Proof. unfold diff_workload. keeps_solve. Qed.

Lemma keeps_cmd cmd args : keeps on_table (on_cmd cmd args).
Proof. unfold on_cmd. keeps_solve. Qed.

#[local] Hint Resolve keeps_cmd : keeps.

Lemma keeps_create_network name subnet : keeps on_table (create_network config name subnet).
Proof. unfold create_network, bridge_create. keeps_solve. Qed.

Lemma keeps_remove_network name : keeps on_table (remove_network config name).
Proof. unfold remove_network, bridge_delete. keeps_solve. Qed.

Lemma keeps_exec_in id cmd : keeps on_table (exec_in_workload router id cmd).
Proof. unfold exec_in_workload. keeps_solve. Qed.

Lemma keeps_update id cpu mem : keeps on_table (update_workload router id cpu mem).
Proof. unfold update_workload. keeps_solve. Qed.

Lemma keeps_stats id : keeps on_table (get_workload_stats router id).
Proof. unfold get_workload_stats. keeps_solve. Qed.

End table.

#[export] Hint Resolve keeps_exec keeps_svc_fs keeps_svc_store keeps_svc_mat keeps_secrets keeps_ops keeps_images_as keeps_images keeps_emit : keeps.
#[export] Hint Resolve keeps_image_store keeps_tag_image keeps_tag_commit keeps_local_tag keeps_remove_image keeps_gc keeps_event : keeps.
#[export] Hint Resolve keeps_service_modify keeps_prepare keeps_launch keeps_checkpoint keeps_pull : keeps.
#[export] Hint Resolve keeps_inspect keeps_copy keeps_commit keeps_diff keeps_create_network keeps_remove_network : keeps.
#[export] Hint Resolve keeps_exec_in keeps_update keeps_stats : keeps.
#[export] Hint Resolve keeps_stage_kernel keeps_check_arch keeps_stage_refs keeps_check_join keeps_evaluate_run keeps_started_failed : keeps.
#[export] Hint Resolve keeps_read_tags keeps_fetch keeps_pull_failed keeps_evaluate_pulled : keeps.
