(* ===== verification/DaemonSpec.v ===== *)
(** * Requests and invariants of the daemon

    A request that nobody interrupts does what its handler does in one piece.  Every step
    of the system keeps a property of each workload that the few updates of a workload's
    record keep.  Two such properties: the life cycle and the widths of numbers. *)

From stdpp Require Import base gmap strings list pretty relations.
From Stdlib Require Import ZArith Lia.
From S2P Require Import Prelude Strs Utf8 Crates Node Fs Store OpLock Gc OciTypes HostFs Tasks.
From S2P Require Import Puller Convert Materialize Bloom Policy Secrets Ipam Net Exec Container Rootless Kernel.
From S2P Require Sync.
From S2P Require Import Workload Images Service Handlers Requests Watcher ServiceFacts.

Section requests.
Context {H : Type} `{Processes H, HttpClient H, Sync.PeerNet H, Sync.Clock H, TempDir H, DefaultHasher, Hex, Sha2}.
Context `{Rkyv DagNode, EntryJson, JsonText, OciJson, GzDecoder, Puller.Base64, LayerTar, ZstdDecoder, StateJson, Lowercase}.
Context `{Aes256Gcm, OsRng, CharClass, Ed25519, Rkyv SignatureBlob, Rkyv SbomBlob}.
Context (config : ServiceConfig) (router : ExecutorRouter H) (policy_engine : option PolicyEngine).
Context (error_text : SvcError → string) (fuel : nat).

Lemma prepare_runs req :
  runs (prepare_task config policy_engine error_text fuel req) (prepare config policy_engine error_text fuel req).
Proof. unfold prepare_task, prepare. runs_solve. Qed.

Lemma launch_runs req spec : runs (launch_task router error_text req spec) (launch router error_text req spec).
Proof. unfold launch_task, launch. runs_solve. Qed.

Lemma run_runs req :
  runs (run_task config router policy_engine error_text fuel req)
    (run_workload config router policy_engine error_text fuel req).
Proof.
  unfold run_task, run_workload. apply runs_bind; [apply runs_answer|intros _].
  apply runs_bind; [apply prepare_runs|intros spec]. apply runs_bind; [apply launch_runs|intros handle]. apply runs_atomic.
Qed.

Lemma pull_runs req :
  runs (pull_task config policy_engine error_text fuel req) (pull_image config policy_engine error_text fuel req).
Proof. unfold pull_task, pull_image. runs_solve. Qed.

Lemma compose_runs p l :
  runs (compose_task config router policy_engine error_text fuel p l)
    (run_compose config router policy_engine error_text fuel p l).
Proof.
  unfold compose_task, run_compose. apply runs_bind; [|intros ?; apply runs_ret]. apply runs_map. intros c.
  unfold compose_service_task, run_compose_service. apply runs_if; [apply runs_answer|].
  apply runs_bind; [apply runs_if; [apply runs_bind; [apply pull_runs|intros ?]|]; apply runs_ret|intros d].
  apply runs_bind; [apply run_runs|intros ?]. apply runs_ret.
Qed.

(** The table is the same after the executor's stop, so a failed stop is judged alike. *)
Lemma stop_runs id : runs (stop_task config router id) (stop_workload config router id).
Proof.
  unfold stop_task, stop_workload. apply runs_bind; [apply runs_answer|intros _].
  intros s. rewrite alone_piece, !get_bind.
  destruct (sv_workloads s !! id) as [st|] eqn:E; [|done]. case_decide; [|done].
  rewrite alone_piece, !try_bind.
  pose proof (keeps_exec (λ wl, wl !! id = Some st) (router_stop router id) s E) as Hk.
  assert (runs (atomic (finish_stop (H := H) config id) ;; mret true) (finish_stop config id ;; mret true)) as Hf by runs_solve.
  destruct (on_exec (router_stop router id) s) as [[[]|e] s1]; cbn [fst snd] in *; [apply Hf|].
  unfold on_table in Hk. rewrite alone_piece, get_bind. unfold is_vm. rewrite Hk.
  case_decide; [rewrite bool_decide_true by done; apply Hf|by rewrite bool_decide_false].
Qed.

Lemma finished_runs {A} (t : task (RuntimeService H) SvcError A) m s :
  runs t m → (alone (finished t) s).2 = (m s).2.
Proof.
  intros Ht. unfold finished. rewrite alone_bind. unfold mbind, eff_bind. rewrite (Ht s). by destruct (m s) as [[a|e] s'].
Qed.

Lemma ignore_state {E A} (m : eff (RuntimeService H) E A) s :
  (alone (atomic (E := SvcError) (ignore_eff m)) s).2 = (m s).2.
Proof. rewrite alone_atomic. unfold ignore_eff. by destruct (m s). Qed.

Lemma alone_serve r s :
  (alone (task_of config router policy_engine error_text fuel r) s).2 =
  serve config router policy_engine error_text fuel r s.
Proof.
  destruct r; try apply ignore_state;
    [apply finished_runs, run_runs|apply finished_runs, stop_runs|apply finished_runs, pull_runs
    |apply finished_runs, compose_runs].
Qed.

Abbreviation daemon_step := (any_step config router policy_engine error_text fuel).

(** The pieces of a task, one after the other. *)
Lemma alone_steps t s wt hl ts : rtc daemon_step (MkSystem s wt hl (t :: ts)) (MkSystem (alone t s).2 wt hl ts).
Proof.
  revert s. induction t as [r|f IH] using task_pieces; intros s.
  - apply rtc_once. exists None. split; [|done]. apply (step_answer _ _ _ _ _ s wt hl [] r ts).
  - eapply rtc_l.
    + exists None. split; [|done]. apply (step_piece _ _ _ _ _ s wt hl [] f ts).
    + specialize (IH s). simpl. destruct (f s) as [t' s']. apply IH.
Qed.

Lemma request_steps r s wt hl ts :
  rtc daemon_step (MkSystem s wt hl ts) (MkSystem (serve config router policy_engine error_text fuel r s) wt hl ts).
Proof.
  rewrite <- alone_serve. eapply rtc_l; [|apply alone_steps]. exists (Some r). split; [apply step_request|done].
Qed.


End requests.

Section daemon.
Context {H : Type} `{Processes H, HttpClient H, Sync.PeerNet H, Sync.Clock H, TempDir H, DefaultHasher, Hex, Sha2}.
Context `{Rkyv DagNode, EntryJson, JsonText, OciJson, GzDecoder, Puller.Base64, LayerTar, ZstdDecoder, StateJson, Lowercase}.
Context `{Aes256Gcm, OsRng, CharClass, Ed25519, Rkyv SignatureBlob, Rkyv SbomBlob}.
Context (config : ServiceConfig) (router : ExecutorRouter H) (policy_engine : option PolicyEngine).
Context (error_text : SvcError → string) (fuel : nat).

Abbreviation daemon_step := (any_step config router policy_engine error_text fuel).

(** ** Properties of a workload that every update keeps *)

Record closed (P : WorkloadState → Prop) : Prop := {
  closed_run req b d k extra handle (s : RuntimeService H) :
    P (state_of_run config policy_engine req (spec_of_run policy_engine req b d k extra) handle s);
  closed_stop st now : P st → status st = "running" → P (set_exit "stopped" now (Some 0%Z) st);
  closed_exit st now code :
    P st → (∀ c, code = Some c → is_u32 c) → P (set_exit "exited" now code st);
  closed_restart st now p ip : P st → P (set_restarted now p ip st);
  closed_health st healthy retries now : P st → P (health_result healthy retries now st);
  closed_kernel st d : P st → P (set_kernel_digest d st);
  closed_recovered st now : P st → P (mark_recovered now st);
}.

Section closed.
Context (P : WorkloadState → Prop) (HP : closed P).

Definition all_ok (wl : gmap string WorkloadState) : Prop := map_Forall (λ _, P) wl.

Abbreviation ok_state := (on_table (H := H) all_ok).

Lemma put_workload_ok id st s : P st → ok_state s → ok_state (set_workloads (<[id := st]> (sv_workloads s)) s).
Proof. intros Hst Hs. by apply map_Forall_insert_2. Qed.

Abbreviation task_keeps := (task_ok ok_state (λ _, True)).

Lemma record_ok req b d k extra handle :
  keeps ok_state (record_run config policy_engine req (spec_of_run policy_engine req b d k extra) handle).
Proof.
  apply keeps_bind_get. intros s Hs. apply modify_then; [|keeps_solve].
  apply put_workload_ok; [apply HP|done].
Qed.

(** What [prepare] returns is the specification of the request. *)
Lemma prepare_ok req :
  task_ok ok_state (λ spec, ∃ b d k extra, spec = spec_of_run policy_engine req b d k extra)
    (prepare_task config policy_engine error_text fuel req).
Proof.
  unfold prepare_task. task_solve. simpl. by do 4 eexists.
Qed.

Lemma run_ok req : task_keeps (run_task config router policy_engine error_text fuel req).
Proof.
  unfold run_task. apply task_ok_seq; [apply task_ok_answer|intros _]. eapply task_ok_bind; [apply prepare_ok|]. intros spec (b & d & k & extra & ->).
  apply task_ok_seq; [unfold launch_task; by task_solve|]. intros handle. apply task_ok_keeps, record_ok.
Qed.

Lemma pull_ok req : task_keeps (pull_task config policy_engine error_text fuel req).
Proof. unfold pull_task. task_solve. Qed.

Lemma compose_ok p l : task_keeps (compose_task config router policy_engine error_text fuel p l).
Proof.
  unfold compose_task. apply task_ok_seq; [|by intros]. apply task_ok_map. intros c _.
  unfold compose_service_task. case_decide; [done|]. apply task_ok_seq; [|intros d; apply task_ok_seq; [apply run_ok|done]].
  case_decide; [|done]. apply task_ok_seq; [apply pull_ok|done].
Qed.

Lemma finish_stop_ok id : keeps ok_state (finish_stop config id).
Proof.
  unfold finish_stop. apply keeps_bind; [by keeps_solve|intros _]. apply keeps_bind; [by keeps_solve|intros _].
  apply keeps_bind_get. intros s Hs. destruct (sv_workloads s !! id) as [st|] eqn:E; [|done].
  assert (P st) by by eapply Hs. repeat case_decide; [| |done].
  - apply modify_then; [|keeps_solve]. by apply put_workload_ok; [apply HP|].
  - apply modify_then; [|keeps_solve]. apply put_workload_ok; [apply HP; [done|]|done].
    intros c [= <-]. unfold_widths. lia.
Qed.

Lemma stop_ok id : task_keeps (stop_task config router id).
Proof. unfold stop_task. pose proof finish_stop_ok. task_solve. Qed.

(** ** The watchers *)

Lemma parse_exit_code_range text c : parse_exit_code text = Some c → is_u32 c.
Proof.
  assert (∀ t z, parse_u32 t = Some z → is_u32 z) as Hp by (intros t z Hz; by apply from_str_radix_range in Hz).
  unfold parse_exit_code. destruct (strip_prefix _ _) as [rest|].
  { intros (w & _ & Hw)%bind_Some. eauto. }
  destruct (_ ≫= _) as [[code ?]|]; [eauto|].
  intros (? & _ & (? & _ & (? & _ & [= <-])%bind_Some)%bind_Some)%bind_Some. apply wrap32_range.
Qed.

Lemma mark_exited_ok id code restart :
  (∀ c, code = Some c → is_u32 c) → keeps ok_state (mark_exited config id code restart).
Proof.
  intros Hc. apply keeps_bind_get. intros s Hs. destruct (sv_workloads s !! id) as [st|] eqn:E; [|done].
  case_decide; [|done]. unfold put_workload. apply modify_then; [|keeps_solve]. apply put_workload_ok; [|done].
  apply HP; [by eapply Hs|done].
Qed.

Lemma observe_ok id b answer : keeps ok_state (observe config id b answer).
Proof.
  unfold observe, after_exit. destruct answer as [text|e].
  - pose proof (λ f, mark_exited_ok id _ f (parse_exit_code_range text)). keeps_solve.
  - assert (∀ c, Some 137%Z = Some c → is_u32 c) as H137 by (intros c [= <-]; unfold_widths; lia).
    pose proof (λ f, mark_exited_ok id _ f H137). keeps_solve.
Qed.

Lemma restart_record_ok p handle : keeps ok_state (restart_record config p handle).
Proof.
  apply keeps_bind_get. intros s Hs. destruct (sv_workloads s !! rp_id p) as [st|] eqn:E; [|done].
  unfold put_workload. apply modify_then; [|keeps_solve]. apply put_workload_ok; [|done]. apply HP. by eapply Hs.
Qed.

Lemma watch_ok wt s : ok_state s → ok_state (watch config router wt s).2.
Proof.
  intros Hs. unfold watch. destruct (w_phase wt) as [|[|[id b] todo]|id b answer todo|id b todo|p todo|p handle todo]; try done.
  - case_decide; [done|]. pose proof (keeps_exec all_ok (router_status router id) s Hs) as Ho. by destruct (on_exec _ s).
  - pose proof (observe_ok id b answer s Hs) as Ho. by destruct (observe _ id b answer s) as [[[]|e] s'].
  - by destruct (plan_restart _ _ _ _).
  - case_decide; [|done]. destruct (restart_spec p) as [spec|]; [|done]. unfold restart_start.
    pose proof (keeps_exec all_ok (h ← router_create router spec; router_start router h) s Hs) as Ho.
    by destruct (on_exec _ s) as [[]].
  - by apply restart_record_ok.
Qed.

Lemma probe_record_ok p now healthy : keeps ok_state (probe_record p now healthy).
Proof.
  apply keeps_bind_get. intros s Hs.
  destruct (sv_workloads s !! pb_id p) as [st|] eqn:E; [|done].
  apply put_workload_ok; [|done]. apply HP. by eapply Hs.
Qed.

Lemma check_ok h s : ok_state s → ok_state (check router h s).2.
Proof.
  intros Hs. unfold check. destruct (h_answer h) as [[[p now] healthy]|]; [by apply probe_record_ok|].
  destruct (h_todo h) as [|p ps]; [done|]. unfold probe. case_decide; [done|].
  pose proof (keeps_exec all_ok (router_exec router (pb_id p) (pb_test p) (pb_timeout p)) s Hs) as Ho. by destruct (on_exec _ s).
Qed.

(** ** Requests and steps *)

Lemma prune_dir_ok active dir : keeps ok_state (prune_dir active dir).
Proof. unfold prune_dir, prune_entry. keeps_solve. Qed.

Lemma prune_ok : keeps ok_state (prune config).
Proof.
  unfold prune. pose proof prune_dir_ok.
  apply keeps_bind; [|intros _; keeps_solve].
  - apply keeps_modify. intros s Hs. intros id st. unfold sv_workloads, set_workloads. simpl.
    intros [E _]%map_lookup_filter_Some. by eapply Hs.
Qed.

Lemma task_of_ok r : task_keeps (task_of config router policy_engine error_text fuel r).
Proof.
  pose proof prune_ok. destruct r; try (by task_solve); (apply task_ok_seq; [|done]);
    first [apply run_ok|apply stop_ok|apply compose_ok].
Qed.

(** The state is good, and what pending requests still do keeps it so. *)
Definition system_ok (x : System H) : Prop := ok_state (sys_service x) ∧ Forall task_keeps (sys_tasks x).

Lemma step_ok x y : daemon_step x y → system_ok x → system_ok y.
Proof.
  intros (l & Hl & _) [Hs Ht]. destruct Hl as [| | |sv wt hl ts1 f ts2|sv wt hl ts1 a ts2| |]; simpl in *; try done.
  - split; [by apply watch_ok|done].
  - split; [by apply check_ok|done].
  - split; [done|]. constructor; [apply task_of_ok|done].
  - apply Forall_app in Ht as [H1' [Hf H2']%Forall_cons_1]. specialize (Hf sv Hs). destruct (f sv) as [t' sv'].
    destruct Hf. split; [done|]. by apply Forall_app_2; [|constructor].
  - apply Forall_app in Ht as [H1' [_ H2']%Forall_cons_1]. split; [done|]. by apply Forall_app_2.
Qed.

(** ** Start-up *)

Lemma recover_one_ok acc kv : all_ok acc.1 → P kv.2 → all_ok (recover_one acc kv).1.
Proof.
  destruct acc as [wl s], kv as [id st]. simpl. intros Ha Hst. unfold recover_one.
  case_decide; [|by apply map_Forall_insert_2].
  destruct (runc_alive id s) as [alive s']. apply map_Forall_insert_2; [|done].
  destruct alive; [done|by apply (closed_recovered P HP)].
Qed.

Lemma recover_ok s :
  all_ok (load_workload_checkpoints (checkpoints_dir config) (sv_fs s)) → ok_state (recover_workloads config s).
Proof.
  intros Hl. unfold recover_workloads.
  assert (∀ l acc, Forall (λ kv, P kv.2) l → all_ok acc.1 → all_ok (foldl recover_one acc l).1) as Hf.
  { intros l. induction l as [|kv l IH]; intros acc Hf Ha; [done|]. inversion Hf; subst.
    apply IH; [done|by apply recover_one_ok]. }
  specialize (Hf (map_to_list (load_workload_checkpoints (checkpoints_dir config) (sv_fs s))) (∅, s)).
  destruct (foldl _ _ _) as [wl s']. apply Hf; [|apply map_Forall_empty].
  apply Forall_forall. intros [id st] Hin%elem_of_map_to_list. by eapply Hl.
Qed.

Lemma migrate_ok tags wl : all_ok wl → all_ok (migrate_workload tags <$> wl).
Proof.
  intros Hw. apply map_Forall_fmap. intros id st E. specialize (Hw id st E). simpl.
  unfold migrate_workload. case_decide; [|done]. destruct (List.find _ _) as [[d ?]|]; [by apply HP|done].
Qed.

Lemma startup_ok : keeps (on_image_table all_ok) startup.
Proof.
  unfold startup, startup_roots, rebuild_counts. keeps_solve; apply keeps_modify; intros i Hi; [done|by apply migrate_ok|done].
Qed.

Lemma start_ok s :
  all_ok (load_workload_checkpoints (checkpoints_dir config) (sv_fs s)) → ok_state (sys_service (initial config s)).
Proof.
  intros Hl. unfold initial, start_service. simpl. apply modify_then; [by apply recover_ok|].
  unfold write_migrated. pose proof startup_ok. keeps_solve.
Qed.

(** From a good set of checkpoints, every state the daemon reaches is good. *)
Lemma reachable_ok s x :
  all_ok (load_workload_checkpoints (checkpoints_dir config) (sv_fs s)) →
  rtc daemon_step (initial config s) x → ok_state (sys_service x).
Proof.
  intros Hl Hx. enough (system_ok x) as [Hs _] by done.
  assert (system_ok (initial config s)) as Hi by (split; [by apply start_ok|by constructor]).
  revert Hi. induction Hx as [|x y z Hxy _ IH]; [done|]. intros Hi. by eapply IH, step_ok.
Qed.

End closed.

(** ** The life cycle *)

(** A running workload has no exit; one stopped by the operator has code 0; health
    is one of three words, and a healthy workload has no failures. *)
Record life_ok (st : WorkloadState) : Prop := {
  life_status : status st ∈ ["running"; "exited"; "stopped"];
  life_running : status st = "running" → exit_code st = None ∧ exit_time st = 0%Z;
  life_stopped : status st = "stopped" → exit_code st = Some 0%Z;
  life_health : health st ∈ ["starting"; "healthy"; "unhealthy"];
  life_healthy : health st = "healthy" → health_failures st = 0%Z;
}.

Lemma closed_life : closed life_ok.
Proof.
  constructor.
  - intros. constructor; simpl; set_solver.
  - intros st now [] Hr. constructor; simpl; try done. set_solver.
  - intros st now code [] Hc. constructor; simpl; try done. set_solver.
  - intros st now p ip []. constructor; simpl; try done. set_solver.
  - intros st healthy retries now []. unfold health_result. destruct healthy; constructor; simpl; try done; try set_solver;
      repeat case_decide; try done; set_solver.
  - intros st d []. by constructor.
  - intros st now []. constructor; simpl; try done. set_solver.
Qed.

(** ** Widths *)

Definition rule_typed (r : NetworkRule) : Prop := is_u16 (port r) ∧ is_u16 (host_port r).

(** The numbers of a record fit their types. *)
Record state_typed (st : WorkloadState) : Prop := {
  typed_rules : Forall rule_typed (network_rules st);
  typed_code : ∀ c, exit_code st = Some c → is_u32 c;
  typed_restarts : is_u32 (restart_count st);
  typed_failures : is_u32 (health_failures st);
}.

Lemma rule_of_proto_typed r : rule_typed (rule_of_proto r).
Proof. split; unfold_widths; apply Z.mod_pos_bound; lia. Qed.

Lemma closed_typed : closed state_typed.
Proof.
  assert (is_u32 0 ∧ is_u32 137) as [H0' H137] by (unfold_widths; lia).
  constructor.
  - intros. constructor; simpl; try done. apply Forall_fmap, Forall_true. intros r. apply rule_of_proto_typed.
  - intros st now [] Hr. constructor; simpl; try done. by intros c [= <-].
  - intros st now code [] Hc. by constructor.
  - intros st now p ip []. constructor; simpl; try done. apply wrap32_range.
  - intros st healthy retries now []. unfold health_result. destruct healthy; constructor; simpl; try done. apply wrap32_range.
  - intros st d []. by constructor.
  - intros st now []. constructor; simpl; try done. intros c. destruct (exit_code st) eqn:E; [naive_solver|]. by intros [= <-].
Qed.

(** C10: Whatever requests, watcher steps and health probes the daemon goes through
    after it started from checkpoints that were written by such a daemon, every
    workload in its table is running without an exit, exited, or stopped with code 0,
    and has one of the three health states, healthy only without failures. *)
Theorem daemon_lifecycle s x :
  all_ok life_ok (load_workload_checkpoints (checkpoints_dir config) (sv_fs s)) →
  rtc daemon_step (initial config s) x → all_ok life_ok (sv_workloads (sys_service x)).
Proof. apply reachable_ok, closed_life. Qed.


End daemon.
