(* ===== verification/StopSpec.v ===== *)
(** * Stopping and restarting workloads

    A workload the operator stopped stays stopped, unless the watcher is waiting to
    restart it; and a restart starts what was run. *)

From stdpp Require Import base gmap strings list pretty relations.
From Stdlib Require Import ZArith Lia.
From S2P Require Import Prelude Strs Utf8 Crates Node Fs Store OpLock Gc OciTypes HostFs Tasks.
From S2P Require Import Puller Convert Materialize Bloom Policy Secrets Ipam Net Exec Container Rootless Kernel.
From S2P Require Sync.
From S2P Require Import Workload Images Service Handlers Requests Watcher ServiceFacts DaemonSpec.

(** Requests that start a workload of an id. *)
Definition starts (id : string) (r : Request) : Prop :=
  match r with
  | ReqRun req => rq_id req = id
  | ReqCompose project_name services => id ∈ (λ c, project_name +:+ "-" +:+ cs_name c) <$> services
  | _ => False
  end.

(** The watcher is about to restart a workload. *)
Definition sleeps_on (wt : Watcher) (id : string) : Prop :=
  match w_phase wt with
  | Sleeping p _ | Starting p _ _ => rp_id p = id
  | _ => False
  end.

Section stop.
Context {H : Type} `{Processes H, HttpClient H, Sync.PeerNet H, Sync.Clock H, TempDir H, DefaultHasher, Hex, Sha2}.
Context `{Rkyv DagNode, EntryJson, JsonText, OciJson, GzDecoder, Puller.Base64, LayerTar, ZstdDecoder, StateJson, Lowercase}.
Context `{Aes256Gcm, OsRng, CharClass, Ed25519, Rkyv SignatureBlob, Rkyv SbomBlob}.
Context (config : ServiceConfig) (router : ExecutorRouter H) (policy_engine : option PolicyEngine).
Context (error_text : SvcError → string) (fuel : nat).

Abbreviation svc_eff := (eff (RuntimeService H) SvcError).

(** ** A stopped workload *)

Definition stopped_in (id : string) (wl : gmap string WorkloadState) : Prop :=
  ∃ st, wl !! id = Some st ∧ status st = "stopped" ∧ exit_code st = Some 0%Z.

Section settled.
Context (id : string).

Abbreviation settled := (on_table (H := H) (stopped_in id)).

Lemma put_other id' st s : id' ≠ id → settled s → settled (set_workloads (<[id' := st]> (sv_workloads s)) s).
Proof. intros Hne (st0 & E & Hst). exists st0. split; [|done]. unfold sv_workloads. simpl. by rewrite lookup_insert_ne. Qed.

Lemma record_settled req spec handle :
  rq_id req ≠ id → keeps settled (record_run config policy_engine req spec handle).
Proof.
  intros Hne. apply keeps_bind_get. intros s Hs. apply modify_then; [by apply put_other|keeps_solve].
Qed.

(** A request that leaves a stopped workload stopped. *)
Definition quiet (t : task (RuntimeService H) SvcError unit) : Prop := task_ok settled (λ _, True) t.

Abbreviation task_quiet := (task_ok settled (λ _, True)).

Lemma run_settled req :
  rq_id req ≠ id → task_quiet (run_task config router policy_engine error_text fuel req).
Proof.
  intros Hne. unfold run_task. apply task_ok_seq; [apply task_ok_answer|intros _].
  apply task_ok_seq; [unfold prepare_task; by task_solve|intros spec].
  apply task_ok_seq; [unfold launch_task; by task_solve|intros handle]. by apply task_ok_keeps, record_settled.
Qed.

Lemma compose_settled p l :
  id ∉ (λ c, p +:+ "-" +:+ cs_name c) <$> l → task_quiet (compose_task config router policy_engine error_text fuel p l).
Proof.
  intros Hn. unfold compose_task. apply task_ok_seq; [|by intros]. apply task_ok_map. intros c Hc.
  unfold compose_service_task. case_decide; [done|]. apply task_ok_seq; [|intros d; apply task_ok_seq; [|done]].
  - case_decide; [|done]. apply task_ok_seq; [unfold pull_task; by task_solve|done].
  - apply run_settled. intros E. apply Hn, list_elem_of_fmap. by exists c.
Qed.

(** Stopping the workload again does nothing to it. *)
Lemma finish_stop_settled id' : keeps settled (finish_stop config id').
Proof.
  unfold finish_stop. apply keeps_bind; [by keeps_solve|intros _]. apply keeps_bind; [by keeps_solve|intros _].
  apply keeps_bind_get. intros s Hs. destruct (sv_workloads s !! id') as [st|] eqn:E; [|done].
  destruct (decide (id' = id)) as [->|Hne].
  - destruct Hs as (st0 & E0 & Hst & Hc). rewrite E in E0. injection E0 as ->. rewrite Hst. simpl. by exists st0.
  - repeat case_decide; [apply modify_then; [by apply put_other|keeps_solve]..|done].
Qed.

Lemma stop_settled id' : task_quiet (stop_task config router id').
Proof. unfold stop_task. pose proof finish_stop_settled. task_solve. Qed.

Lemma prune_settled : keeps settled (prune config).
Proof.
  unfold prune, prune_dir, prune_entry. apply keeps_bind; [|intros _; keeps_solve].
  - apply keeps_modify. intros s (st & E & Hst & Hc). exists st. split; [|done]. unfold sv_workloads. simpl.
    apply map_lookup_filter_Some. split; [done|]. unfold not_exited. simpl. by rewrite Hst.
Qed.

Lemma request_quiet r : ¬ starts id r → quiet (task_of config router policy_engine error_text fuel r).
Proof.
  pose proof prune_settled. intros Hr. destruct r; simpl in Hr; try (by task_solve); (apply task_ok_seq; [|done]);
    first [by apply run_settled|apply stop_settled|by apply compose_settled].
Qed.

(** ** The watchers *)

Lemma mark_exited_settled id' code restart : keeps settled (mark_exited config id' code restart).
Proof.
  apply keeps_bind_get. intros s Hs. destruct (sv_workloads s !! id') as [st|] eqn:E; [|done].
  case_decide; [|done]. unfold put_workload. apply modify_then; [|keeps_solve]. apply put_other; [|done].
  intros ->. destruct Hs as (st0 & E0 & Hst & _). rewrite E in E0. injection E0 as ->. congruence.
Qed.

Lemma observe_settled id' b answer : keeps settled (observe config id' b answer).
Proof. unfold observe, after_exit. pose proof mark_exited_settled. keeps_solve. Qed.

Lemma restart_record_settled p handle : rp_id p ≠ id → keeps settled (restart_record config p handle).
Proof.
  intros Hne. apply keeps_bind_get. intros s Hs. destruct (sv_workloads s !! rp_id p) as [st|] eqn:E; [|done].
  unfold put_workload. apply modify_then; [by apply put_other|keeps_solve].
Qed.

(** A stopped workload gets no plan for a restart. *)
Lemma plan_settled now b s p id' : settled s → plan_restart now (sv_workloads s) id' b = Some p → rp_id p ≠ id.
Proof.
  intros (st & E & Hst & _) Ep. unfold plan_restart in Ep. apply bind_Some in Ep as (st' & E' & Ep).
  case_decide as Hx; [done|]. injection Ep as <-. simpl. intros ->. rewrite E in E'. injection E' as ->.
  destruct (decide (status st' = "exited")) as [Hy|Hy]; [by rewrite Hst in Hy|done].
Qed.

Lemma watch_settled wt s :
  settled s → ¬ sleeps_on wt id →
  settled (watch config router wt s).2 ∧ ¬ sleeps_on (watch config router wt s).1 id.
Proof.
  intros Hs Hn. unfold watch, sleeps_on in *.
  destruct (w_phase wt) as [|[|[id' b] todo]|id' b answer todo|id' b todo|p todo|p handle todo] eqn:Ep; try (by split).
  - case_decide; [by split|]. pose proof (keeps_exec (stopped_in id) (router_status router id') s Hs) as Ho.
    by destruct (on_exec _ s).
  - pose proof (observe_settled id' b answer s Hs) as Ho. destruct (observe _ id' b answer s) as [[[]|e] s']; by split.
  - destruct (plan_restart _ _ _ _) as [p|] eqn:Epl; [|by split]. split; [done|]. by eapply plan_settled.
  - case_decide; [|simpl; by rewrite Ep]. destruct (restart_spec p) as [spec|]; [|split; [done|by intros []]]. unfold restart_start.
    pose proof (keeps_exec (stopped_in id) (h ← router_create router spec; router_start router h) s Hs) as Ho.
    destruct (on_exec _ s) as [[]]; (split; [done|simpl; tauto]).
  - split; [by apply restart_record_settled|by intros []].
Qed.

Lemma probe_record_settled p now healthy : keeps settled (probe_record p now healthy).
Proof.
  apply keeps_bind_get. intros s Hs.
  destruct (sv_workloads s !! pb_id p) as [st|] eqn:E; [|done].
  destruct (decide (pb_id p = id)) as [<-|Hne]; [|by apply put_other].
  destruct Hs as (st0 & E0 & Hst & Hc). rewrite E in E0. injection E0 as ->. eexists. unfold sv_workloads. simpl.
  rewrite lookup_insert_eq. split; [done|]. unfold health_result. by destruct healthy.
Qed.

Lemma check_settled h s : settled s → settled (check router h s).2.
Proof.
  intros Hs. unfold check. destruct (h_answer h) as [[[p now] healthy]|]; [by apply probe_record_settled|].
  destruct (h_todo h) as [|p ps]; [done|]. unfold probe. case_decide; [done|].
  pose proof (keeps_exec (stopped_in id) (router_exec router (pb_id p) (pb_test p) (pb_timeout p)) s Hs) as Ho. by destruct (on_exec _ s).
Qed.

End settled.

Abbreviation steps_without id := (rtc (step_with config router policy_engine error_text fuel (λ r, ¬ starts id r))).

(** A stopped workload that nobody is about to start. *)
Record at_rest (id : string) (x : System H) : Prop := {
  rest_stopped : stopped_in id (sv_workloads (sys_service x));
  rest_watcher : ¬ sleeps_on (sys_watcher x) id;
  rest_tasks : Forall (quiet id) (sys_tasks x);
}.

Lemma rest_step id l x y :
  step config router policy_engine error_text fuel l x y →
  match l with Some r => ¬ starts id r | None => True end → at_rest id x → at_rest id y.
Proof.
  intros Hl Hr [Hs Hn Ht]. destruct Hl as [sv wt hl ts|sv wt hl ts|sv wt hl ts r|sv wt hl ts1 f ts2|sv wt hl ts1 a ts2| |];
    simpl in *; try done.
  - destruct (watch_settled id wt sv Hs Hn). by constructor.
  - constructor; simpl; [by apply check_settled|done..].
  - constructor; simpl; [done..|]. constructor; [by apply request_quiet|done].
  - apply Forall_app in Ht as [H1' [Hf H2']%Forall_cons_1]. specialize (Hf sv Hs). destruct (f sv) as [t' sv'].
    destruct Hf. constructor; simpl; [done..|]. by apply Forall_app_2; [|constructor].
  - apply Forall_app in Ht as [H1' [_ H2']%Forall_cons_1]. constructor; simpl; [done..|]. by apply Forall_app_2.
Qed.

Lemma rest_steps id x y : steps_without id x y → at_rest id x → at_rest id y.
Proof. induction 1 as [|x y z (l & Hl & Hq) _ IH]; [done|]. intros Hx. by eapply IH, rest_step. Qed.

(** A stop of a running workload that succeeds leaves it stopped. *)
Lemma finish_stop_stops id st (s : RuntimeService H) :
  sv_workloads s !! id = Some st → status st = "running" →
  on_table (stopped_in id) (finish_stop config id s).2.
Proof.
  intros E Hr. unfold finish_stop. rewrite modify_bind, ignore_bind, get_bind.
  set (s0 := with_rootfs_cache _ s).
  pose proof (keeps_svc_fs (λ wl, wl !! id = Some st) (remove_dir_all (staged_secret_dir config id)) s0 E) as Hk.
  unfold on_table in Hk. rewrite Hk, decide_True by done. apply modify_then.
  - eexists. unfold sv_workloads. simpl. by rewrite lookup_insert_eq.
  - keeps_solve.
Qed.

(** C9: When a stop has made the executor stop a workload and finds it still running
    in the table, the workload is stopped with exit code 0 and stays so, whatever the
    watchers and other requests do, until a request starts it again; neither the
    watcher nor a pending request must have been about to start it. *)
Theorem stop_final id st s wt hl ts y :
  sv_workloads s !! id = Some st → status st = "running" →
  ¬ sleeps_on wt id → Forall (quiet id) ts →
  steps_without id (MkSystem (finish_stop config id s).2 wt hl ts) y → stopped_in id (sv_workloads (sys_service y)).
Proof.
  intros E Hr Hn Ht Hy. eapply rest_stopped, rest_steps; [done|]. constructor; [|done..]. by eapply finish_stop_stops.
Qed.

(** The workload is started, and then recorded. *)
Definition watch_twice (wt : Watcher) (s : RuntimeService H) : Watcher * RuntimeService H :=
  let '(wt', s') := watch config router wt s in watch config router wt' s'.


(** ** Pauses *)

Lemma backoff_range n : is_u32 n → (1 ≤ backoff_secs n ≤ 30)%Z ∧ (5 ≤ n → backoff_secs n = 30)%Z.
Proof.
  intros Hn. unfold_widths. unfold backoff_secs. rewrite Z.shiftl_1_l.
  assert (2 ^ 0 ≤ 2 ^ Z.min n 63)%Z by (apply Z.pow_le_mono_r; lia).
  assert (5 ≤ n → 2 ^ 5 ≤ 2 ^ Z.min n 63)%Z by (intros; apply Z.pow_le_mono_r; lia). lia.
Qed.


(** ** What a restart starts *)

(** The updates of a workload's record. *)
Inductive update : WorkloadState → WorkloadState → Prop :=
| update_exit st name now code : update st (set_exit name now code st)
| update_restart st now p ip : update st (set_restarted now p ip st)
| update_health st h failures last : update st (set_health h failures last st)
| update_kernel st d : update st (set_kernel_digest d st).

Lemma restart_spec_update st st' id b wake :
  update st st' → network_mode st ≠ EmptyString →
  network_mode st' = network_mode st ∧ restart_spec (MkPlan id b st' wake) = restart_spec (MkPlan id b st wake).
Proof.
  intros Hu Hm. split; [by destruct Hu|]. destruct Hu; try done.
  unfold restart_spec, restart_network_mode. simpl. by rewrite !decide_True.
Qed.

Lemma restart_spec_updates st st' id b wake :
  rtc update st st' → network_mode st ≠ EmptyString →
  restart_spec (MkPlan id b st' wake) = restart_spec (MkPlan id b st wake).
Proof.
  induction 1 as [|x y z Hxy _ IH]; [done|]. intros Hm.
  destruct (restart_spec_update x y id b wake Hxy Hm) as [E <-]. apply IH. by rewrite E.
Qed.

(** The network mode after a round trip through its text. *)
Definition restart_mode (m : NetworkMode.t) (rules : list NetworkRule) : NetworkMode.t :=
  if decide (m = NetworkMode.Loopback ∧ rules ≠ []) then NetworkMode.Bridge else m.

Lemma network_mode_roundtrip m (rules : list NetworkRule) :
  parse_network_mode (network_mode_str m) (bool_decide (rules ≠ [])) = restart_mode m rules.
Proof.
  unfold restart_mode, parse_network_mode. destruct m; simpl; try done.
  - destruct rules; [by rewrite decide_False by naive_solver|by rewrite decide_True].
Qed.

Definition with_restart (sp : WorkloadSpec) : WorkloadSpec :=
  MkSpec (ws_id sp) (ws_image_root sp) (ws_backend sp) (ws_command sp) (ws_env sp) (ws_cpu_millicores sp)
    (ws_memory_bytes sp) (restart_mode (ws_network_mode sp) (ws_network_rules sp)) (ws_network_rules sp) None
    (ws_bridge_name sp) (ws_mounts sp) (ws_health_check sp) RestartPolicy.Always (ws_readonly_rootfs sp)
    (ws_no_new_privileges sp) (ws_seccomp_profile sp) (ws_allowed_syscalls sp) (ws_privileged sp) (ws_dns sp).

(** C29: However often a workload exited, was probed or restarted, the watcher restarts
    it with the specification it was first run with; only the kernel path is dropped,
    the policy becomes always, and an isolated workload with network rules gets the
    bridge. *)
Theorem restart_same req b d k extra handle (s : RuntimeService H) st wake :
  rtc update (state_of_run config policy_engine req (spec_of_run policy_engine req b d k extra) handle s) st →
  Backend.from_str (ph_backend handle) = Ok b → from_hex (rq_root_digest req) = Ok d →
  restart_spec (MkPlan (rq_id req) (ph_backend handle) st wake) =
  Some (with_restart (spec_of_run policy_engine req b d k extra)).
Proof.
  intros Hu Hb Hd. rewrite (restart_spec_updates _ _ _ _ _ Hu) by (simpl; by destruct (parse_network_mode _ _)).
  unfold restart_spec. simpl. rewrite Hb. simpl. rewrite Hd. simpl. unfold with_restart. simpl. do 2 f_equal.
  unfold restart_network_mode. simpl. rewrite decide_True by by destruct (parse_network_mode _ _).
  apply network_mode_roundtrip.
Qed.

(** ** Health *)

(** The failures at the front of a list, and those since the last success. *)
Fixpoint failures_first (l : list bool) : nat :=
  match l with
  | false :: l => S (failures_first l)
  | _ => 0
  end.

Definition streak (l : list bool) : nat := failures_first (reverse l).

(** The health of a workload whose probes gave [l], the newest answer last. *)
Definition health_after (retries : Z) (l : list bool) : string :=
  let n := streak l in
  if decide (n = 0) then (if decide (l = []) then "starting" else "healthy")
  else if decide (retries ≤ Z.of_nat n)%Z then "unhealthy" else "starting".

Definition probe_all (retries : Z) (l : list (bool * Z)) (st : WorkloadState) : WorkloadState :=
  foldl (λ st bt, health_result bt.1 retries bt.2 st) st l.

Lemma streak_snoc l b : streak (l ++ [b]) = if b then 0 else S (streak l).
Proof. unfold streak. rewrite reverse_app. by destruct b. Qed.

Lemma streak_length l : streak l ≤ length l.
Proof.
  unfold streak. rewrite <- (length_reverse l). induction (reverse l) as [|[] l' IH]; simpl; lia.
Qed.

(** The health a workload shows after a series of probes is that of the failures
    since the last success: unhealthy from the configured number on, healthy without
    one, starting in between; fewer than 2^32 probes keep the counter exact. *)
Lemma health_streak retries l st :
  (1 ≤ retries)%Z → (Z.of_nat (length l) < u32_mod)%Z → health st = "starting" → health_failures st = 0%Z →
  health (probe_all retries l st) = health_after retries l.*1 ∧
  health_failures (probe_all retries l st) = Z.of_nat (streak l.*1).
Proof.
  intros Hr Hl Hh Hf. induction l as [|[b t] l IH] using rev_ind; [done|].
  rewrite length_app in Hl. simpl in Hl. destruct IH as [IHh IHf]; [lia|].
  unfold probe_all in *. rewrite foldl_app, fmap_app. simpl. unfold health_after. rewrite streak_snoc.
  pose proof (streak_length l.*1) as Hs. rewrite length_fmap in Hs. destruct b; simpl.
  { split; [|done]. case_decide as E; [|done]. by destruct (l.*1). }
  rewrite IHf. rewrite wrap32_small by (unfold_widths; lia). split; [|lia].
  replace (Z.of_nat (streak l.*1) + 1)%Z with (Z.of_nat (S (streak l.*1))) by lia.
  rewrite IHh. unfold health_after. repeat case_decide; try done; lia.
Qed.

End stop.
