(* ===== verification/CheckpointSpec.v ===== *)
(** * Checkpoints survive a restart of the daemon

    In a plain directory without links, loading the checkpoints gives for every id what
    the file [<id>.json] parses to; so writing a checkpoint updates the loaded table at
    that id and nowhere else. *)

From stdpp Require Import base gmap strings list.
From Stdlib Require Import ZArith Ascii Lia.
From S2P Require Import Prelude Strs Utf8 Crates Node Fs Store OpLock Gc OciTypes HostFs Tasks.
From S2P Require Import Puller Convert Materialize UnpackSpec Bloom Policy Secrets SecretsSpec Ipam Net Exec Container.
From S2P Require Import Rootless Kernel.
From S2P Require Sync.
From S2P Require Import Workload Images Service Handlers Watcher.

(** ** Names *)

Lemma valid_id_normal id : validate_workload_id id = Ok tt → normal_name (id +:+ ".json") ∧ id ≠ EmptyString.
Proof.
  unfold validate_workload_id. case_decide as E0; [done|]. destruct (128 <? _); [done|].
  destruct (str_all id_char id) eqn:E; [intros _|done].
  split; [|done]. split_and!.
  - destruct id; done.
  - destruct id as [|a id]; [done|]. by destruct id.
  - destruct id as [|a id]; [done|]. destruct id as [|b id]; [done|]. by destruct id.
  - rewrite contains_char_app. by rewrite (str_all_contains id_char).
Qed.

Lemma checkpoint_name_inj a b : a +:+ ".json" = b +:+ ".json" → a = b.
Proof.
  change ".json" with (String "." "json"). intros E%(f_equal (λ s, rsplit_once s ".")).
  rewrite !rsplit_once_app in E by done. congruence.
Qed.

Lemma stem_ext_json k : k ≠ EmptyString → stem_ext (k +:+ ".json") = (k, Some "json").
Proof.
  intros Hk. unfold stem_ext. change ".json" with (String "." "json").
  rewrite rsplit_once_app by done. by destruct k.
Qed.

Lemma stem_ext_inv c k : stem_ext c = (k, Some "json") → c = k +:+ ".json" ∧ k ≠ EmptyString.
Proof.
  unfold stem_ext. destruct (rsplit_once c ".") as [[x y]|] eqn:E; [|done].
  apply rsplit_once_Some in E as ->. destruct x as [|a x]; [done|]. intros [= <- ->]. done.
Qed.

Section load.
Context `{StateJson}.

(** What is loaded for an id. *)
Definition saved_state (dir : path) (fs : HostFs) (k : string) : option WorkloadState :=
  if decide (k = EmptyString) then None
  else match content_at fs (dir ++ [k +:+ ".json"]) with
       | Some (File data) => state_from_str data
       | _ => None
       end.

(** A directory in which nothing is a link. *)
Definition plain_dir (fs : HostFs) (dir : path) : Prop :=
  plain fs dir ∧ ∀ c, is_link (content_at fs (dir ++ [c])) = false.

Section dir.
Context (fs : HostFs) (dir : path) (Hd : plain_dir fs dir).

Lemma read_entry k :
  k ≠ EmptyString →
  ok (read_host (dir ++ [k +:+ ".json"]) fs).1 =
  match content_at fs (dir ++ [k +:+ ".json"]) with Some (File data) => Some data | _ => None end.
Proof.
  intros Hk. destruct Hd as [Hp Hl]. assert (k +:+ ".json" ≠ "..") as Hn.
  { intros E%(f_equal String.length). rewrite str_length_app in E. simpl in E. lia. }
  unfold read_host. erewrite bind_ok by (by apply resolve_child). rewrite get_bind.
  specialize (Hl (k +:+ ".json")). by destruct (content_at fs _) as [[]|].
Qed.

Lemma load_checkpoint_lookup acc c k :
  load_checkpoint fs acc (dir ++ [c]) !! k =
  if decide (c = k +:+ ".json") then match saved_state dir fs k with Some st => Some st | None => acc !! k end
  else acc !! k.
Proof.
  unfold load_checkpoint, file_name. rewrite last_snoc. simpl.
  destruct (stem_ext c) as [id ext] eqn:E. case_decide as He.
  - subst ext. apply stem_ext_inv in E as [-> Hid]. rewrite read_entry by done.
    match goal with |- context [match ?o with Some st => <[id:=st]> acc | None => acc end] =>
      replace o with (saved_state dir fs id) end.
    2: { unfold saved_state. rewrite decide_False by done. by destruct (content_at fs _) as [[]|]. }
    case_decide as Hc.
    + apply checkpoint_name_inj in Hc as ->.
      destruct (saved_state dir fs k); [by rewrite lookup_insert_eq|done].
    + assert (id ≠ k) by congruence. destruct (saved_state dir fs id); [by rewrite lookup_insert_ne|done].
  - case_decide as Hc; [|done]. subst c. destruct (decide (k = EmptyString)) as [->|Hk].
    + unfold saved_state. by rewrite decide_True.
    + rewrite stem_ext_json in E by done. congruence.
Qed.

Lemma load_entries_lookup cs acc k :
  foldl (load_checkpoint fs) acc ((λ c, dir ++ [c]) <$> cs) !! k =
  if decide (k +:+ ".json" ∈ cs) then match saved_state dir fs k with Some st => Some st | None => acc !! k end
  else acc !! k.
Proof.
  revert acc. induction cs as [|c cs IH]; intros acc; [done|]. simpl. rewrite IH, load_checkpoint_lookup.
  destruct (decide (c = k +:+ ".json")) as [->|Hc].
  - rewrite (decide_True (P := _ ∈ _ :: _)) by left. case_decide; [by destruct (saved_state _ _ _)|done].
  - destruct (decide (k +:+ ".json" ∈ cs)) as [Hin|Hin].
    + by rewrite decide_True by by right.
    + by rewrite decide_False by set_solver.
Qed.

Lemma child_names c : c ∈ file_name <$> children_of fs dir ↔ is_Some (fs !! (dir ++ [c])).
Proof.
  unfold children_of. rewrite list_elem_of_fmap. split.
  - intros (q & -> & Hq). apply list_elem_of_filter in Hq as [[Hne Hpar] Hq].
    apply list_elem_of_fmap in Hq as ([q' i] & -> & Hq%elem_of_map_to_list). simpl in *.
    destruct q' as [|x q' _] using rev_ind; [done|]. unfold parent in Hpar. rewrite length_app in Hpar. simpl in Hpar.
    rewrite Nat.add_sub, take_app_length in Hpar. subst q'. unfold file_name. rewrite last_snoc. eauto.
  - intros [i Hi]. exists (dir ++ [c]). unfold file_name. rewrite last_snoc. split; [done|].
    apply list_elem_of_filter. split.
    + split; [by destruct dir|]. unfold parent. rewrite length_app. simpl. by rewrite Nat.add_sub, take_app_length.
    + apply list_elem_of_fmap. exists (dir ++ [c], i). split; [done|]. by apply elem_of_map_to_list.
Qed.

(** The loaded table, id by id. *)
Lemma load_lookup k : load_workload_checkpoints dir fs !! k = saved_state dir fs k.
Proof.
  unfold load_workload_checkpoints, read_dir. destruct Hd as [Hp Hl].
  erewrite bind_ok by (by apply resolve_plain). rewrite get_bind, plain_self by done. simpl.
  rewrite (list_fmap_compose file_name (λ c, dir ++ [c])), load_entries_lookup, lookup_empty.
  case_decide as Hin; rewrite child_names in Hin.
  - by destruct (saved_state dir fs k).
  - unfold saved_state. case_decide; [done|]. unfold content_at.
    rewrite decide_False by by destruct dir. apply eq_None_not_Some in Hin. by rewrite Hin.
Qed.

End dir.

(** A file is written and the other ones stay. *)
Lemma write_host_file fs dir data c :
  plain_dir fs dir → c ≠ ".." → content_at fs (dir ++ [c]) ≠ Some Dir →
  (write_host (dir ++ [c]) data fs).1 = Ok tt ∧
  ∀ q, content_at (write_host (dir ++ [c]) data fs).2 q = if decide (q = dir ++ [c]) then Some (File data) else content_at fs q.
Proof.
  intros [Hp Hl] Hc Hn. specialize (Hl c). unfold write_host.
  erewrite bind_ok by (by apply resolve_child). rewrite get_bind.
  destruct (content_at fs (dir ++ [c])) as [[]|] eqn:E; [done| |done|]; split; try done; intros q.
  - unfold content_at in *. destruct (decide (dir ++ [c] = [])); [by destruct dir|].
    repeat case_decide; subst; try done; simpl.
    + rewrite lookup_alter_eq. by destruct (fs !! (dir ++ [c])).
    + by rewrite lookup_alter_ne.
  - unfold content_at. repeat case_decide; subst; try done; simpl; [by destruct dir|by rewrite lookup_insert_eq|by rewrite lookup_insert_ne].
Qed.

Section write.
Context (fs : HostFs) (dir : path) (id : string) (st : WorkloadState).
Hypothesis (Hd : plain_dir fs dir) (Hid : validate_workload_id id = Ok tt).
Hypothesis (Hf : content_at fs (dir ++ [id +:+ ".json"]) ≠ Some Dir).

Context `{!StateJsonLaws}.

Lemma write_checkpoint_contents q :
  ∃ data, state_from_str data = Some st ∧
  content_at (write_workload_checkpoint dir id st fs).2 q =
  if decide (q = dir ++ [id +:+ ".json"]) then Some (File data) else content_at fs q.
Proof.
  destruct (valid_id_normal id Hid) as [Hn _]. unfold write_workload_checkpoint, checkpoint_path.
  destruct (state_to_string_total st) as [data Hs]. rewrite Hs. exists data. split; [by apply state_roundtrip|].
  rewrite path_join_name by done. rewrite ignore_ok. simpl.
  by apply write_host_file; [|apply Hn|].
Qed.

Lemma write_checkpoint_plain : plain_dir (write_workload_checkpoint dir id st fs).2 dir.
Proof.
  destruct Hd as [Hp Hl]. split.
  - eapply plain_ext; [done|]. intros q k Hq. destruct (write_checkpoint_contents q) as (data & _ & ->).
    rewrite decide_False; [done|by eapply snoc_not_prefix].
  - intros c. destruct (write_checkpoint_contents (dir ++ [c])) as (data & _ & ->). by case_decide.
Qed.

(** Writing a checkpoint changes what is loaded at its id, to the state written. *)
Lemma checkpoint_rewrite :
  load_workload_checkpoints dir (write_workload_checkpoint dir id st fs).2 =
  <[id := st]> (load_workload_checkpoints dir fs).
Proof.
  apply map_eq. intros k. rewrite load_lookup by apply write_checkpoint_plain.
  destruct (valid_id_normal id Hid) as [_ Hne]. unfold saved_state.
  destruct (write_checkpoint_contents (dir ++ [k +:+ ".json"])) as (data & Hdata & ->).
  destruct (decide (k = id)) as [->|Hk].
  - by rewrite lookup_insert_eq, decide_False, decide_True.
  - rewrite lookup_insert_ne, load_lookup by done. rewrite (decide_False (P := dir ++ _ = _)); [done|].
    intros [= E%checkpoint_name_inj]%app_inv_head. done.
Qed.

End write.
End load.

(** ** Recovery *)

Section recovery.
Context {H : Type} `{Processes H, HttpClient H, Sync.PeerNet H, Sync.Clock H, TempDir H, DefaultHasher, Hex, Sha2}.
Context `{Rkyv DagNode, EntryJson, JsonText, OciJson, GzDecoder, Puller.Base64, LayerTar, ZstdDecoder, StateJson, Lowercase}.
Context `{Aes256Gcm, OsRng, CharClass, Ed25519, Rkyv SignatureBlob, Rkyv SbomBlob, !StateJsonLaws}.
Context (config : ServiceConfig) (policy_engine : option PolicyEngine).

(** What recovery makes of a loaded state. *)
Definition recovered (now : Z) (st st' : WorkloadState) : Prop :=
  st' = st ∨ status st = "running" ∧ backend st ≠ "vm" ∧ st' = mark_recovered now st.

Lemma runc_alive_now id (s : RuntimeService H) : sv_now (runc_alive id s).2 = sv_now s.
Proof. unfold runc_alive. by destruct (run_command _ _ _ _). Qed.

Lemma recover_one_lookup acc kv :
  sv_now (recover_one (H := H) acc kv).2 = sv_now acc.2 ∧
  (∃ st', (recover_one acc kv).1 = <[kv.1 := st']> acc.1 ∧ recovered (sv_now acc.2) kv.2 st').
Proof.
  destruct acc as [wl s], kv as [id st]. unfold recover_one. simpl. case_decide as Hc.
  - pose proof (runc_alive_now id s) as Hn. destruct (runc_alive id s) as [alive s']. simpl in *. split; [done|].
    eexists. split; [done|]. unfold recovered. destruct alive; [by left|right]. naive_solver.
  - split; [done|]. eexists. split; [done|by left].
Qed.

Lemma recover_fold l acc :
  NoDup l.*1 → (∀ k, k ∈ l.*1 → acc.1 !! k = None) →
  let acc' := foldl (recover_one (H := H)) acc l in
  sv_now acc'.2 = sv_now acc.2 ∧
  (∀ k st, (k, st) ∈ l → ∃ st', acc'.1 !! k = Some st' ∧ recovered (sv_now acc.2) st st') ∧
  (∀ k, k ∉ l.*1 → acc'.1 !! k = acc.1 !! k).
Proof.
  revert acc. induction l as [|[id st] l IH]; intros acc Hnd Hfr; simpl; [by split_and!; [|intros ?? ?%elem_of_nil|]|].
  rewrite fmap_cons in Hnd. apply NoDup_cons in Hnd as [Hid Hnd]. simpl in Hid.
  destruct (recover_one_lookup acc (id, st)) as (Hn & st' & E & Hr). simpl in *.
  destruct (IH (recover_one acc (id, st)) Hnd) as (Hn' & Hin & Hout).
  { intros k Hk. rewrite E, lookup_insert_ne by set_solver. apply Hfr. set_solver. }
  rewrite Hn in *. split_and!; [done| |].
  - intros k st0 [[= -> ->]|Hk]%elem_of_cons; [|by apply Hin].
    exists st'. split; [|done]. by rewrite Hout, E, lookup_insert_eq.
  - intros k [Hk Hkl]%not_elem_of_cons. by rewrite Hout, E, lookup_insert_ne.
Qed.

Lemma recover_lookup (s : RuntimeService H) k st :
  load_workload_checkpoints (checkpoints_dir config) (sv_fs s) !! k = Some st →
  ∃ st', sv_workloads (recover_workloads config s) !! k = Some st' ∧ recovered (sv_now s) st st'.
Proof.
  intros E. unfold recover_workloads. set (loaded := load_workload_checkpoints _ _) in *.
  destruct (recover_fold (map_to_list loaded) (∅, s)) as (_ & Hin & _).
  { apply NoDup_fst_map_to_list. }
  { done. }
  destruct (foldl _ _ _) as [wl s'] eqn:Ef. simpl in *. apply Hin. by apply elem_of_map_to_list.
Qed.

(** The table is what the checkpoints hold. *)
Record durable (s : RuntimeService H) : Prop := {
  durable_dir : plain_dir (sv_fs s) (checkpoints_dir config);
  durable_files c : content_at (sv_fs s) (checkpoints_dir config ++ [c]) ≠ Some Dir;
  durable_table : load_workload_checkpoints (checkpoints_dir config) (sv_fs s) = sv_workloads s;
}.

(** The pattern of every change of a workload. *)
Lemma put_durable id st s :
  validate_workload_id id = Ok tt → durable s → durable ((put_workload id st ;; svc_checkpoint config id st) s).2.
Proof.
  intros Hid [Hd Hf Ht]. unfold put_workload, svc_checkpoint. rewrite modify_bind, ignore_ok.
  set (s1 := set_workloads _ s). simpl.
  assert (sv_fs (on_svc_fs (write_workload_checkpoint (checkpoints_dir config) id st) s1).2 =
          (write_workload_checkpoint (checkpoints_dir config) id st (sv_fs s)).2) as Efs.
  { unfold on_svc_fs. change (sv_fs s1) with (sv_fs s). by destruct (write_workload_checkpoint _ _ _ (sv_fs s)). }
  assert (sv_workloads (on_svc_fs (write_workload_checkpoint (checkpoints_dir config) id st) s1).2 =
          <[id := st]> (sv_workloads s)) as Ewl.
  { unfold on_svc_fs. by destruct (write_workload_checkpoint _ _ _ _). }
  constructor; rewrite ?Efs, ?Ewl.
  - by apply write_checkpoint_plain.
  - intros c. destruct (write_checkpoint_contents (sv_fs s) (checkpoints_dir config) id st Hd Hid (Hf _)
      (checkpoints_dir config ++ [c])) as (data & _ & ->). by case_decide.
  - by rewrite checkpoint_rewrite, Ht.
Qed.


End recovery.
