(* ===== verification/CopySpec.v ===== *)
(** * Reading images and copying files in and out of a workload

    A canonical path has no links left, so what a copy out reads lies in the root file
    system.  A copy in resolves the directory only: a link at the last place is followed
    when the file is written. *)

From stdpp Require Import base gmap strings list relations sorting pretty.
From Stdlib Require Import ZArith Ascii Lia.
From S2P Require Import Worklist StoreFacts GcFacts Prelude Strs Utf8 Crates Node Fs Store OpLock Gc OciTypes HostFs Tasks.
From S2P Require Import Convert Materialize UnpackSpec Secrets SecretsSpec Net Exec Container Scan.
From S2P Require Import Workload Images Service Handlers.

(** ** The walk over an image *)

Section walk.
Context `{Hex, Sha2, Rkyv DagNode, EntryJson, !HexLaws}.

Definition node_info (w : World) (d : Digest) : option DagNodeInfo :=
  (λ n, MkDagNodeInfo (as_hex d) (kind_name n)) <$> node_at w d.

Record dag_inv (w : World) (roots : list Digest) (V : gset Digest) (Q : list Digest) (wl : World * list DagNodeInfo) : Prop := {
  dag_store : store_inv wl.1;
  dag_disk : same_disk w wl.1;
  dag_explored : explored w roots V Q;
  dag_listed : ∃ ds, wl.2 = omap (node_info w) ds ∧ NoDup ds ∧ ∀ d, d ∈ ds ↔ d ∈ V;
}.

Lemma dag_visit w roots V d Q wl w1 :
  dag_inv w roots V (d :: Q) wl → d ∉ V → store_inv w1 → same_disk w w1 →
  dag_inv w roots ({[d]} ∪ V) (Q ++ children w d) (w1, wl.2 ++ option_list (node_info w d)).
Proof.
  intros [Hst Hdi Hex (ds & El & Hnd & Hin)] Hd Hi1 Hd1. constructor; simpl; try done; [by apply explored_visit|].
  exists (ds ++ [d]). split_and!.
  - rewrite omap_app, El. simpl. by destruct (node_info w d).
  - apply NoDup_app. split_and!; [done| |apply NoDup_singleton]. intros e He ->%list_elem_of_singleton. by apply Hd, Hin.
  - intros e. rewrite elem_of_app, list_elem_of_singleton, Hin. set_solver.
Qed.

Lemma walk_dag_spec w roots :
  store_inv w → healthy w →
  match traverse walk_dag_body roots [] w with
  | (Ok out, w') => ∃ V, dag_inv w roots V [] (w', out)
  | (Err _, _) => False
  end.
Proof.
  intros Hinv Hh.
  pose proof (traverse_rule walk_dag_body w (dag_inv w roots) (λ _ _, False)) as Ht.
  specialize (Ht) with (queue := roots) (l := []).
  assert (dag_inv w roots ∅ roots (w, [])) as Hstart.
  { constructor; simpl; try done; [apply explored_start|]. exists []. split_and!; [done|constructor|set_solver]. }
  ospecialize (Ht _ _ Hstart).
  { intros V d Q wl Hd [???]. constructor; try done. by eapply explored_skip. }
  2: { destruct (traverse _ _ _ _) as [[out|e] w']; [done|by destruct Ht]. }
  clear Hstart. intros V d Q [w1 out] Hd HP. pose proof (dag_store _ _ _ _ _ HP) as Hs1.
  pose proof (dag_disk _ _ _ _ _ HP) as Hd1. simpl in Hs1, Hd1.
  unfold walk_dag_body. rewrite try_bind. unfold on_world. simpl.
  destruct (get_archived d w1) as [r w2] eqn:Eg. apply get_archived_spec in Eg as (Hs2 & Hd2 & Hr); [|done].
  pose proof (same_disk_trans _ _ _ Hd1 Hd2) as Hd12.
  destruct Hr as [-> | [_ Hu]]; [|by destruct Hu; apply (same_disk_healthy w)].
  rewrite (same_disk_archived w w1) by done. simpl.
  pose proof (dag_visit w roots V d Q (w1, out) w2 HP Hd Hs2 Hd12) as Hv. unfold node_info in Hv. simpl in Hv.
  destruct (archived_result w d) as [n|e] eqn:Ea.
  - apply archived_result_Ok in Ea. rewrite Ea in Hv. rewrite (children_node w d n) in * by done.
    split; [done|exact Hv].
  - assert (node_at w d = None) as En.
    { destruct (node_at w d) as [n|] eqn:En; [|done]. apply archived_result_Ok in En. congruence. }
    rewrite En in Hv. simpl in Hv. rewrite app_nil_r in Hv. unfold children in *. rewrite En in *.
    split; [simpl; lia|exact Hv].
Qed.

Lemma from_hex_nonempty s d : from_hex s = Ok d → s ≠ EmptyString.
Proof.
  intros Hd ->. unfold from_hex in Hd. simpl in Hd. destruct (hex_decode "") as [b|] eqn:E; [|done].
  pose proof (hex_encode_length b) as Hl. rewrite (hex_decode_lower _ _ E) in Hl. simpl in Hl, Hd.
  unfold mbind, result_bind in Hd. destruct b; [done|simpl in Hl; lia].
Qed.

(** Inspecting a workload lists every readable node of its image that can be
    reached from the image's root, each exactly once and with its kind, and nothing
    else, however the image is shared or damaged. *)
Lemma walk_dag_exact w image_root r :
  store_inv w → healthy w → from_hex image_root = Ok r →
  ∃ ds w', walk_dag image_root w = (Ok (omap (node_info w) ds), w') ∧ same_disk w w' ∧ NoDup ds ∧
    ∀ d, d ∈ ds ↔ reachable w [r] d.
Proof.
  intros Hinv Hh Hr. pose proof (walk_dag_spec w [r] Hinv Hh) as Hw. unfold walk_dag. rewrite Hr.
  rewrite decide_False by by eapply from_hex_nonempty.
  destruct (traverse _ _ _ _) as [[out|e] w']; [|done]. destruct Hw as (V & [_ Hdi Hex (ds & Eo & Hnd & Hin)]). simpl in Eo. subst out.
  exists ds, w'. split_and!; [done..|]. intros d. rewrite Hin. by apply explored_done.
Qed.

End walk.

(** ** Canonical paths *)

Definition canonical (fs : HostFs) (q : path) : Prop :=
  plain fs q ∨
  ∃ p c, q = p ++ [c] ∧ plain fs p ∧ c ≠ ".." ∧ is_link (content_at fs q) = false.

Lemma plain_root fs : plain fs [].
Proof. split; [set_solver|]. intros [|? q] k E; [done|discriminate E]. Qed.

Lemma plain_parent fs p : plain fs p → plain fs (parent p).
Proof.
  intros [Hd Hp]. unfold parent. split.
  - intros Hin. by apply elem_of_take in Hin as (i & Hi%list_elem_of_lookup_2 & _).
  - intros q k Hq. apply (Hp q (k ++ drop (length p - 1) p)). by rewrite app_assoc, <- Hq, take_drop.
Qed.

Lemma walk_canonical fs expand cur todo q :
  (∀ cur todo q, plain fs cur → expand cur todo = Ok q → canonical fs q) →
  plain fs cur → walk_components fs true expand cur todo = Ok q → canonical fs q.
Proof.
  intros Hx. revert cur. induction todo as [|c todo IH]; intros cur Hc; simpl; [intros [= <-]; by left|].
  case_decide; [by apply IH, plain_parent|].
  destruct (content_at fs (cur ++ [c])) as [[|d|t]|] eqn:E.
  - apply IH. by apply plain_snoc.
  - case_bool_decide; [|done]. intros [= <-]. right. exists cur, c. by rewrite E.
  - rewrite andb_false_r. apply Hx. destruct (is_absolute t); [apply plain_root|done].
  - case_bool_decide; [|done]. intros [= <-]. right. exists cur, c. by rewrite E.
Qed.

Lemma resolve_from_canonical n fs cur todo q :
  plain fs cur → resolve_from n fs true cur todo = Ok q → canonical fs q.
Proof.
  revert cur todo q. induction n as [|n IH]; intros cur todo q Hc; simpl.
  - by apply walk_canonical.
  - apply walk_canonical; [|done]. by apply IH.
Qed.

Lemma resolve_inv follow p fs q fs' :
  resolve follow p fs = (Ok q, fs') → fs' = fs ∧ resolve_from MAXSYMLINKS fs follow [] p = Ok q.
Proof. intros E. split; [exact (eq_sym (f_equal snd E))|exact (f_equal fst E)]. Qed.

Lemma canonicalize_canonical fs p q fs' :
  canonicalize p fs = (Ok q, fs') → fs' = fs ∧ canonical fs q ∧ is_Some (content_at fs q).
Proof.
  unfold canonicalize. intros (q' & fs1 & Hr & E)%bind_inv_ok. apply resolve_inv in Hr as [-> Hr].
  rewrite get_bind in E. destruct (content_at fs q') eqn:Ec; [|done]. injection E as <- <-.
  split_and!; [done| |by rewrite Ec]. eapply resolve_from_canonical; [apply plain_root|exact Hr].
Qed.

(** A canonical path names itself. *)
Lemma resolve_self fs follow q : canonical fs q → resolve follow q fs = (Ok q, fs).
Proof. intros [Hp|(p & c & -> & Hp & Hc & Hl)]; [by apply resolve_plain|by apply resolve_child]. Qed.

Section copy.
Context {H : Type} `{Processes H, Hex, Sha2, Rkyv DagNode, EntryJson, JsonText}.
Context (config : ServiceConfig).

Lemma on_files_err_ok {A} (f : errno → HandlerError) (m : host_eff A) (s s' : RuntimeService H) a :
  on_files_err f m s = (Ok a, s') →
  ∃ fs', m (sv_fs s) = (Ok a, fs') ∧ s' = with_exec (with_fs fs' (sv_exec s)) s.
Proof.
  unfold on_files_err, map_err_eff, on_svc_fs. destruct (m (sv_fs s)) as [[a'|e] fs']; intros [=]; subst; eauto.
Qed.

Lemma on_files_same {A} (f : errno → HandlerError) (m : host_eff A) (s s' : RuntimeService H) a :
  on_files_err f m s = (Ok a, s') → (∀ a fs', m (sv_fs s) = (Ok a, fs') → fs' = sv_fs s) →
  s' = s ∧ m (sv_fs s) = (Ok a, sv_fs s).
Proof.
  intros (fs' & E & ->)%on_files_err_ok Hf. pose proof (Hf _ _ E) as ->. split; [|done].
  destruct s as [? []]. done.
Qed.

(** The directory a copy works in. *)
Lemma find_rootfs id (s s1 s2 : RuntimeService H) st rootfs :
  find_workload id s = (Ok st, s1) → workload_rootfs config id st s1 = (Ok rootfs, s2) →
  s1 = s ∧ s2 = s ∧ sv_workloads s !! id = Some st.
Proof.
  unfold find_workload, workload_rootfs. rewrite get_bind. unfold lift_result, ok_or.
  destruct (sv_workloads s !! id) as [st'|]; intros [=]; subst. case_decide.
  - rewrite get_bind. unfold lift_result, ok_or. destruct (_ !! _); intros [=]; subst; done.
  - intros [=]; subst. done.
Qed.

Lemma canonicalize_same (p : path) (fs fs' : HostFs) (q : path) : canonicalize p fs = (Ok q, fs') → fs' = fs.
Proof. intros E%canonicalize_canonical. by destruct E. Qed.

Lemma metadata_same (p : path) (fs fs' : HostFs) i : metadata p fs = (Ok i, fs') → fs' = fs.
Proof.
  unfold metadata. intros (q & fs1 & Hr & E)%bind_inv_ok. apply resolve_inv in Hr as [-> _]. rewrite get_bind in E.
  destruct (fs !! q); [by injection E|]. case_decide; [by injection E|done].
Qed.

Lemma read_host_same (p : path) (fs fs' : HostFs) data : read_host p fs = (Ok data, fs') → fs' = fs.
Proof.
  unfold read_host. intros (q & fs1 & Hr & E)%bind_inv_ok. apply resolve_inv in Hr as [-> _]. rewrite get_bind in E.
  by destruct (content_at fs q) as [[]|]; injection E.
Qed.

(** C27: A file copied out of a workload is read from a path inside the workload's root
    file system, whatever links the workload made, and nothing changes. *)
Theorem copy_out_confined req (s : RuntimeService H) resp s' :
  cq_direction req = "out" → copy_file config req s = (Ok resp, s') →
  s' = s ∧ ∃ st rootfs q, sv_workloads s !! cq_id req = Some st ∧
    workload_rootfs config (cq_id req) st s = (Ok rootfs, s) ∧
    path_starts_with q rootfs = true ∧ content_at (sv_fs s) q = Some (File (cpr_content resp)).
Proof.
  intros Hdir. unfold copy_file. case_decide; [done|].
  intros (st & s1 & Est & (rootfs & s2 & Er & E)%bind_inv_ok)%bind_inv_ok.
  destruct (find_rootfs _ _ _ _ _ _ Est Er) as (-> & -> & Hst). clear Est.
  apply bind_inv_ok in E as (q & s3 & Eq & E). rewrite decide_True in E by done.
  unfold copy_path in Eq. rewrite decide_False in Eq by by rewrite Hdir.
  apply bind_inv_ok in Eq as (q' & s4 & Ec & Eq).
  apply on_files_same in Ec as [-> Ec]; [|intros; by eapply canonicalize_same].
  destruct (path_starts_with q' rootfs) eqn:Ep; [|done]. injection Eq as <- <-.
  apply canonicalize_canonical in Ec as (_ & Hcan & _).
  unfold copy_out in E. apply bind_inv_ok in E as (i & s5 & Em & E).
  apply on_files_same in Em as [-> Em]; [|intros; by eapply metadata_same].
  destruct (icontent i) as [|d|t] eqn:Ei; [done| |done].
  apply bind_inv_ok in E as (data & s6 & Ed & E).
  apply on_files_same in Ed as [-> Ed]; [|intros; by eapply read_host_same].
  injection E as <- <-. split; [done|]. exists st, rootfs, q'. split_and!; [done..|].
  unfold read_host in Ed. erewrite bind_ok in Ed by by apply resolve_self. rewrite get_bind in Ed.
  destruct (content_at (sv_fs s) q') as [[|d'|]|]; try discriminate Ed. by injection Ed as ->.
Qed.

(** ** Copying in *)

(** Writing a file that is no link changes that file only. *)
Lemma write_canonical fs q data fs' :
  canonical fs q → write_host q data fs = (Ok tt, fs') →
  ∀ p, content_at fs' p = if decide (p = q) then Some (File data) else content_at fs p.
Proof.
  intros Hc. unfold write_host. erewrite bind_ok by by apply resolve_self. rewrite get_bind.
  intros E p. unfold content_at in *. destruct (decide (q = [])) as [->|Hq]; [done|].
  destruct (fs !! q) as [i|] eqn:El; simpl in E.
  - destruct (icontent i); try discriminate E. injection E as <-.
    repeat case_decide; subst; try done; [by rewrite lookup_alter_eq, El|by rewrite lookup_alter_ne].
  - injection E as <-. repeat case_decide; subst; try done; [by rewrite lookup_insert_eq|by rewrite lookup_insert_ne].
Qed.

Lemma resolve_in_inv rootfs full (s s' : RuntimeService H) q :
  resolve_in rootfs full s = (Ok q, s') →
  s' = s ∧ ∃ p c, q = p ++ [c] ∧ canonical (sv_fs s) p ∧ is_Some (content_at (sv_fs s) p) ∧ path_starts_with p rootfs = true ∧ c ≠ "..".
Proof.
  unfold resolve_in. intros (p & s1 & Ep & E)%bind_inv_ok.
  apply on_files_same in Ep as [-> Ep]; [|intros; by eapply canonicalize_same].
  apply canonicalize_canonical in Ep as (_ & Hcan & Hsome).
  destruct (path_starts_with p rootfs) eqn:Hs; [|done].
  apply bind_inv_ok in E as (c & s2 & Ec & E). apply lift_frame in Ec as [-> Ec]. injection E as <- <-.
  split; [done|]. exists p, c. split_and!; [done..|].
  unfold path_file_name in Ec. destruct (last full); [|done]. simpl in Ec. case_decide; [done|]. by injection Ec as ->.
Qed.

Lemma create_dir_all_canonical fs p fs' :
  canonical fs p → is_Some (content_at fs p) → create_dir_all p fs = (Ok tt, fs') → fs' = fs ∧ plain fs p.
Proof.
  intros Hcan [c0 Hc]. destruct Hcan as [Hp|(p0 & c & -> & Hp & Hn & Hl)].
  { rewrite create_dir_all_known by done. by intros [= <-]. }
  destruct c0 as [|d|t]; [| |by rewrite Hc in Hl].
  { rewrite create_dir_all_known by by apply plain_snoc. intros [= <-]. split; [done|by apply plain_snoc]. }
  assert (resolve false (p0 ++ [c]) fs = (Ok (p0 ++ [c]), fs)) as Hr by by apply resolve_child.
  assert (is_dir (p0 ++ [c]) fs = false) as Hd.
  { unfold is_dir. rewrite resolve_child by done. simpl. by rewrite Hc. }
  assert (mkdir 493 (p0 ++ [c]) fs = (Err EEXIST, fs)) as Hm.
  { unfold mkdir. erewrite bind_ok by exact Hr. rewrite get_bind. by rewrite Hc. }
  unfold create_dir_all. destruct (length (p0 ++ [c])) as [|n]; cbn [create_dir_all_loop];
    (rewrite decide_False by by destruct p0); rewrite try_bind, Hm; cbn [fst snd]; by rewrite get_bind, Hd.
Qed.


Lemma resolve_link fs d c t p x :
  plain fs d → c ≠ ".." → content_at fs (d ++ [c]) = Some (Symlink t) →
  is_absolute t = true → components t = p ++ [x] → plain fs p → x ≠ ".." →
  is_link (content_at fs (p ++ [x])) = false → resolve true (d ++ [c]) fs = (Ok (p ++ [x]), fs).
Proof.
  intros [Hd Hdp] Hc Hl Ha Ht [Hp Hpp] Hx Hn. unfold resolve, MAXSYMLINKS. f_equal. cbn [resolve_from].
  rewrite walk_plain; [|done|intros q r ->; by apply (Hdp q r)]. cbn [walk_components app].
  rewrite decide_False by done. rewrite Hl, andb_false_r, Ha, Ht, app_nil_r.
  rewrite walk_plain; [|done|intros q r ->; by apply (Hpp q r)]. cbn [walk_components app].
  rewrite decide_False by done. by destruct (content_at fs (p ++ [x])) as [[]|].
Qed.

Lemma on_files_run {A} (f : errno → HandlerError) (m : host_eff A) (s : RuntimeService H) a fs' :
  m (sv_fs s) = (Ok a, fs') → on_files_err f m s = (Ok a, with_exec (with_fs fs' (sv_exec s)) s).
Proof. intros E. unfold on_files_err, map_err_eff, on_svc_fs. by rewrite E. Qed.

Lemma with_same_fs (s : RuntimeService H) : with_exec (with_fs (sv_fs s) (sv_exec s)) s = s.
Proof. by destruct s as [? []]. Qed.

Lemma starts_with_self (p q : path) : path_starts_with (p ++ q) p = true.
Proof. unfold path_starts_with. by rewrite take_app_length, bool_decide_true. Qed.

(** A link at the last place passes the checks. *)
Lemma copy_path_link rootfs req (s : RuntimeService H) c :
  cq_direction req = "in" → cq_container_path req = c → trim_start_slashes c = c → normal_name c →
  plain (sv_fs s) rootfs → copy_path rootfs req s = (Ok (rootfs ++ [c]), s).
Proof.
  intros Hdir Hcp Ht Hn Hp. unfold copy_path. rewrite Hcp, Ht, path_join_name, decide_True by done.
  assert (resolve_in rootfs (rootfs ++ [c]) s = (Ok (rootfs ++ [c]), s)) as E.
  { unfold resolve_in. rewrite parent_snoc.
    erewrite bind_ok.
    2: { apply on_files_run. unfold canonicalize. erewrite bind_ok by by apply resolve_plain.
         rewrite get_bind, plain_self by done. done. }
    rewrite with_same_fs. pose proof (starts_with_self rootfs []) as Hs. rewrite app_nil_r in Hs. rewrite Hs.
    unfold path_file_name. rewrite last_snoc. destruct Hn as (_ & _ & Hn & _). by rewrite decide_False. }
  erewrite bind_ok by exact E. by rewrite starts_with_self.
Qed.

(** A link the workload made at the place of the file is followed: the copy then
    writes the file it points to, outside of the workload's root file system. *)
Lemma copy_in_follows_link req (s : RuntimeService H) st c t p x :
  let rootfs := path_join (path_join (bundle_root config) (cq_id req)) "rootfs" in
  cq_direction req = "in" → cq_mode req = 0%Z → cq_id req ≠ EmptyString →
  cq_container_path req = c → normal_name c → trim_start_slashes c = c →
  sv_workloads s !! cq_id req = Some st → Workload.backend st = "container" →
  plain (sv_fs s) rootfs → content_at (sv_fs s) (rootfs ++ [c]) = Some (Symlink t) →
  is_absolute t = true → components t = p ++ [x] → plain (sv_fs s) p → x ≠ ".." →
  content_at (sv_fs s) (p ++ [x]) = None →
  ∃ resp s', copy_file config req s = (Ok resp, s') ∧
    content_at (sv_fs s') (p ++ [x]) = Some (File (cq_content req)).
Proof.
  intros rootfs Hdir Hmode Hid Hcp Hn Ht Hst Hb Hroot Hlink Habs Hcomp Hp Hx Hnone.
  destruct Hn as (Hc0 & Hn). assert (normal_name c) as Hnn by done. destruct Hn as (_ & Hdd & _).
  set (fs' := <[p ++ [x] := MkInode (File (cq_content req)) (default_meta (File (cq_content req)))]> (sv_fs s)).
  assert (∀ q, content_at fs' q = if decide (q = p ++ [x]) then Some (File (cq_content req)) else content_at (sv_fs s) q) as Hfs'.
  { intros q. subst fs'. unfold content_at. repeat case_decide; subst; try done;
      [by destruct p|by rewrite lookup_insert_eq|by rewrite lookup_insert_ne]. }
  assert (∀ d, plain (sv_fs s) d → plain fs' d) as Hpl.
  { intros d Hd. eapply plain_ext; [done|]. intros q k ->. rewrite Hfs', decide_False; [done|].
    intros ->. destruct Hd as [_ Hd]. specialize (Hd _ _ eq_refl). congruence. }
  assert (resolve true (rootfs ++ [c]) (sv_fs s) = (Ok (p ++ [x]), sv_fs s)) as Hr1.
  { eapply resolve_link; try done. by rewrite Hnone. }
  assert (resolve true (rootfs ++ [c]) fs' = (Ok (p ++ [x]), fs')) as Hr2.
  { eapply resolve_link; try done; [by apply Hpl| |by apply Hpl|].
    - rewrite Hfs', decide_False; [done|]. intros E. rewrite E in Hlink. congruence.
    - by rewrite Hfs', decide_True. }
  eexists _, _. split.
  - unfold copy_file. rewrite decide_False by (rewrite Hcp; naive_solver).
    erewrite bind_ok.
    2: { unfold find_workload. rewrite get_bind, Hst. done. }
    erewrite bind_ok.
    2: { unfold workload_rootfs. rewrite decide_False by (rewrite Hb; set_solver). done. }
    erewrite bind_ok by by apply copy_path_link.
    rewrite decide_False by by rewrite Hdir. rewrite decide_True by done. unfold copy_in. rewrite parent_snoc.
    erewrite bind_ok by (apply on_files_run; by apply create_dir_all_known).
    rewrite with_same_fs.
    erewrite bind_ok.
    2: { apply on_files_run. unfold write_host. erewrite bind_ok by exact Hr1. rewrite get_bind, Hnone. done. }
    rewrite decide_True by done. erewrite bind_ok by done.
    erewrite bind_ok.
    2: { apply on_files_run. change (sv_fs (with_exec (with_fs ?f _) _)) with f. unfold metadata.
         erewrite bind_ok by exact Hr2. rewrite get_bind. unfold fs'. rewrite lookup_insert_eq. done. }
    done.
  - change (sv_fs (with_exec (with_fs ?f _) _)) with f. by rewrite Hfs', decide_True.
Qed.

End copy.
