(* ===== verification/Vm.v ===== *)
(** * Virtual machines: [runtime/pullrun-vm/src/{lib,network,ext4,pool}.rs]

    [FirecrackerExecutor] gives a workload an address and a tap device, turns its image
    into an ext4 file and starts a Firecracker process; [VmPool] keeps machines that are
    booted already.  Programs, system calls and the Firecracker API are parameters.  The
    model is the Linux build; what a machine writes while it runs is not modelled. *)

From stdpp Require Import base gmap strings list pretty.
From Stdlib Require Import ZArith Ascii Lia.
From S2P Require Import Prelude Strs Utf8 Crates Node Fs Store OciTypes HostFs Convert Materialize.
From S2P Require Import Ipam Net Firewall Exec Container Kernel Builder Service.

(** ** Data *)

(** Addresses and the mask are 32-bit numbers. *)
Record VmNetwork := MkVmNetwork {
  vn_tap_name : string;
  vn_bridge_name : string;
  vn_guest_ip : Z;
  vn_guest_mac : string;
  vn_netmask : Z;
  vn_gateway : Z;
}.

Record VmSidecar := MkSidecar {
  vs_vm_net : VmNetwork;
  vs_endpoint : NetworkEndpoint;
  vs_tap_name : string;
}.

Record FirecrackerConfig := MkFcConfig {
  fc_path : string;
  fc_kernel_path : path;
  fc_rootfs_dir : path;
  fc_vcpus : Z;
  fc_mem_mib : Z;
  fc_size_mb : Z;
}.

Record VmPoolConfig := MkPoolConfig { pc_pool_size : nat; pc_vm_root : path }.

Record PoolEntry := MkPoolEntry {
  pe_id : string;
  pe_api_socket : path;
  pe_vm_dir : path;
  pe_guest_ip : Z;
  pe_tap_name : string;
  pe_vm_net : VmNetwork;
  pe_endpoint : NetworkEndpoint;
  pe_pid : Z;
  pe_tap_fd : Z;
}.

(** The executor; its pool when one is configured. *)
Record FirecrackerExecutor := MkFirecracker {
  fx_config : FirecrackerConfig;
  fx_pool : option VmPoolConfig;
}.

(** The tables of the executor and the queue of its pool. *)
Record VmTables := MkTables {
  vt_tap_fds : gmap string Z;
  vt_slirp_children : gmap string Z;
  vt_pool_allocations : gset string;
  vt_pool : list PoolEntry;
}.

Record VmHost (H : Type) := MkVmHost { vh_tables : VmTables; vh_host : H }.
Arguments MkVmHost {H}.
Arguments vh_tables {H}.
Arguments vh_host {H}.

Definition set_tap_fds (m : gmap string Z) (t : VmTables) : VmTables :=
  MkTables m (vt_slirp_children t) (vt_pool_allocations t) (vt_pool t).
Definition set_slirp_children (m : gmap string Z) (t : VmTables) : VmTables :=
  MkTables (vt_tap_fds t) m (vt_pool_allocations t) (vt_pool t).
Definition set_pool_allocations (s : gset string) (t : VmTables) : VmTables :=
  MkTables (vt_tap_fds t) (vt_slirp_children t) s (vt_pool t).
Definition set_pool (l : list PoolEntry) (t : VmTables) : VmTables :=
  MkTables (vt_tap_fds t) (vt_slirp_children t) (vt_pool_allocations t) l.

(** System calls: opening [/dev/net/tun], [ioctl(TUNSETIFF)] with the bytes of an
    [ifreq], closing a descriptor; [kill(pid, 0) == 0]; [waitpid(pid, WNOHANG)]; a
    request over a Unix socket with the answer, if all went well; random bytes; and
    programs that write files. *)
Class VmKernel (H : Type) := {
  open_tun : H → option Z * H;
  tunsetiff : Z → bytes → H → bool * H;
  close_fd : Z → H → H;
  kill_zero : Z → H → bool;
  waitpid_nohang : Z → H → Z * H;
  unix_exchange : path → bytes → H → option bytes * H;
  random_bytes : nat → H → bytes * H;
  run_tool : string → list string → HostFs → H → Output * HostFs * H;
}.

(** serde: the text of a [VmSidecar], and the compact text of a value. *)
Class VmJson := {
  sidecar_to_string : VmSidecar → option string;
  sidecar_from_str : string → option VmSidecar;
  json_to_string : Json → string;
}.

Class VmJsonLaws `{VmJson} : Prop := {
  sidecar_roundtrip s t : sidecar_to_string s = Some t → sidecar_from_str t = Some s;
  sidecar_utf8 s t : sidecar_to_string s = Some t → utf8 t;
}.

Inductive VmNetError :=
| IpCommand (what : list string)
| FirewallFailed (e : FirewallError)
| NoDefaultRoute
| SlirpFailed.

Inductive Ext4Error :=
| Ext4Io
| MkfsNotFound
| MkfsFailed
| Materialization (e : OciError.t).

(** ** Pure parts of [network.rs] *)

Definition ipv4 (a b c d : Z) : Z := a * 2 ^ 24 + b * 2 ^ 16 + c * 2 ^ 8 + d.
Definition octet (k : Z) (ip : Z) : Z := (ip `div` 2 ^ k) `mod` 256.

Definition VM_GATEWAY_IP : Z := ipv4 10 42 0 1.
Definition NETMASK : Z := ipv4 255 255 0 0.

(** [{:02X}]. *)
Definition upper_hex (z : Z) : string := str_map ascii_upper (hex_fixed 2 z).

Definition mac_from_ip (ip : Z) : string :=
  "AA:FC:" +:+ upper_hex (octet 24 ip) +:+ ":" +:+ upper_hex (octet 16 ip) +:+ ":" +:+
  upper_hex (octet 8 ip) +:+ ":" +:+ upper_hex (octet 0 ip).

Definition boot_args_extra (n : VmNetwork) : string :=
  "ip=" +:+ ipv4_to_string (vn_guest_ip n) +:+ "::" +:+ ipv4_to_string (vn_gateway n) +:+ ":" +:+
  ipv4_to_string (vn_netmask n) +:+ "::eth0:off".

Definition byte_at (n : nat) (l : bytes) : Z := default 0%Z (u8_of <$> l !! n).

Definition project_cidr (a b : Z) : string := "10." +:+ pretty a +:+ "." +:+ pretty b +:+ ".0/24".

(** [None] is the panic of [expect]. *)
Definition derive_cidr `{Sha2} (bridge_name : string) : option (Z * Z * Ipam) :=
  let h := arr_bytes (sha256 (as_bytes bridge_name)) in
  let a := byte_at 0 h in
  let b := byte_at 1 h in
  i ← ok (Ipam_from_cidr (project_cidr a b));
  Some (ipv4 10 a b 1, ipv4 255 255 255 0, i).

(** The token after the first [dev] of a line. *)
Fixpoint after_dev (tokens : list string) : option (option string) :=
  match tokens with
  | [] => None
  | t :: tokens => if String.eqb t "dev" then Some (head tokens) else after_dev tokens
  end.

Fixpoint first_dev (l : list string) : option string :=
  match l with
  | [] => None
  | line :: l =>
    match after_dev (split_whitespace line) with
    | Some r => r
    | None => first_dev l
    end
  end.

Definition parse_default_route_iface (text : string) : option string := first_dev (lines text).

(** [struct ifreq]: 16 bytes of name, [IFF_TAP | IFF_NO_PI], 22 bytes. *)
Definition ifreq (name : string) : bytes :=
  let n := take 15 (as_bytes name) in
  n ++ replicate (16 - length n) (byte_of 0) ++ [byte_of 0x02; byte_of 0x10] ++ replicate 22 (byte_of 0).

(** ** Pure parts of [ext4.rs] *)

(** [arg.replace('\'', "'\\''")]. *)
Fixpoint escape_quotes (s : string) : string :=
  match s with
  | EmptyString => EmptyString
  | String c s => if Ascii.eqb c "'" then "'\''" +:+ escape_quotes s else String c (escape_quotes s)
  end.

Definition shell_quote (arg : string) : string := "'" +:+ escape_quotes arg +:+ "'".

Definition merge_command (entrypoint cmd : list string) : list string :=
  match entrypoint with
  | [] => cmd
  | _ => entrypoint ++ cmd
  end.

Definition nl : string := String "010" EmptyString.

Definition exec_line (args : list string) : string :=
  "exec" +:+ join EmptyString ((λ a, " " +:+ shell_quote a) <$> args) +:+ nl.

Definition init_script (args : list string) : string := "#!/bin/sh" +:+ nl +:+ exec_line args.

(** What [/init] runs: the image's command, or a shell. *)
Definition init_args (data : result OciError.t ManifestData) : list string :=
  match data with
  | Ok d => match merge_command (md_entrypoint d) (md_cmd d) with [] => ["/bin/sh"] | args => args end
  | Err _ => ["/bin/sh"]
  end.

Definition firecracker_config (kernel_path rootfs_path : path) (vm_net : option VmNetwork) (vcpus mem_mib : Z) : Json :=
  let boot_args := "console=ttyS0 reboot=k panic=1 pci=off root=/dev/vda rw init=/init" +:+
    match vm_net with Some n => " " +:+ boot_args_extra n | None => EmptyString end in
  let net_interfaces :=
    match vm_net with
    | Some n => [obj [("iface_id", JStr "eth0"); ("guest_mac", JStr (vn_guest_mac n)); ("host_dev_name", JStr (vn_tap_name n))]]
    | None => []
    end in
  obj [("boot-source", obj [("kernel_image_path", JStr (path_str kernel_path)); ("boot_args", JStr boot_args)]);
       ("drives", JArr [obj [("drive_id", JStr "rootfs"); ("path_on_host", JStr (path_str rootfs_path));
                             ("is_root_device", JBool true); ("is_read_only", JBool false)]]);
       ("machine-config", obj [("vcpu_count", JNum vcpus); ("mem_size_mib", JNum mem_mib)]);
       ("network-interfaces", JArr net_interfaces)].

Definition ext4_path_for (rootfs_dir : path) (vm_id : string) : path := path_join rootfs_dir (vm_id +:+ ".ext4").

(** [i32::from_str]. *)
Definition parse_i32 (s : string) : option Z :=
  match s with
  | String "-" (String "+" _) => None
  | String "-" s => Z.opp <$> from_str_radix 10 2147483649 s
  | _ => from_str_radix 10 2147483648 s
  end.

(** ** The executor *)

#[export] Instance vm_processes {H} `{Processes H} : Processes (VmHost H) := {|
  run_command cmd args fs h := let '(o, h') := run_command cmd args fs (vh_host h) in (o, MkVmHost (vh_tables h) h');
  spawn_child cmd args fs h := let '(o, h') := spawn_child cmd args fs (vh_host h) in (o, MkVmHost (vh_tables h) h');
  try_wait pid h := try_wait pid (vh_host h);
  wait_child pid h := let '(o, h') := wait_child pid (vh_host h) in (o, MkVmHost (vh_tables h) h');
  kill_child pid h := MkVmHost (vh_tables h) (kill_child pid (vh_host h));
|}.

Section vm.
Context {H : Type} `{Processes H, Host H, VmKernel H, TempDir H, Hex, Sha2, Rkyv DagNode, EntryJson, JsonText, VmJson}.

Abbreviation world := (ExecWorld (VmHost H)).
Abbreviation vm_eff := (eff world).

(** *** Access to the world *)

Definition with_host (h : H) (w : world) : world := with_procs (MkVmHost (vh_tables (ew_procs w)) h) w.

Definition on_host {E A} (m : H → A * H) : vm_eff E A := λ w,
  let '(a, h) := m (vh_host (ew_procs w)) in (Ok a, with_host h w).

Definition on_firewall {A} (m : eff H FirewallError A) : vm_eff VmNetError A := λ w,
  let '(r, h) := m (vh_host (ew_procs w)) in (map_err FirewallFailed r, with_host h w).

Definition tables : world → VmTables := λ w, vh_tables (ew_procs w).
Definition set_tables {E} (f : VmTables → VmTables) : vm_eff E unit :=
  modify_world (λ w, with_procs (MkVmHost (f (tables w)) (vh_host (ew_procs w))) w).

Definition vm_fs {E A} (e : E) (m : host_eff A) : vm_eff E A := λ w,
  let '(r, fs) := m (ew_fs w) in (map_err (λ _, e) r, with_fs fs w).

Definition vm_cmd {E} (cmd : string) (args : list string) : vm_eff E Output := λ w,
  let '(o, h) := run_command cmd args (ew_fs w) (vh_host (ew_procs w)) in (Ok o, with_host h w).

Definition vm_tool {E} (cmd : string) (args : list string) : vm_eff E Output := λ w,
  let '(o, fs, h) := run_tool cmd args (ew_fs w) (vh_host (ew_procs w)) in (Ok o, with_host h (with_fs fs w)).

Definition vm_spawn {E} (cmd : string) (args : list string) : vm_eff E (option Z) := λ w,
  let '(o, h) := spawn_child cmd args (ew_fs w) (vh_host (ew_procs w)) in (Ok o, with_host h w).

Definition drop_fd {E} (fd : Z) : vm_eff E unit := on_host (λ h, (tt, close_fd fd h)).

Definition if_exists {E} (p : path) (m : vm_eff E unit) : vm_eff E unit :=
  w ← get_world; if path_exists p (ew_fs w) then m else mret tt.

(** *** [network.rs] *)

Definition link_exists (name : string) : vm_eff VmNetError bool :=
  o ← vm_cmd "ip" ["-o"; "link"; "show"; "dev"; name];
  match o with
  | SpawnFailed => throw (IpCommand ["link"; "show"; name])
  | o => mret (success o)
  end.

Definition run_ip (args : list string) : vm_eff VmNetError unit :=
  o ← vm_cmd "ip" args;
  if success o then mret tt else throw (IpCommand args).

Definition create_tap_ioctl (name : string) : vm_eff VmNetError Z :=
  tun ← on_host open_tun;
  match tun with
  | None => throw (IpCommand ["open /dev/net/tun"])
  | Some fd =>
    done ← on_host (tunsetiff fd (ifreq name));
    if done : bool then mret fd else drop_fd fd ;; throw (IpCommand ["ioctl(TUNSETIFF)"; name])
  end.

Definition detect_outbound_iface : vm_eff VmNetError string :=
  let args := ["route"; "show"; "default"] in
  o ← vm_cmd "ip" args;
  if success o then lift_result (ok_or (parse_default_route_iface (from_utf8_lossy (stdout_of o))) NoDefaultRoute)
  else throw (IpCommand args).

Definition backend_enable_nat (b : backend) (bridge cidr iface : string) : eff H FirewallError bool :=
  match b with
  | BackendNft => Nftables.enable_nat bridge cidr iface
  | BackendIptables => Iptables.enable_nat bridge cidr iface
  end.

(** NAT by the backend that is there; errors are ignored. *)
Definition bridge_nat (bridge_name cidr : string) : vm_eff VmNetError unit :=
  b ← on_firewall detect_backend;
  match b with
  | Some b =>
    iface ← try_eff detect_outbound_iface;
    match iface with
    | Ok iface => ignore_eff (on_firewall (backend_enable_nat b bridge_name cidr iface))
    | Err _ => mret tt
    end
  | None => mret tt
  end.

Definition ensure_bridge_named (bridge_name cidr : string) (gateway : Z) : vm_eff VmNetError unit :=
  existed ← link_exists bridge_name;
  (if existed : bool then mret tt
   else
     let prefix := default "16" (split cidr "/" !! 1) in
     run_ip ["link"; "add"; bridge_name; "type"; "bridge"] ;;
     run_ip ["link"; "set"; bridge_name; "up"] ;;
     run_ip ["addr"; "add"; ipv4_to_string gateway +:+ "/" +:+ prefix; "dev"; bridge_name]) ;;
  ignore_eff (vm_fs tt (write_host ["proc"; "sys"; "net"; "ipv4"; "ip_forward"] (as_bytes "1"))) ;;
  bridge_nat bridge_name cidr.

Definition ensure_bridge : vm_eff VmNetError unit := ensure_bridge_named BRIDGE_NAME "10.42.0.0/16" VM_GATEWAY_IP.

(** An error after the device was made drops its descriptor. *)
Definition create_tap_on_bridge (tap_name : string) (guest_ip : Z) (bridge_name : string) (netmask gateway : Z)
    : vm_eff VmNetError (VmNetwork * Z) :=
  exists_ ← link_exists tap_name;
  (if exists_ : bool then run_ip ["link"; "del"; tap_name] else mret tt) ;;
  tap_fd ← create_tap_ioctl tap_name;
  r ← try_eff (run_ip ["link"; "set"; tap_name; "master"; bridge_name] ;; run_ip ["link"; "set"; tap_name; "up"]);
  match r with
  | Ok _ => mret (MkVmNetwork tap_name bridge_name guest_ip (mac_from_ip guest_ip) netmask gateway, tap_fd)
  | Err e => drop_fd tap_fd ;; throw e
  end.

Definition create_tap (tap_name : string) (guest_ip : Z) : vm_eff VmNetError (VmNetwork * Z) :=
  ensure_bridge ;;
  create_tap_on_bridge tap_name guest_ip BRIDGE_NAME NETMASK VM_GATEWAY_IP.

Definition create_slirp_tap (tap_name : string) (guest_ip netmask gateway : Z) : vm_eff VmNetError (VmNetwork * Z) :=
  child ← vm_spawn "slirp4netns"
            ["--netns-type=path"; "--mtu=65520"; "--configure"; "--cidr=10.42.0.0/16"; "/proc/self/ns/net"; tap_name];
  match child with
  | Some pid => mret (MkVmNetwork tap_name EmptyString guest_ip (mac_from_ip guest_ip) netmask gateway, pid)
  | None => throw SlirpFailed
  end.

Definition teardown_tap (tap_name : string) (tap_fd : option Z) : vm_eff VmNetError unit :=
  match tap_fd with Some fd => drop_fd fd | None => mret tt end ;;
  exists_ ← link_exists tap_name;
  if exists_ : bool then run_ip ["link"; "del"; tap_name] else mret tt.

(** *** [ext4.rs] *)

Definition set_len (p : path) (n : Z) : vm_eff Ext4Error unit :=
  vm_fs Ext4Io (write_host p (replicate (Z.to_nat n) (byte_of 0))).

Definition create_sparse_file (p : path) (size_mb : Z) : vm_eff Ext4Error unit :=
  vm_fs Ext4Io (create_dir_all (parent p)) ;;
  if_exists p (vm_fs Ext4Io (unlink p)) ;;
  o ← vm_tool "fallocate" ["-l"; pretty size_mb +:+ "M"; path_str p];
  if success o then mret tt else set_len p (wrap64 (size_mb * 1024 * 1024)).

Definition format_ext4_from_dir (image source_dir : path) (label : option string) : vm_eff Ext4Error unit :=
  version ← vm_tool "mkfs.ext4" ["--version"];
  match version with
  | SpawnFailed => throw MkfsNotFound
  | _ =>
    o ← vm_tool "mkfs.ext4" (["-F"; "-q"] ++ match label with Some l => ["-L"; l] | None => [] end ++
                               ["-d"; path_str source_dir; path_str image]);
    match o with
    | SpawnFailed => throw MkfsNotFound
    | o => if success o then mret tt else throw MkfsFailed
    end
  end.

(** [TempDir::new], and its removal when the value is dropped. *)
Definition in_tempdir {E A} (e : E) (f : path → vm_eff E A) : vm_eff E A :=
  dir ← on_host (temp_path ".tmp");
  vm_fs e (mkdir 448 dir) ;;
  r ← try_eff (f dir);
  ignore_eff (vm_fs tt (remove_dir_all dir)) ;;
  lift_result r.

Definition vm_mat {A} (m : mat_eff A) : vm_eff OciError.t A := λ w,
  let '(r, mw) := m (MkMat (ew_store w) (ew_fs w)) in
  (r, MkExecWorld (mw_store mw) (mw_host mw) (ew_net w) (ew_procs w) (ew_routes w) (ew_children w) (ew_net_handles w)).

(** [/init] when the image has none. *)
Definition inject_init (root_digest : Digest) (work_dir : path) : vm_eff Ext4Error unit :=
  let init_path := work_dir ++ ["init"] in
  w ← get_world;
  if path_exists init_path (ew_fs w) then mret tt
  else
    manifest_data ← try_eff (vm_mat (materialize_manifest root_digest));
    vm_fs Ext4Io (write_host init_path (as_bytes (init_script (init_args manifest_data)))) ;;
    vm_fs Ext4Io (chmod init_path 493).

Definition materialize_ext4_rootfs (depth : nat) (root_digest : Digest) (output_path : path) (size_mb : Z)
    (label : option string) : vm_eff Ext4Error unit :=
  in_tempdir Ext4Io (λ work_dir,
    map_err_eff Materialization (vm_mat (materialize_into depth root_digest work_dir)) ;;
    inject_init root_digest work_dir ;;
    create_sparse_file output_path size_mb ;;
    format_ext4_from_dir output_path work_dir label).

(** *** [lib.rs] *)

Abbreviation vm_exec := (eff world ExecError).

Definition step_failed {E} (step : string) (_ : E) : ExecError := ExecutionFailed (VmStep step).

(** [read_to_string]. *)
Definition read_text (p : path) (w : world) : option string := data ← ok (read_host p (ew_fs w)).1; from_utf8 data.

Definition check_firecracker (program : string) : vm_exec unit :=
  o ← vm_cmd program ["--version"];
  match o with
  | SpawnFailed => throw (BackendNotAvailable program)
  | o => if success o then mret tt else throw (BackendNotAvailable "firecracker returned non-zero")
  end.

Definition tap_name_for (id : string) : string :=
  let h := arr_bytes (sha256 (as_bytes id)) in
  "tap-" +:+ hex_fixed 2 (byte_at 0 h) +:+ hex_fixed 2 (byte_at 1 h) +:+ hex_fixed 2 (byte_at 2 h) +:+ hex_fixed 2 (byte_at 3 h).

(** The arguments of a Firecracker process. *)
Definition firecracker_args (vm_dir : path) : list string :=
  ["--api-sock"; path_str (vm_dir ++ ["firecracker.sock"]); "--config-path"; path_str (vm_dir ++ ["vm-config.json"]);
   "--log-path"; path_str (vm_dir ++ ["firecracker.log"]); "--metrics-path"; path_str (vm_dir ++ ["firecracker.metrics"]);
   "--level"; "Info"].

(** The configuration, the log and the console of a machine, its process and the file
    with the process id. *)
Definition launch (program : string) (spawn_error : ExecError) (vm_dir : path) (config : Json) : vm_exec Z :=
  exec_fs (write_host (vm_dir ++ ["vm-config.json"]) (json_to_string_pretty config)) ;;
  w ← get_world;
  (if path_exists (vm_dir ++ ["firecracker.log"]) (ew_fs w) then mret tt
   else exec_fs (write_host (vm_dir ++ ["firecracker.log"]) [])) ;;
  map_err_eff (step_failed "create console.log") (exec_fs (write_host (vm_dir ++ ["console.log"]) [])) ;;
  child ← vm_spawn program (firecracker_args vm_dir);
  match child with
  | None => throw spawn_error
  | Some pid => exec_fs (write_host (vm_dir ++ ["firecracker.pid"]) (as_bytes (pretty pid))) ;; mret pid
  end.

Definition write_sidecar (vm_dir : path) (s : VmSidecar) : vm_exec unit :=
  json ← lift_result (ok_or (sidecar_to_string s) (ExecutionFailed (VmStep "serialize sidecar")));
  exec_fs (write_host (vm_dir ++ ["network.json"]) (as_bytes json)).

Definition write_kernel_path (vm_dir : path) (kernel_path : option path) : vm_exec unit :=
  match kernel_path with
  | Some kp => exec_fs (write_host (vm_dir ++ ["kernel_path"]) (as_bytes (path_str kp)))
  | None => mret tt
  end.

(** *** [pool.rs] *)

(** [firecracker_api_put]: an answer other than 2xx is an error. *)
Definition firecracker_api_put (socket_path : path) (api_path body : string) : vm_exec unit :=
  let crlf := String "013" (String "010" EmptyString) in
  let request := "PUT " +:+ api_path +:+ " HTTP/1.1" +:+ crlf +:+ "Host: localhost" +:+ crlf +:+
    "Content-Type: application/json" +:+ crlf +:+ "Content-Length: " +:+ pretty (String.length body) +:+ crlf +:+ crlf +:+ body in
  response ← on_host (unix_exchange socket_path (as_bytes request));
  match r ← response; from_utf8 r with
  | Some r => if starts_with r "HTTP/1.1 2" then mret tt else throw (ExecutionFailed (VmStep "FC API"))
  | None => throw (ExecutionFailed (VmStep "FC API"))
  end.

Definition swap_rootfs (e : PoolEntry) (new_ext4_path : path) : vm_exec unit :=
  firecracker_api_put (pe_api_socket e) "/drives/rootfs"
    (json_to_string (obj [("drive_id", JStr "rootfs"); ("path_on_host", JStr (path_str new_ext4_path));
                          ("is_root_device", JBool true); ("is_read_only", JBool false)])).

Definition reboot (e : PoolEntry) : vm_exec unit :=
  firecracker_api_put (pe_api_socket e) "/actions" (json_to_string (obj [("action_type", JStr "SendCtrlAltDel")])).

Definition POOL_ROOTFS_FILENAME : string := "pool-rootfs.ext4".
Definition POOL_ROOTFS_SIZE_MB : Z := 32.

(** [uuid_v4]: 16 random bytes with the bits of the version. *)
Definition uuid_text (b : bytes) : string :=
  let v k := byte_at k b in
  let x (l : list Z) := join EmptyString (hex_fixed 2 <$> l) in
  x [v 0; v 1; v 2; v 3] +:+ "-" +:+ x [v 4; v 5] +:+ "-" +:+ x [Z.lor (Z.land (v 6) 0x0f) 0x40; v 7] +:+ "-" +:+
  x [Z.lor (Z.land (v 8) 0x3f) 0x80; v 9] +:+ "-" +:+ x [v 10; v 11; v 12; v 13; v 14; v 15].

Definition pool_os_release : string :=
  "NAME=" +:+ Nftables.quote "Pullrun Pool" +:+ nl +:+ "ID=pullrun-pool" +:+ nl +:+ "VERSION_ID=0" +:+ nl.

Definition create_pool_rootfs (p : path) (size_mb : Z) : vm_eff Ext4Error unit :=
  w ← get_world;
  if path_exists p (ew_fs w) then mret tt
  else
    vm_fs Ext4Io (create_dir_all (parent p)) ;;
    in_tempdir Ext4Io (λ dir,
      vm_fs Ext4Io (write_host (dir ++ ["init"]) (as_bytes ("#!/bin/sh" +:+ nl +:+ "while true; do sleep 3600; done" +:+ nl))) ;;
      vm_fs Ext4Io (chmod (dir ++ ["init"]) 493) ;;
      vm_fs Ext4Io (create_dir_all (dir ++ ["etc"])) ;;
      vm_fs Ext4Io (write_host (dir ++ ["etc"; "os-release"]) (as_bytes pool_os_release)) ;;
      set_len p (wrap64 (size_mb * 1024 * 1024)) ;;
      o ← vm_tool "mkfs.ext4" ["-F"; "-q"; "-d"; path_str dir; path_str p];
      if success o then mret tt else throw MkfsFailed).

Definition proxy_register (id : string) (ip : Z) (rules : list NetworkRule) : vm_exec NetworkEndpoint :=
  map_err_eff (λ e, ExecutionFailed (ProxyRegister e)) (exec_net (register_endpoint id (ipv4_to_string ip) rules)).

(** Once the tap device exists an error drops its descriptor. *)
Definition boot_pool_vm (fc : FirecrackerConfig) (pc : VmPoolConfig) : vm_exec PoolEntry :=
  b ← on_host (random_bytes 16);
  let id := "pool-" +:+ uuid_text b in
  let vm_dir := path_join (pc_vm_root pc) id in
  exec_fs (create_dir_all vm_dir) ;;
  let ext4_path := vm_dir ++ [POOL_ROOTFS_FILENAME] in
  map_err_eff (step_failed "create pool rootfs") (create_pool_rootfs ext4_path POOL_ROOTFS_SIZE_MB) ;;
  let tap_name := "tap-" +:+ str_take 8 id in
  ip ← exec_ipam allocate;
  guest_ip ← lift_result (ok_or ip (ExecutionFailed (VmStep "no IPs available in shared IPAM")));
  '(vm_net, tap_fd) ← map_err_eff (step_failed "tap setup") (create_tap tap_name guest_ip);
  r ← try_eff (
    endpoint ← proxy_register id guest_ip [];
    write_sidecar vm_dir (MkSidecar vm_net endpoint tap_name) ;;
    pid ← launch (fc_path fc) (ExecutionFailed SpawnError) vm_dir
            (firecracker_config (fc_kernel_path fc) ext4_path (Some vm_net) (fc_vcpus fc) (fc_mem_mib fc));
    mret (MkPoolEntry id (vm_dir ++ ["firecracker.sock"]) vm_dir guest_ip tap_name vm_net endpoint pid tap_fd));
  match r with
  | Ok e => mret e
  | Err e => drop_fd tap_fd ;; throw e
  end.

(** The loop of [refill_pool] ends with the first machine that does not boot. *)
Fixpoint refill (fc : FirecrackerConfig) (pc : VmPoolConfig) (needed : nat) : vm_exec unit :=
  match needed with
  | O => mret tt
  | S needed =>
    r ← try_eff (boot_pool_vm fc pc);
    match r with
    | Ok e => set_tables (λ t, set_pool (vt_pool t ++ [e]) t) ;; refill fc pc needed
    | Err _ => mret tt
    end
  end.

Definition refill_pool (fc : FirecrackerConfig) (pc : VmPoolConfig) : vm_exec unit :=
  w ← get_world;
  refill fc pc (pc_pool_size pc - length (vt_pool (tables w))).

Definition acquire : vm_exec (option PoolEntry) :=
  w ← get_world;
  match vt_pool (tables w) with
  | e :: l => set_tables (set_pool l) ;; mret (Some e)
  | [] => mret None
  end.

Definition is_firecracker_alive (pid : Z) (h : H) : bool :=
  if (pid =? 0)%Z then false else kill_zero (to_signed32 pid) h.

(** A machine that is gone loses its directory and its descriptor. *)
Fixpoint check_entries (l healthy : list PoolEntry) : vm_exec (list PoolEntry) :=
  match l with
  | [] => mret healthy
  | e :: l =>
    w ← get_world;
    if is_firecracker_alive (pe_pid e) (vh_host (ew_procs w)) then check_entries l (healthy ++ [e])
    else
      ignore_eff (vm_fs tt (remove_dir_all (pe_vm_dir e))) ;;
      drop_fd (pe_tap_fd e) ;;
      check_entries l healthy
  end.

Definition check_health : vm_exec unit :=
  w ← get_world;
  healthy ← check_entries (vt_pool (tables w)) [];
  set_tables (set_pool healthy).

(** *** The operations of the executor *)

Section firecracker.
Context (x : FirecrackerExecutor) (depth : nat).

Abbreviation cfg := (fx_config x).

Definition vm_dir (id : string) : path := path_join (fc_rootfs_dir cfg) id.
Definition vm_sidecar_path (id : string) : path := vm_dir id ++ ["network.json"].

Definition ext4_rootfs (spec : WorkloadSpec) : vm_exec unit :=
  map_err_eff (step_failed "ext4 materialization")
    (materialize_ext4_rootfs depth (ws_image_root spec) (ext4_path_for (fc_rootfs_dir cfg) (ws_id spec)) (fc_size_mb cfg)
       (Some ("pullrun-" +:+ ws_id spec))).

Definition vm_handle (id : string) (guest_ip : Z) (host_ports : list (Z * Z)) : ProcessHandle :=
  MkHandle id None (Some (ipv4_to_string guest_ip)) None host_ports "vm" None None.

(** The entry of the pool is dropped at the end, and its descriptor with it. *)
Definition create_from_pool (spec : WorkloadSpec) (e : PoolEntry) : vm_exec ProcessHandle :=
  let dir := vm_dir (ws_id spec) in
  r ← try_eff (
    exec_fs (create_dir_all dir) ;;
    ext4_rootfs spec ;;
    swap_rootfs e (ext4_path_for (fc_rootfs_dir cfg) (ws_id spec)) ;;
    write_sidecar dir (MkSidecar (pe_vm_net e) (pe_endpoint e) (pe_tap_name e)) ;;
    write_kernel_path dir (ws_kernel_path spec) ;;
    if_exists (pe_vm_dir e ++ ["console.log"])
      (ignore_eff (vm_fs tt (copy_contents (pe_vm_dir e ++ ["console.log"]) (dir ++ ["console.log"])))) ;;
    reboot e ;;
    set_tables (λ t, set_pool_allocations ({[ws_id spec]} ∪ vt_pool_allocations t) t) ;;
    ignore_eff (proxy_register (ws_id spec) (pe_guest_ip e) (ws_network_rules spec)) ;;
    mret (vm_handle (ws_id spec) (pe_guest_ip e) []));
  drop_fd (pe_tap_fd e) ;;
  lift_result r.

(** The gateway, the mask and the address: from an allocator made for this call when the
    workload has a bridge of its own, else from the shared one. *)
Definition allocate_vm_ip (bridge : option string) : vm_exec (Z * Z * Z) :=
  match bridge with
  | Some bn =>
    '(gateway, netmask, i) ← lift_result (ok_or (derive_cidr bn) (ExecutionFailed (VmStep "panic")));
    guest_ip ← lift_result (ok_or (allocate i).1 (ExecutionFailed (VmStep "no IPs in project subnet")));
    mret (gateway, netmask, guest_ip)
  | None =>
    ip ← exec_ipam allocate;
    guest_ip ← lift_result (ok_or ip (ExecutionFailed (VmStep "no IPs available in shared IPAM")));
    mret (VM_GATEWAY_IP, NETMASK, guest_ip)
  end.

(** The tap device, and its descriptor or process in the tables. *)
Definition plumb (spec : WorkloadSpec) (gateway netmask guest_ip : Z) : vm_exec VmNetwork :=
  let id := ws_id spec in
  let tap_name := tap_name_for id in
  let keep_fd (p : VmNetwork * Z) : vm_exec VmNetwork :=
    set_tables (λ t, set_tap_fds (<[id := p.2]> (vt_tap_fds t)) t) ;; mret p.1 in
  match ws_network_mode spec, ws_bridge_name spec with
  | NetworkMode.Slirp, _ =>
    p ← map_err_eff (step_failed "slirp network setup") (create_slirp_tap tap_name guest_ip netmask gateway);
    set_tables (λ t, set_slirp_children (<[id := p.2]> (vt_slirp_children t)) t) ;;
    mret p.1
  | _, Some bn =>
    map_err_eff (step_failed "bridge setup")
      (ensure_bridge_named bn (project_cidr (octet 16 gateway) (octet 8 gateway)) gateway) ;;
    p ← map_err_eff (step_failed "vm network setup") (create_tap_on_bridge tap_name guest_ip bn netmask gateway);
    keep_fd p
  | _, None =>
    p ← map_err_eff (step_failed "vm network setup") (create_tap tap_name guest_ip);
    keep_fd p
  end.

Definition cold_create (spec : WorkloadSpec) : vm_exec ProcessHandle :=
  let id := ws_id spec in
  '(gateway, netmask, guest_ip) ← allocate_vm_ip (ws_bridge_name spec);
  vm_net ← plumb spec gateway netmask guest_ip;
  endpoint ← proxy_register id guest_ip (ws_network_rules spec);
  exec_fs (create_dir_all (vm_dir id)) ;;
  ext4_rootfs spec ;;
  write_kernel_path (vm_dir id) (ws_kernel_path spec) ;;
  write_sidecar (vm_dir id) (MkSidecar vm_net endpoint (tap_name_for id)) ;;
  mret (vm_handle id guest_ip (host_port_mappings endpoint)).

Definition vm_create (spec : WorkloadSpec) : vm_exec ProcessHandle :=
  match ws_network_mode spec with
  | NetworkMode.Container _ => throw (ExecutionFailed (VmStep "network mode"))
  | _ =>
    check_firecracker (fc_path cfg) ;;
    match fx_pool x with
    | Some _ =>
      pooled ← acquire;
      match pooled with
      | Some e => create_from_pool spec e
      | None => cold_create spec
      end
    | None => cold_create spec
    end
  end.

Definition kernel_of (dir : path) (w : world) : path :=
  match read_text (dir ++ ["kernel_path"]) w with
  | Some kp => if String.eqb (trim kp) EmptyString then fc_kernel_path cfg else components (trim kp)
  | None => fc_kernel_path cfg
  end.

Definition vm_start (handle : ProcessHandle) : vm_exec ProcessHandle :=
  let id := ph_id handle in
  let dir := vm_dir id in
  w ← get_world;
  if decide (id ∈ vt_pool_allocations (tables w)) then mret handle
  else
    if_exists (dir ++ ["firecracker.sock"]) (ignore_eff (exec_fs (unlink (dir ++ ["firecracker.sock"])))) ;;
    w ← get_world;
    text ← lift_result (ok_or (read_text (dir ++ ["network.json"]) w) (ExecNotFound "sidecar"));
    sidecar ← lift_result (ok_or (sidecar_from_str text) (ExecutionFailed (VmStep "parse sidecar")));
    launch (fc_path cfg) ExecIo dir
      (firecracker_config (kernel_of dir w) (ext4_path_for (fc_rootfs_dir cfg) id) (Some (vs_vm_net sidecar))
         (fc_vcpus cfg) (fc_mem_mib cfg)) ;;
    mret handle.

(** The files of a machine; errors are ignored. *)
Definition remove_vm_files (id : string) : vm_exec unit :=
  let ext4_path := ext4_path_for (fc_rootfs_dir cfg) id in
  if_exists ext4_path (ignore_eff (exec_fs (unlink ext4_path))) ;;
  if_exists (vm_dir id) (ignore_eff (exec_fs (remove_dir_all (vm_dir id)))).

Definition kill_vm (id : string) : vm_exec unit :=
  w ← get_world;
  match t ← read_text (vm_dir id ++ ["firecracker.pid"]) w; parse_u32 (trim t) with
  | Some pid => vm_cmd "kill" ["-9"; pretty pid] ;; mret tt
  | None => mret tt
  end.

(** The tear-down of the proxy is a task of its own whose result nobody looks at. *)
Definition release_network (id : string) : vm_exec unit :=
  w ← get_world;
  match t ← read_text (vm_dir id ++ ["network.json"]) w; sidecar_from_str t with
  | Some sidecar =>
    let tap_fd := vt_tap_fds (tables w) !! id in
    set_tables (λ t, set_tap_fds (delete id (vt_tap_fds t)) t) ;;
    ignore_eff (teardown_tap (vs_tap_name sidecar) tap_fd) ;;
    ignore_eff (exec_net (teardown id))
  | None => mret tt
  end.

Definition kill_slirp (id : string) : vm_exec unit :=
  w ← get_world;
  match vt_slirp_children (tables w) !! id with
  | Some pid =>
    set_tables (λ t, set_slirp_children (delete id (vt_slirp_children t)) t) ;;
    on_host (λ h, (tt, kill_child pid h)) ;;
    on_host (wait_child pid) ;; mret tt
  | None => mret tt
  end.

Definition vm_stop (id : string) : vm_exec unit :=
  w ← get_world;
  if decide (id ∈ vt_pool_allocations (tables w)) then
    set_tables (λ t, set_pool_allocations (vt_pool_allocations t ∖ {[id]}) t) ;;
    remove_vm_files id ;;
    ignore_eff (exec_net (teardown id))
  else
    kill_vm id ;;
    release_network id ;;
    kill_slirp id ;;
    remove_vm_files id.

Definition vm_wait (id : string) : vm_exec ExitStatus := mret (MkExitStatus 0 None).

(** A process that cannot be waited for is taken for stopped. *)
Definition vm_status (id : string) : vm_exec string :=
  w ← get_world;
  match t ← read_text (vm_dir id ++ ["firecracker.pid"]) w; parse_i32 (trim t) with
  | Some pid =>
    if kill_zero pid (vh_host (ew_procs w)) then
      reaped ← on_host (waitpid_nohang pid);
      mret (if (reaped =? 0)%Z then "running" else "stopped")
    else mret "stopped"
  | None => mret "stopped"
  end.

Definition firecracker_executor : Executor world :=
  MkExecutor _ vm_create vm_start vm_stop vm_wait vm_status (λ _ _ _, throw (BackendNotAvailable "update"))
    (λ _, throw (BackendNotAvailable "stats")) (λ _ _ _, throw (BackendNotAvailable "exec")).

(** The backend of the daemon's router. *)
Definition vm_backend : VmBackend (VmHost H) := MkVmBackend firecracker_executor vm_sidecar_path.

End firecracker.

End vm.
