(* ===== verification/VmSpec.v ===== *)
(** * What virtual machines get and give back: theorems about [Vm.v]

    A machine's network is set up and released without a trace; its [/init] runs the
    image's command; and machines of one project share an address. *)

From stdpp Require Import base gmap strings list pretty.
From Stdlib Require Import ZArith Ascii Lia.
From S2P Require Import Prelude Strs Utf8 Crates Node Fs Store Tasks OciTypes HostFs Convert Materialize.
From S2P Require Import UnpackSpec SecretsSpec Ipam Net NetSpec Firewall Exec Container Kernel Service CheckpointSpec Vm.

(** ** Names and addresses *)

Lemma below_16 z : (0 ≤ z < 16)%Z → z ∈ Z.of_nat <$> seq 0 16.
Proof. intros Hz. apply list_elem_of_fmap. exists (Z.to_nat z). split; [lia|]. apply elem_of_seq. lia. Qed.

Lemma upper_digit_inj x y :
  (0 ≤ x < 16)%Z → (0 ≤ y < 16)%Z → ascii_upper (hex_digit x) = ascii_upper (hex_digit y) → x = y.
Proof.
  intros Hx%below_16 Hy%below_16. revert x Hx y Hy.
  enough (Forall (λ x, Forall (λ y, ascii_upper (hex_digit x) = ascii_upper (hex_digit y) → x = y) (Z.of_nat <$> seq 0 16))
            (Z.of_nat <$> seq 0 16)) as Hall.
  { intros x Hx y Hy. rewrite Forall_forall in Hall. specialize (Hall x Hx). rewrite Forall_forall in Hall. by apply Hall. }
  repeat (constructor; [repeat (constructor; [done|]); constructor|]). constructor.
Qed.

Lemma upper_hex_two a :
  upper_hex a = String (ascii_upper (hex_digit ((a / 16) mod 16))) (String (ascii_upper (hex_digit (a mod 16))) EmptyString).
Proof. done. Qed.

Lemma upper_hex_inj a b :
  (0 ≤ a < 256)%Z → (0 ≤ b < 256)%Z → upper_hex a = upper_hex b → a = b.
Proof.
  intros Ha Hb E. rewrite !upper_hex_two in E. injection E as E1 E0.
  apply upper_digit_inj in E0; [|apply Z.mod_pos_bound; lia..].
  apply upper_digit_inj in E1; [|apply Z.mod_pos_bound; lia..].
  Z.to_euclidean_division_equations; lia.
Qed.

(** Different addresses give different hardware addresses. *)
Lemma mac_from_ip_inj a b : is_u32 a → is_u32 b → mac_from_ip a = mac_from_ip b → a = b.
Proof.
  unfold is_u32, u32_mod. intros Ha Hb E.
  assert (∀ k x, 0 ≤ octet k x < 256)%Z as Ho by (intros; apply Z.mod_pos_bound; lia).
  assert (upper_hex (octet 24 a) = upper_hex (octet 24 b) ∧ upper_hex (octet 16 a) = upper_hex (octet 16 b) ∧
    upper_hex (octet 8 a) = upper_hex (octet 8 b) ∧ upper_hex (octet 0 a) = upper_hex (octet 0 b)) as (E3 & E2 & E1 & E0).
  { unfold mac_from_ip in E. rewrite !upper_hex_two in *.
    repeat match type of E with context [ascii_upper ?x] => generalize dependent (ascii_upper x); intros end.
    injection E. intros. by subst. }
  apply upper_hex_inj in E3; [|done..]. apply upper_hex_inj in E2; [|done..].
  apply upper_hex_inj in E1; [|done..]. apply upper_hex_inj in E0; [|done..].
  unfold octet in *. change (2 ^ 24)%Z with 16777216%Z in *. change (2 ^ 16)%Z with 65536%Z in *.
  change (2 ^ 8)%Z with 256%Z in *. change (2 ^ 0)%Z with 1%Z in *. Z.to_euclidean_division_equations; lia.
Qed.

(** ** [/init] *)

(** The words of a line as the POSIX shell splits it, for blanks, single quotes and the
    backslash; [word] is the word read so far. *)
Inductive mode := Blank | Plain | Quoted | Escaped.

Fixpoint shell_words (m : mode) (word : string) (s : string) : option (list string) :=
  match s, m with
  | EmptyString, Blank => Some []
  | EmptyString, Plain => Some [word]
  | EmptyString, _ => None
  | String c s, Quoted => if Ascii.eqb c "'" then shell_words Plain word s else shell_words Quoted (word +:+ String c EmptyString) s
  | String c s, Escaped => shell_words Plain (word +:+ String c EmptyString) s
  | String c s, m =>
    if Ascii.eqb c " " || Ascii.eqb c "010" then
      match m with
      | Plain => cons word <$> shell_words Blank EmptyString s
      | _ => shell_words Blank EmptyString s
      end
    else if Ascii.eqb c "'" then shell_words Quoted word s
    else if Ascii.eqb c "\" then shell_words Escaped word s
    else shell_words Plain (word +:+ String c EmptyString) s
  end.

Lemma words_quoted arg : ∀ word rest,
  shell_words Quoted word (escape_quotes arg +:+ "'" +:+ rest) = shell_words Plain (word +:+ arg) rest.
Proof.
  induction arg as [|c arg IH]; intros word rest; [by rewrite str_app_nil_r|]. simpl escape_quotes.
  destruct (Ascii.eqb_spec c "'") as [->|Hc].
  - rewrite <- str_app_assoc. trans (shell_words Quoted (word +:+ "'") (escape_quotes arg +:+ "'" +:+ rest)); [done|].
    by rewrite IH, <- str_app_assoc.
  - rewrite str_app_cons. cbn [shell_words]. destruct (Ascii.eqb_spec c "'"); [done|]. by rewrite IH, <- str_app_assoc.
Qed.

Lemma words_args args : ∀ word,
  shell_words Plain word (join EmptyString ((λ a, " " +:+ shell_quote a) <$> args) +:+ nl) = Some (word :: args).
Proof.
  induction args as [|a args IH]; intros word; [done|].
  assert (join EmptyString ((λ a, " " +:+ shell_quote a) <$> a :: args) +:+ nl =
    " '" +:+ (escape_quotes a +:+ "'" +:+ (join EmptyString ((λ a, " " +:+ shell_quote a) <$> args) +:+ nl))) as ->.
  { simpl. destruct args; simpl; unfold shell_quote; rewrite <- ?str_app_assoc; done. }
  set (rest := join _ _ +:+ nl) in *. specialize (IH a).
  trans (cons word <$> shell_words Quoted EmptyString (escape_quotes a +:+ "'" +:+ rest)); [done|].
  rewrite words_quoted. change (EmptyString +:+ a) with a. by rewrite IH.
Qed.

(** The shell reads the line that is written for a machine as [exec] with exactly the
    words of the image's command, whatever characters they have. *)
Lemma init_exec args : shell_words Blank EmptyString (exec_line args) = Some ("exec" :: args).
Proof. apply (words_args args "exec"). Qed.

(** ** Machines of one project *)

Definition octet_text_ok (z : Z) : bool :=
  bool_decide (parse_octet (pretty z) = Some z) && negb (contains_char (pretty z) ".") && negb (contains_char (pretty z) "/").

Lemma octet_text z : (0 ≤ z < 256)%Z →
  parse_octet (pretty z) = Some z ∧ contains_char (pretty z) "." = false ∧ contains_char (pretty z) "/" = false.
Proof.
  intros Hz. assert (forallb octet_text_ok (Z.of_nat <$> seq 0 256) = true) as Hall by (vm_compute; reflexivity).
  rewrite forallb_forall in Hall. specialize (Hall z). unfold octet_text_ok in Hall.
  rewrite !andb_true_iff, !negb_true_iff, bool_decide_eq_true in Hall. destruct Hall as [[??] ?]; [|done].
  apply list_elem_of_In, list_elem_of_fmap. exists (Z.to_nat z). split; [lia|]. apply elem_of_seq. lia.
Qed.

Lemma land_mask24 k : (0 ≤ k < 2 ^ 24)%Z → Z.land (k * 256) 4294967040 = (k * 256)%Z.
Proof.
  intros Hk. change 4294967040%Z with (Z.shiftl (Z.ones 24) 8). change (k * 256)%Z with (k * 2 ^ 8)%Z.
  rewrite <- (Z.shiftl_mul_pow2 k 8), <- Z.shiftl_land, Z.land_ones, Z.mod_small by lia. done.
Qed.

Lemma project_range a b : (0 ≤ a < 256)%Z → (0 ≤ b < 256)%Z →
  range_from_cidr (project_cidr a b) = Ok (MkIpRange (ipv4 10 a b 0) 256).
Proof.
  intros Ha Hb. destruct (octet_text a Ha) as (Pa & Da & Sa). destruct (octet_text b Hb) as (Pb & Db & Sb).
  assert (split (project_cidr a b) "/" = ["10." +:+ pretty a +:+ "." +:+ pretty b +:+ ".0"; "24"]) as Hs.
  { unfold project_cidr. trans (split (("10." +:+ pretty a +:+ "." +:+ pretty b +:+ ".0") +:+ String "/" "24") "/").
    - f_equal. rewrite <- !str_app_assoc. done.
    - rewrite split_app; [done|]. rewrite !contains_char_app, Sa, Sb. done. }
  assert (split ("10." +:+ pretty a +:+ "." +:+ pretty b +:+ ".0") "." = ["10"; pretty a; pretty b; "0"]) as Hd.
  { change ("10." +:+ ?x) with ("10" +:+ String "." x). rewrite split_app by done. f_equal.
    change ("." +:+ ?x) with (String "." x). rewrite split_app by done. f_equal.
    change ".0" with (String "." "0"). by rewrite split_app. }
  unfold range_from_cidr. rewrite Hs. unfold parse_ipv4. rewrite Hd.
  change (parse_octet "10") with (Some 10%Z). change (parse_octet "0") with (Some 0%Z). rewrite Pa, Pb.
  trans (Ok (E := CidrError) (MkIpRange (Z.land (((10 * 256 + a) * 256 + b) * 256 + 0) 4294967040) 256)); [done|].
  do 2 f_equal. unfold ipv4.
  replace (((10 * 256 + a) * 256 + b) * 256 + 0)%Z with ((655360 + a * 256 + b) * 256)%Z by lia.
  rewrite land_mask24 by lia. lia.
Qed.

Lemma byte_at_range n l : (0 ≤ byte_at n l < 256)%Z.
Proof. unfold byte_at. destruct (l !! n) as [c|]; simpl; [apply u8_of_range|lia]. Qed.

Section project.
Context `{Sha2}.

(** The second and third octet of a project's addresses. *)
Definition project_octets (bridge_name : string) : Z * Z :=
  let h := arr_bytes (sha256 (as_bytes bridge_name)) in (byte_at 0 h, byte_at 1 h).

(** The allocator of a project is made, and is the same each time. *)
Lemma derive_cidr_total bn :
  derive_cidr bn = Some (ipv4 10 (project_octets bn).1 (project_octets bn).2 1, ipv4 255 255 255 0,
                         Ipam_new (MkIpRange (ipv4 10 (project_octets bn).1 (project_octets bn).2 0) 256)).
Proof.
  unfold derive_cidr, Ipam_from_cidr. rewrite project_range by apply byte_at_range. done.
Qed.

End project.

(** ** A file that was written reads back *)

(** A file more, or another content of a file, does not change what resolves. *)
Definition file_change (fs fs' : HostFs) : Prop :=
  ∀ p, content_at fs' p = content_at fs p ∨
       ((∀ c, content_at fs p = Some c → ∃ d, c = File d) ∧ ∃ d, content_at fs' p = Some (File d)).

Lemma walk_file_change fs fs' follow expand expand' q :
  file_change fs fs' → (∀ c t, expand c t = Ok q → expand' c t = Ok q) →
  ∀ todo cur, walk_components fs follow expand cur todo = Ok q → walk_components fs' follow expand' cur todo = Ok q.
Proof.
  intros Hfc He. induction todo as [|c todo IH]; intros cur; [done|]. simpl. case_decide; [apply IH|].
  destruct (Hfc (cur ++ [c])) as [->|[Hf [d ->]]].
  - destruct (content_at fs (cur ++ [c])) as [[|d|t]|]; [apply IH|done| |done]. destruct (_ && _); [done|apply He].
  - destruct (content_at fs (cur ++ [c])) as [k|] eqn:Ek; [destruct (Hf k) as [d' ->]|]; try done;
      by destruct (bool_decide (todo = [])).
Qed.

Lemma resolve_file_change fs fs' follow q : file_change fs fs' → ∀ n cur todo,
  resolve_from n fs follow cur todo = Ok q → resolve_from n fs' follow cur todo = Ok q.
Proof. intros Hfc. induction n as [|n IH]; intros cur todo; simpl; by apply walk_file_change. Qed.

Lemma resolve_again fs fs' follow p q fs1 : file_change fs fs' →
  resolve follow p fs = (Ok q, fs1) → fs1 = fs ∧ resolve follow p fs' = (Ok q, fs').
Proof.
  unfold resolve. generalize MAXSYMLINKS. intros n Hfc Ep. pose proof (f_equal snd Ep) as Hs. pose proof (f_equal fst Ep) as Hr.
  cbn [fst snd] in Hr, Hs. split; [done|]. by rewrite (resolve_file_change fs fs' follow q Hfc n _ _ Hr).
Qed.

Lemma put_file_change fs q i d : q ≠ [] → (∀ c, content_at fs q = Some c → ∃ d, c = File d) → icontent i = File d →
  file_change fs (<[q := i]> fs) ∧ content_at (<[q := i]> fs) q = Some (File d).
Proof.
  intros Hq Hf Hi. assert (content_at (<[q := i]> fs) q = Some (File d)) as Hc.
  { unfold content_at. rewrite decide_False, lookup_insert_eq by done. simpl. by rewrite Hi. }
  split; [|done]. intros p. destruct (decide (p = q)) as [->|Hne]; [right; eauto|]. left. unfold content_at.
  by rewrite lookup_insert_ne.
Qed.

Lemma write_host_run p data fs fs' : write_host p data fs = (Ok tt, fs') →
  ∃ q, resolve true p fs = (Ok q, fs) ∧ file_change fs fs' ∧ content_at fs' q = Some (File data).
Proof.
  unfold write_host. intros (q & fs1 & Hr & Ew)%bind_inv_ok. assert (fs1 = fs) as -> by (unfold resolve in Hr; congruence).
  rewrite get_bind in Ew. exists q. split; [done|]. destruct (content_at fs q) as [[|d|t]|] eqn:Hq; try done.
  - assert (q ≠ []) as Hn by (by intros ->). unfold content_at in Hq. rewrite decide_False in Hq by done.
    destruct (fs !! q) as [i|] eqn:Ei; [|done]. injection Hq as Hq. injection Ew as <-.
    assert (alter (λ i, MkInode (File data) (imeta i)) q fs = <[q := MkInode (File data) (imeta i)]> fs) as ->.
    { apply map_eq. intros k. destruct (decide (k = q)) as [->|];
        [by rewrite lookup_alter_eq, lookup_insert_eq, Ei|by rewrite lookup_alter_ne, lookup_insert_ne]. }
    apply put_file_change; [done| |done]. unfold content_at. rewrite decide_False, Ei by done. simpl. intros c [= <-]. eauto.
  - assert (q ≠ []) as Hn by (by intros ->). injection Ew as <-. apply put_file_change; [done| |done]. by rewrite Hq.
Qed.

Lemma write_read_host p data fs fs' : write_host p data fs = (Ok tt, fs') → read_host p fs' = (Ok data, fs').
Proof.
  intros (q & Hr & Hfc & Hc)%write_host_run. apply (resolve_again _ fs') in Hr as [_ Hr]; [|done].
  unfold read_host. erewrite bind_ok by exact Hr. by rewrite get_bind, Hc.
Qed.

(** ** Other files of a plain directory *)

Definition file_stays (dir : path) (name : string) (c : option content) (fs : HostFs) : Prop :=
  plain_dir fs dir ∧ content_at fs (dir ++ [name]) = c.

Lemma stays_changed dir name c fs fs' k d :
  file_stays dir name c fs → k ≠ name → is_link d = false →
  (∀ q, content_at fs' q = if decide (q = dir ++ [k]) then d else content_at fs q) → file_stays dir name c fs'.
Proof.
  intros [[Hp Hl] Hc] Hk Hd Hq. split; [split|].
  - apply (plain_ext fs); [done|]. intros q r ->. rewrite Hq, decide_False; [done|]. intros E%(f_equal length).
    rewrite !length_app in E. simpl in E. lia.
  - intros k'. rewrite Hq. by case_decide.
  - rewrite Hq, decide_False; [done|]. intros [= ->]%app_inj_tail_iff%proj2. done.
Qed.

Lemma stays_write dir name c k data : k ≠ name → k ≠ ".." → keeps (file_stays dir name c) (write_host (dir ++ [k]) data).
Proof.
  intros Hk Hd fs Hs. destruct (decide (content_at fs (dir ++ [k]) = Some Dir)) as [Hdir|Hn].
  - destruct Hs as [[Hp Hl] Hc]. unfold write_host. erewrite bind_ok by (by apply resolve_child).
    by rewrite get_bind, Hdir.
  - destruct (write_host_file fs dir data k (proj1 Hs)) as [_ Hq]; [done..|]. by apply (stays_changed _ _ _ fs _ k (Some (File data))).
Qed.

Lemma stays_unlink dir name c k : k ≠ name → k ≠ ".." → keeps (file_stays dir name c) (unlink (dir ++ [k])).
Proof.
  intros Hk Hd fs Hs. pose proof Hs as [[Hp Hl] Hc]. unfold unlink. erewrite bind_ok by (by apply resolve_child). rewrite get_bind.
  assert (file_stays dir name c (delete (dir ++ [k]) fs)) as Hdel.
  { apply (stays_changed _ _ _ fs _ k None); [done..|]. intros q. unfold content_at.
    repeat case_decide; subst; try done; [by destruct dir|by rewrite lookup_delete_eq|by rewrite lookup_delete_ne]. }
  by destruct (content_at fs (dir ++ [k])) as [[]|].
Qed.

Section vm.
Context {H : Type} `{Processes H, Host H, VmKernel H, TempDir H, Hex, Sha2, Rkyv DagNode, EntryJson, JsonText, VmJson}.

Lemma project_ip bn (w : ExecWorld (VmHost H)) :
  allocate_vm_ip (Some bn) w =
  (Ok (ipv4 10 (project_octets bn).1 (project_octets bn).2 1, ipv4 255 255 255 0,
       ipv4 10 (project_octets bn).1 (project_octets bn).2 2), w).
Proof.
  unfold allocate_vm_ip. rewrite derive_cidr_total. erewrite bind_ok by done. cbv beta iota.
  assert ((allocate (Ipam_new (MkIpRange (ipv4 10 (project_octets bn).1 (project_octets bn).2 0) 256))).1 =
    Some (ipv4 10 (project_octets bn).1 (project_octets bn).2 2)) as ->; [|done].
  pose proof (byte_at_range 0 (arr_bytes (sha256 (as_bytes bn)))) as Ha.
  pose proof (byte_at_range 1 (arr_bytes (sha256 (as_bytes bn)))) as Hb.
  unfold allocate, project_octets. simpl. unfold wrap32, u32_mod. rewrite Z.mod_small by (unfold ipv4; lia). unfold ipv4. f_equal. lia.
Qed.

(** *** What leaves the tables and the proxy as they are *)

Definition vm_inv (P : VmTables → ProxyNetwork → Prop) (w : ExecWorld (VmHost H)) : Prop := P (tables w) (ew_net w).

Section frames.
Context (P : VmTables → ProxyNetwork → Prop).
Abbreviation I := (vm_inv P).

Lemma keeps_on_host {E A} (m : H → A * H) : keeps (E := E) I (on_host m).
Proof. intros w Hw. unfold on_host. by destruct (m _). Qed.
Lemma keeps_on_firewall {A} (m : eff H FirewallError A) : keeps I (on_firewall m).
Proof. intros w Hw. unfold on_firewall. by destruct (m _). Qed.
Lemma keeps_vm_fs {E A} (e : E) (m : host_eff A) : keeps I (vm_fs e m).
Proof. intros w Hw. unfold vm_fs. by destruct (m _). Qed.
Lemma keeps_exec_files {A} (m : host_eff A) : keeps I (exec_fs m).
Proof. intros w Hw. unfold exec_fs. by destruct (m _). Qed.
Lemma keeps_vm_cmd {E} cmd args : keeps (E := E) I (vm_cmd cmd args).
Proof. intros w Hw. unfold vm_cmd. by destruct (run_command _ _ _ _). Qed.
Lemma keeps_vm_tool {E} cmd args : keeps (E := E) I (vm_tool cmd args).
Proof. intros w Hw. unfold vm_tool. by destruct (run_tool _ _ _ _) as [[??]?]. Qed.
Lemma keeps_vm_spawn {E} cmd args : keeps (E := E) I (vm_spawn cmd args).
Proof. intros w Hw. unfold vm_spawn. by destruct (spawn_child _ _ _ _). Qed.
Lemma keeps_vm_mat {A} (m : mat_eff A) : keeps I (vm_mat m).
Proof. intros w Hw. unfold vm_mat. by destruct (m _). Qed.
Lemma keeps_if_exists {E} p (m : eff (ExecWorld (VmHost H)) E unit) : keeps I m → keeps I (if_exists p m).
Proof. intros Hm. unfold if_exists. keeps_solve. Qed.

#[local] Hint Resolve keeps_on_host keeps_on_firewall keeps_vm_fs keeps_exec_files keeps_vm_cmd keeps_vm_tool : keeps.
#[local] Hint Resolve keeps_vm_spawn keeps_vm_mat keeps_if_exists : keeps.

Lemma keeps_run_ip args : keeps I (run_ip args).
Proof. unfold run_ip. keeps_solve. Qed.
Lemma keeps_link_exists name : keeps I (link_exists name).
Proof. unfold link_exists. keeps_solve. Qed.
#[local] Hint Resolve keeps_run_ip keeps_link_exists : keeps.

Lemma keeps_bridge bn cidr gw : keeps I (ensure_bridge_named bn cidr gw).
Proof. unfold ensure_bridge_named, bridge_nat, detect_outbound_iface. keeps_solve. Qed.
#[local] Hint Resolve keeps_bridge : keeps.

Lemma keeps_tap_on_bridge tap ip bn nm gw : keeps I (create_tap_on_bridge tap ip bn nm gw).
Proof. unfold create_tap_on_bridge, create_tap_ioctl, drop_fd. keeps_solve. Qed.
#[local] Hint Resolve keeps_tap_on_bridge : keeps.

Lemma keeps_create_tap tap ip : keeps I (create_tap tap ip).
Proof. unfold create_tap, ensure_bridge. keeps_solve. Qed.
Lemma keeps_slirp_tap tap ip nm gw : keeps I (create_slirp_tap tap ip nm gw).
Proof. unfold create_slirp_tap. keeps_solve. Qed.
Lemma keeps_teardown_tap tap fd : keeps I (teardown_tap tap fd).
Proof. unfold teardown_tap, drop_fd. keeps_solve. Qed.

Lemma keeps_ext4 depth d p size label : keeps I (materialize_ext4_rootfs depth d p size label).
Proof.
  unfold materialize_ext4_rootfs, in_tempdir, inject_init, create_sparse_file, format_ext4_from_dir, set_len. keeps_solve.
Qed.

Lemma keeps_check_firecracker program : keeps I (check_firecracker program).
Proof. unfold check_firecracker. keeps_solve. Qed.

Lemma keeps_vm_launch program e dir config : keeps I (launch program e dir config).
Proof. unfold launch. keeps_solve. Qed.

Lemma keeps_write_sidecar dir s : keeps I (write_sidecar dir s).
Proof. unfold write_sidecar. keeps_solve. Qed.

Lemma keeps_write_kernel_path dir k : keeps I (write_kernel_path dir k).
Proof. unfold write_kernel_path. keeps_solve. Qed.

End frames.

(** What [m] keeps, from one state to the next. *)
Lemma same_after {E A} (m : eff (ExecWorld (VmHost H)) E A) w r w' :
  (∀ P, keeps (vm_inv P) m) → m w = (r, w') → tables w' = tables w ∧ ew_net w' = ew_net w.
Proof.
  intros Hm Em. specialize (Hm (λ t n, t = tables w ∧ n = ew_net w) w (conj eq_refl eq_refl)). by rewrite Em in Hm.
Qed.

(** A machine that is not taken from a pool. *)
Lemma cold_created x depth spec (w w' : ExecWorld (VmHost H)) h :
  fx_pool x = None ∨ vt_pool (tables w) = [] → vm_create x depth spec w = (Ok h, w') →
  ∃ w0, tables w0 = tables w ∧ ew_net w0 = ew_net w ∧ cold_create x depth spec w0 = (Ok h, w').
Proof.
  intros Hx. unfold vm_create.
  assert (∀ m : eff (ExecWorld (VmHost H)) ExecError ProcessHandle,
    (∀ u, tables u = tables w → m u = cold_create x depth spec u) →
    (check_firecracker (fc_path (fx_config x)) ;; m) w = (Ok h, w') →
    ∃ w0, tables w0 = tables w ∧ ew_net w0 = ew_net w ∧ cold_create x depth spec w0 = (Ok h, w')) as Hc.
  { intros m Hm ([] & w0 & E0 & E)%bind_inv_ok.
    destruct (same_after _ _ _ _ (λ P, keeps_check_firecracker P _) E0) as [Ht Hn].
    exists w0. split_and!; [done..|]. by rewrite <- Hm. }
  destruct (ws_network_mode spec); try done; apply Hc; intros u Hu; destruct (fx_pool x); try done;
    destruct Hx as [|Hx]; try done; unfold acquire; unfold mbind at 1, eff_bind at 1; unfold mbind at 1, eff_bind at 1, get_world;
    by rewrite Hu, Hx.
Qed.

(** Every machine that is booted for a project gets the first address of the project's
    range: two of them have the same one. *)
Lemma project_vms_collide x depth spec1 spec2 bn (w1 w2 : ExecWorld (VmHost H)) h1 h2 w1' w2' :
  fx_pool x = None → ws_bridge_name spec1 = Some bn → ws_bridge_name spec2 = Some bn →
  vm_create x depth spec1 w1 = (Ok h1, w1') → vm_create x depth spec2 w2 = (Ok h2, w2') →
  is_Some (ph_internal_ip h1) ∧ ph_internal_ip h1 = ph_internal_ip h2.
Proof.
  assert (∀ spec w h w', fx_pool x = None → ws_bridge_name spec = Some bn → vm_create x depth spec w = (Ok h, w') →
    ph_internal_ip h = Some (ipv4_to_string (ipv4 10 (project_octets bn).1 (project_octets bn).2 2))) as Hip.
  { intros spec w h w' Hx Hbn E. apply cold_created in E as (w0 & _ & _ & E); [|by left]. unfold cold_create in E.
    rewrite Hbn in E. erewrite bind_ok in E by apply project_ip.
    apply bind_inv_ok in E as (vm_net & u1 & _ & E). apply bind_inv_ok in E as (ep & u2 & _ & E).
    apply bind_inv_ok in E as (? & u3 & _ & E). apply bind_inv_ok in E as (? & u4 & _ & E).
    apply bind_inv_ok in E as (? & u5 & _ & E). apply bind_inv_ok in E as (? & u6 & _ & E). by injection E as <- _. }
  intros Hx B1 B2 E1 E2. rewrite (Hip spec1 w1 h1 w1'), (Hip spec2 w2 h2 w2') by done. done.
Qed.

(** *** What a machine holds *)

Definition fresh_vm (id : string) (w : ExecWorld (VmHost H)) : Prop :=
  vt_tap_fds (tables w) !! id = None ∧ vt_slirp_children (tables w) !! id = None ∧
  (id ∉ vt_pool_allocations (tables w)) ∧ active_sessions (ew_net w) !! id = None.

(** The tables [t] with a descriptor or a process for [id]. *)
Definition plumbed (id : string) (t t' : VmTables) : Prop :=
  (∃ fd, t' = set_tap_fds (<[id := fd]> (vt_tap_fds t)) t) ∨
  (∃ pid, t' = set_slirp_children (<[id := pid]> (vt_slirp_children t)) t).

Lemma kept_run (m : eff (ExecWorld (VmHost H)) ExecError (VmNetwork * Z)) (f : Z → VmTables → VmTables) net w w' :
  (∀ P, keeps (vm_inv P) m) → (m ≫= (λ p, set_tables (f p.2) ;; mret p.1)) w = (Ok net, w') →
  ∃ z, tables w' = f z (tables w) ∧ ew_net w' = ew_net w.
Proof.
  intros Hm ([vn z] & w1 & E1 & E2)%bind_inv_ok. injection E2 as _ <-.
  destruct (same_after _ _ _ _ Hm E1) as [Ht Hn]. exists z. by rewrite <- Ht, <- Hn.
Qed.

Lemma plumb_run spec gw nm ip (w : ExecWorld (VmHost H)) net w' :
  plumb spec gw nm ip w = (Ok net, w') → plumbed (ws_id spec) (tables w) (tables w') ∧ ew_net w' = ew_net w.
Proof.
  set (tap := λ z t, set_tap_fds (<[ws_id spec := z]> (vt_tap_fds t)) t).
  set (slirp := λ z t, set_slirp_children (<[ws_id spec := z]> (vt_slirp_children t)) t).
  unfold plumb. destruct (ws_network_mode spec) eqn:Em; destruct (ws_bridge_name spec) as [bn|]; intros Ep;
    try (apply (kept_run _ tap _ _ _ (λ P, keeps_map_err _ _ _ (keeps_create_tap P _ _))) in Ep as (z & Hz & Hn);
         split; [left; by exists z|done]);
    try (apply (kept_run _ slirp _ _ _ (λ P, keeps_map_err _ _ _ (keeps_slirp_tap P _ _ _ _))) in Ep as (z & Hz & Hn);
         split; [right; by exists z|done]);
    apply bind_inv_ok in Ep as ([] & u1 & E1 & Ep);
    destruct (same_after _ _ _ _ (λ P, keeps_map_err _ _ _ (keeps_bridge P bn _ _)) E1) as [Ht Hn];
    apply (kept_run _ tap _ _ _ (λ P, keeps_map_err _ _ _ (keeps_tap_on_bridge P _ _ _ _ _))) in Ep as (z & Hz & Hn');
    rewrite Ht in Hz; (split; [left; by exists z|congruence]).
Qed.

Definition sidecar_of (x : FirecrackerExecutor) (id : string) (w : ExecWorld (VmHost H)) : option VmSidecar :=
  t ← read_text (vm_sidecar_path x id) w; sidecar_from_str t.

Lemma allocate_vm_ip_run bridge (w w' : ExecWorld (VmHost H)) r :
  allocate_vm_ip bridge w = (Ok r, w') → tables w' = tables w ∧ ∃ i, ew_net w' = with_ipam i (ew_net w).
Proof.
  destruct bridge as [bn|]; [rewrite project_ip; intros [= _ <-]; split; [done|]; exists (ipam (ew_net w)); by destruct (ew_net w)|].
  unfold allocate_vm_ip. intros (o & w1 & E1 & E2)%bind_inv_ok. unfold exec_ipam in E1.
  destruct (allocate (ipam (ew_net w))) as [o' i]. injection E1 as -> <-.
  destruct o as [ip|]; [|done]. injection E2 as _ <-. split; [done|]. by exists i.
Qed.

Lemma write_sidecar_run `{!VmJsonLaws} dir s (w w' : ExecWorld (VmHost H)) :
  write_sidecar dir s w = (Ok tt, w') → (t ← read_text (dir ++ ["network.json"]) w'; sidecar_from_str t) = Some s.
Proof.
  unfold write_sidecar. intros (json & w1 & E1 & E2)%bind_inv_ok. unfold lift_result, ok_or in E1.
  destruct (sidecar_to_string s) as [t|] eqn:Es; [|done]. injection E1 as <- <-. unfold exec_fs in E2.
  destruct (write_host _ _ _) as [[[]|] fs] eqn:Ew; [|done]. injection E2 as <-. apply write_read_host in Ew.
  unfold read_text. simpl. rewrite Ew. simpl. rewrite from_utf8_as_bytes by (by eapply sidecar_utf8). simpl.
  by apply sidecar_roundtrip.
Qed.

(** A machine that was created holds one entry of the tables and a session, and its
    sidecar can be read. *)
Lemma cold_create_run `{!VmJsonLaws} x depth spec (w w' : ExecWorld (VmHost H)) h :
  cold_create x depth spec w = (Ok h, w') →
  ph_id h = ws_id spec ∧ plumbed (ws_id spec) (tables w) (tables w') ∧ is_Some (sidecar_of x (ws_id spec) w') ∧
  ∃ i ip ep, register_endpoint (ws_id spec) ip (ws_network_rules spec) (with_ipam i (ew_net w)) = (Ok ep, ew_net w').
Proof.
  unfold cold_create. intros ([[gw nm] ip] & w1 & E1 & Ec)%bind_inv_ok. apply allocate_vm_ip_run in E1 as [T1 [i N1]].
  apply bind_inv_ok in Ec as (net & w2 & E2 & Ec). apply plumb_run in E2 as [T2 N2].
  apply bind_inv_ok in Ec as (ep & w3 & E3 & Ec). apply bind_inv_ok in Ec as ([] & w4 & E4 & Ec).
  apply bind_inv_ok in Ec as ([] & w5 & E5 & Ec). apply bind_inv_ok in Ec as ([] & w6 & E6 & Ec).
  apply bind_inv_ok in Ec as ([] & w7 & E7 & Ec). injection Ec as <- <-.
  pose proof (write_sidecar_run _ _ _ _ E7) as Hs.
  apply same_after in E4 as [T4 N4]; [|intros; apply keeps_exec_files].
  apply same_after in E5 as [T5 N5]; [|intros; apply keeps_map_err, keeps_ext4].
  apply same_after in E6 as [T6 N6]; [|intros; apply keeps_write_kernel_path].
  apply same_after in E7 as [T7 N7]; [|intros; apply keeps_write_sidecar].
  unfold proxy_register, map_err_eff, exec_net in E3. rewrite N2, N1 in E3.
  destruct (register_endpoint _ _ _ _) as [[ep'|] n] eqn:Er; [|done]. injection E3 as <- <-.
  simpl in *. unfold with_net in *. simpl in *.
  split; [done|]. rewrite T7, T6, T5, T4. split; [by rewrite <- T1|]. split; [eexists; exact Hs|].
  exists i, (ipv4_to_string ip), ep'. by rewrite N7, N6, N5, N4.
Qed.

Definition released (id : string) (t : VmTables) : VmTables :=
  set_slirp_children (delete id (vt_slirp_children t)) (set_tap_fds (delete id (vt_tap_fds t)) t).

Lemma kill_vm_run x id (w : ExecWorld (VmHost H)) :
  ∃ w', kill_vm x id w = (Ok tt, w') ∧ tables w' = tables w ∧ ew_net w' = ew_net w ∧ ew_fs w' = ew_fs w.
Proof.
  unfold kill_vm. rewrite get_bind. destruct (_ ≫= _) as [pid|]; [|by exists w].
  unfold vm_cmd, mbind, eff_bind. destruct (run_command _ _ _ _) as [o h]. by eexists.
Qed.

Lemma release_run x id s (w : ExecWorld (VmHost H)) :
  sidecar_of x id w = Some s →
  ∃ w', release_network x id w = (Ok tt, w') ∧ tables w' = set_tap_fds (delete id (vt_tap_fds (tables w))) (tables w) ∧
    ew_net w' = (teardown id (ew_net w)).2.
Proof.
  unfold sidecar_of, vm_sidecar_path. intros Hs. unfold release_network. rewrite get_bind, Hs.
  unfold set_tables. rewrite modify_bind, ignore_bind. unfold ignore_eff, exec_net.
  set (w1 := with_procs _ w). destruct (teardown_tap _ _ w1) as [r w2] eqn:E2.
  apply same_after in E2 as [T2 N2]; [|intros; apply keeps_teardown_tap]. simpl. rewrite N2.
  destruct (teardown id (ew_net w1)) as [r' n] eqn:Et. eexists. split; [done|]. split; [exact T2|].
  change (ew_net w) with (ew_net w1). by rewrite Et.
Qed.

Lemma kill_slirp_run id (w : ExecWorld (VmHost H)) :
  ∃ w', kill_slirp id w = (Ok tt, w') ∧
    tables w' = set_slirp_children (delete id (vt_slirp_children (tables w))) (tables w) ∧ ew_net w' = ew_net w.
Proof.
  unfold kill_slirp. rewrite get_bind. destruct (vt_slirp_children (tables w) !! id) as [pid|] eqn:Ep.
  - unfold set_tables. rewrite modify_bind. unfold on_host, mbind, eff_bind. simpl.
    destruct (wait_child pid _) as [o h]. by eexists.
  - exists w. rewrite delete_id by done. split_and!; [done| |done]. by destruct (tables w).
Qed.

Lemma if_exists_run (p : path) (m : host_eff unit) (w : ExecWorld (VmHost H)) :
  ∃ w', if_exists (E := ExecError) p (ignore_eff (exec_fs m)) w = (Ok tt, w') ∧ ew_procs w' = ew_procs w ∧ ew_net w' = ew_net w.
Proof.
  unfold if_exists. rewrite get_bind. destruct (path_exists p (ew_fs w)); [|by exists w].
  unfold ignore_eff, exec_fs. destruct (m (ew_fs w)) as [r fs]. by eexists.
Qed.

Lemma remove_files_run x id (w : ExecWorld (VmHost H)) :
  ∃ w', remove_vm_files x id w = (Ok tt, w') ∧ ew_procs w' = ew_procs w ∧ ew_net w' = ew_net w.
Proof.
  unfold remove_vm_files. set (p := ext4_path_for _ _). destruct (if_exists_run p (unlink p) w) as (w1 & E1 & P1 & N1).
  destruct (if_exists_run (vm_dir x id) (remove_dir_all (vm_dir x id)) w1) as (w2 & E2 & P2 & N2).
  exists w2. erewrite bind_ok by exact E1. split; [exact E2|]. split; congruence.
Qed.

Lemma vm_stop_run x id s (w : ExecWorld (VmHost H)) :
  sidecar_of x id w = Some s → id ∉ vt_pool_allocations (tables w) →
  ∃ w', vm_stop x id w = (Ok tt, w') ∧ tables w' = released id (tables w) ∧ ew_net w' = (teardown id (ew_net w)).2.
Proof.
  intros Hs Hid. unfold vm_stop. rewrite get_bind, decide_False by done.
  destruct (kill_vm_run x id w) as (w1 & E1 & T1 & N1 & F1). erewrite bind_ok by exact E1.
  assert (sidecar_of x id w1 = Some s) as Hs1 by (unfold sidecar_of, read_text in *; by rewrite F1).
  destruct (release_run x id s w1 Hs1) as (w2 & E2 & T2 & N2). erewrite bind_ok by exact E2.
  destruct (kill_slirp_run id w2) as (w3 & E3 & T3 & N3). erewrite bind_ok by exact E3.
  destruct (remove_files_run x id w3) as (w4 & E4 & P4 & N4). exists w4. split; [exact E4|].
  assert (tables w4 = tables w3) as T4 by (unfold tables; by rewrite P4). rewrite T4, T3, T2, T1, N4, N3, N2, N1. done.
Qed.

(** *** From creation to the end *)

Lemma start_keeps (I : ExecWorld (VmHost H) → Prop) x h :
  keeps I (exec_fs (unlink (vm_dir x (ph_id h) ++ ["firecracker.sock"]))) →
  (∀ config, keeps I (launch (fc_path (fx_config x)) ExecIo (vm_dir x (ph_id h)) config)) → keeps I (vm_start x h).
Proof.
  intros Hu Hl. unfold vm_start, if_exists. apply keeps_bind; [apply keeps_get|]. intros w. apply keeps_if; [apply keeps_ret|].
  apply keeps_bind; [apply keeps_bind; [apply keeps_get|]; intros u; apply keeps_bool; [by apply keeps_ignore|apply keeps_ret]|].
  intros _. apply keeps_bind; [apply keeps_get|]. intros u. apply keeps_bind; [apply keeps_lift|]. intros t.
  apply keeps_bind; [apply keeps_lift|]. intros sc. apply keeps_bind; [apply Hl|]. intros _. apply keeps_ret.
Qed.

Lemma start_same x h (w : ExecWorld (VmHost H)) :
  tables (vm_start x h w).2 = tables w ∧ ew_net (vm_start x h w).2 = ew_net w.
Proof.
  eapply same_after; [|apply surjective_pairing]. intros P. apply start_keeps; [apply keeps_exec_files|].
  intros config. apply keeps_vm_launch.
Qed.

(** An invariant of the files. *)
Lemma keeps_files {A : Type} (Q : HostFs → Prop) (m : host_eff A) :
  keeps Q m → keeps (λ w : ExecWorld (VmHost H), Q (ew_fs w)) (exec_fs m).
Proof. intros Hm w Hw. specialize (Hm _ Hw). unfold exec_fs. by destruct (m (ew_fs w)). Qed.

Lemma keeps_files_launch (Q : HostFs → Prop) program e dir config :
  (∀ k data, k ∈ ["vm-config.json"; "firecracker.log"; "console.log"; "firecracker.pid"] → keeps Q (write_host (dir ++ [k]) data)) →
  keeps (λ w : ExecWorld (VmHost H), Q (ew_fs w)) (launch program e dir config).
Proof.
  intros Hw. unfold launch. apply keeps_bind; [apply keeps_files, Hw; set_solver|]. intros _.
  apply keeps_bind; [apply keeps_get|]. intros w.
  apply keeps_bind; [apply keeps_bool; [apply keeps_ret|apply keeps_files, Hw; set_solver]|]. intros _.
  apply keeps_bind; [apply keeps_map_err, keeps_files, Hw; set_solver|]. intros _.
  apply keeps_bind; [intros u Hu; unfold vm_spawn; by destruct (spawn_child _ _ _ _)|]. intros [pid|]; [|apply keeps_throw].
  apply keeps_bind; [apply keeps_files, Hw; set_solver|]. intros _. apply keeps_ret.
Qed.

Lemma plain_read fs fs' p c : plain_dir fs p → plain_dir fs' p → c ≠ ".." →
  content_at fs' (p ++ [c]) = content_at fs (p ++ [c]) → (read_host (p ++ [c]) fs').1 = (read_host (p ++ [c]) fs).1.
Proof.
  intros [Hp Hl] [Hp' Hl'] Hc E. unfold read_host. rewrite (bind_ok _ _ fs' (p ++ [c]) fs') by (by apply resolve_child).
  rewrite (bind_ok _ _ fs (p ++ [c]) fs) by (by apply resolve_child). rewrite !get_bind, E. by destruct (content_at fs (p ++ [c])) as [[]|].
Qed.

Lemma start_sidecar x h (w : ExecWorld (VmHost H)) :
  plain_dir (ew_fs w) (vm_dir x (ph_id h)) → sidecar_of x (ph_id h) (vm_start x h w).2 = sidecar_of x (ph_id h) w.
Proof.
  intros Hd. set (dir := vm_dir x (ph_id h)) in *.
  assert (keeps (λ u, file_stays dir "network.json" (content_at (ew_fs w) (dir ++ ["network.json"])) (ew_fs u)) (vm_start x h)) as Hk.
  { apply start_keeps; [by apply keeps_files, stays_unlink|]. intros config. apply keeps_files_launch.
    intros k data Hin. apply stays_write; set_solver. }
  destruct (Hk w) as [Hd' Hc]; [done|]. unfold sidecar_of, vm_sidecar_path, read_text. fold dir.
  by rewrite (plain_read (ew_fs w) _ dir).
Qed.


(** ** The pool *)

Lemma keeps_boot (T : VmTables → Prop) fc pc : keeps (vm_inv (λ t _, T t)) (boot_pool_vm (H := H) fc pc).
Proof.
  assert (∀ E A (m : eff ProxyNetwork E A), keeps (vm_inv (λ t _, T t)) (exec_net m)) as Hnet.
  { intros E A m w Hw. unfold exec_net. by destruct (m (ew_net w)). }
  assert (∀ A (f : Ipam → A * Ipam), keeps (vm_inv (λ t _, T t)) (exec_ipam f)) as Hipam.
  { intros A f w Hw. unfold exec_ipam. by destruct (f (ipam (ew_net w))). }
  pose proof (@keeps_on_host (λ t _, T t)) as Hhost. pose proof (@keeps_vm_fs (λ t _, T t)) as Hfs.
  pose proof (@keeps_exec_files (λ t _, T t)) as Hex. pose proof (@keeps_vm_tool (λ t _, T t)) as Htool.
  pose proof (keeps_create_tap (λ t _, T t)) as Htap. pose proof (keeps_vm_launch (λ t _, T t)) as Hlaunch.
  pose proof (keeps_write_sidecar (λ t _, T t)) as Hside.
  unfold boot_pool_vm, create_pool_rootfs, in_tempdir, set_len, proxy_register, drop_fd. keeps_solve.
Qed.

(** A refill that nobody interrupts keeps the machines of the pool and stops at its size. *)
Lemma refill_bound fc pc (w : ExecWorld (VmHost H)) :
  ∃ l, vt_pool (tables (refill_pool fc pc w).2) = vt_pool (tables w) ++ l ∧
    length l ≤ pc_pool_size pc - length (vt_pool (tables w)).
Proof.
  unfold refill_pool. rewrite get_bind. generalize (pc_pool_size pc - length (vt_pool (tables w))). intros k.
  revert w. induction k as [|k IH]; intros w; cbn [refill]; [exists []; by rewrite app_nil_r|].
  rewrite try_bind. pose proof (keeps_boot (eq (tables w)) fc pc w eq_refl) as Ht. unfold vm_inv in Ht.
  destruct (boot_pool_vm fc pc w) as [[e|e] w1]; simpl in *.
  - unfold set_tables. rewrite modify_bind. destruct (IH (with_procs (MkVmHost (set_pool (vt_pool (tables w1) ++ [e]) (tables w1)) (vh_host (ew_procs w1))) w1))
      as (l & E & Hl). exists (e :: l). rewrite E. simpl. rewrite <- Ht, <- app_assoc. split; [done|lia].
  - exists []. rewrite app_nil_r, Ht. split; [done|simpl; lia].
Qed.

(** The stop of a machine that came from the pool asks nothing of the host: its process
    runs on, and the pool does not have it either. *)
Lemma pool_stop_leaks x id (w : ExecWorld (VmHost H)) :
  id ∈ vt_pool_allocations (tables w) →
  ∃ w', vm_stop x id w = (Ok tt, w') ∧ vh_host (ew_procs w') = vh_host (ew_procs w) ∧
    vt_pool (tables w') = vt_pool (tables w).
Proof.
  intros Hid. unfold vm_stop. rewrite get_bind, decide_True by done. unfold set_tables. rewrite modify_bind.
  destruct (remove_files_run x id (with_procs (MkVmHost (set_pool_allocations (vt_pool_allocations (tables w) ∖ {[id]}) (tables w))
    (vh_host (ew_procs w))) w)) as (w3 & E3 & P3 & _). erewrite bind_ok by exact E3.
  unfold ignore_eff, exec_net. destruct (teardown id (ew_net w3)) as [r n]. eexists. split; [done|].
  unfold tables. simpl. by rewrite P3.
Qed.

End vm.
