(* ===== verification/RunSpec.v ===== *)
(** * Running and pulling

    A workload is recorded only if its request passed every check, and a request that
    fails leaves the table as it was; the policy of the daemon reaches the configuration
    that runc gets. *)

From stdpp Require Import base gmap strings list pretty.
From Stdlib Require Import ZArith Lia.
From S2P Require Import Prelude Strs Utf8 Crates Node Fs Store OpLock Gc OciTypes HostFs Tasks.
From S2P Require Import Puller Convert Materialize Bloom Policy Secrets Ipam Net Exec Container Rootless Kernel.
From S2P Require Sync.
From S2P Require Import Workload Images Service Handlers Watcher ServiceFacts.

Section config.
Context `{JsonText, Ed25519}.

Lemma jpath_cons k ks v : jpath (k :: ks) v = x ← jget k v; jpath ks x.
Proof.
  unfold jpath. simpl. destruct (jget k v) as [x|]; [done|]. simpl. by induction ks.
Qed.

(** A configuration with a network namespace to join. *)
Lemma join_netns_other p ks cfg : head ks ≠ Some "linux" → jpath ks (join_netns p cfg) = jpath ks cfg ∨ ks = [].
Proof.
  destruct ks as [|k ks]; [by right|]. intros Hk. left. rewrite !jpath_cons. unfold join_netns.
  rewrite jget_jalter, decide_False; [done|]. intros <-. done.
Qed.

Lemma join_netns_linux p k ks cfg :
  k ≠ "namespaces" → jpath ("linux" :: k :: ks) (join_netns p cfg) = jpath ("linux" :: k :: ks) cfg.
Proof.
  intros Hk. rewrite !jpath_cons. unfold join_netns. rewrite jget_jalter, decide_True by done.
  destruct (jget "linux" cfg) as [l|]; [|done]. simpl. rewrite !jpath_cons, jget_jalter, decide_False by congruence. done.
Qed.

Lemma resources_object cpu mem : ∃ l, with_resources cpu mem linux_base = JObj l.
Proof. destruct cpu, mem; eexists; reflexivity. Qed.

(** The parts of a configuration. *)
Lemma container_config_parts b spec cfg :
  container_config b spec = Ok cfg →
  jget "process" cfg = Some (process_json b spec) ∧
  jpath ["root"; "readonly"] cfg = Some (JBool (ws_readonly_rootfs spec && negb (ws_privileged spec))) ∧
  ∃ linux, with_seccomp spec (with_resources (ws_cpu_millicores spec) (ws_memory_bytes spec) linux_base) = Ok linux ∧
    jget "linux" cfg = Some linux.
Proof.
  unfold container_config, mbind, result_bind. destruct (with_seccomp _ _) as [linux|e]; [|done].
  intros [= <-]. split_and!; [reflexivity..|]. by exists linux.
Qed.

(** What the policy asks of a container, in the words of its configuration. *)
Record enforced (policy : Policy) (req : RunRequest) (cfg : Json) : Prop := {
  enf_caps k : k ∈ ["bounding"; "effective"; "permitted"] →
    jpath ["process"; "capabilities"; k] cfg = Some (strs default_capabilities);
  enf_readonly : Policy.readonly_rootfs policy = true → jpath ["root"; "readonly"] cfg = Some (JBool true);
  enf_privileges : Policy.no_new_privileges policy = true → jpath ["process"; "noNewPrivileges"] cfg = Some (JBool true);
  enf_seccomp : Policy.seccomp_profile policy = Some "default" → rq_seccomp_profile req = EmptyString →
    jpath ["linux"; "seccomp"; "defaultAction"] cfg = Some (JStr "SCMP_ACT_ERRNO");
}.

Lemma config_enforced engine req d k extra b cfg :
  rq_privileged req = false →
  container_config b (spec_of_run (Some engine) req Backend.Container d k extra) = Ok cfg →
  enforced (default_policy engine) req cfg.
Proof.
  intros Hp Hc. set (spec := spec_of_run _ _ _ _ _ _) in Hc.
  destruct (container_config_parts _ _ _ Hc) as (Hpr & Hro & linux & Hs & Hl).
  assert (ws_privileged spec = false) as Hsp by done.
  assert (Policy.readonly_rootfs (default_policy engine) = true → ws_readonly_rootfs spec = true) as Hr.
  { intros Hr. unfold spec, spec_of_run, effective_security_flags. simpl. by rewrite Hp, Hr, orb_true_r. }
  assert (Policy.no_new_privileges (default_policy engine) = true → ws_no_new_privileges spec = true) as Hn.
  { intros Hn. unfold spec, spec_of_run, effective_security_flags. simpl. by rewrite Hp, Hn, orb_true_r. }
  assert (rq_seccomp_profile req = EmptyString → ws_seccomp_profile spec = Policy.seccomp_profile (default_policy engine)) as Hse.
  { intros Hq. unfold spec, spec_of_run, effective_security_flags. simpl. by rewrite Hp, Hq. }
  clearbody spec. clear Hc.
  constructor.
  - intros key Hk. rewrite jpath_cons, Hpr. unfold process_json. rewrite Hsp.
    destruct (ws_no_new_privileges spec); repeat (apply elem_of_cons in Hk as [->|Hk]; [reflexivity|]); by apply elem_of_nil in Hk.
  - intros Hpo. by rewrite Hro, Hsp, Hr.
  - intros Hpo. rewrite jpath_cons, Hpr. unfold process_json. rewrite Hsp, Hn by done. reflexivity.
  - intros Hd Hq. rewrite jpath_cons, Hl. unfold with_seccomp in Hs. rewrite Hsp, Hse, Hd in Hs by done.
    simpl in Hs. injection Hs as <-. change (Some ?x ≫= ?f) with (f x). cbv beta. rewrite jpath_cons.
    destruct (resources_object (ws_cpu_millicores spec) (ws_memory_bytes spec)) as [l ->].
    rewrite jget_jset, decide_True by done. reflexivity.
Qed.


End config.

(** ** Mounts *)

(** A bind mount whose source is neither the host's root nor in the store, at an
    absolute destination without [..]. *)
Definition safe_mount (fs : HostFs) (cwd store_root : path) (m : Mount) : Prop :=
  mt_type m ∈ ["bind"; "tmpfs"; "volume"] ∧
  (mt_type m = "bind" → ∀ p, canonicalize (path_join cwd (mt_source m)) fs = (Ok p, fs) →
    p ≠ [] ∧ path_starts_with p store_root = false) ∧
  is_absolute (mt_destination m) = true ∧ ".." ∉ components (mt_destination m).

Lemma sanitize_mount_safe fs cwd store_root m : sanitize_mount fs cwd store_root m = Ok tt → safe_mount fs cwd store_root m.
Proof.
  unfold sanitize_mount, mbind, result_bind. intros Hs.
  match type of Hs with match ?x with _ => _ end = _ => destruct x as [[]|e] eqn:Ex; [|done] end.
  destruct (is_absolute (mt_destination m)) eqn:Ea; [|done]. simpl in Hs. case_bool_decide as Hd; [done|].
  split_and!; [| |done|done].
  - repeat case_decide; try done; set_solver.
  - intros Hb p Hp. rewrite decide_True in Ex by done. case_decide; [done|].
    unfold canonical_source in Ex. rewrite Hp in Ex. simpl in Ex.
    case_bool_decide; [done|]. by destruct (path_starts_with p store_root).
Qed.

Lemma sanitize_mounts_safe fs cwd store_root l :
  sanitize_mounts fs cwd store_root l = Ok tt → Forall (safe_mount fs cwd store_root) l.
Proof.
  induction l as [|m l IH]; [constructor|]. simpl. unfold mbind, result_bind.
  destruct (sanitize_mount fs cwd store_root m) as [[]|e] eqn:E; [|done]. intros Hl.
  constructor; [by apply sanitize_mount_safe|by apply IH].
Qed.

Section run.
Context {H : Type} `{Processes H, HttpClient H, Sync.PeerNet H, Sync.Clock H, TempDir H, DefaultHasher, Hex, Sha2}.
Context `{Rkyv DagNode, EntryJson, JsonText, OciJson, GzDecoder, Puller.Base64, LayerTar, ZstdDecoder, StateJson, Lowercase}.
Context `{Aes256Gcm, OsRng, CharClass, Ed25519, Rkyv SignatureBlob, Rkyv SbomBlob}.
Context (config : ServiceConfig) (router : ExecutorRouter H) (policy_engine : option PolicyEngine).
Context (error_text : SvcError → string) (fuel : nat).

(** The policy allows an image: the decision on the store of some state. *)
Definition allowed (root_digest : string) (s : RuntimeService H) : Prop :=
  ∀ engine, policy_engine = Some engine →
  ∃ image_ref, (evaluate_for_image engine (default_policy engine) image_ref root_digest (im_store (sv_images s))).1 = Ok Allow ∧
    image_ref = default root_digest (image_tags (sv_images s) !! root_digest).

Lemma on_svc_store_fst {E A} (m : eff World E A) (s : RuntimeService H) :
  (on_svc_store m s).1 = (m (im_store (sv_images s))).1.
Proof. unfold on_svc_store. by destruct (m _). Qed.

Lemma evaluate_for_run_allowed d (s s' : RuntimeService H) :
  evaluate_for_run policy_engine d s = (Ok tt, s') → allowed d s.
Proof.
  unfold evaluate_for_run, allowed. intros Ev engine ->. unfold on_images, on_images_as in Ev.
  unfold mbind at 1, eff_bind at 1 in Ev.
  destruct (read_tags (sv_images s)) as [[tags|e] i] eqn:Et; [|done].
  unfold read_tags, acquire_tags, mbind, eff_bind, get_world in Et. destruct (tags_writer (sv_images s)); [done|].
  injection Et as <- <-. simpl in Ev.
  assert (with_images (sv_images s) s = s) as Es by by destruct s.
  rewrite Es in Ev. eexists. split; [|done]. unfold decide_policy in Ev.
  apply bind_inv_ok in Ev as (dec & s2 & Ed & Ev). destruct dec; [|done].
  unfold map_err_eff in Ed. rewrite <- on_svc_store_fst.
  destruct (on_svc_store _ _) as [[dec|e] s3]; simpl in *; congruence.
Qed.

Lemma check_join_same req b m (s s' : RuntimeService H) : check_join req b m s = (Ok tt, s') → s' = s.
Proof.
  unfold check_join. destruct m; try by intros [= <-]. case_decide; [done|]. case_decide; [done|]. rewrite get_bind.
  destruct (sv_workloads s !! _) as [ts|]; [|done]. destruct (starts_with _ _); [by intros [= <-]|done].
Qed.

Lemma stage_kernel_same req b (s s' : RuntimeService H) :
  b ≠ Backend.Vm → stage_kernel config error_text fuel req b s = (Ok tt, s') → s' = s.
Proof. intros Hb. unfold stage_kernel. rewrite decide_True by done. by intros [= <-]. Qed.

(** What a request that reaches the executor has passed. *)
Record admitted (req : RunRequest) (s : RuntimeService H) (spec : WorkloadSpec) : Prop := {
  adm_policy : ∃ s1, allowed (rq_root_digest req) s1 ∧ (ws_backend spec ≠ Backend.Vm → s1 = s);
  adm_mounts : ∃ fs, Forall (safe_mount fs (cwd config) (store_root config)) (rq_mounts req);
  adm_image : from_hex (rq_root_digest req) = Ok (ws_image_root spec);
  adm_spec : ∃ k extra, spec = spec_of_run policy_engine req (ws_backend spec) (ws_image_root spec) k extra;
}.

Lemma prepare_admitted req s spec s' :
  prepare config policy_engine error_text fuel req s = (Ok spec, s') → admitted req s spec.
Proof.
  unfold prepare. intros E.
  apply bind_inv_ok in E as (b & s1 & Eb & E). apply lift_frame in Eb as [-> Eb].
  apply bind_inv_ok in E as ([] & s2 & Ej & E). apply check_join_same in Ej as ->.
  apply bind_inv_ok in E as ([] & s3 & Ek & E).
  apply bind_inv_ok in E as ([] & s4 & Ev & E). apply evaluate_for_run_allowed in Ev.
  apply bind_inv_ok in E as ([] & s5 & _ & E). rewrite get_bind in E.
  apply bind_inv_ok in E as (extra & s6 & _ & E). rewrite get_bind in E.
  apply bind_inv_ok in E as ([] & s7 & Em & E). apply lift_frame in Em as [-> Em].
  apply bind_inv_ok in E as (d & s8 & Ed & E). apply lift_frame in Ed as [-> Ed].
  injection E as <- <-. constructor; simpl.
  - exists s3. split; [done|]. intros Hb. by eapply stage_kernel_same.
  - exists (sv_fs s6). apply sanitize_mounts_safe. by destruct (sanitize_mounts _ _ _ _) as [[]|].
  - destruct (from_hex (rq_root_digest req)); simpl in Ed; congruence.
  - eauto.
Qed.


(** ** A denied image *)

(** Some image has a reference, and the table can be read. *)
Definition tagged (image_ref : string) (s : RuntimeService H) : Prop :=
  tags_writer (sv_images s) = false ∧ ∃ d, image_tags (sv_images s) !! d = Some image_ref.

Lemma tag_image_tagged d image_ref (s s' : RuntimeService H) :
  on_images (tag_image d image_ref) s = (Ok tt, s') → tagged image_ref s'.
Proof.
  unfold on_images, on_images_as. destruct (tag_image d image_ref (sv_images s)) as [r i] eqn:Et.
  intros [= Er <-]. destruct r as [[]|]; [|done]. unfold tagged. simpl. clear Er.
  unfold tag_image, write_tags, save_image_tags, read_tags, acquire_tags in Et.
  repeat (rewrite get_bind in Et || unfold mbind, eff_bind, modify_world, get_world, on_image_store in Et).
  destruct (tags_writer (sv_images s)) eqn:Ew; [done|]. unfold mret, eff_ret in Et. simpl in Et.
  destruct (increment_refcount d _) as [r w]. simpl in Et. rewrite Ew in Et. injection Et as <-. simpl.
  split; [done|]. exists (as_hex d). by rewrite lookup_insert_eq.
Qed.

Lemma tagged_pull req s :
  tagged (pq_image_ref req) s →
  ∃ d, pull_image config policy_engine error_text fuel req s = (Ok (MkPullResponse d 0), s).
Proof.
  intros [Hw [d Hd]]. unfold pull_image.
  destruct (List.find (λ kv : string * string, bool_decide (kv.2 = pq_image_ref req)) (map_to_list (image_tags (sv_images s))))
    as [[d' r]|] eqn:Ef.
  - exists d'. rewrite (bind_ok _ _ _ (Some d') s); [done|]. unfold on_images, on_images_as, local_tag, read_tags, acquire_tags.
    unfold mbind, eff_bind, get_world. rewrite Hw. simpl. rewrite Ef. by destruct s.
  - exfalso. apply elem_of_map_to_list, list_elem_of_In in Hd. apply (List.find_none _ _ Ef) in Hd.
    by apply bool_decide_eq_false in Hd.
Qed.

Lemma keeps_tagged_store {E A} r (m : eff World E A) : keeps (tagged r) (on_svc_store m).
Proof. intros s Hs. unfold on_svc_store. by destruct (m _). Qed.

Lemma keeps_tagged_ops {A} r (m : ops_eff A) : keeps (tagged r) (on_ops m).
Proof. intros s Hs. unfold on_ops. by destruct (m _). Qed.

(** An image the policy denies when it is pulled stays tagged, so pulling it again
    succeeds without another look at the policy. *)
Lemma denied_pull_cached req s reason s' :
  pull_image config policy_engine error_text fuel req s = (Err (Denied reason), s') →
  ∃ d, pull_image config policy_engine error_text fuel req s' = (Ok (MkPullResponse d 0), s').
Proof.
  intros E. apply tagged_pull. revert E. unfold pull_image.
  set (known := on_images _). intros [(o & s1 & Ek & E)|(e & Ek & Ee)]%bind_cases.
  2: { exfalso. revert Ek Ee. subst known. unfold on_images, on_images_as. destruct (local_tag _ _) as [[]]; simpl; congruence. }
  destruct o as [d|]; [done|]. rewrite try_bind in E.
  destruct (fetch _ _ req s1) as [[pulled|e] s2] eqn:Ef; simpl in E.
  2: { exfalso. unfold fetch in Ef. destruct (Sync.sync_pull _ _ _ _ _ _ _) as [[|[]] w]; simpl in Ef; naive_solver. }
  apply bind_cases in E as [(lock & s3 & _ & E)|(e & El & [= <-])].
  2: { exfalso. unfold on_ops in El. destruct (OpLock_new _) as [[]]; simpl in El; naive_solver. }
  rewrite try_bind in E. destruct (on_svc_store (convert fuel pulled) s3) as [[d|e] s4]; simpl in E.
  2: { exfalso. unfold pull_failed in E. rewrite ignore_bind in E. discriminate E. }
  apply bind_cases in E as [([] & s5 & Et & E)|(e & El & [= <-])].
  2: { exfalso. unfold on_images, on_images_as in El. destruct (tag_image _ _ _) as [[]]; simpl in El; naive_solver. }
  apply tag_image_tagged in Et. rewrite ignore_bind, try_bind in E.
  set (s6 := (on_ops (remove lock) s5).2) in *.
  assert (tagged (pq_image_ref req) s6) as H6' by by apply keeps_tagged_ops.
  assert (keeps (tagged (pq_image_ref req)) (evaluate_pulled policy_engine (pq_image_ref req) d)) as Hk.
  { pose proof (@keeps_tagged_store). unfold evaluate_pulled, decide_policy. keeps_solve. }
  apply Hk in H6'. destruct (evaluate_pulled _ _ _ s6) as [[[]|e] s7]; simpl in E, H6'.
  - rewrite get_bind in E. discriminate E.
  - injection E as _ <-. destruct H6' as [Hw Ht]. by split.
Qed.

End run.
