(* ===== verification/Cri.v ===== *)
(** * The Kubernetes shim: [cri/pullrun-cri/]

    The shim answers the kubelet's Container Runtime Interface with workloads of the
    daemon: a pod is one workload, each of its containers another one.  Its own state is
    the tables of pods and containers with a JSON file for each record
    ([filestore.go]).  Requests are handled one at a time; the daemon, the clock and the
    random source are an interface. *)

From stdpp Require Import base gmap strings list pretty sorting.
From Stdlib Require Import ZArith Ascii SpecFloat.
From S2P Require Import Prelude Strs Utf8 Crates Node Policy Secrets HostFs Fs Store Puller Convert Container Kernel Exec Workload Images Archive Service.
From S2P Require Sync.

(** ** Records *)

(** A time is its nanoseconds since 1970; states are the numbers of the protocol. *)
Definition SANDBOX_READY : Z := 0.
Definition SANDBOX_NOTREADY : Z := 1.
Definition CONTAINER_CREATED : Z := 0.
Definition CONTAINER_RUNNING : Z := 1.
Definition CONTAINER_EXITED : Z := 2.
Definition CONTAINER_UNKNOWN : Z := 3.

(** [time.Time{}]. *)
Definition zero_time : Z := -62135596800 * 1000000000.

Record sandboxRecord := MkSandbox {
  sb_id : string;
  sb_pullrun_id : string;
  sb_namespace : string;
  sb_name : string;
  sb_created_at : Z;
  sb_state : Z;
  sb_internal_ip : string;
  sb_runtime_class : string;
  sb_bridge_name : string;
  sb_host_network : bool;
  sb_dns : option DnsConfig;
}.

Record containerRecord := MkContainer {
  ct_id : string;
  ct_sandbox_id : string;
  ct_pullrun_id : string;
  ct_name : string;
  ct_image : string;
  ct_image_ref : string;
  ct_created_at : Z;
  ct_started_at : Z;
  ct_state : Z;
  ct_exit_code : Z;
}.

Definition set_sandbox (state : Z) (ip : string) (r : sandboxRecord) : sandboxRecord :=
  MkSandbox (sb_id r) (sb_pullrun_id r) (sb_namespace r) (sb_name r) (sb_created_at r) state ip (sb_runtime_class r)
    (sb_bridge_name r) (sb_host_network r) (sb_dns r).

Definition set_container (state started code : Z) (r : containerRecord) : containerRecord :=
  MkContainer (ct_id r) (ct_sandbox_id r) (ct_pullrun_id r) (ct_name r) (ct_image r) (ct_image_ref r) (ct_created_at r)
    started state code.

(** Stopped by the shim: 137 is the code of SIGKILL. *)
Definition killed (r : containerRecord) : containerRecord :=
  set_container CONTAINER_EXITED (ct_started_at r)
    (if decide (ct_exit_code r = 0)%Z then 137%Z else ct_exit_code r) r.

(** [sandboxCheckpoint]: the record with the DNS settings flat.  The fields of
    [containerCheckpoint] are those of the record. *)
Record sandboxCheckpoint := MkSandboxCheckpoint {
  cp_record : sandboxRecord;
  cp_dns_servers : list string;
  cp_dns_searches : list string;
  cp_dns_options : list string;
}.

(** encoding/json on the checkpoints; the settings inside [cp_record] are not written. *)
Class CriJson := {
  sandbox_marshal : sandboxCheckpoint → option bytes;
  sandbox_unmarshal : bytes → option sandboxCheckpoint;
  container_marshal : containerRecord → option bytes;
  container_unmarshal : bytes → option containerRecord;
}.

Definition without_dns (r : sandboxRecord) : sandboxRecord :=
  MkSandbox (sb_id r) (sb_pullrun_id r) (sb_namespace r) (sb_name r) (sb_created_at r) (sb_state r) (sb_internal_ip r)
    (sb_runtime_class r) (sb_bridge_name r) (sb_host_network r) None.

Definition with_dns (d : DnsConfig) (r : sandboxRecord) : sandboxRecord :=
  MkSandbox (sb_id r) (sb_pullrun_id r) (sb_namespace r) (sb_name r) (sb_created_at r) (sb_state r) (sb_internal_ip r)
    (sb_runtime_class r) (sb_bridge_name r) (sb_host_network r) (Some d).

Definition to_checkpoint (r : sandboxRecord) : sandboxCheckpoint :=
  let d := default (MkDns [] [] []) (sb_dns r) in
  MkSandboxCheckpoint (without_dns r) (nameservers d) (searches d) (dns_options d).

Definition of_checkpoint (cp : sandboxCheckpoint) : sandboxRecord :=
  with_dns (MkDns (cp_dns_servers cp) (cp_dns_searches cp) (cp_dns_options cp)) (cp_record cp).

(** Years 0 to 9999. *)
Definition go_time (t : Z) : Prop := (-62167219200 * 1000000000 ≤ t < 253402300800 * 1000000000)%Z.

Class CriJsonLaws `{CriJson} : Prop := {
  sandbox_marshal_total cp : go_time (sb_created_at (cp_record cp)) → is_Some (sandbox_marshal cp);
  sandbox_json cp b : sb_dns (cp_record cp) = None → sandbox_marshal cp = Some b → sandbox_unmarshal b = Some cp;
  container_marshal_total r : go_time (ct_created_at r) → go_time (ct_started_at r) → is_Some (container_marshal r);
  container_json r b : container_marshal r = Some b → container_unmarshal b = Some r;
}.

(** ** The daemon *)

Record ImageInfo := MkImageInfo { ii_image_ref : string; ii_root_digest : string; ii_size_bytes : Z }.

Record StoreInfo := MkStoreInfo { si_mountpoint : string; si_used_bytes : Z; si_total_nodes : Z }.

(** [pullrunruntime.RuntimeClient]: [None] is an error. *)
Class RuntimeClient (R : Type) := {
  HasImage : string → R → option (bool * string) * R;
  rpc_PullImage : string → string → R → option string * R;
  RunWorkload : RunRequest → R → option RunResponse * R;
  StopWorkload : string → R → option unit * R;
  GetWorkload : string → R → option WorkloadStatus * R;
  ListWorkloads : R → option (list WorkloadStatus) * R;
  UpdateWorkload : string → Z → Z → R → option unit * R;
  ExecInWorkload : string → list string → R → option ExecOutput * R;
  rpc_ListImages : R → option (list ImageInfo) * R;
  rpc_RemoveImage : string → R → option Z * R;
  DagStoreInfo : R → option StoreInfo * R;
}.

(** [crypto/rand] and [time.Now]. *)
Class GoHost (R : Type) := {
  rand_read : nat → R → option bytes * R;
  time_now : R → Z * R;
}.

(** The daemon runs workloads with valid ids only. *)
Class RuntimeLaws (R : Type) `{RuntimeClient R} : Prop :=
  run_valid : ∀ req r resp r', RunWorkload req r = (Some resp, r') → validate_workload_id (rq_id req) = Ok tt.

(** [rand.Read] fills the buffer and never fails. *)
Class GoHostLaws (R : Type) `{GoHost R} : Prop := {
  rand_total n r : ∃ b r', rand_read n r = (Some b, r') ∧ length b = n;
  now_time r : go_time (time_now r).1;
}.

(** The order in which Go iterates over a map. *)
Class GoMapOrder := map_order : ∀ {A : Type}, list A → list A.

Class GoMapOrderLaws `{GoMapOrder} : Prop := map_order_all : ∀ {A} (l : list A), map_order l ≡ₚ l.

(** A conversion to [uint64] of a number that it cannot represent. *)
Class GoConversion := f64_out_of_range : spec_float → Z.

(** ** The state *)

Record execSession := MkExecSession {
  xs_workload_id : string;
  xs_command : list string;
  xs_attach : bool;
  xs_created_at : Z;
}.

Record portForwardSession := MkPortForward {
  pf_workload_id : string;
  pf_target_ip : string;
  pf_port : Z;
  pf_created_at : Z;
}.

Record criServer (R : Type) := MkCri {
  sandboxes : gmap string sandboxRecord;
  containers : gmap string containerRecord;
  cri_fs : HostFs;
  sessions : gmap string (execSession + portForwardSession);
  runtime : R;
}.
Arguments MkCri {R}.
Arguments sandboxes {R}.
Arguments containers {R}.
Arguments cri_fs {R}.
Arguments sessions {R}.
Arguments runtime {R}.

(** The directory of the store, the network mode, and the port of the streaming server. *)
Record CriConfig := MkCriConfig {
  cri_root : path;
  networkMode : string;
  streaming_port : Z;
}.

Inductive CriError :=
| MissingConfig
| MissingSandboxId
| MissingImageSpec
| PullError (image : string)
| RunError
| StopError
| ExecError
| RemoveError (image : string)
| SandboxNotFound (id : string)
| SandboxNotReady (id : string) (state : Z)
| ContainerNotFound (id : string)
| StartError
| ExitedBeforeStart (id : string) (code : Z)
| UnexpectedState (id state : string)
(** A nil dereference, or the panic of a token without randomness. *)
| GoPanic.

(** ** Requests *)

(** [None] for a missing message; whether the network is the node's. *)
Record PodSandboxConfig := MkPodConfig {
  pc_uid : string;
  pc_namespace : string;
  pc_name : string;
  pc_annotations : gmap string string;
  pc_node_network : bool;
  pc_dns : option DnsConfig;
}.

Record LinuxResources := MkResources { lr_cpu_period : Z; lr_cpu_quota : Z; lr_memory_limit : Z }.

Inductive ProfileType := RuntimeDefault | Unconfined | Localhost.

Record SecurityContext := MkSecurity {
  sc_privileged : bool;
  sc_readonly_rootfs : bool;
  sc_no_new_privs : bool;
  sc_seccomp : option ProfileType;
}.

Record CriMount := MkCriMount { cm_host_path : string; cm_container_path : string; cm_readonly : bool }.

Record ContainerConfig := MkContainerConfig {
  cc_name : string;
  cc_image : option string;
  cc_command : list string;
  cc_args : list string;
  cc_envs : list (string * string);
  cc_resources : option LinuxResources;
  cc_security : option SecurityContext;
  cc_mounts : list CriMount;
  cc_working_dir : string;
}.

Record SandboxFilter := MkSandboxFilter { sf_id : string; sf_state : option Z }.

(** What is said of a pod and of a container. *)
Record PodSandbox := MkPodSandbox {
  ps_id : string;
  ps_name : string;
  ps_namespace : string;
  ps_sandbox_state : Z;
  ps_created_at : Z;
  ps_runtime_handler : string;
}.

Record CriContainer := MkCriContainer {
  rc_id : string;
  rc_pod_sandbox_id : string;
  rc_name : string;
  rc_image : string;
  rc_image_ref : string;
  rc_created_at : Z;
  rc_state : Z;
}.

Record PodSandboxStatus := MkPodStatus {
  pst_id : string;
  pst_state : Z;
  pst_created_at : Z;
  pst_ip : string;
  (** Name, namespace, id and handler, of a pod that is known. *)
  pst_metadata : option (string * string * string * string);
}.

Record ContainerStatus := MkContainerStatus {
  cst_id : string;
  cst_name : string;
  cst_state : Z;
  cst_created_at : Z;
  cst_started_at : Z;
  cst_exit_code : Z;
  cst_image : string;
  cst_image_ref : string;
}.

(** ** Values *)

Definition PullrunCRIVersion : string := "1.0.0".
Definition DefaultPauseImage : string := "registry.k8s.io/pause:3.9".

(** [Time.UnixNano] and [int32(x)]. *)
Definition unix_nano (t : Z) : Z := as_i64 (t mod u64_mod).
Definition go_int32 (z : Z) : Z := let m := wrap32 z in if (m <? 2147483648)%Z then m else (m - u32_mod)%Z.

(** [strconv.ParseUint(s, 10, 64)]: no sign. *)
Definition go_parse_uint (s : string) : option Z := if starts_with s "+" then None else from_str_radix 10 u64_mod s.

Definition tail_of (n : nat) (s : string) : string := str_drop (String.length s - n) s.

Definition f64_of_int (z : Z) : spec_float := binary_normalize 53 1024 z 0 false.

(** [uint64(f)] of a number that is not negative. *)
Definition uint64_of `{GoConversion} (f : spec_float) : Z :=
  match f with
  | S754_zero _ => 0%Z
  | S754_finite false m e =>
    let z := (if 0 <=? e then Z.pos m * 2 ^ e else Z.pos m / 2 ^ (- e))%Z in
    if (z <? u64_mod)%Z then z else f64_out_of_range f
  | _ => f64_out_of_range f
  end.

(** [uint64(float64(quota) / float64(period) * 1000)]. *)
Definition millicores `{GoConversion} (r : LinuxResources) : Z :=
  if ((0 <? lr_cpu_period r) && (0 <? lr_cpu_quota r))%Z then
    uint64_of (SFmul 53 1024 (SFdiv 53 1024 (f64_of_int (lr_cpu_quota r)) (f64_of_int (lr_cpu_period r))) (f64_of_int 1000))
  else 0%Z.

Definition memory_limit (r : LinuxResources) : Z := if (0 <? lr_memory_limit r)%Z then lr_memory_limit r else 0%Z.

Definition backendForRuntimeHandler (handler : string) : string :=
  if decide (handler ∈ ["pullrun-vm"; "vm"; "firecracker"]) then "vm" else "container".

(** An annotation that is there and not empty. *)
Definition annotation (annotations : gmap string string) (key : string) : option string :=
  v ← annotations !! key; if decide (v = EmptyString) then None else Some v.

Definition runWorkloadImageFromAnnotations (annotations : gmap string string) : string :=
  default DefaultPauseImage (annotation annotations "pullrun.io/image").

Definition parseResourceAnnotations (annotations : gmap string string) : Z * Z :=
  (default 0%Z (annotation annotations "pullrun.io/cpu-millicores" ≫= go_parse_uint),
   default 0%Z (annotation annotations "pullrun.io/memory-bytes" ≫= go_parse_uint)).

Definition podBridgeName (pod_id : string) : string :=
  "pr-" +:+ (if (12 <? String.length pod_id)%nat then tail_of 12 pod_id else pod_id).

Definition containerWorkloadID (container_id : string) : string :=
  "c-" +:+ (if (20 <? String.length container_id)%nat then tail_of 20 container_id else container_id).

Definition seccompProfileFor (p : ProfileType) : string :=
  match p with
  | Unconfined => "unconfined"
  | RuntimeDefault | Localhost => EmptyString
  end.

(** The states of a workload that runs. *)
Definition live_state (state : string) : bool := bool_decide (state ∈ ["running"; "created"; "scheduled"]).

Definition matchesSandboxFilter (r : sandboxRecord) (filter : option SandboxFilter) : bool :=
  match filter with
  | None => true
  | Some f =>
    (bool_decide (sf_id f = EmptyString) || bool_decide (sf_id f = sb_id r)) &&
    match sf_state f with None => true | Some st => bool_decide (st = sb_state r) end
  end.

Definition sandboxToAPI (r : sandboxRecord) : PodSandbox :=
  MkPodSandbox (sb_id r) (sb_name r) (sb_namespace r) (sb_state r) (unix_nano (sb_created_at r)) (sb_runtime_class r).

Definition containerToAPI (r : containerRecord) : CriContainer :=
  MkCriContainer (ct_id r) (ct_sandbox_id r) (ct_name r) (ct_image r) (ct_image_ref r) (unix_nano (ct_created_at r))
    (ct_state r).

(** ** Files *)

(** [filepath.Clean] of an absolute path. *)
Definition clean_step (acc : path) (c : string) : path :=
  if decide (c = EmptyString ∨ c = ".") then acc
  else if decide (c = "..") then parent acc
  else acc ++ [c].

(** [filepath.Join(root, dir, id+".json")]. *)
Definition record_path (root : path) (dir id : string) : path :=
  foldl clean_step [] (root ++ dir :: split (id +:+ ".json") "/"%char).

(** [os.Remove]. *)
Definition go_remove (p : path) : host_eff unit := λ fs,
  match unlink p fs with
  | (Ok tt, fs) => (Ok tt, fs)
  | (Err _, fs) => rmdir p fs
  end.

(** The entries that are files with the suffix, in the order of [os.ReadDir]. *)
Definition json_files (fs : HostFs) (dir : path) : list path :=
  match (read_dir dir fs).1 with
  | Ok entries =>
    merge_sort (λ p q, str_le (file_name p) (file_name q))
      (filter (λ p, ends_with (file_name p) ".json" = true ∧ content_at fs p ≠ Some Dir) entries)
  | Err _ => []
  end.

Section shim.
Context {R : Type} `{RuntimeClient R, GoHost R, GoMapOrder, GoConversion, Hex, CriJson}.
Context (config : CriConfig).

Abbreviation cri_eff := (eff (criServer R) CriError).

Definition set_sandboxes (m : gmap string sandboxRecord) (s : criServer R) : criServer R :=
  MkCri m (containers s) (cri_fs s) (sessions s) (runtime s).
Definition set_containers (m : gmap string containerRecord) (s : criServer R) : criServer R :=
  MkCri (sandboxes s) m (cri_fs s) (sessions s) (runtime s).

Definition on_cri_fs (m : host_eff unit) : cri_eff unit := λ s,
  (Ok tt, MkCri (sandboxes s) (containers s) (m (cri_fs s)).2 (sessions s) (runtime s)).

(** A call of the daemon, or of the host. *)
Definition call {A} (m : R → A * R) : cri_eff A := λ s,
  let '(a, r) := m (runtime s) in (Ok a, MkCri (sandboxes s) (containers s) (cri_fs s) (sessions s) r).

Definition call_or {A} (e : CriError) (m : R → option A * R) : cri_eff A :=
  o ← call m; lift_result (ok_or o e).

(** *** [fileStore] *)

Definition load_sandbox (fs : HostFs) (m : gmap string sandboxRecord) (p : path) : gmap string sandboxRecord :=
  match (data ← ok (read_host p fs).1; sandbox_unmarshal data) with
  | Some cp => <[sb_id (cp_record cp) := of_checkpoint cp]> m
  | None => m
  end.

Definition load_container (fs : HostFs) (m : gmap string containerRecord) (p : path) : gmap string containerRecord :=
  match (data ← ok (read_host p fs).1; container_unmarshal data) with
  | Some r => <[ct_id r := r]> m
  | None => m
  end.

Definition sandbox_dir : path := cri_root config ++ ["sandboxes"].
Definition container_dir : path := cri_root config ++ ["containers"].

Definition loadAll (fs : HostFs) : gmap string sandboxRecord * gmap string containerRecord :=
  (foldl (load_sandbox fs) ∅ (json_files fs sandbox_dir), foldl (load_container fs) ∅ (json_files fs container_dir)).

Definition newFileStore (fs : HostFs) (r : R) : criServer R :=
  let fs := (create_dir_all container_dir (create_dir_all sandbox_dir fs).2).2 in
  MkCri (loadAll fs).1 (loadAll fs).2 fs ∅ r.

Definition writeSandbox (r : sandboxRecord) : cri_eff unit :=
  match sandbox_marshal (to_checkpoint r) with
  | Some data => on_cri_fs (write_host (record_path (cri_root config) "sandboxes" (sb_id r)) data)
  | None => mret tt
  end.

Definition writeContainer (r : containerRecord) : cri_eff unit :=
  match container_marshal r with
  | Some data => on_cri_fs (write_host (record_path (cri_root config) "containers" (ct_id r)) data)
  | None => mret tt
  end.

Definition putSandbox (r : sandboxRecord) : cri_eff unit :=
  modify_world (λ s, set_sandboxes (<[sb_id r := r]> (sandboxes s)) s) ;; writeSandbox r.

Definition putContainer (r : containerRecord) : cri_eff unit :=
  modify_world (λ s, set_containers (<[ct_id r := r]> (containers s)) s) ;; writeContainer r.

Definition removeContainer (id : string) : cri_eff unit :=
  modify_world (λ s, set_containers (delete id (containers s)) s) ;;
  on_cri_fs (go_remove (record_path (cri_root config) "containers" id)).

Definition allContainersForSandbox (id : string) (s : criServer R) : list (string * containerRecord) :=
  filter (λ kv, ct_sandbox_id kv.2 = id) (map_order (map_to_list (containers s))).

Definition removeSandbox (id : string) : cri_eff unit :=
  modify_world (λ s, set_sandboxes (delete id (sandboxes s)) s) ;;
  on_cri_fs (go_remove (record_path (cri_root config) "sandboxes" id)) ;;
  s ← get_world;
  for_each (λ kv, removeContainer kv.1) (allContainersForSandbox id s).

Definition listSandboxes (filter : option SandboxFilter) (s : criServer R) : list PodSandbox :=
  sandboxToAPI <$> List.filter (λ r, matchesSandboxFilter r filter) (map_order (map_to_list (sandboxes s))).*2.

(** The filter looks at the pod only. *)
Definition listContainers (pod_sandbox_id : string) (s : criServer R) : list CriContainer :=
  containerToAPI <$>
    List.filter (λ r, bool_decide (pod_sandbox_id = EmptyString) || bool_decide (ct_sandbox_id r = pod_sandbox_id))
      (map_order (map_to_list (containers s))).*2.

(** The change of a record that the table shares, which is not written. *)
Definition touch_sandbox (id : string) (f : sandboxRecord → sandboxRecord) : cri_eff unit :=
  modify_world (λ s, set_sandboxes (alter f id (sandboxes s)) s).
Definition touch_container (id : string) (f : containerRecord → containerRecord) : cri_eff unit :=
  modify_world (λ s, set_containers (alter f id (containers s)) s).

(** *** Start-up *)

Definition reconcileStartup : cri_eff unit :=
  o ← call ListWorkloads;
  match o with
  | None => mret tt
  | Some ws =>
    let alive : gset string := list_to_set (wst_id <$> filter (λ w, live_state (wst_state w) = true) ws) in
    modify_world (λ s, set_sandboxes
      ((λ r, if decide (sb_pullrun_id r ∈ alive) then r else set_sandbox SANDBOX_NOTREADY EmptyString r) <$> sandboxes s) s) ;;
    modify_world (λ s, set_containers
      ((λ r, if decide (ct_pullrun_id r ∈ alive) then r else killed r) <$> containers s) s)
  end.

(** *** Pods *)

Definition ensureImage (image_ref registry : string) : cri_eff string :=
  o ← call (HasImage image_ref);
  match o with
  | Some (true, root_digest) =>
    if decide (root_digest = EmptyString) then call_or (PullError image_ref) (rpc_PullImage image_ref registry)
    else mret root_digest
  | _ => call_or (PullError image_ref) (rpc_PullImage image_ref registry)
  end.

Definition warmUpPauseImage : cri_eff unit :=
  o ← call (HasImage DefaultPauseImage);
  match o with
  | Some (true, _) => mret tt
  | _ => ignore_eff (ensureImage DefaultPauseImage EmptyString)
  end.

(** A request with the fields that the shim sets. *)
Definition run_request (id root_digest backend net_mode : string) (cpu mem : Z) (bridge_name : string)
    (dns : option DnsConfig) : RunRequest :=
  MkRunRequest id root_digest backend [] ∅ cpu mem net_mode [] EmptyString EmptyString bridge_name [] None 0 [] []
    false false false EmptyString [] dns.

Definition RunPodSandbox (req : option PodSandboxConfig) (handler : string) : cri_eff string :=
  match req with
  | None => throw MissingConfig
  | Some cfg =>
    let image := runWorkloadImageFromAnnotations (pc_annotations cfg) in
    let backend := backendForRuntimeHandler handler in
    let net_mode :=
      if pc_node_network cfg then "host"
      else if decide (networkMode config = EmptyString) then "isolated" else networkMode config in
    let '(cpu, mem) := parseResourceAnnotations (pc_annotations cfg) in
    root_digest ← ensureImage image EmptyString;
    let bridge_name := if decide (net_mode = "bridge") then podBridgeName (pc_uid cfg) else EmptyString in
    let dns := Some (default (MkDns [] [] []) (pc_dns cfg)) in
    resp ← call_or RunError (RunWorkload (run_request (pc_uid cfg) root_digest backend net_mode cpu mem bridge_name dns));
    now ← call time_now;
    putSandbox (MkSandbox (pc_uid cfg) (rr_id resp) (pc_namespace cfg) (pc_name cfg) now SANDBOX_READY
                  (rr_internal_ip resp) handler bridge_name (pc_node_network cfg) dns) ;;
    mret (pc_uid cfg)
  end.

Definition StopPodSandbox (id : string) : cri_eff unit :=
  s ← get_world;
  for_each (λ kv,
    call (StopWorkload (ct_pullrun_id kv.2)) ;;
    touch_container kv.1 killed) (allContainersForSandbox id s) ;;
  call_or StopError (StopWorkload id) ;;
  touch_sandbox id (λ r, set_sandbox SANDBOX_NOTREADY (sb_internal_ip r) r).

Definition RemovePodSandbox (id : string) : cri_eff unit :=
  call (StopWorkload id) ;;
  removeSandbox id.

Definition PodSandboxStatus_ (id : string) : cri_eff PodSandboxStatus :=
  s ← get_world;
  let rec := sandboxes s !! id in
  o ← call (GetWorkload id);
  let live :=
    match o with
    | Some wl => if live_state (wst_state wl) then SANDBOX_READY else SANDBOX_NOTREADY
    | None => SANDBOX_NOTREADY
    end in
  let ip :=
    match o with
    | Some wl => if decide (wst_internal_ip wl = EmptyString) then from_option sb_internal_ip EmptyString rec else wst_internal_ip wl
    | None => from_option sb_internal_ip EmptyString rec
    end in
  touch_sandbox id (set_sandbox live ip) ;;
  mret (MkPodStatus id live (from_option (λ r, unix_nano (sb_created_at r)) 0%Z rec) ip
          ((λ r, (sb_name r, sb_namespace r, sb_id r, sb_runtime_class r)) <$> rec)).

Definition ListPodSandbox (filter : option SandboxFilter) : cri_eff (list PodSandbox) :=
  s ← get_world; mret (listSandboxes filter s).

(** Whether the runtime and the network are ready. *)
Definition Status_ : cri_eff (bool * bool) :=
  o ← call ListWorkloads;
  let ready := match o with Some _ => true | None => false end in
  mret (ready, ready).

(** *** Containers *)

(** [newContainerID]. *)
Definition newContainerID : cri_eff string :=
  o ← call (rand_read 12);
  match o with
  | Some b => mret (hex_encode b)
  | None => now ← call time_now; mret ("pullrun-" +:+ pretty (unix_nano now))
  end.

Definition container_mount (m : CriMount) : Mount :=
  MkMount "bind" (cm_host_path m) (cm_container_path m)
    (if cm_readonly m then ["rbind"; "rprivate"; "ro"] else ["rbind"; "rprivate"]).

Definition runRequestForContainer (cid : string) (cfg : ContainerConfig) (sandbox : sandboxRecord) (root_digest : string)
    : RunRequest :=
  let backend := backendForRuntimeHandler (sb_runtime_class sandbox) in
  let '(net_mode, bridge_name) :=
    if decide (backend = "vm") then ("bridge", sb_bridge_name sandbox)
    else ("container:" +:+ sb_pullrun_id sandbox, EmptyString) in
  let net_mode := if sb_host_network sandbox then "host" else net_mode in
  let sc := default (MkSecurity false false false None) (cc_security cfg) in
  MkRunRequest (containerWorkloadID cid) root_digest backend (cc_command cfg ++ cc_args cfg)
    (foldl (λ m e, <[e.1 := e.2]> m) ∅ (cc_envs cfg)) (from_option millicores 0%Z (cc_resources cfg))
    (from_option memory_limit 0%Z (cc_resources cfg)) net_mode [] EmptyString (cc_working_dir cfg) bridge_name
    (container_mount <$> cc_mounts cfg) None 0 [] [] (sc_privileged sc) (sc_readonly_rootfs sc) (sc_no_new_privs sc)
    (from_option seccompProfileFor EmptyString (sc_seccomp sc)) [] (sb_dns sandbox).

Definition CreateContainer (pod_sandbox_id : string) (req : option ContainerConfig) : cri_eff string :=
  if decide (pod_sandbox_id = EmptyString) then throw MissingSandboxId
  else
    match req with
    | None => throw MissingConfig
    | Some cfg =>
      s ← get_world;
      sandbox ← lift_result (ok_or (sandboxes s !! pod_sandbox_id) (SandboxNotFound pod_sandbox_id));
      if decide (sb_state sandbox = SANDBOX_READY) then
        image ← lift_result (ok_or (cc_image cfg) GoPanic);
        cid ← newContainerID;
        root_digest ← ensureImage image EmptyString;
        resp ← call_or RunError (RunWorkload (runRequestForContainer cid cfg sandbox root_digest));
        now ← call time_now;
        putContainer (MkContainer cid pod_sandbox_id (rr_id resp) (cc_name cfg) image root_digest now zero_time
                        CONTAINER_CREATED 0) ;;
        mret cid
      else throw (SandboxNotReady pod_sandbox_id (sb_state sandbox))
    end.

Definition find_container (id : string) : cri_eff containerRecord :=
  s ← get_world; lift_result (ok_or (containers s !! id) (ContainerNotFound id)).

Definition StartContainer (id : string) : cri_eff unit :=
  rec ← find_container id;
  wl ← call_or StartError (GetWorkload (ct_pullrun_id rec));
  if live_state (wst_state wl) then
    now ← call time_now;
    putContainer (set_container CONTAINER_RUNNING now 0 rec)
  else if decide (wst_state wl ∈ ["exited"; "stopped"]) then throw (ExitedBeforeStart id (wst_exit_code wl))
  else throw (UnexpectedState id (wst_state wl)).

Definition StopContainer (id : string) : cri_eff unit :=
  rec ← find_container id;
  if decide (ct_state rec = CONTAINER_EXITED ∨ ct_state rec = CONTAINER_UNKNOWN) then mret tt
  else
    call_or StopError (StopWorkload (ct_pullrun_id rec)) ;;
    putContainer (killed rec).

Definition RemoveContainer (id : string) : cri_eff unit :=
  s ← get_world;
  match containers s !! id with
  | Some rec =>
    if decide (ct_state rec = CONTAINER_RUNNING) then call (StopWorkload (ct_pullrun_id rec)) ;; mret tt else mret tt
  | None => mret tt
  end ;;
  removeContainer id.

(** The state that the workload's says. *)
Definition live_container (wl : WorkloadStatus) (exit_code : Z) : Z * Z :=
  if decide (wst_state wl ∈ ["created"; "scheduled"]) then (CONTAINER_CREATED, exit_code)
  else if decide (wst_state wl = "running") then (CONTAINER_RUNNING, exit_code)
  else if decide (wst_state wl ∈ ["exited"; "stopped"]) then (CONTAINER_EXITED, go_int32 (wst_exit_code wl))
  else (CONTAINER_UNKNOWN, exit_code).

Definition ContainerStatus_ (id : string) : cri_eff ContainerStatus :=
  rec ← find_container id;
  o ← call (GetWorkload (ct_pullrun_id rec));
  let '(state, exit_code) :=
    match o with Some wl => live_container wl (ct_exit_code rec) | None => (ct_state rec, ct_exit_code rec) end in
  let started_at := unix_nano (ct_started_at rec) in
  mret (MkContainerStatus (ct_id rec) (ct_name rec) state (unix_nano (ct_created_at rec))
          (if (0 <? started_at)%Z then started_at else 0%Z)
          (if decide (state = CONTAINER_EXITED) then exit_code else 0%Z) (ct_image rec) (ct_image_ref rec)).

Definition ListContainers (pod_sandbox_id : string) : cri_eff (list CriContainer) :=
  s ← get_world; mret (listContainers pod_sandbox_id s).

Definition UpdateContainerResources (id : string) (linux : option LinuxResources) : cri_eff unit :=
  rec ← find_container id;
  call (UpdateWorkload (ct_pullrun_id rec) (from_option millicores 0%Z linux) (from_option memory_limit 0%Z linux)) ;;
  mret tt.

Definition ExecSync (id : string) (cmd : list string) : cri_eff ExecOutput :=
  rec ← find_container id;
  call_or ExecError (ExecInWorkload (ct_pullrun_id rec) cmd).

(** *** Sessions *)

Definition generateToken : cri_eff string :=
  b ← call_or GoPanic (rand_read 16); mret (hex_encode b).

Definition add_session (token : string) (x : execSession + portForwardSession) : cri_eff unit :=
  modify_world (λ s, MkCri (sandboxes s) (containers s) (cri_fs s) (<[token := x]> (sessions s)) (runtime s)).

(** [time.AfterFunc], five minutes later. *)
Definition expire_session (token : string) : cri_eff unit :=
  modify_world (λ s, MkCri (sandboxes s) (containers s) (cri_fs s) (delete token (sessions s)) (runtime s)).

Definition session_url (kind token : string) : string :=
  "http://127.0.0.1:" +:+ pretty (streaming_port config) +:+ "/" +:+ kind +:+ "/" +:+ token.

Definition newSession (workload_id : string) (command : list string) (attach : bool) : cri_eff string :=
  token ← generateToken;
  now ← call time_now;
  add_session token (inl (MkExecSession workload_id command attach now)) ;;
  mret (session_url (if attach then "attach" else "exec") token).

Definition newPortForwardSession (workload_id target_ip : string) (port : Z) : cri_eff string :=
  token ← generateToken;
  now ← call time_now;
  add_session token (inr (MkPortForward workload_id target_ip port now)) ;;
  mret (session_url "port-forward" token).

Definition PortForward (id : string) (ports : list Z) : cri_eff string :=
  s ← get_world;
  sandbox ← lift_result (ok_or (sandboxes s !! id) (SandboxNotFound id));
  newPortForwardSession (sb_pullrun_id sandbox) (sb_internal_ip sandbox) (default 0%Z (head ports)).

Definition Exec (id : string) (cmd : list string) : cri_eff string :=
  rec ← find_container id; newSession (ct_pullrun_id rec) cmd false.

Definition Attach (id : string) : cri_eff string :=
  rec ← find_container id; newSession (ct_pullrun_id rec) [] true.

(** *** Images *)

Definition PullImage (image : option string) : cri_eff string :=
  match image with
  | None => throw MissingImageSpec
  | Some image => call_or (PullError image) (rpc_PullImage image EmptyString)
  end.

(** The id and the reference, or nothing. *)
Definition ImageStatus (image : option string) : cri_eff (option (string * string)) :=
  match image with
  | None => throw MissingImageSpec
  | Some image =>
    o ← call (HasImage image);
    mret match o with
         | Some (true, root_digest) => Some (root_digest, image)
         | _ => None
         end
  end.

(** The id, the reference and the size. *)
Definition ListImages : cri_eff (list (string * string * Z)) :=
  o ← call rpc_ListImages;
  mret match o with
       | Some l => (λ i, (ii_root_digest i, ii_image_ref i, if (0 <? ii_size_bytes i)%Z then ii_size_bytes i else 0%Z)) <$> l
       | None => []
       end.

Definition RemoveImage (image : option string) : cri_eff unit :=
  image ← lift_result (ok_or image GoPanic);
  call_or (RemoveError image) (rpc_RemoveImage image) ;;
  mret tt.

(** The mount point, the bytes and the nodes, at a time. *)
Definition ImageFsInfo : cri_eff (string * Z * Z * Z) :=
  o ← call DagStoreInfo;
  now ← call time_now;
  mret match o with
       | Some i => (si_mountpoint i, Z.max 0 (si_used_bytes i), Z.max 0 (si_total_nodes i), unix_nano now)
       | None => ("/var/lib/pullrun/dag", 0%Z, 0%Z, unix_nano now)
       end.

End shim.

(** ** Serving *)

Inductive request :=
| ReqRunPodSandbox (req : option PodSandboxConfig) (handler : string)
| ReqStopPodSandbox (id : string)
| ReqRemovePodSandbox (id : string)
| ReqPodSandboxStatus (id : string)
| ReqCreateContainer (pod_sandbox_id : string) (req : option ContainerConfig)
| ReqStartContainer (id : string)
| ReqStopContainer (id : string)
| ReqRemoveContainer (id : string)
| ReqContainerStatus (id : string)
| ReqUpdateContainerResources (id : string) (linux : option LinuxResources)
| ReqExecSync (id : string) (cmd : list string)
| ReqExec (id : string) (cmd : list string)
| ReqAttach (id : string)
| ReqPortForward (id : string) (ports : list Z)
| ReqPullImage (image : option string)
| ReqRemoveImage (image : option string).

Section serve.
Context {R : Type} `{RuntimeClient R, GoHost R, GoMapOrder, GoConversion, Hex, CriJson}.
Context (config : CriConfig).

(** The state after a request, whatever its answer. *)
Definition serve (req : request) (s : criServer R) : criServer R :=
  match req with
  | ReqRunPodSandbox req handler => (RunPodSandbox config req handler s).2
  | ReqStopPodSandbox id => (StopPodSandbox id s).2
  | ReqRemovePodSandbox id => (RemovePodSandbox config id s).2
  | ReqPodSandboxStatus id => (PodSandboxStatus_ id s).2
  | ReqCreateContainer id req => (CreateContainer config id req s).2
  | ReqStartContainer id => (StartContainer config id s).2
  | ReqStopContainer id => (StopContainer config id s).2
  | ReqRemoveContainer id => (RemoveContainer config id s).2
  | ReqContainerStatus id => (ContainerStatus_ id s).2
  | ReqUpdateContainerResources id linux => (UpdateContainerResources id linux s).2
  | ReqExecSync id cmd => (ExecSync id cmd s).2
  | ReqExec id cmd => (Exec config id cmd s).2
  | ReqAttach id => (Attach config id s).2
  | ReqPortForward id ports => (PortForward config id ports s).2
  | ReqPullImage image => (PullImage image s).2
  | ReqRemoveImage image => (RemoveImage image s).2
  end.

Definition serve_all (reqs : list request) (s : criServer R) : criServer R := foldl (λ s req, serve req s) s reqs.

(** The shim starts: the store is loaded and compared with the daemon. *)
Definition start_shim (fs : HostFs) (r : R) : criServer R := (reconcileStartup (newFileStore config fs r)).2.

End serve.

(** ** The daemon as the shim's runtime *)

Section daemon.
Context {H G : Type} `{Processes H, HttpClient H, Sync.PeerNet H, Sync.Clock H, TempDir H, DefaultHasher, Hex, Sha2}.
Context `{Rkyv DagNode, EntryJson, JsonText, OciJson, GzDecoder, Puller.Base64, LayerTar, ZstdDecoder, StateJson, Lowercase}.
Context `{Aes256Gcm, OsRng, CharClass, Ed25519, Rkyv SignatureBlob, Rkyv SbomBlob}.
Context (config : ServiceConfig) (router : ExecutorRouter H) (policy_engine : option PolicyEngine).
Context (error_text : SvcError → string) (fuel : nat).

(** [list_images] of [service.rs], without the times of the files. *)
Definition image_info (kv : string * string) : eff (RuntimeService H) SvcError (list ImageInfo) :=
  match from_hex kv.1 with
  | Err _ => mret []
  | Ok d =>
    r ← try_eff (on_svc_store (compute_image_size d));
    mret [MkImageInfo kv.2 kv.1 (match r with Ok n => as_i64 n | Err _ => 0%Z end)]
  end.

Definition list_images : eff (RuntimeService H) SvcError (list ImageInfo) :=
  tags ← on_images read_tags;
  l ← map_eff image_info (map_to_list tags);
  mret (concat l).

(** [has_image] of [service.rs] is not implemented. *)
Definition has_image {A} (image_ref : string) (s : RuntimeService H) : option A * RuntimeService H := (None, s).

(** A handler as a call: beside the daemon stands the shim's own host. *)
Definition handled {E A} (m : eff (RuntimeService H) E A) (sg : RuntimeService H * G) : option A * (RuntimeService H * G) :=
  let '(r, s) := m sg.1 in (ok r, (s, sg.2)).

Definition as_unit {A} (o : option A) : option unit := (λ _, tt) <$> o.

Definition daemon_client : RuntimeClient (RuntimeService H * G) := {|
  HasImage image_ref sg := let '(o, s) := has_image image_ref sg.1 in (o, (s, sg.2));
  rpc_PullImage image_ref registry sg :=
    let '(o, sg) := handled (pull_image config policy_engine error_text fuel
                               (MkPullRequest image_ref registry EmptyString EmptyString EmptyString EmptyString)) sg in
    (pp_root_digest <$> o, sg);
  RunWorkload req := handled (run_workload config router policy_engine error_text fuel req);
  StopWorkload id sg := let '(o, sg) := handled (stop_workload config router id) sg in (as_unit o, sg);
  GetWorkload id := handled (get_workload id);
  ListWorkloads := handled list_workloads;
  UpdateWorkload id cpu mem sg := let '(o, sg) := handled (update_workload router id cpu mem) sg in (as_unit o, sg);
  ExecInWorkload id cmd := handled (exec_in_workload router id cmd);
  rpc_ListImages := handled list_images;
  rpc_RemoveImage id := handled (on_images (remove_image id));
  DagStoreInfo sg := (Some (let '(mount, n) := dag_store_info (sv_images sg.1) in MkStoreInfo mount n 0), sg);
|}.

End daemon.
