(* ===== verification/CriSpec.v ===== *)
(** * The shim's tables survive a restart: theorems about [Cri.v]

    Each table agrees with its directory: a record has a file with the same record, up to
    the state, which some handlers change in memory only. *)

From stdpp Require Import base gmap strings list sorting.
From Stdlib Require Import ZArith Ascii Lia.
From S2P Require Import Prelude Strs Utf8 Crates Node Policy Fs Store HostFs Convert Materialize UnpackSpec LayerSpec Tasks.
From S2P Require Import Puller Secrets Container Kernel Exec Workload Service CheckpointSpec Cri.
From S2P Require Sync.

Lemma ends_with_split s p : ends_with s p = true ↔ ∃ t, s = t +:+ p.
Proof.
  induction s as [|a s IH]; cbn [ends_with].
  - rewrite orb_false_r, bool_decide_eq_true. split; [intros <-; by exists EmptyString|].
    intros [[|] E]; [done|]. by apply (f_equal String.length) in E.
  - rewrite orb_true_iff, bool_decide_eq_true, IH. split.
    + intros [<-|[t ->]]; [by exists EmptyString|by exists (String a t)].
    + intros [[|b t] E]; [by left|right]. injection E as _ ->. by exists t.
Qed.

(** ** A table and its directory *)

Section mirror.
Context {A : Type} (key : A → string) (rel : A → A → Prop) (parse : bytes → option A).

Definition entry (dir : path) (id : string) : path := dir ++ [id +:+ ".json"].

Record mirrors (dir : path) (m : gmap string A) (fs : HostFs) : Prop := {
  mi_plain : plain_dir fs dir;
  mi_files c : content_at fs (dir ++ [c]) ≠ Some Dir;
  mi_known id r : m !! id = Some r → id ≠ EmptyString ∧
    ∃ data r', content_at fs (entry dir id) = Some (File data) ∧ parse data = Some r' ∧ rel r r' ∧ key r' = id;
  mi_unknown id : m !! id = None → content_at fs (entry dir id) = None;
}.

Lemma entry_inj dir a b : entry dir a = entry dir b → a = b.
Proof. unfold entry. intros [= E]%app_inv_head. by apply checkpoint_name_inj. Qed.

Lemma json_not_dots id : id +:+ ".json" ≠ "..".
Proof. intros E%(f_equal String.length). rewrite str_length_app in E. simpl in E. lia. Qed.

(** A change of one entry of the directory. *)
Lemma mirrors_change dir m fs fs' id c :
  mirrors dir m fs → c ≠ Some Dir → is_link c = false →
  (∀ q, content_at fs' q = if decide (q = entry dir id) then c else content_at fs q) →
  plain_dir fs' dir ∧ (∀ x, content_at fs' (dir ++ [x]) ≠ Some Dir).
Proof.
  intros [[Hp Hl] Hf _ _] Hc1 Hc2 Hq. split; [split|].
  - eapply plain_ext; [done|]. intros q k E. rewrite Hq, decide_False; [done|].
    intros ->. unfold entry in E. apply (f_equal length) in E. rewrite !length_app in E. simpl in E. lia.
  - intros x. rewrite Hq. by case_decide.
  - intros x. rewrite Hq. by case_decide.
Qed.

Lemma mirrors_write dir m fs id data r :
  mirrors dir m fs → id ≠ EmptyString → parse data = Some r → key r = id → rel r r →
  mirrors dir (<[id := r]> m) (write_host (entry dir id) data fs).2.
Proof.
  intros Hm Hid Hd Hk Hr. destruct (write_host_file fs dir data (id +:+ ".json") (mi_plain _ _ _ Hm))
    as [_ Hq]; [apply json_not_dots|apply Hm|]. fold (entry dir id) in Hq.
  destruct (mirrors_change dir m fs (write_host (entry dir id) data fs).2 id (Some (File data))) as [Hp Hf]; [done..|].
  constructor; [done..| |].
  - intros k r'. rewrite lookup_insert_Some. intros [[<- <-]|[Hne Hk']].
    + split; [done|]. exists data, r. by rewrite Hq, decide_True.
    + rewrite Hq, decide_False by (by intros ?%entry_inj). by apply Hm.
  - intros k [Hk' Hne]%lookup_insert_None. rewrite Hq, decide_False by (by intros ?%entry_inj). by apply Hm.
Qed.

Lemma go_remove_entry dir m fs id :
  mirrors dir m fs → ∀ q,
  content_at (go_remove (entry dir id) fs).2 q = if decide (q = entry dir id) then None else content_at fs q.
Proof.
  intros Hm q. destruct (mi_plain _ _ _ Hm) as [Hp Hl]. pose proof (mi_files _ _ _ Hm (id +:+ ".json")) as Hf.
  unfold go_remove, entry in *. specialize (Hl (id +:+ ".json")).
  assert (Hres : resolve false (dir ++ [id +:+ ".json"]) fs = (Ok (dir ++ [id +:+ ".json"]), fs))
    by (by apply resolve_child; [|apply json_not_dots|]).
  unfold unlink. unfold mbind at 1, eff_bind at 1. rewrite Hres. unfold mbind at 1, eff_bind at 1. cbn.
  destruct (content_at fs (dir ++ [id +:+ ".json"])) as [[]|] eqn:E; [done| |done|]; cbn.
  - unfold content_at. destruct q as [|x q]; [by case_decide; [destruct dir|]|]. rewrite (decide_False (P := _ = [])) by done.
    case_decide as Hq; [rewrite <- Hq; by rewrite lookup_delete_eq|by rewrite lookup_delete_ne].
  - unfold rmdir. unfold mbind at 1, eff_bind at 1. rewrite Hres. cbn. unfold mbind, eff_bind. cbn. rewrite E. cbn.
    case_decide; [by subst|done].
Qed.

Lemma mirrors_remove dir m fs id :
  mirrors dir m fs → mirrors dir (delete id m) (go_remove (entry dir id) fs).2.
Proof.
  intros Hm. pose proof (go_remove_entry dir m fs id Hm) as Hq.
  destruct (mirrors_change dir m fs (go_remove (entry dir id) fs).2 id None) as [Hp Hf]; [done..|].
  constructor; [done..| |].
  - intros k r [Hne Hk]%lookup_delete_Some. rewrite Hq, decide_False by (by intros ?%entry_inj). by apply Hm.
  - intros k. rewrite Hq. case_decide as E; [done|]. rewrite lookup_delete_ne; [apply Hm|]. congruence.
Qed.

(** A change of another directory beside it. *)
Lemma mirrors_beside root d d' m fs fs' id :
  mirrors (root ++ [d]) m fs → d ≠ d' →
  (∀ q, q ≠ entry (root ++ [d']) id → content_at fs' q = content_at fs q) → mirrors (root ++ [d]) m fs'.
Proof.
  intros [[Hp Hl] Hf Hk Hu] Hd Hq.
  assert (Hne : ∀ c, (root ++ [d]) ++ [c] ≠ entry (root ++ [d']) id).
  { intros c. unfold entry. intros E. apply app_inj_2 in E as [E _]; [|done]. apply app_inv_head in E. congruence. }
  constructor.
  - split.
    + eapply plain_ext; [done|]. intros q k E. apply Hq. intros ->. unfold entry in E.
      apply (f_equal length) in E. rewrite !length_app in E. simpl in E. lia.
    + intros c. by rewrite Hq.
  - intros c. by rewrite Hq.
  - intros x r Hx. unfold entry at 1. rewrite Hq by done. by apply Hk.
  - intros x Hx. unfold entry at 1. rewrite Hq by done. by apply Hu.
Qed.

Lemma mirrors_alter dir m fs id f :
  (∀ r r', rel r r' → rel (f r) r') → mirrors dir m fs → mirrors dir (alter f id m) fs.
Proof.
  intros Hf [Hp Hd Hk Hu]. constructor; [done..| |].
  - intros x r. destruct (decide (x = id)) as [->|Hx]; [|rewrite lookup_alter_ne by done; apply Hk].
    rewrite lookup_alter_eq. destruct (m !! id) as [r0|] eqn:E; [|done]. simpl. intros [= <-].
    destruct (Hk id r0 E) as (? & data & r' & ? & ? & ? & ?). split; [done|]. exists data, r'. auto.
  - intros x. destruct (decide (x = id)) as [->|Hx]; [|rewrite lookup_alter_ne by done; apply Hu].
    rewrite lookup_alter_eq. intros E. apply Hu. by destruct (m !! id).
Qed.

(** *** Loading *)

Definition load_record (fs : HostFs) (m : gmap string A) (p : path) : gmap string A :=
  match (data ← ok (read_host p fs).1; parse data) with Some r => <[key r := r]> m | None => m end.

Definition saved (fs : HostFs) (dir : path) (id : string) : option A :=
  match content_at fs (entry dir id) with Some (File data) => parse data | _ => None end.

Section load.
Context (fs : HostFs) (dir : path) (m : gmap string A) (Hm : mirrors dir m fs).

Lemma saved_known id r : m !! id = Some r → id ≠ EmptyString ∧ ∃ r', saved fs dir id = Some r' ∧ rel r r' ∧ key r' = id.
Proof.
  intros (? & data & r' & E & ? & ? & ?)%(mi_known _ _ _ Hm). split; [done|]. exists r'. unfold saved. by rewrite E.
Qed.

Lemma load_entry id r acc : m !! id = Some r → ∃ r', saved fs dir id = Some r' ∧ load_record fs acc (entry dir id) = <[id := r']> acc.
Proof.
  intros Hr. destruct (saved_known id r Hr) as (Hid & r' & Hs & _ & Hk). exists r'. split; [done|].
  unfold load_record. unfold entry at 1. rewrite (read_entry fs dir (mi_plain _ _ _ Hm) id Hid). fold (entry dir id).
  unfold saved in Hs. destruct (content_at fs (entry dir id)) as [[]|]; try done. simpl. by rewrite Hs, Hk.
Qed.

Lemma load_entries l acc k :
  Forall (λ p, ∃ id, p = entry dir id ∧ is_Some (m !! id)) l →
  foldl (load_record fs) acc l !! k = if decide (entry dir k ∈ l) then saved fs dir k else acc !! k.
Proof.
  intros Hl. revert acc. induction Hl as [|p l (id & -> & [r Hr]) _ IH]; intros acc; simpl; [done|].
  destruct (load_entry id r acc Hr) as (r' & Hs & ->). rewrite IH.
  destruct (decide (k = id)) as [->|Hk].
  - rewrite lookup_insert_eq, (decide_True (P := _ ∈ _ :: _)) by left. by case_decide.
  - rewrite lookup_insert_ne by done. destruct (decide (entry dir k ∈ l)); [by rewrite decide_True by by right|].
    rewrite decide_False; [done|]. rewrite elem_of_cons. intros [?%entry_inj|?]; done.
Qed.

Lemma json_files_entries p : p ∈ json_files fs dir ↔ ∃ id, p = entry dir id ∧ is_Some (m !! id).
Proof.
  destruct (mi_plain _ _ _ Hm) as [Hp Hl]. unfold json_files, read_dir.
  erewrite bind_ok by (by apply resolve_plain). rewrite get_bind, plain_self by done. cbn [fst mret eff_ret].
  rewrite merge_sort_Permutation, list_elem_of_filter, list_elem_of_fmap. split.
  - intros [[He _] (q & -> & Hq)]. unfold file_name at 1 in He. rewrite last_snoc in He. cbn in He.
    apply ends_with_split in He as [id Ei]. rewrite Ei. exists id. split; [done|].
    assert (Hc : is_Some (fs !! (dir ++ [id +:+ ".json"]))).
    { apply (child_names fs dir (mi_plain _ _ _ Hm)). rewrite <- Ei. by apply list_elem_of_fmap_2. }
    destruct (m !! id) eqn:E; [done|]. apply (mi_unknown _ _ _ Hm) in E. unfold entry, content_at in E.
    rewrite decide_False in E by by destruct dir. destruct Hc as [i Hi]. by rewrite Hi in E.
  - intros (id & -> & [r Hr]). destruct (mi_known _ _ _ Hm id r Hr) as (_ & data & r' & Hc & _).
    unfold entry in *. unfold file_name at 1. rewrite last_snoc. cbn [default from_option]. split; [split|].
    + apply ends_with_split. by exists id.
    + by rewrite Hc.
    + assert (Hin : id +:+ ".json" ∈ file_name <$> children_of fs dir).
      { apply (child_names fs dir (mi_plain _ _ _ Hm)). unfold content_at in Hc. case_decide; [by destruct dir|].
        by destruct (fs !! (dir ++ [id +:+ ".json"])). }
      apply list_elem_of_fmap in Hin as (q & Hq & Hin). exists q. by rewrite <- Hq.
Qed.

Lemma load_saved k : foldl (load_record fs) ∅ (json_files fs dir) !! k = saved fs dir k.
Proof.
  rewrite load_entries by (apply Forall_forall; intros p; by rewrite json_files_entries).
  case_decide as Hin; [done|]. rewrite json_files_entries in Hin. unfold saved.
  destruct (m !! k) as [r|] eqn:E; [destruct Hin; eauto|]. by rewrite (mi_unknown _ _ _ Hm k E).
Qed.

(** What is loaded again agrees with the directory, and with the table. *)
Lemma mirrors_load : (∀ r r', rel r r' → rel r' r') → mirrors dir (foldl (load_record fs) ∅ (json_files fs dir)) fs.
Proof.
  intros Hrel. constructor; [apply Hm..| |].
  - intros id r'. rewrite load_saved. intros Hs. destruct (m !! id) as [r|] eqn:E.
    + destruct (mi_known _ _ _ Hm id r E) as (? & data & r0 & Hc & Hd & Hr & Hk). split; [done|].
      unfold saved in Hs. rewrite Hc, Hd in Hs. simplify_eq. exists data, r'. eauto.
    + unfold saved in Hs. by rewrite (mi_unknown _ _ _ Hm id E) in Hs.
  - intros id. rewrite load_saved. intros Hs. destruct (m !! id) as [r|] eqn:E; [|by apply Hm].
    destruct (saved_known id r E) as (_ & r' & Hs' & _). congruence.
Qed.

End load.
End mirror.

(** A table and the directory of another one. *)
Section beside.
Context {A B : Type} (key : A → string) (rel : A → A → Prop) (parse : bytes → option A).
Context (key' : B → string) (rel' : B → B → Prop) (parse' : bytes → option B).
Context (root : path) (d d' : string) (m : gmap string A) (m' : gmap string B) (fs : HostFs).
Context (Hm : mirrors key rel parse (root ++ [d]) m fs) (Hm' : mirrors key' rel' parse' (root ++ [d']) m' fs) (Hd : d ≠ d').

Lemma write_beside id data : mirrors key rel parse (root ++ [d]) m (write_host (entry (root ++ [d']) id) data fs).2.
Proof.
  eapply (mirrors_beside _ _ _ root d d' m fs); [done..|]. intros q Hq. unfold entry.
  destruct (write_host_file fs (root ++ [d']) data (id +:+ ".json") (mi_plain _ _ _ _ _ _ Hm'))
    as [_ Hw]; [apply json_not_dots|apply Hm'|]. rewrite Hw. by rewrite decide_False.
Qed.

Lemma remove_beside id : mirrors key rel parse (root ++ [d]) m (go_remove (entry (root ++ [d']) id) fs).2.
Proof.
  eapply (mirrors_beside _ _ _ root d d' m fs); [done..|]. intros q Hq.
  rewrite (go_remove_entry _ _ _ _ _ _ id Hm'). by rewrite decide_False.
Qed.

End beside.

(** ** The invariant *)

Definition same_pod (r r' : sandboxRecord) : Prop := set_sandbox 0 EmptyString r = set_sandbox 0 EmptyString r'.

Definition same_container (r r' : containerRecord) : Prop :=
  set_container 0 (ct_started_at r) 0 r = set_container 0 (ct_started_at r') 0 r'.

Definition no_slash (id : string) : Prop := contains_char id "/" = false.

(** The record in memory and the one in the file, which could be written again. *)
Definition pod_rel (r r' : sandboxRecord) : Prop := same_pod r r' ∧ no_slash (sb_id r') ∧ go_time (sb_created_at r').
Definition container_rel (r r' : containerRecord) : Prop :=
  same_container r r' ∧ no_slash (ct_id r') ∧ go_time (ct_created_at r') ∧ go_time (ct_started_at r').

Lemma keeps_bind_if {W E A B} (P : A → Prop) (I : W → Prop) (m : eff W E A) (f : A → eff W E B) :
  keeps I m → (∀ w a w', I w → m w = (Ok a, w') → P a) → (∀ a, P a → keeps I (f a)) → keeps I (m ≫= f).
Proof.
  intros Hm HP Hf w Hw. specialize (Hm w Hw). unfold mbind, eff_bind.
  destruct (m w) as [[a|e] w'] eqn:E1; [|done]. apply Hf; [by eapply HP|done].
Qed.

Section invariant.
Context {R : Type} `{RuntimeClient R, GoHost R, GoMapOrder, GoConversion, HexLaws, CriJson}.
Context `{!RuntimeLaws R, !GoHostLaws R, !GoMapOrderLaws, !CriJsonLaws}.
Context (config : CriConfig) (Hroot : Forall normal_name (cri_root config)).

Definition parse_sandbox (data : bytes) : option sandboxRecord := of_checkpoint <$> sandbox_unmarshal data.

Abbreviation pods_ok := (mirrors sb_id pod_rel parse_sandbox (sandbox_dir config)).
Abbreviation containers_ok := (mirrors ct_id container_rel container_unmarshal (container_dir config)).

(** Each table agrees with its directory, and every container belongs to a pod. *)
Record shim_ok (s : criServer R) : Prop := {
  ok_pods : pods_ok (sandboxes s) (cri_fs s);
  ok_containers : containers_ok (containers s) (cri_fs s);
  ok_closed id r : containers s !! id = Some r → is_Some (sandboxes s !! ct_sandbox_id r);
}.

(** *** Names of files *)

Lemma clean_normal l acc : Forall normal_name l → foldl clean_step acc l = acc ++ l.
Proof.
  intros Hl. revert acc. induction Hl as [|c l (?&?&?&?) _ IH]; intros acc; simpl; [by rewrite app_nil_r|].
  rewrite IH. unfold clean_step. rewrite !decide_False by tauto. by rewrite <- app_assoc.
Qed.

Lemma json_normal id : no_slash id → normal_name (id +:+ ".json").
Proof.
  intros Hs. split_and!; [..|by rewrite contains_char_app, Hs].
  - by destruct id.
  - by destruct id as [|a []].
  - apply json_not_dots.
Qed.

Lemma record_path_entry d id :
  normal_name d → no_slash id → record_path (cri_root config) d id = entry (cri_root config ++ [d]) id.
Proof.
  intros Hd Hid. pose proof (json_normal id Hid) as Hn. unfold record_path. rewrite split_no_sep by apply Hn.
  rewrite clean_normal; [|by rewrite Forall_app, Forall_cons, Forall_singleton].
  unfold entry. by rewrite <- app_assoc.
Qed.

Lemma sandbox_path id : no_slash id → record_path (cri_root config) "sandboxes" id = entry (sandbox_dir config) id.
Proof. by apply record_path_entry. Qed.

Lemma container_path id : no_slash id → record_path (cri_root config) "containers" id = entry (container_dir config) id.
Proof. by apply record_path_entry. Qed.

Lemma valid_no_slash id : validate_workload_id id = Ok tt → no_slash id ∧ id ≠ EmptyString.
Proof.
  intros Hv. destruct (valid_id_normal id Hv) as [(_ & _ & _ & Hs) Hne]. split; [|done].
  rewrite contains_char_app in Hs. by apply orb_false_iff in Hs as [??].
Qed.

(** *** Calls *)

Definition with_runtime (r : R) (s : criServer R) : criServer R :=
  MkCri (sandboxes s) (containers s) (cri_fs s) (sessions s) r.

Definition frames (I : criServer R → Prop) : Prop := ∀ s r, I s → I (with_runtime r s).

Lemma keeps_call {A} I (m : R → A * R) : frames I → keeps I (call m).
Proof. intros HI s Hs. unfold call. destruct (m (runtime s)) as [a r]. by apply HI. Qed.

Lemma keeps_call_or {A} I e (m : R → option A * R) : frames I → keeps I (call_or e m).
Proof. intros HI. unfold call_or. apply keeps_bind; [by apply keeps_call|]. intros o. apply keeps_lift. Qed.

Lemma call_or_ok {A} e (m : R → option A * R) s a s' : call_or e m s = (Ok a, s') → ∃ r', m (runtime s) = (Some a, r').
Proof.
  unfold call_or, call, mbind, eff_bind. destruct (m (runtime s)) as [[x|] r']; [|done].
  intros [= <- _]. by exists r'.
Qed.

Lemma keeps_ensure I image registry : frames I → keeps I (ensureImage image registry).
Proof.
  intros HI. unfold ensureImage. apply keeps_bind; [by apply keeps_call|]. intros [[[] d]|]; [|by apply keeps_call_or..].
  case_decide; [by apply keeps_call_or|]. intros s Hs. done.
Qed.

Lemma ok_frames : frames shim_ok.
Proof. intros s r [Hp Hc Hcl]. by constructor. Qed.

Lemma pod_frames id : frames (λ s, shim_ok s ∧ is_Some (sandboxes s !! id)).
Proof. intros s r [[Hp Hc Hcl] Hid]. split; [by constructor|done]. Qed.

(** *** The store *)

Lemma of_to_checkpoint r : is_Some (sb_dns r) → of_checkpoint (to_checkpoint r) = r.
Proof. intros [d Hd]. destruct r. simpl in *. subst. unfold of_checkpoint, to_checkpoint. simpl. by destruct d. Qed.

Lemma put_sandbox_ok r s :
  no_slash (sb_id r) → sb_id r ≠ EmptyString → go_time (sb_created_at r) → is_Some (sb_dns r) →
  shim_ok s → shim_ok (putSandbox config r s).2.
Proof.
  intros Hs Hne Ht Hd [Hp Hc Hcl]. unfold putSandbox, writeSandbox. rewrite modify_bind.
  destruct (sandbox_marshal_total (to_checkpoint r)) as [data Hm]; [done|]. rewrite Hm. unfold on_cri_fs. simpl.
  rewrite sandbox_path by done. constructor; simpl.
  - apply mirrors_write; [done..| | |by split_and!].
    + unfold parse_sandbox. rewrite (sandbox_json (to_checkpoint r) data) by done. cbn [fmap option_fmap option_map]. by rewrite of_to_checkpoint.
    + done.
  - by eapply write_beside.
  - intros id c Hid. destruct (Hcl id c Hid) as [x Hx]. destruct (decide (ct_sandbox_id c = sb_id r)) as [->|Hn].
    + by rewrite lookup_insert_eq.
    + rewrite lookup_insert_ne by done. by exists x.
Qed.

Lemma put_container_ok r s :
  no_slash (ct_id r) → ct_id r ≠ EmptyString → go_time (ct_created_at r) → go_time (ct_started_at r) →
  is_Some (sandboxes s !! ct_sandbox_id r) → shim_ok s → shim_ok (putContainer config r s).2.
Proof.
  intros Hs Hne Ht1 Ht2 Hpod [Hp Hc Hcl]. unfold putContainer, writeContainer. rewrite modify_bind.
  destruct (container_marshal_total r) as [data Hm]; [done..|]. rewrite Hm. unfold on_cri_fs. simpl.
  rewrite container_path by done. constructor; simpl.
  - by eapply write_beside.
  - apply mirrors_write; [done..|by eapply container_json|done|by split_and!].
  - intros id c. rewrite lookup_insert_Some. intros [[_ <-]|[_ Hid]]; [done|by eapply Hcl].
Qed.

Lemma remove_container_ok id s : no_slash id → shim_ok s → shim_ok (removeContainer config id s).2.
Proof.
  intros Hs [Hp Hc Hcl]. unfold removeContainer. rewrite modify_bind. unfold on_cri_fs. simpl.
  rewrite container_path by done. constructor; simpl.
  - by eapply remove_beside.
  - by apply mirrors_remove.
  - intros k c [_ Hk]%lookup_delete_Some. by eapply Hcl.
Qed.

(** A record of the table. *)
Lemma known_container id r s :
  shim_ok s → containers s !! id = Some r →
  ct_id r = id ∧ no_slash id ∧ id ≠ EmptyString ∧ go_time (ct_created_at r) ∧ go_time (ct_started_at r) ∧
  is_Some (sandboxes s !! ct_sandbox_id r).
Proof.
  intros [_ Hc Hcl] Hr. destruct (mi_known _ _ _ _ _ _ Hc id r Hr) as (Hne & data & r' & _ & _ & (Hs & Hn & Ht1 & Ht2) & Hk).
  unfold same_container in Hs. destruct r, r'. simpl in *. simplify_eq. split_and!; try done. by apply (Hcl _ _ Hr).
Qed.

(** *** Changes in memory *)

Lemma keeps_touch_container id f :
  (∀ r, same_container (f r) r) → keeps shim_ok (touch_container id f).
Proof.
  intros Hf. apply keeps_modify. intros s [Hp Hc Hcl]. constructor; simpl; [done| |].
  - apply mirrors_alter; [|done]. intros r r' [Hs Hr]. split; [|done]. unfold same_container in *. by rewrite (Hf r).
  - intros k c. rewrite lookup_alter_Some. intros [(<- & c0 & Hk & ->)|[_ Hk]]; [|by eapply Hcl].
    specialize (Hf c0). unfold same_container, set_container in Hf. injection Hf as _ -> _ _ _ _ _ _. by eapply Hcl.
Qed.

Lemma keeps_touch_sandbox id f : (∀ r, same_pod (f r) r) → keeps shim_ok (touch_sandbox id f).
Proof.
  intros Hf. apply keeps_modify. intros s [Hp Hc Hcl]. constructor; simpl; [|done|].
  - apply mirrors_alter; [|done]. intros r r' [Hs Hr]. split; [|done]. unfold same_pod in *. by rewrite (Hf r).
  - intros k c Hk. destruct (Hcl k c Hk) as [x Hx]. rewrite lookup_alter. case_decide; subst; rewrite ?Hx; eauto.
Qed.

(** *** Removing a pod *)

(** The containers of the removed pod are still to be removed. *)
Definition removing (todo : list string) (s : criServer R) : Prop :=
  pods_ok (sandboxes s) (cri_fs s) ∧ containers_ok (containers s) (cri_fs s) ∧
  (∀ id r, containers s !! id = Some r → is_Some (sandboxes s !! ct_sandbox_id r) ∨ id ∈ todo).

Lemma removing_all l s :
  removing l.*1 s → Forall (λ kv : string * containerRecord, no_slash kv.1) l →
  shim_ok (for_each (λ kv, removeContainer config kv.1) l s).2.
Proof.
  revert s. induction l as [|[id r] l IH]; intros s (Hp & Hc & Hcl) Hn; cbn [for_each].
  { constructor; [done..|]. intros id r Hr. destruct (Hcl id r Hr) as [|[]%not_elem_of_nil]; done. }
  apply Forall_cons in Hn as [Hid Hn]. simpl in Hid. unfold removeContainer at 1.
  unfold mbind at 1, eff_bind at 1. unfold mbind at 1, eff_bind at 1. unfold modify_world, on_cri_fs. cbn.
  apply IH; [|done]. rewrite container_path by done. split_and!; simpl.
  - by eapply remove_beside.
  - by apply mirrors_remove.
  - intros k c [Hne Hk]%lookup_delete_Some. destruct (Hcl k c Hk) as [?|Hin]; [by left|right].
    simpl in Hin. apply elem_of_cons in Hin as [->|?]; done.
Qed.

Lemma remove_sandbox_ok id s : no_slash id → shim_ok s → shim_ok (removeSandbox config id s).2.
Proof.
  intros Hid Hs. pose proof Hs as [Hp Hc Hcl]. unfold removeSandbox. rewrite modify_bind.
  unfold mbind at 1, eff_bind at 1. unfold on_cri_fs at 1. cbn. rewrite get_bind, sandbox_path by done.
  unfold allContainersForSandbox. apply removing_all; simpl.
  - split_and!; simpl; [by apply mirrors_remove|by eapply remove_beside|].
    intros k c Hk. destruct (decide (ct_sandbox_id c = id)) as [E|Hne].
    + right. apply list_elem_of_fmap. exists (k, c). split; [done|]. apply list_elem_of_filter. split; [done|].
      by rewrite map_order_all, elem_of_map_to_list.
    + left. rewrite lookup_delete_ne by done. by eapply Hcl.
  - apply Forall_forall. intros [k c] [_ Hin]%list_elem_of_filter.
    rewrite map_order_all, elem_of_map_to_list in Hin. by apply (known_container k c s).
Qed.

(** *** The handlers *)

Lemma keeps_find_container I id : keeps I (find_container (R := R) id).
Proof. unfold find_container. keeps_solve. Qed.

#[local] Hint Resolve keeps_find_container keeps_call keeps_call_or keeps_ensure ok_frames : keeps.

Lemma session_frame s x : shim_ok s → shim_ok (MkCri (sandboxes s) (containers s) (cri_fs s) x (runtime s)).
Proof. intros [Hp Hc Hcl]. by constructor. Qed.

Lemma keeps_session token x : keeps shim_ok (add_session token x).
Proof. apply keeps_modify. intros s Hs. by apply session_frame. Qed.

#[local] Hint Resolve keeps_session : keeps.

Lemma keeps_run_pod req handler : keeps shim_ok (RunPodSandbox config req handler).
Proof.
  unfold RunPodSandbox. destruct req as [cfg|]; [|apply keeps_throw]. cbv zeta.
  destruct (parseResourceAnnotations (pc_annotations cfg)) as [cpu mem].
  apply keeps_bind; [auto with keeps|]. intros root_digest.
  apply (keeps_bind_if (λ _, validate_workload_id (pc_uid cfg) = Ok tt)); [auto with keeps| |].
  { intros w resp w' _ [r' E]%call_or_ok. by apply run_valid in E. }
  intros resp [Hs Hne]%valid_no_slash. apply (keeps_bind_if go_time); [auto with keeps| |].
  { intros w now w' _. unfold call. pose proof (now_time (runtime w)) as Ht. destruct (time_now (runtime w)). by intros [= <- _]. }
  intros now Ht. apply keeps_bind; [|intros _; apply keeps_ret]. intros s Hok. by apply put_sandbox_ok.
Qed.

Lemma keeps_stop_pod id : keeps shim_ok (StopPodSandbox id).
Proof.
  unfold StopPodSandbox. apply keeps_bind; [apply keeps_get|]. intros s0.
  apply keeps_bind; [|intros _; apply keeps_bind; [auto with keeps|intros _; by apply keeps_touch_sandbox]].
  apply keeps_for_each. intros kv. apply keeps_bind; [auto with keeps|]. intros _. by apply keeps_touch_container.
Qed.

Lemma keeps_pod_status id : keeps shim_ok (PodSandboxStatus_ id).
Proof.
  unfold PodSandboxStatus_. apply keeps_bind; [apply keeps_get|]. intros s0. cbv zeta.
  apply keeps_bind; [auto with keeps|]. intros o. apply keeps_bind; [by apply keeps_touch_sandbox|]. intros _. apply keeps_ret.
Qed.

Lemma new_id_valid s cid s' : newContainerID s = (Ok cid, s') → no_slash cid ∧ cid ≠ EmptyString.
Proof.
  unfold newContainerID, call. destruct (rand_total 12 (runtime s)) as (b & r' & E & Hl).
  unfold mbind, eff_bind. rewrite E. intros [= <- _]. split.
  - unfold no_slash. apply (str_all_contains is_lower_hex); [apply hex_encode_lower|done].
  - intros E0%(f_equal String.length). rewrite hex_encode_length, Hl in E0. done.
Qed.

Lemma keeps_create pod req : keeps shim_ok (CreateContainer config pod req).
Proof.
  unfold CreateContainer. case_decide; [apply keeps_throw|]. destruct req as [cfg|]; [|apply keeps_throw].
  intros s Hs. rewrite get_bind. destruct (sandboxes s !! pod) as [sandbox|] eqn:Epod; [|done].
  unfold mbind at 1, eff_bind at 1. cbn [lift_result ok_or]. case_decide; [|done].
  destruct (cc_image cfg) as [image|]; [|done]. unfold mbind at 1, eff_bind at 1. cbn [lift_result ok_or].
  set (I := λ s, shim_ok s ∧ is_Some (sandboxes s !! pod)). assert (HI : I s) by (split; [done|by rewrite Epod]).
  cut (∀ s', I s' → shim_ok s'); [intros Hcut; apply Hcut; revert s Hs Epod HI|by intros s' []].
  assert (HF : frames I) by apply pod_frames. intros s _ _. revert s. apply (keeps_bind_if (λ cid, no_slash cid ∧ cid ≠ EmptyString)).
  { unfold newContainerID. apply keeps_bind; [by apply keeps_call|]. intros []; [apply keeps_ret|].
    apply keeps_bind; [by apply keeps_call|]. intros. apply keeps_ret. }
  { intros w cid w' _. apply new_id_valid. }
  intros cid [Hc Hne]. apply keeps_bind; [by apply keeps_ensure|]. intros root_digest.
  apply keeps_bind; [by apply keeps_call_or|]. intros resp.
  apply (keeps_bind_if go_time); [by apply keeps_call| |].
  { intros w now w' _. unfold call. pose proof (now_time (runtime w)) as Ht. destruct (time_now (runtime w)). by intros [= <- _]. }
  intros now Ht. apply keeps_bind; [|intros _; apply keeps_ret]. intros s [Hok Hpod]. split.
  - by apply put_container_ok.
  - unfold putContainer, writeContainer. rewrite modify_bind. by destruct (container_marshal _).
Qed.

(** A handler that starts with a record of the table, and the table stays while the
    daemon is called. *)
Definition with_record (id : string) (r : containerRecord) (s : criServer R) : Prop :=
  shim_ok s ∧ containers s !! id = Some r.

Lemma record_frames id r : frames (with_record id r).
Proof. intros s x [Hs Hr]. split; [by apply ok_frames|done]. Qed.

Lemma keeps_from_record {A} id (f : containerRecord → eff (criServer R) CriError A) :
  (∀ r s, with_record id r s → shim_ok (f r s).2) → keeps shim_ok (find_container id ≫= f).
Proof.
  intros Hf s Hs. unfold find_container. unfold mbind at 1, eff_bind at 1. rewrite get_bind.
  destruct (containers s !! id) as [r|] eqn:Er; [|done]. cbn. by apply Hf.
Qed.

Lemma then_ok {A B} (I : criServer R → Prop) (m : eff (criServer R) CriError A) (f : A → eff (criServer R) CriError B) s :
  keeps I m → (∀ s, I s → shim_ok s) → I s → (∀ a s, I s → shim_ok (f a s).2) → shim_ok ((m ≫= f) s).2.
Proof.
  intros Hm HI Hs Hf. specialize (Hm s Hs). unfold mbind, eff_bind. destruct (m s) as [[a|e] s']; [by apply Hf|by apply HI].
Qed.

Lemma put_record_ok id r state started code s :
  with_record id r s → go_time started → shim_ok (putContainer config (set_container state started code r) s).2.
Proof.
  intros [Hs Hr] Ht. destruct (known_container id r s Hs Hr) as (<- & ? & ? & ? & ? & ?). by apply put_container_ok.
Qed.

Lemma keeps_start id : keeps shim_ok (StartContainer config id).
Proof.
  apply keeps_from_record. intros r s Hr.
  apply (then_ok (with_record id r)); [apply keeps_call_or, record_frames|by intros ? []|done|]. clear s Hr. intros wl s Hr.
  destruct (live_state (wst_state wl)); [|by case_decide; destruct Hr].
  unfold mbind, eff_bind, call. pose proof (now_time (runtime s)) as Ht. destruct (time_now (runtime s)) as [now r'].
  apply (put_record_ok id); [by apply record_frames|done].
Qed.

Lemma keeps_stop id : keeps shim_ok (StopContainer config id).
Proof.
  apply keeps_from_record. intros r s Hr. case_decide; [by destruct Hr|].
  apply (then_ok (with_record id r)); [apply keeps_call_or, record_frames|by intros ? []|done|]. clear s Hr. intros _ s Hr.
  apply (put_record_ok id); [done|]. destruct Hr as [Hs Hr]. by destruct (known_container id r s Hs Hr) as (_ & _ & _ & _ & ? & _).
Qed.

Lemma keeps_remove id : no_slash id → keeps shim_ok (RemoveContainer config id).
Proof.
  intros Hid. unfold RemoveContainer. apply keeps_bind; [apply keeps_get|]. intros s0. apply keeps_bind.
  - destruct (containers s0 !! id); [case_decide|]; [|apply keeps_ret..].
    apply keeps_bind; [auto with keeps|]. intros _. apply keeps_ret.
  - intros _ s Hs. by apply remove_container_ok.
Qed.

Lemma keeps_token_ : keeps shim_ok (generateToken (R := R)).
Proof. unfold generateToken. apply keeps_bind; [auto with keeps|]. intros. apply keeps_ret. Qed.

#[local] Hint Resolve keeps_token_ : keeps.

(** The ids that the kubelet gives for removals name no other file. *)
Definition plain_request (req : request) : Prop :=
  match req with
  | ReqRemovePodSandbox id | ReqRemoveContainer id => no_slash id
  | _ => True
  end.

Lemma serve_ok req s : plain_request req → shim_ok s → shim_ok (serve config req s).
Proof.
  intros Hreq Hs. destruct req; cbn [serve].
  - by apply keeps_run_pod.
  - by apply keeps_stop_pod.
  - unfold RemovePodSandbox. apply (then_ok shim_ok); [auto with keeps|done..|]. intros _ s'. by apply remove_sandbox_ok.
  - by apply keeps_pod_status.
  - by apply keeps_create.
  - by apply keeps_start.
  - by apply keeps_stop.
  - by apply keeps_remove.
  - revert s Hs. unfold ContainerStatus_. keeps_solve.
  - revert s Hs. unfold UpdateContainerResources. keeps_solve.
  - revert s Hs. unfold ExecSync. keeps_solve.
  - revert s Hs. unfold Exec, newSession. keeps_solve.
  - revert s Hs. unfold Attach, newSession. keeps_solve.
  - revert s Hs. unfold PortForward, newPortForwardSession. keeps_solve.
  - revert s Hs. unfold PullImage. destruct image; [apply keeps_call_or, ok_frames|apply keeps_throw].
  - revert s Hs. unfold RemoveImage. keeps_solve.
Qed.

Lemma serve_all_ok reqs s : Forall plain_request reqs → shim_ok s → shim_ok (serve_all config reqs s).
Proof.
  intros Hr. revert s. induction Hr as [|req reqs Hreq _ IH]; intros s Hs; [done|]. simpl. by apply IH, serve_ok.
Qed.

(** ** Restarts *)

Lemma load_sandboxes fs l m : foldl (load_sandbox fs) m l = foldl (load_record sb_id parse_sandbox fs) m l.
Proof.
  revert m. induction l as [|p l IH]; intros m; [done|]. simpl. rewrite IH. f_equal.
  unfold load_sandbox, load_record, parse_sandbox. destruct (ok _) as [data|]; [|done]. simpl.
  by destruct (sandbox_unmarshal data) as [[]|].
Qed.

Lemma new_store_ok s r :
  shim_ok s →
  newFileStore config (cri_fs s) r =
    MkCri (foldl (load_record sb_id parse_sandbox (cri_fs s)) ∅ (json_files (cri_fs s) (sandbox_dir config)))
      (foldl (load_record ct_id container_unmarshal (cri_fs s)) ∅ (json_files (cri_fs s) (container_dir config)))
      (cri_fs s) ∅ r ∧
  shim_ok (newFileStore config (cri_fs s) r).
Proof.
  intros [Hp Hc Hcl]. cut (newFileStore config (cri_fs s) r =
    MkCri (foldl (load_record sb_id parse_sandbox (cri_fs s)) ∅ (json_files (cri_fs s) (sandbox_dir config)))
      (foldl (load_record ct_id container_unmarshal (cri_fs s)) ∅ (json_files (cri_fs s) (container_dir config)))
      (cri_fs s) ∅ r).
  { intros E. split; [done|]. rewrite E. constructor; simpl.
    - eapply mirrors_load; [exact Hp|]. intros ?? [_ ?]. split; done.
    - eapply mirrors_load; [exact Hc|]. intros ?? [_ ?]. split; done.
    - intros id c. erewrite load_saved by exact Hc. intros Hs. destruct (containers s !! id) as [c0|] eqn:E0.
      + destruct (saved_known _ _ _ _ _ _ Hc id c0 E0) as (_ & c' & Hs' & [Hsame _] & _). simplify_eq.
        destruct (Hcl id c0 E0) as [x Hx]. unfold same_container in Hsame. injection Hsame as _ E1 _ _ _ _ _ _. rewrite <- E1.
        destruct (saved_known _ _ _ _ _ _ Hp _ x Hx) as (_ & x' & Hx' & _). erewrite load_saved by exact Hp. by rewrite Hx'.
      + unfold saved in Hs. by rewrite (mi_unknown _ _ _ _ _ _ Hc id E0) in Hs. }
  unfold newFileStore. rewrite (create_dir_all_known _ (sandbox_dir config)) by apply (mi_plain _ _ _ _ _ _ Hp).
  cbn [snd]. rewrite (create_dir_all_known _ (container_dir config)) by apply (mi_plain _ _ _ _ _ _ Hc).
  unfold loadAll. cbn [fst snd]. by rewrite load_sandboxes.
Qed.

(** The workloads of the list that run. *)
Definition alive (ws : list WorkloadStatus) (id : string) : Prop :=
  ∃ w, w ∈ ws ∧ live_state (wst_state w) = true ∧ wst_id w = id.

(** What a start makes of a record in a file. *)
Definition pod_started (ws : list WorkloadStatus) (r r' : sandboxRecord) : Prop :=
  same_pod r r' ∧ (¬ alive ws (sb_pullrun_id r) → sb_state r' = SANDBOX_NOTREADY ∧ sb_internal_ip r' = EmptyString).

Definition container_started (ws : list WorkloadStatus) (r r' : containerRecord) : Prop :=
  same_container r r' ∧ (¬ alive ws (ct_pullrun_id r) → ct_state r' = CONTAINER_EXITED ∧ ct_exit_code r' ≠ 0%Z).

Lemma elem_of_alive ws id :
  id ∈ (list_to_set (wst_id <$> filter (λ w, live_state (wst_state w) = true) ws) : gset string) ↔ alive ws id.
Proof.
  rewrite elem_of_list_to_set, list_elem_of_fmap. unfold alive. split.
  - intros (w & -> & [Hl Hw]%list_elem_of_filter). eauto.
  - intros (w & Hw & Hl & <-). exists w. by rewrite list_elem_of_filter.
Qed.

Lemma mirrors_fmap {A} key rel parse dir (m : gmap string A) fs f :
  (∀ r r', rel r r' → rel (f r) r') → mirrors key rel parse dir m fs → mirrors key rel parse dir (f <$> m) fs.
Proof.
  intros Hf [Hp Hd Hk Hu]. constructor; [done..| |].
  - intros id r. rewrite lookup_fmap_Some. intros (r0 & <- & Hr).
    destruct (Hk id r0 Hr) as (? & data & r' & ? & ? & ? & ?). split; [done|]. exists data, r'. auto.
  - intros id. rewrite lookup_fmap, fmap_None. apply Hu.
Qed.

(** Directories of the store that are there and empty. *)
Definition fresh_store (fs : HostFs) : Prop :=
  ∀ dir, dir = sandbox_dir config ∨ dir = container_dir config → plain fs dir ∧ ∀ c, content_at fs (dir ++ [c]) = None.

Lemma fresh_ok fs r : fresh_store fs → shim_ok (MkCri ∅ ∅ fs ∅ r).
Proof.
  intros Hf. assert (Hm : ∀ {A} key rel parse dir, dir = sandbox_dir config ∨ dir = container_dir config →
    mirrors (A := A) key rel parse dir ∅ fs).
  { intros A key rel parse dir [Hp Hc]%Hf. constructor; [split; [done|]|..].
    - intros c. by rewrite Hc.
    - intros c. by rewrite Hc.
    - intros id x. by rewrite lookup_empty.
    - intros id _. apply Hc. }
  constructor; [apply Hm; by left|apply Hm; by right|]. intros id x. simpl. by rewrite lookup_empty.
Qed.

Lemma reconcile_run s ws r1 :
  ListWorkloads (runtime s) = (Some ws, r1) → shim_ok s →
  let s' := (reconcileStartup s).2 in
  shim_ok s' ∧ (∀ id, option_Forall2 (pod_started ws) (sandboxes s !! id) (sandboxes s' !! id)) ∧
  (∀ id, option_Forall2 (container_started ws) (containers s !! id) (containers s' !! id)).
Proof.
  intros Hl [Hp Hc Hcl]. unfold reconcileStartup, call, mbind, eff_bind. rewrite Hl. simpl.
  set (live := list_to_set _ : gset string). assert (Hlive : ∀ id, id ∈ live ↔ alive ws id) by apply elem_of_alive.
  split; [constructor; simpl|split; simpl; intros id; rewrite lookup_fmap].
  - apply mirrors_fmap; [|done]. intros r r' [Hs Hr]. split; [|done]. by case_decide.
  - apply mirrors_fmap; [|done]. intros r r' [Hs Hr]. split; [|done]. by case_decide.
  - intros id c. rewrite lookup_fmap_Some, lookup_fmap. intros (c0 & <- & Hid%Hcl). rewrite fmap_is_Some. by case_decide.
  - destruct (sandboxes s !! id) as [r|]; constructor. case_decide as Ha; rewrite Hlive in Ha; by split.
  - destruct (containers s !! id) as [r|]; constructor. case_decide as Ha; rewrite Hlive in Ha; split; try done.
    intros _. split; [done|]. simpl. by case_decide.
Qed.

(** Loading and comparing again. *)
Lemma restart_run s r ws r1 :
  shim_ok s → ListWorkloads r = (Some ws, r1) →
  let s' := start_shim config (cri_fs s) r in
  shim_ok s' ∧ (∀ id, option_Forall2 (pod_started ws) (sandboxes s !! id) (sandboxes s' !! id)) ∧
  (∀ id, option_Forall2 (container_started ws) (containers s !! id) (containers s' !! id)).
Proof.
  intros Hs Hl. destruct (new_store_ok s r Hs) as [E Hn]. unfold start_shim.
  destruct (reconcile_run (newFileStore config (cri_fs s) r) ws r1) as (Hok & Hpod & Hcont); [by rewrite E|done|].
  destruct Hs as [Hp Hc Hcl]. split; [done|]. split; intros id; [specialize (Hpod id)|specialize (Hcont id)]; rewrite E in *; simpl in *.
  - erewrite load_saved in Hpod by exact Hp. destruct (sandboxes s !! id) as [x|] eqn:Ex.
    + destruct (saved_known _ _ _ _ _ _ Hp id x Ex) as (_ & y & Hy & [Hsame _] & _). rewrite Hy in Hpod.
      inversion Hpod as [? z [Hz1 Hz2]|]. constructor. unfold pod_started, same_pod in *.
      assert (sb_pullrun_id y = sb_pullrun_id x) as <- by (destruct x, y; by simplify_eq/=). split; [congruence|done].
    + unfold saved in Hpod. rewrite (mi_unknown _ _ _ _ _ _ Hp id Ex) in Hpod. inversion Hpod. constructor.
  - erewrite load_saved in Hcont by exact Hc. destruct (containers s !! id) as [x|] eqn:Ex.
    + destruct (saved_known _ _ _ _ _ _ Hc id x Ex) as (_ & y & Hy & [Hsame _] & _). rewrite Hy in Hcont.
      inversion Hcont as [? z [Hz1 Hz2]|]. constructor. unfold container_started, same_container in *.
      assert (ct_pullrun_id y = ct_pullrun_id x) as <- by (destruct x, y; by simplify_eq/=). split; [congruence|done].
    + unfold saved in Hcont. rewrite (mi_unknown _ _ _ _ _ _ Hc id Ex) in Hcont. inversion Hcont. constructor.
Qed.

Lemma start_fresh fs r : fresh_store fs → shim_ok (start_shim config fs r).
Proof.
  intros Hf. pose proof (fresh_ok fs r Hf) as Hs. destruct (new_store_ok _ r Hs) as [_ Hn]. simpl in Hn. unfold start_shim.
  destruct (ListWorkloads (runtime (newFileStore config fs r))) as [[ws|] r1] eqn:El.
  - by destruct (reconcile_run _ ws r1 El Hn).
  - unfold reconcileStartup, call, mbind, eff_bind. rewrite El. by apply (ok_frames _ r1) in Hn.
Qed.


End invariant.

(** ** Workloads that nobody stops *)

Section leaks.
Context {R : Type} `{RuntimeClient R, GoHost R, GoMapOrder, GoConversion, Hex, CriJson, !GoMapOrderLaws}.
Context (config : CriConfig).

Lemma remove_container_run id (s : criServer R) :
  removeContainer config id s =
  (Ok tt, MkCri (sandboxes s) (delete id (containers s))
            (go_remove (record_path (cri_root config) "containers" id) (cri_fs s)).2 (sessions s) (runtime s)).
Proof. done. Qed.

Lemma removed_containers l (s : criServer R) k :
  ∃ s', for_each (λ kv : string * containerRecord, removeContainer config kv.1) l s = (Ok tt, s') ∧
    runtime s' = runtime s ∧ (containers s !! k = None ∨ k ∈ l.*1 → containers s' !! k = None).
Proof.
  revert s. induction l as [|[id r] l IH]; intros s; cbn [for_each].
  { exists s. split; [done|]. split; [done|]. by intros [?|[]%not_elem_of_nil]. }
  erewrite bind_ok by apply remove_container_run. edestruct IH as (s' & E & Hr & Hk). exists s'. split; [exact E|].
  split; [done|]. intros Hin. apply Hk. simpl. rewrite lookup_delete_None. destruct Hin as [?|[->|?]%elem_of_cons]; auto.
Qed.

Lemma create_container_run pod req (s : criServer R) cid s1 :
  CreateContainer config pod req s = (Ok cid, s1) →
  (∃ run r0 resp r1, RunWorkload run r0 = (Some resp, r1) ∧ rq_id run = containerWorkloadID cid) ∧
  ∃ c, containers s1 !! cid = Some c ∧ ct_state c = CONTAINER_CREATED ∧ ct_sandbox_id c = pod.
Proof.
  unfold CreateContainer. case_decide; [done|]. destruct req as [cfg|]; [|done]. rewrite get_bind.
  intros (sandbox & w1 & _ & E)%bind_inv_ok. case_decide; [|done].
  apply bind_inv_ok in E as (image & w2 & _ & E). apply bind_inv_ok in E as (cid' & w3 & _ & E).
  apply bind_inv_ok in E as (root_digest & w4 & _ & E). apply bind_inv_ok in E as (resp & w5 & E5 & E).
  apply bind_inv_ok in E as (now & w6 & _ & E). apply bind_inv_ok in E as (u & w7 & E7 & E). injection E as <- <-. split.
  - apply call_or_ok in E5 as [r' E5]. eexists _, _, _, _. split; [exact E5|]. unfold runRequestForContainer.
    by case_decide.
  - revert E7. unfold putContainer, writeContainer. rewrite modify_bind. intros E7.
    eexists (MkContainer cid' pod (rr_id resp) (cc_name cfg) image root_digest now zero_time CONTAINER_CREATED 0). split; [|done].
    destruct (container_marshal _); injection E7 as _ <-; simpl; by rewrite lookup_insert_eq.
Qed.

(** A container's workload runs from its creation.  When the container is removed
    before it was started, and when its pod is removed, the shim forgets it and never
    tells the daemon to stop its workload. *)
Lemma removal_leaks pod req (s : criServer R) cid s1 :
  CreateContainer config pod req s = (Ok cid, s1) →
  (∃ run r0 resp r1, RunWorkload run r0 = (Some resp, r1) ∧ rq_id run = containerWorkloadID cid) ∧
  (∃ s2, RemoveContainer config cid s1 = (Ok tt, s2) ∧ containers s2 !! cid = None ∧ runtime s2 = runtime s1) ∧
  (∃ s2, RemovePodSandbox config pod s1 = (Ok tt, s2) ∧ containers s2 !! cid = None ∧
     runtime s2 = (StopWorkload pod (runtime s1)).2).
Proof.
  intros E. apply create_container_run in E as (Hrun & c & Hc & Hst & Hpod). split; [done|]. split.
  - unfold RemoveContainer. rewrite get_bind, Hc. rewrite decide_False by (rewrite Hst; done).
    unfold mbind, eff_bind. cbn. eexists. split; [done|]. simpl. by rewrite lookup_delete_eq.
  - unfold RemovePodSandbox. unfold mbind at 1, eff_bind at 1. unfold call. destruct (StopWorkload pod (runtime s1)) as [o r'].
    unfold removeSandbox. rewrite modify_bind. unfold mbind at 1, eff_bind at 1. unfold on_cri_fs at 1. cbn. rewrite get_bind.
    edestruct removed_containers as (s2 & E2 & Hr & Hk). exists s2. split; [exact E2|]. split; [|done].
    apply Hk. right. apply list_elem_of_fmap. exists (cid, c). split; [done|]. apply list_elem_of_filter. split; [done|].
    by rewrite map_order_all, elem_of_map_to_list.
Qed.

End leaks.

(** ** With the daemon *)

Section daemon.
Context {H G : Type} `{Processes H, HttpClient H, Sync.PeerNet H, Sync.Clock H, TempDir H, DefaultHasher, Hex, Sha2}.
Context `{Rkyv DagNode, EntryJson, JsonText, OciJson, GzDecoder, Puller.Base64, LayerTar, ZstdDecoder, StateJson, Lowercase}.
Context `{Aes256Gcm, OsRng, CharClass, Ed25519, Rkyv SignatureBlob, Rkyv SbomBlob}.
Context (config : ServiceConfig) (router : ExecutorRouter H) (policy_engine : option PolicyEngine).
Context (error_text : SvcError → string) (fuel : nat).

Abbreviation daemon := (daemon_client (G := G) config router policy_engine error_text fuel).

(** The daemon keeps what the shim relies on. *)
Lemma daemon_laws : RuntimeLaws (RuntimeService H * G) (H := daemon).
Proof.
  intros req [s g] resp sg'. cbn. unfold handled, run_workload, mbind, eff_bind, lift_result. cbn.
  by destruct (validate_workload_id (rq_id req)) as [[]|e].
Qed.

(** The kubelet never learns that an image is there. *)
Lemma image_status_unknown image (s : criServer (RuntimeService H * G)) :
  (ImageStatus (H := daemon) (Some image) s).1 = Ok None.
Proof. done. Qed.

(** Every pod and every container pulls its image, known or not. *)
Lemma ensure_image_pulls image registry (s : criServer (RuntimeService H * G)) :
  ensureImage (H := daemon) image registry s = call_or (PullError image) (rpc_PullImage (RuntimeClient := daemon) image registry) s.
Proof.
  unfold ensureImage. unfold mbind at 1, eff_bind at 1. unfold call at 1. cbn. by destruct s as [? ? ? ? []].
Qed.

End daemon.
