(* ===== verification/Demo.v ===== *)
(** * Concrete formats and a small concrete store

    Texts for the formats that are parameters of the image, archive and control
    plane models: a countable value is written as the bits of its code, one byte
    each.  With the concrete crates of [Instances.v]: an empty store, a blob node, a
    tree node above it and tags, built by the store's own operations.  The witnesses
    run on them; no theorem depends on them. *)

From stdpp Require Import base gmap strings list countable pretty.
From Stdlib Require Import ZArith Lia Ascii.
From S2P Require Import Materialize UnpackSpec Policy Secrets ControlPlane Dockerfile Utf8 OciTypes Puller Archive HostFs Convert Prelude Strs Crates Node Instances Fs Worklist Store StoreFacts.
From S2P Require Import GcFacts OpLock Gc RefcountFacts RemoveTag.

(** ** Values as bytes *)

Fixpoint bits_of (p : positive) : bytes :=
  match p with
  | xH => []
  | xO p => Byte.x00 :: bits_of p
  | xI p => Byte.x01 :: bits_of p
  end.

Fixpoint of_bits (l : bytes) : positive :=
  match l with
  | [] => xH
  | Byte.x00 :: l => xO (of_bits l)
  | _ :: l => xI (of_bits l)
  end.

Lemma of_bits_of p : of_bits (bits_of p) = p.
Proof. induction p as [p IH|p IH|]; simpl; by rewrite ?IH. Qed.

Lemma bits_binary p b : b ∈ bits_of p → b = Byte.x00 ∨ b = Byte.x01.
Proof.
  induction p as [p IH|p IH|]; simpl; [..|by intros ?%elem_of_nil]; intros [->|Hb]%elem_of_cons; auto.
Qed.

Definition text_of {A} `{Countable A} (x : A) : bytes := bits_of (encode x).
Definition of_text {A} `{Countable A} (l : bytes) : option A := decode (of_bits l).

#[global] Arguments text_of : simpl never.
#[global] Arguments of_text : simpl never.

Lemma of_text_of {A} `{Countable A} (x : A) : of_text (text_of x) = Some x.
Proof. unfold of_text, text_of. by rewrite of_bits_of, decode_encode. Qed.

(** ** Archives *)

#[export] Instance concrete_tar : Tar := {|
  tar_build l := text_of l;
  tar_entries b :=
    option_map (λ l : list (string * bytes), (λ kv, Some (MkTarItem (Some kv.1) (Some kv.2))) <$> l) (of_text b)
|}.

#[export] Instance concrete_tar_laws : TarLaws.
Proof. split. intros l _. cbn [tar_entries tar_build concrete_tar]. by rewrite of_text_of. Qed.

#[export] Instance concrete_export_json : ExportJson := {|
  export_manifest_to_vec m :=
    Some (text_of (em_root_digest m, em_format m, em_node_count m, em_blob_count m));
  export_manifest_from_slice b :=
    (λ '(r, f, n, k), MkExportManifest r f n k) <$> of_text b
|}.

#[export] Instance concrete_export_json_laws : ExportJsonLaws.
Proof. split. intros [] b [= <-]. simpl. by rewrite of_text_of. Qed.

(** ** Directory entries *)

(** The codes of the fields of an entry, each closed by a separator. *)
Definition fields_text (l : list positive) : bytes := concat ((λ p, bits_of p ++ [Byte.x04]) <$> l).

Lemma text_fields l : split_bytes Byte.x04 (fields_text l) = (bits_of <$> l) ++ [[]].
Proof.
  unfold fields_text. induction l as [|p l IH]; [done|]. cbn [fmap list_fmap concat app]. rewrite <- app_assoc.
  cbn [app]. rewrite split_bytes_line by (intros [?|?]%bits_binary; done). by rewrite IH.
Qed.

Lemma fields_line l : newline ∉ fields_text l.
Proof.
  unfold fields_text. induction l as [|p l IH]; cbn; [by intros ?%elem_of_nil|].
  rewrite !elem_of_app. intros [[[?|?]%bits_binary|?%list_elem_of_singleton]|?]; done.
Qed.

Definition entry_text (e : DirectoryEntry) : bytes :=
  fields_text
    [encode (de_name e); encode (de_digest e); encode (de_mode e); encode (de_size e); encode (de_uid e);
     encode (de_gid e); encode (de_mtime e); encode (de_is_dir e); encode (de_is_symlink e);
     encode (de_symlink_target e); encode (de_xattrs e)].

Definition text_entry (b : bytes) : option DirectoryEntry :=
  match of_bits <$> split_bytes Byte.x04 b with
  | [a1; a2; a3; a4; a5; a6; a7; a8; a9; a10; a11; _] =>
    name ← decode a1; d ← decode a2; mode ← decode a3; size ← decode a4; uid ← decode a5; gid ← decode a6;
    mtime ← decode a7; is_dir ← decode a8; is_symlink ← decode a9; target ← decode a10; xattrs ← decode a11;
    Some (MkEntry name d mode size uid gid mtime is_dir is_symlink target xattrs)
  | _ => None
  end.

Lemma text_entry_text e : text_entry (entry_text e) = Some e.
Proof.
  unfold text_entry, entry_text. rewrite text_fields. cbn [fmap list_fmap app]. rewrite !of_bits_of, !decode_encode.
  by destruct e.
Qed.

Definition manifest_fields (m : ManifestData) :=
  (md_entrypoint m, md_cmd m, md_env m, md_working_dir m, (md_architecture m, md_os m, md_variant m),
   md_annotations m, (md_user m, md_stop_signal m), (md_exposed_ports m, md_volumes m)).

(** Entries carry a tag that objects do not have; manifests with a subject are not
    written. *)
#[export] Instance concrete_entry_json : EntryJson := {|
  entry_to_vec e := Byte.x02 :: entry_text e;
  entry_from_slice b := match b with Byte.x02 :: b => text_entry b | _ => None end;
  json_object l := Byte.x03 :: text_of (fst <$> l);
  manifest_data_to_vec m :=
    match md_subject m with None => Some (text_of (manifest_fields m)) | Some _ => None end;
  manifest_data_from_slice b :=
    (λ '(e, c, v, w, (a, o, va), an, (u, s), (p, vo)), MkManifestData e c v w a o an None u s p vo va) <$> of_text b
|}.

#[export] Instance concrete_entry_json_laws : EntryJsonLaws.
Proof.
  assert (Hn : ∀ p, newline ∉ bits_of p) by (intros p [?|?]%bits_binary; done).
  split; simpl.
  - intros e. split; [|done]. intros [?|?]%elem_of_cons; [done|]. by eapply fields_line.
  - intros e. apply text_entry_text.
  - intros l [?|?]%elem_of_cons; [done|]. by eapply Hn.
  - done.
  - intros [? ? ? ? ? ? ? []] b; [done|]. intros [= <-]. by rewrite of_text_of.
Qed.

#[export] Instance concrete_spec_json : SpecJson := λ s, text_of (sp_args s, sp_env s, sp_cwd s).

(** ** Records of the control plane *)

#[export] Instance concrete_record_json : RecordJson := {|
  workload_marshal r :=
    Some (text_of (w_id r, w_name r, w_image_ref r, w_backend r, (w_cpu_millis r, w_memory r), w_labels r,
                   w_created_at r, (w_node_id r, w_status r)));
  workload_unmarshal b :=
    (λ '(i, n, im, be, (c, m), l, t, (no, st)), MkWorkload i n im be c m l t no st) <$> of_text b;
  node_marshal r :=
    Some (text_of (n_id r, n_address r, (n_cpu_cores r, n_memory_bytes r), n_backends r, (n_last_heartbeat r, n_running r)));
  node_unmarshal b :=
    (λ '(i, a, (c, m), be, (h, r)), MkNode i a c m be h r) <$> of_text b
|}.

#[export] Instance concrete_record_json_laws : RecordJsonLaws.
Proof.
  split; simpl; [by eexists|..|by eexists|].
  - intros [] b [= <-]. by rewrite of_text_of.
  - intros [] b [= <-]. by rewrite of_text_of.
Qed.

#[export] Instance concrete_go_format : GoFormat := λ z, pretty z.

(** ** Signatures *)

(** A signature is the key followed by the start of the message. *)
#[export] Instance concrete_ed25519 : Ed25519 := {|
  VerifyingKey := bytes;
  ed_verify k m s := if decide (s = resize 64 Byte.x00 (k ++ m)) then None else Some "signature mismatch";
  key_from_bytes := Some
|}.

#[export] Instance concrete_signature_rkyv : Rkyv SignatureBlob := {|
  rkyv_to_bytes b := Some (text_of (sb_key_id b, sb_payload b, sb_signature b));
  check_archived_root b := (λ '(k, p, s), MkSignatureBlob k p s) <$> of_text b
|}.

Definition component_fields (c : SbomComponent) := (sc_name c, sc_version c, sc_licenses c).
Definition vulnerability_fields (v : Vulnerability) := (vu_id v, vu_component v, vu_cvss v).

#[export] Instance concrete_sbom_rkyv : Rkyv SbomBlob := {|
  rkyv_to_bytes b :=
    Some (text_of (sbom_format b, component_fields <$> sbom_components b, vulnerability_fields <$> sbom_vulnerabilities b));
  check_archived_root b :=
    (λ '(f, cs, vs), MkSbomBlob f ((λ '(n, v, l), MkComponent n v l) <$> cs)
                       ((λ '(i, c, s), MkVulnerability i c s) <$> vs)) <$> of_text b
|}.

(** ** Secrets *)

(** The key is left out of account: what matters here is that decrypting undoes
    encrypting. *)
#[export] Instance concrete_aes : Aes256Gcm := {|
  aes_encrypt _ _ p := Some (Byte.x07 :: p);
  aes_decrypt _ _ c := match c with Byte.x07 :: p => Some p | _ => None end
|}.

#[export] Instance concrete_aes_laws : AesLaws.
Proof. split; [by eexists|]. by intros ???? [= <-]. Qed.

#[export] Instance concrete_rng : OsRng := λ len n, replicate len (byte_of (Z.of_nat n)).

#[export] Instance concrete_rng_laws : OsRngLaws.
Proof. split. intros. apply length_replicate. Qed.

#[export] Instance concrete_char_class : CharClass := ascii_alphanumeric.

#[export] Instance concrete_char_class_laws : CharClassLaws.
Proof. by split. Qed.

#[export] Instance concrete_created : FileCreated := λ i, Some (fmtime (imeta i)).

(** ** Dockerfiles *)

#[export] Instance concrete_upper : UpperTable := λ c, [c].
#[export] Instance concrete_strings : StringsJson := λ _, None.

(** Closed facts, by evaluation. *)
Ltac concrete :=
  first [vm_compute; reflexivity | eexists; vm_compute; reflexivity | vm_compute; discriminate
        | by vm_compute].

(** What the operations keep, with a bound on the counts. *)
Record sound (tags : list Digest) (w : World) (k : Z) : Prop := {
  so_inv : store_inv w;
  so_healthy : healthy w;
  so_wf : rc_wf w;
  so_intact : intact w;
  so_exact : rc_exact tags w;
  so_bound d : (rc w d ≤ k)%Z;
}.

Lemma occ_length {A} `{EqDecision A} (x : A) l : occ x l ≤ length l.
Proof. unfold occ. apply length_filter. Qed.

Lemma sound_put n b tags w k :
  sound tags w k → rkyv_to_bytes n = Some b → node_file w (compute b) = None →
  (k + Z.of_nat (length (edges n)) < u64_mod)%Z →
  sound tags (put n w).2 (k + Z.of_nat (length (edges n))) ∧
  put_frame (compute b) b w (put n w).2.
Proof.
  intros [Hi Hh Hw Hin Hex Hb] Hr Hn Hlt.
  assert (Hc : check_archived_root b = Some n) by (by apply check_to_bytes).
  destruct (put_new_spec n b w) as (w' & E & Hf); auto.
  { intros e. pose proof (Hb e). pose proof (occ_length e (edges n)). lia. }
  rewrite E. simpl. split; [|done]. pose proof Hf as [Hst Hio Hno _ Hrc Hwf]. constructor; auto.
  - by eapply put_frame_inv.
  - unfold healthy in *. congruence.
  - intros e (b' & He & Hce). rewrite Hno in He. case_decide; [congruence|]. apply (Hin e). by exists b'.
  - by eapply put_frame_exact.
  - intros e. rewrite Hrc. unfold edges_of. rewrite Hc.
    pose proof (Hb e). pose proof (occ_length e (edges n)). lia.
Qed.

Lemma sound_tag d tags w k :
  sound tags w k → (k + 1 < u64_mod)%Z →
  sound (d :: tags) (increment_refcount d w).2 (k + 1) ∧
  rc_frame (set_fn d (rc w d + 1) (rc w)) w (increment_refcount d w).2.
Proof.
  intros [Hi Hh Hw Hin Hex Hb] Hlt.
  destruct (increment_spec d w Hh Hw) as (w' & E & Hf); [pose proof (Hb d); lia|].
  rewrite E. simpl. split; [|done]. constructor.
  - by eapply rc_frame_inv.
  - by eapply rc_frame_healthy.
  - apply Hf.
  - intros e (b' & He & Hce). apply (Hin e). exists b'. by rewrite <- (frame_node _ _ _ Hf).
  - intros e. rewrite (frame_rc _ _ _ Hf), (node_map_frame _ _ _ Hf). unfold set_fn.
    rewrite occ_cons. pose proof (Hex e). repeat case_decide; subst; try congruence; lia.
  - intros e. rewrite (frame_rc _ _ _ Hf). unfold set_fn. pose proof (Hb e). pose proof (Hb d).
    case_decide; lia.
Qed.

(** ** The worlds *)

Definition demo_root : path := ["store"].
Definition demo_os : Os := MkOs ∅ ∅ ∅ 0 7.
Definition w_empty : World := MkWorld demo_os (MmapStore_new demo_root).

Definition leaf : DagNode := DagNode.blob [Byte.x2a].
Definition leaf_bytes : bytes := default [] (rkyv_to_bytes leaf).
Definition d_leaf : Digest := compute leaf_bytes.

Definition tree : DagNode := DagNode.tree [d_leaf; d_leaf] [].
Definition tree_bytes : bytes := default [] (rkyv_to_bytes tree).
Definition d_tree : Digest := compute tree_bytes.

Definition w_leaf : World := (put leaf w_empty).2.
Definition w_tree : World := (put tree w_leaf).2.
(** The tree tagged, then the leaf tagged as well. *)
Definition w_tagged : World := (increment_refcount d_tree w_tree).2.
Definition w_tagged2 : World := (increment_refcount d_leaf w_tagged).2.

Lemma sound_empty : sound [] w_empty 0.
Proof.
  constructor.
  - constructor; [apply empty_wf..|]. by intros d b E.
  - done.
  - by intros d b E.
  - by intros d (b & E & _).
  - done.
  - done.
Qed.

Lemma sound_leaf : sound [] w_leaf 0 ∧ put_frame d_leaf leaf_bytes w_empty w_leaf.
Proof. by apply (sound_put leaf leaf_bytes [] w_empty 0); [apply sound_empty|vm_compute..]. Qed.

Lemma sound_tree : sound [] w_tree 2 ∧ put_frame d_tree tree_bytes w_leaf w_tree.
Proof.
  by apply (sound_put tree tree_bytes [] w_leaf 0); [apply sound_leaf|vm_compute..].
Qed.

Lemma sound_tagged :
  sound [d_tree] w_tagged 3 ∧ rc_frame (set_fn d_tree (rc w_tree d_tree + 1) (rc w_tree)) w_tree w_tagged.
Proof. apply (sound_tag d_tree [] w_tree 2); [apply sound_tree|done]. Qed.

Lemma sound_tagged2 :
  sound [d_leaf; d_tree] w_tagged2 4 ∧
  rc_frame (set_fn d_leaf (rc w_tagged d_leaf + 1) (rc w_tagged)) w_tagged w_tagged2.
Proof. apply (sound_tag d_leaf [d_tree] w_tagged 3); [apply sound_tagged|done]. Qed.

(** What is stored in them. *)
Lemma w_tagged_nodes d :
  node_file w_tagged d =
  if decide (d = d_tree) then Some tree_bytes else if decide (d = d_leaf) then Some leaf_bytes else None.
Proof.
  rewrite (frame_node _ _ _ (proj2 sound_tagged)), (put_node _ _ _ _ (proj2 sound_tree)).
  case_decide; [done|]. rewrite (put_node _ _ _ _ (proj2 sound_leaf)). by case_decide.
Qed.

Lemma w_tagged_edge a b : edge w_tagged a b → a = d_tree ∧ b = d_leaf.
Proof.
  unfold edge. rewrite children_edges_of, w_tagged_nodes. case_decide; [|case_decide]; simpl.
  - assert (edges_of tree_bytes = [d_leaf; d_leaf]) as -> by (by vm_compute). set_solver.
  - assert (edges_of leaf_bytes = []) as -> by (by vm_compute). by intros ?%not_elem_of_nil.
  - by intros ?%not_elem_of_nil.
Qed.

Lemma w_tagged_no_garbage : no_garbage w_tagged.
Proof.
  intros d. rewrite w_tagged_nodes. case_decide; [subst|case_decide; [subst|by intros []]];
    intros _; by vm_compute.
Qed.

Lemma w_tagged_wf : well_founded (edge w_tagged).
Proof.
  intros b. constructor. intros a [-> ->]%w_tagged_edge. constructor.
  intros c [_ E]%w_tagged_edge. by vm_compute in E.
Qed.
