(* ===== verification/Witnesses.v ===== *)
(** * Concrete applications of the store's properties

    Each property with hypotheses, applied to a concrete world at which they hold. *)

From stdpp Require Import base gmap strings list relations.
From Stdlib Require Import ZArith Ascii Lia.
From S2P Require Import Prelude Strs Crates Node Instances Fs Worklist Store StoreFacts.
From S2P Require Import GcFacts OpLock Gc RefcountFacts RemoveTag GcSpec StoreSpec Demo.
From S2P Require Import Utf8 Vsock.

Definition no_locks : OpDir := MkOpDir ∅ 0 false.
Definition demo_gc : GcWorld := MkGcWorld w_tagged no_locks.

Lemma collect_keeps_reachable_witness :
  node_file (gw_store (collect (MkGc false true) [d_leaf] demo_gc).2) d_leaf = Some leaf_bytes.
Proof.
  assert (Hs : sound [d_tree] w_tagged 3) by apply sound_tagged.
  destruct (collect_keeps_reachable (MkGc false true) [d_leaf] demo_gc _ _ d_leaf
    (so_inv _ _ _ Hs) (surjective_pairing _)) as [-> _].
  - by apply reachable_root, list_elem_of_singleton.
  - concrete.
  - concrete.
Defined.

Lemma collect_exact_witness :
  ∃ rep w', collect (MkGc false true) [d_leaf] demo_gc = (Ok rep, w') ∧
    ¬ is_Some (node_file (gw_store w') d_tree).
Proof.
  assert (Hs : sound [d_tree] w_tagged 3) by apply sound_tagged.
  destruct (collect_exact (MkGc false true) [d_leaf] demo_gc (so_inv _ _ _ Hs) (so_healthy _ _ _ Hs)
    eq_refl eq_refl eq_refl ltac:(discriminate)) as (rep & w' & Hc & Hd).
  - intros r ->%list_elem_of_singleton. concrete.
  - intros d _. apply (so_intact _ _ _ Hs).
  - exists rep, w'. split; [exact Hc|]. rewrite Hd. intros [_ (r & ->%list_elem_of_singleton & Hp)].
    apply rtc_inv in Hp as [E|(y & E%w_tagged_edge & _)]; [by vm_compute in E|].
    destruct E as [E _]. by vm_compute in E.
Defined.

Lemma collect_refusals_witness :
  os (gw_store (collect (MkGc false false) [] demo_gc).2) = os w_tagged ∧
  (collect (MkGc false false) [] demo_gc).1 = Err EmptyRootSet.
Proof.
  assert (Hs : sound [d_tree] w_tagged 3) by apply sound_tagged.
  destruct (collect_refusals (MkGc false false) [] demo_gc _ _ (so_inv _ _ _ Hs) (surjective_pairing _))
    as [E _]; [|by split].
  right. exists EmptyRootSet. split; [concrete|done].
Defined.

Lemma remove_tag_safe_witness :
  ∃ freed w', remove_tag d_tree w_tagged2 = (Ok freed, w') ∧ node_file w' d_leaf = Some leaf_bytes.
Proof.
  destruct sound_tagged2 as [[Hi Hh Hw Hin Hex _] _].
  destruct (remove_tag_safe d_tree [d_leaf] w_tagged2 Hi Hh Hw Hin) as (freed & w' & E & _ & _ & Hk & _).
  - intros e. rewrite (Hex e). do 2 f_equal. apply occ_perm, Permutation_swap.
  - exists freed, w'. split; [exact E|]. destruct (Hk d_leaf) as [-> _]; [|concrete].
    by apply reachable_root, list_elem_of_singleton.
Defined.

Lemma remove_tag_complete_witness :
  ∃ freed w', remove_tag d_tree w_tagged = (Ok freed, w') ∧ ¬ is_Some (node_file w' d_leaf).
Proof.
  destruct sound_tagged as [[Hi Hh Hw Hin Hex _] _].
  destruct (remove_tag_complete d_tree [] w_tagged Hi Hh Hw Hin Hex w_tagged_no_garbage w_tagged_wf)
    as (freed & w' & E & Hk).
  exists freed, w'. split; [exact E|]. rewrite Hk. by intros [_ (r & ?%not_elem_of_nil & _)].
Defined.

Lemma put_keeps_counts_witness :
  ∃ w', put tree w_leaf = (Ok d_tree, w') ∧ rc_exact [] w'.
Proof.
  destruct sound_leaf as [[Hi Hh Hw Hin Hex Hb] _].
  destruct (put_keeps_counts tree tree_bytes w_leaf [] Hi Hh Hw) as (w' & E & _ & _ & He).
  - concrete.
  - intros e. pose proof (Hb e). pose proof (occ_length e (edges tree)). simpl in *.
    unfold u64_mod. lia.
  - exact Hex.
  - exists w'. exact (conj E He).
Defined.

Lemma put_get_witness : ∃ w', put leaf w_empty = (Ok d_leaf, w') ∧ (get_archived d_leaf w').1 = Ok leaf.
Proof.
  destruct sound_empty as [Hi Hh _ _ _ _].
  destruct (put_get leaf leaf_bytes w_empty Hi Hh) as (w' & E & Hg & _).
  - concrete.
  - left. concrete.
  - exists w'. exact (conj E Hg).
Defined.

Lemma walk_reachable_exact_witness :
  ∃ ns bs w', walk_reachable [d_tree] w_tagged = (Ok (ns, bs), w') ∧ d_leaf ∈ ns.
Proof.
  destruct sound_tagged as [[Hi Hh _ Hin _ _] _].
  pose proof (walk_reachable_exact [d_tree] w_tagged Hi Hh) as Hw.
  destruct (walk_reachable [d_tree] w_tagged) as [[[ns bs]|e] w'].
  - exists ns, bs, w'. split; [reflexivity|]. destruct Hw as (_ & Hns & _).
    apply Hns. split; [|concrete].
    exists d_tree. split; [by apply list_elem_of_singleton|]. apply rtc_once. unfold edge.
    assert (children w_tagged d_tree = [d_leaf; d_leaf]) as -> by (by vm_compute). left.
  - destruct Hw as (_ & d & _ & _ & Hc). by destruct (Hin d).
Defined.

Lemma get_transparent_bounded_witness :
  (get d_leaf w_leaf).1 = Ok leaf_bytes.
Proof.
  destruct sound_leaf as [[Hi Hh _ _ _ _] _].
  destruct (get_transparent_bounded d_leaf w_leaf _ _ DEFAULT_MAX_NODE_CACHE_BYTES Hi Hh eq_refl eq_refl
    (surjective_pairing _)) as [-> _].
  concrete.
Defined.

Definition demo_os2 : Os := MkOs {[ ["store"; "x"] := [Byte.x01] ]} ∅ ∅ 0 7.


(** A store with a left-over temporary file. *)
Definition w_tmp : World :=
  MkWorld (MkOs {[ ["store"; "node.rkyv.tmp.7.0000000000000001"] := [Byte.x01] ]} ∅ ∅ 0 7)
    (MmapStore_new demo_root).

Lemma recover_clean_witness :
  ∃ n f w', recover w_tmp = (Ok (n, f), w') ∧
    files (os w') !! ["store"; "node.rkyv.tmp.7.0000000000000001"] = None.
Proof.
  destruct (recover_clean w_tmp eq_refl) as (n & f & w' & E & _ & Hg & _).
  exists n, f, w'. split; [exact E|]. apply Hg; [|concrete].
  exists ["node.rkyv.tmp.7.0000000000000001"]. split; [discriminate|reflexivity].
Defined.

Lemma digest_text_roundtrip_witness :
  from_oci ("sha256:" +:+ as_hex d_leaf) = Ok d_leaf.
Proof. apply (digest_text_roundtrip d_leaf EmptyString d_leaf). Defined.

(** ** The guest protocol *)

Definition demo_frame : Frame :=
  WorkloadSpec ["/bin/sh"] ["A=b"] "/" true 24 80 [MkVsockMount "vol" "/data" true].

Lemma demo_sendable f : f ∈ [demo_frame; StdinEof] → sendable f.
Proof.
  intros Hf. rewrite !elem_of_cons in Hf. destruct Hf as [->|[->|?%not_elem_of_nil]]; [| |done].
  - split; [|by vm_compute]. simpl. unfold ok_list, ok_mount, ok_str, utf8, is_u32.
    split_and!; try (intros a ->%list_elem_of_singleton; split_and?);
      first [reflexivity | discriminate].
  - by split.
Qed.

Lemma stream_roundtrip_witness :
  read_n 2 read_frame ((for_each write_frame [demo_frame; StdinEof] []).2 ++ [Byte.x00]) =
    (Ok [demo_frame; StdinEof], [Byte.x00]).
Proof. apply (stream_roundtrip [demo_frame; StdinEof] [Byte.x00]). apply demo_sendable. Defined.

Lemma read_frame_refuses_witness :
  read_frame (be_bytes 4 16777217 ++ be_bytes 1 3 ++ []) =
    (Err (Protocol (PayloadTooLarge 16777217)), []).
Proof. apply (read_frame_refuses 16777217 3 []); by vm_compute. Defined.

Lemma decode_no_panic_witness : decode [] FrameType.WindowSize ≠ Err Panic.
Proof. apply (decode_no_panic FrameType.WindowSize []). discriminate. Defined.

Lemma decode_spec_panics_witness : decode short_mount FrameType.WorkloadSpec = Err Panic.
Proof. apply decode_spec_panics. Defined.
