(* ===== verification/LayerWitnesses.v ===== *)
(** * Concrete applications of the image properties

    A small layer, archive and directory on the concrete formats of [Demo.v]. *)

From stdpp Require Import base gmap strings list relations.
From Stdlib Require Import ZArith Ascii Lia.
From S2P Require Import Prelude Strs Utf8 Crates Node Instances Fs Worklist Store StoreFacts.
From S2P Require Import GcFacts RefcountFacts OciTypes Puller Archive HostFs Convert Materialize.
From S2P Require Import ConvertSpec UnpackSpec LayerSpec ConvertTermination.
From S2P Require Import Scan ScanSpec Push PushSpec Demo OpLock Gc Images.

(** ** Nodes that can be stored *)

(** No two nodes of the list share a digest, and each can be written. *)
Definition collision_free (ns : list DagNode) : bool :=
  forallb (λ n, bool_decide (is_Some (rkyv_to_bytes n)) &&
    forallb (λ m, negb (bool_decide (dig n = dig m)) || bool_decide (rkyv_to_bytes n = rkyv_to_bytes m)) ns) ns.

Lemma storable_empty (N : DagNode → Prop) ns :
  collision_free ns = true → (∀ n, N n → n ∈ ns) → storable N w_empty.
Proof.
  intros Hc HN. unfold collision_free in Hc. rewrite forallb_forall in Hc.
  assert (Hn : ∀ n, N n → is_Some (rkyv_to_bytes n) ∧
    ∀ m, N m → dig n = dig m → rkyv_to_bytes n = rkyv_to_bytes m).
  { intros n Hn. apply HN, list_elem_of_In, Hc, andb_true_iff in Hn as [Hs Hm].
    split; [by apply bool_decide_eq_true in Hs|]. intros m HNm E. rewrite forallb_forall in Hm.
    apply HN, list_elem_of_In, Hm in HNm. rewrite bool_decide_true in HNm by done. by apply bool_decide_eq_true in HNm. }
  pose proof sound_empty as [Hi Hh _ _ _ _]. constructor; [done|done|apply Hn|by left|by left|].
  intros n m HNn HNm. by apply Hn.
Qed.

(** ** A layer *)

Definition demo_member (p : string) (ty : EntryType) (data : bytes) : member :=
  MkMember p ty 420 (Z.of_nat (length data)) 0 0 0 None [] data.

Definition demo_members : list member :=
  [demo_member "d/" TDirectory []; demo_member "d/f" TOther [Byte.x2a]; demo_member "g" TOther [Byte.x2b]].

#[local] Instance demo_gz : GzDecoder := Some.
#[local] Instance demo_zstd : ZstdDecoder := Some.

(** Each archive is known by one byte. *)
Definition demo_archives (b : bytes) : option (list member) :=
  match b with
  | [Byte.x01] => Some demo_members
  | [Byte.x02] => Some [demo_member "/" TDirectory []]
  | [Byte.x03] => Some [demo_member "/etc/.wh.passwd" TOther []]
  | [Byte.x04] => Some [demo_member "d/" TDirectory []; demo_member "d/.wh..wh..opq" TOther []]
  | _ => None
  end.

#[local] Instance demo_layer_tar : LayerTar := λ b,
  option_map (λ l, (λ m, Some (item_of m)) <$> l) (demo_archives b).

Definition demo_ltree : ltree := default LNil (layer_tree 3 demo_members).

Definition layer_node_list (ms : list member) (t : ltree) : list DagNode :=
  DagNode.blob [] :: (DagNode.blob ∘ m_data <$> filter (λ m, m_is_file m = true) ms) ++
  (whiteout_node <$> layer_whiteouts ms) ++ tree_nodes t EmptyString ++ [layer_root t (layer_whiteouts ms)].

Lemma layer_nodes_listed ms t n : layer_nodes ms t n → n ∈ layer_node_list ms t.
Proof.
  unfold layer_nodes, layer_node_list. rewrite elem_of_cons, !elem_of_app, list_elem_of_singleton.
  intros [->|[(m & Hm & Hf & ->)|[?|[?|?]]]]; [by left| |tauto..].
  right. left. apply list_elem_of_fmap. exists m. split; [done|]. by apply list_elem_of_filter.
Qed.

Lemma demo_layer_storable : storable (layer_nodes demo_members demo_ltree) w_empty.
Proof. apply (storable_empty _ (layer_node_list demo_members demo_ltree)); [concrete|apply layer_nodes_listed]. Qed.


(** A member whose path is the text of its components. *)
Lemma demo_normal_member p ty data :
  kept (demo_member p ty data) = true → (ty = TDirectory ∨ ty = TOther) → components p ≠ [] →
  Forall normal_name (components p) → p = text (components p) ∨ p = text (components p) +:+ "/" →
  normal_member (demo_member p ty data).
Proof. by constructor. Qed.

Lemma demo_normal : normal_layer demo_members.
Proof.
  assert (components "d/" = ["d"] ∧ components "d/f" = ["d"; "f"] ∧ components "g" = ["g"]) as (Ed & Ef & Eg)
    by (by vm_compute).
  constructor.
  - constructor; [|constructor; [|constructor; [|constructor]]];
      (apply demo_normal_member; [by vm_compute|by auto|by vm_compute| |]).
    + rewrite Ed. repeat constructor; by vm_compute.
    + rewrite Ed. by right.
    + rewrite Ef. repeat constructor; by vm_compute.
    + rewrite Ef. by left.
    + rewrite Eg. repeat constructor; by vm_compute.
    + rewrite Eg. by left.
  - assert (comps <$> demo_members = [["d"]; ["d"; "f"]; ["g"]]) as -> by (by vm_compute).
    refine (proj1 (bool_decide_eq_true _) _). by vm_compute.
  - intros m bs c Hm Hbs E. exists (demo_member "d/" TDirectory []). split; [by left|]. split; [done|].
    unfold demo_members in Hm. rewrite !elem_of_cons in Hm.
    destruct Hm as [->|[->|[->|Hm%elem_of_nil]]]; [..|done]; unfold comps in *; cbn [m_path demo_member] in *.
    + rewrite Ed in E. by destruct bs as [|? [|]].
    + rewrite Ef in E. destruct bs as [|? [|? [|]]]; simplify_eq/=. done.
    + rewrite Eg in E. by destruct bs as [|? [|]].
Qed.

(** A host with an empty target. *)
Definition demo_host : HostFs := {[ ["root"] := MkInode Dir (default_meta Dir) ]}.

Lemma demo_plain : plain demo_host ["root"].
Proof.
  split; [set_solver|]. intros q k E. destruct q as [|c [|? ?]]; simplify_eq/=; done.
Qed.

Lemma demo_target_empty k : k ≠ [] → content_at demo_host (["root"] ++ k) = None.
Proof.
  intros Hk. unfold content_at. simpl. unfold demo_host. rewrite lookup_singleton_ne; [done|].
  intros [=]. by destruct k.
Qed.

Lemma layer_unpacked_witness :
  ∃ d w1 w2 fs', convert_layer 3 [Byte.x01] media_types.LAYER_TAR w_empty = (Ok d, w1) ∧
    materialize_layer 6 d ["root"] (MkMat w1 demo_host) = (Ok tt, MkMat w2 fs') ∧
    content_at fs' ["root"; "d"; "f"] = Some (File [Byte.x2a]).
Proof.
  destruct (layer_unpacked demo_members demo_ltree 3 6 [Byte.x01] media_types.LAYER_TAR [Byte.x01] w_empty ["root"] demo_host)
    as (d & w1 & w2 & fs' & Ec & Em & Hc & _).
  - reflexivity.
  - reflexivity.
  - exact demo_normal.
  - by repeat constructor.
  - repeat apply Forall_cons_2; [..|apply Forall_nil_2]; intros Hd; first [by vm_compute in Hd | by vm_compute].
  - concrete.
  - exact demo_layer_storable.
  - lia.
  - exact demo_plain.
  - exact demo_target_empty.
  - exists d, w1, w2, fs'. split; [exact Ec|]. split; [exact Em|]. by apply (Hc ["d"; "f"]).
Defined.

Lemma convert_layer_terminates_witness :
  convert_layer 9 [Byte.x01] media_types.LAYER_TAR w_empty = convert_layer 6 [Byte.x01] media_types.LAYER_TAR w_empty.
Proof.
  apply (convert_layer_terminates 3 [Byte.x01] media_types.LAYER_TAR 9 w_empty); [|lia].
  intros dec items [= <-] [= <-]. repeat apply Forall_cons_2; [..|apply Forall_nil_2];
    intros item p [= <-] [= <-]; (split; [simpl; lia|by vm_compute]).
Defined.

Lemma slash_member_diverges_witness :
  (convert_layer 50 [Byte.x02] media_types.LAYER_TAR w_empty).1 = Err OciError.OutOfFuel.
Proof.
  apply (slash_member_diverges (λ n, n = DagNode.blob []) (demo_member "/" TDirectory []) []
    [Byte.x02] media_types.LAYER_TAR [Byte.x02] 50 w_empty); try reflexivity.
  - apply (storable_empty _ [DagNode.blob []]); [concrete|]. intros n ->. left.
  - intros m ->%list_elem_of_singleton. done.
  - intros e He. assert (layer_whiteouts [demo_member "/" TDirectory []] = []) as Ew by (by vm_compute).
    rewrite Ew in He. by apply elem_of_nil in He.
Defined.

Lemma opaque_never_recorded_witness :
  WOpaqueDir "d" ∉ default [] ((λ r, r.2) <$> ok (extract_tar_entries_sync [Byte.x04] w_empty).1).
Proof.
  assert (Hok : is_ok (extract_tar_entries_sync [Byte.x04] w_empty).1 = true) by concrete.
  destruct (extract_tar_entries_sync [Byte.x04] w_empty) as [[[[entries idx] whs]|e] w'] eqn:E; [|discriminate Hok].
  exact (opaque_never_recorded [Byte.x04] w_empty entries idx whs w' E "d").
Defined.

(** A host with a file outside the target. *)
Definition passwd_host : HostFs :=
  <[["etc"] := MkInode Dir (default_meta Dir)]>
  (<[["etc"; "passwd"] := MkInode (File []) (default_meta (File []))]> demo_host).

Lemma absolute_whiteout_removes_witness :
  ∃ d w1 w2, convert_layer 1 [Byte.x03] media_types.LAYER_TAR w_empty = (Ok d, w1) ∧
    materialize_layer 2 d ["root"] (MkMat w1 passwd_host) = (Ok tt, MkMat w2 (delete ["etc"; "passwd"] passwd_host)).
Proof.
  apply (absolute_whiteout_removes (demo_member "/etc/.wh.passwd" TOther []) ["etc"] "passwd" [] 1 2
    [Byte.x03] media_types.LAYER_TAR [Byte.x03] w_empty ["root"] passwd_host).
  - done.
  - apply Forall_singleton. by vm_compute.
  - by vm_compute.
  - reflexivity.
  - done.
  - reflexivity.
  - reflexivity.
  - reflexivity.
  - reflexivity.
  - reflexivity.
  - apply (storable_empty _ (layer_node_list [demo_member "/etc/.wh.passwd" TOther []] LNil)); [concrete|apply layer_nodes_listed].
  - lia.
  - lia.
  - split; [set_solver|]. intros q k E. destruct q as [|c [|? ?]]; simplify_eq/=; by vm_compute.
  - by vm_compute.
Defined.

(** ** Archives of the store *)

Lemma w_tagged_addressed : addressed w_tagged.
Proof. intros d b. rewrite w_tagged_nodes. repeat case_decide; [subst; by intros [= <-]..|done]. Qed.

Definition daemon_on (w : World) : ImageService := MkImages (MkGcWorld w (MkOpDir ∅ 0 false)) ∅ ∅ (Some ∅) Saved false.

Lemma image_transfer_witness :
  ∃ chunks s1' stored dedup s2', export_image (as_hex d_tree) (daemon_on w_tagged) = (Ok (Ok <$> chunks), s1') ∧
    import_image (E := OciError.t) (Ok <$> chunks) (daemon_on w_empty) = (Ok (as_hex d_tree, stored, dedup), s2') ∧
    ∀ force res s3, gc false force s2' = (res, s3) → node_file (im_store s3) d_tree = Some tree_bytes.
Proof.
  pose proof (proj1 sound_tagged) as [Hi Hh _ Hin _ _]. pose proof sound_empty as [Hi0 Hh0 _ _ _ _].
  destruct (image_transfer (as_hex d_tree) d_tree
    (λ n b, text_of (as_hex d_tree, "dag", n, b)) (daemon_on w_tagged) (daemon_on w_empty))
    as (chunks & s1' & stored & dedup & s2' & Ee & _ & Ei & _ & Hn).
  - exact Hi.
  - exact Hh.
  - intros d b E. assert (cache (blob_cache (store w_tagged)) = ∅) as Ec by (by vm_compute).
    change (im_store (daemon_on w_tagged)) with w_tagged in E. by rewrite Ec, lookup_empty in E.
  - exact w_tagged_addressed.
  - apply from_hex_as_hex.
  - intros d _ Hc. exact (Hin d Hc).
  - reflexivity.
  - exact Hi0.
  - exact Hh0.
  - reflexivity.
  - reflexivity.
  - intros d _. left. reflexivity.
  - intros d _. left. reflexivity.
  - exists chunks, s1', stored, dedup, s2'. split; [exact Ee|]. split; [exact Ei|].
    intros force res s3 Eg. destruct (Hn false force res s3 d_tree Eg) as [-> _].
    + exists d_tree. split; [by left|apply rtc_refl].
    + change (im_store (daemon_on w_tagged)) with w_tagged. concrete.
    + change (im_store (daemon_on w_tagged)) with w_tagged. rewrite w_tagged_nodes. by rewrite decide_True.
Defined.

(** An archive with a node under a digest that is not its own. *)
Definition forged_tar : bytes := tar_build [(node_member d_tree, leaf_bytes)].


(** ** A scanned directory *)

Definition scan_host : HostFs := <[["root"; "g"] := MkInode (File [Byte.x2b]) (default_meta (File []))]> demo_host.

Definition demo_scan := scan_dir 4 ["root"] (MkMat w_empty scan_host).

Definition demo_dir : DirEntry :=
  MkDirEntry "/" true zero_digest 493 0 [MkDirEntry "g" false (dig (DagNode.blob [Byte.x2b])) 420 1 []].

Lemma demo_scanned : demo_scan = (Ok demo_dir, demo_scan.2).
Proof.
  assert (demo_scan.1 = Ok demo_dir) as E by concrete. rewrite <- E. apply surjective_pairing.
Qed.

Lemma demo_zero_free r w2 :
  build_dag_from_directory_with_platform 4 ["root"] "amd64" "linux" (MkMat w_empty scan_host) = (Ok r, MkMat w2 scan_host) →
  node_file w2 zero_digest = None.
Proof.
  intros E. change w2 with (mw_store (Ok (E := OciError.t) r, MkMat w2 scan_host).2). rewrite <- E. by vm_compute.
Qed.

Definition scan_nodes : list DagNode := DagNode.blob [Byte.x2b] :: image_nodes demo_dir "amd64" "linux".

Lemma read_host_inode p fs data : (read_host p fs).1 = Ok data → ∃ q i, fs !! q = Some i ∧ icontent i = File data.
Proof.
  unfold read_host, mbind, eff_bind, resolve, get_world. destruct (resolve_from _ fs true [] p) as [q|]; simpl; [|done].
  unfold content_at. case_decide; [done|]. destruct (fs !! q) as [i|] eqn:E; simpl; [|done].
  destruct (icontent i) eqn:Ei; simpl; [done| |done]. intros [= <-]. by exists q, i.
Qed.

Lemma read_link_inode p fs t : (read_link p fs).1 = Ok t → ∃ q i, fs !! q = Some i ∧ icontent i = Symlink t.
Proof.
  unfold read_link, mbind, eff_bind, resolve, get_world. destruct (resolve_from _ fs false [] p) as [q|]; simpl; [|done].
  unfold content_at. case_decide; [done|]. destruct (fs !! q) as [i|] eqn:E; simpl; [|done].
  destruct (icontent i) eqn:Ei; simpl; [done|done|]. intros [= <-]. by exists q, i.
Qed.

Lemma scan_host_inode q i : scan_host !! q = Some i → icontent i = File [Byte.x2b] ∨ icontent i = Dir.
Proof.
  unfold scan_host, demo_host. rewrite lookup_insert_Some, lookup_singleton_Some. intros [[_ <-]|[_ [_ <-]]]; auto.
Qed.

Lemma scanned_image_empty_witness :
  ∃ r w2, build_dag_from_directory_with_platform 4 ["root"] "amd64" "linux" (MkMat w_empty scan_host)
      = (Ok r, MkMat w2 scan_host) ∧
    ∃ w3, materialize_into 2 (dd_manifest_digest r) ["out"] (MkMat w2 ∅) = (Ok tt, MkMat w3 {[ ["out"] := MkInode Dir (MkMeta 493 0 0 0 ∅) ]}).
Proof.
  destruct (scanned_image_empty (λ n, n ∈ scan_nodes) 4 ["root"] "amd64" "linux" w_empty scan_host demo_dir demo_scan.2)
    as (r & w2 & Eb & Hi & _ & _ & _ & Hm).
  - apply (storable_empty _ scan_nodes); [concrete|done].
  - split.
    + intros p data (q & i & Hq & Hf)%read_host_inode. apply scan_host_inode in Hq as [Hq|Hq]; rewrite Hq in Hf; simplify_eq.
      left.
    + intros p t (q & i & Hq & Hf)%read_link_inode. apply scan_host_inode in Hq as [Hq|Hq]; rewrite Hq in Hf; simplify_eq.
  - exact demo_scanned.
  - reflexivity.
  - intros n Hn. right. exact Hn.
  - exists r, w2. split; [exact Eb|].
    destruct (Hm (demo_zero_free r w2 Eb) 2 ["out"] ltac:(simpl; lia) w2 ∅ Hi) as (w3 & E & _); [split; reflexivity|].
    exists w3. rewrite E. reflexivity.
Defined.

(** ** Images that leave the store *)

(** Archives that list their members. *)
#[local] Instance demo_builder : LayerBuilder := {|
  tar_accepts _ := true;
  tar_bytes l := text_of ((λ x, (te_path x, te_data x)) <$> l);
  gz_encode b := b;
  zstd_encoder := None;
|}.


#[local] Instance demo_push_json : OciWriteJson := {|
  manifest_to_vec m := Some (text_of (digest <$> m_config m :: layers m));
  config_to_vec c := Some (text_of (architecture c));
  index_to_vec i := Some (text_of (digest <$> i_manifests i));
|}.

#[local] Instance demo_tokens : OciJson := {|
  parse_manifest _ := None;
  parse_config _ := None;
  parse_index _ := None;
  parse_manifest_list _ := None;
  has_manifests _ := false;
  parse_token _ := None;
|}.

#[local] Instance demo_credentials : Puller.Base64 := λ s, s.

(** A registry that has no blobs and takes what it gets. *)
#[local] Instance demo_registry : HttpUpload unit := λ r _,
  (Some match pq_method r with
        | GET => MkPushResponse 404 None None
        | POST => MkPushResponse 202 (Some "/upload/1") None
        | PUT => MkPushResponse 201 None None
        end, tt).

Definition demo_image := build_dag_from_directory_with_platform 4 ["root"] "amd64" "linux" (MkMat w_empty scan_host).

Definition root_of {E} (r : result E DagDirectory) : string :=
  match r with Ok r => as_hex (dd_manifest_digest r) | Err _ => EmptyString end.

Definition demo_root : string :=
  root_of demo_image.1.

#[local] Existing Instance logged.

Definition demo_push := push 6 (DagPusher_new None ∅) demo_root "r.io/app:1"
  (MkPushWorld (mw_store demo_image.2) ([] : list exchange, tt)).

Lemma ok_run {E A B W} (r : result E (A * B) * W) :
  match r.1 with Ok _ => true | Err _ => false end = true → ∃ a b w, r = (Ok (a, b), w).
Proof. destruct r as [[[a b]|e] w]; [|discriminate]. intros _. by exists a, b, w. Qed.

