(* ===== verification/ServiceWitnesses.v ===== *)
(** * Concrete applications: policies, secrets, start order, control plane, Kubernetes shim

    Each property at one small input, on the concrete formats of [Demo.v]. *)

From stdpp Require Import base gmap strings list relations.
From Stdlib Require Import ZArith Ascii Lia.
From S2P Require Import Prelude Strs Utf8 Crates Node Instances Fs Worklist Store StoreFacts.
From S2P Require Import HostFs UnpackSpec Policy Secrets SecretsSpec Compose.
From S2P Require Import ControlPlane Dockerfile ScanSpec Demo.

(** ** Policies *)

Definition demo_key : CosignKey := MkCosignKey _ "release" [Byte.x01].
Definition demo_payload : string := canonical_payload "app" "aa".
Definition demo_signature : bytes := resize 64 Byte.x00 (Byte.x01 :: as_bytes demo_payload).
Definition demo_blob : SignatureBlob := MkSignatureBlob "release" demo_payload demo_signature.

Definition signed_policy : Policy := MkPolicy true false false None [] ∅ None [] [] false.
Definition demo_engine : PolicyEngine := MkEngine signed_policy [demo_key].

Definition w_signed : World :=
  (put_blob (signature_digest_for "app") (default [] (rkyv_to_bytes demo_blob)) w_empty).2.

Lemma w_signed_inv : store_inv w_signed.
Proof.
  unfold w_signed. destruct (put_blob _ _ w_empty) as [r w] eqn:E. eapply put_blob_inv; [apply sound_empty|exact E].
Qed.


Lemma signature_binds_manifest_witness :
  check_payload demo_engine demo_blob "app" "aa" = SigValid ∧ check_payload demo_engine demo_blob "app" "bb" ≠ SigValid.
Proof.
  destruct (signature_binds_manifest demo_engine demo_key "app" "aa" "bb" demo_signature) as [Hv Hn].
  - reflexivity.
  - reflexivity.
  - reflexivity.
  - reflexivity.
  - vm_compute. reflexivity.
  - split; [exact Hv|]. apply Hn. discriminate.
Defined.

(** A score that is not a number, then the highest score there is. *)
Lemma nan_hides_scores_witness :
  check_report (MkPolicy false false false None [] ∅ (Some 1088421888%Z) [] [] true)
    (MkSbomData [] [MkVulnerability "CVE-1" "a" 2143289344; MkVulnerability "CVE-2" "b" 1092616192] []) = None.
Proof.
  apply (nan_hides_scores (MkPolicy false false false None [] ∅ (Some 1088421888%Z) [] [] true) [] (MkVulnerability "CVE-1" "a" 2143289344)
    [MkVulnerability "CVE-2" "b" 1092616192] []); reflexivity.
Defined.

(** ** Secrets *)

Definition secret_host : HostFs := {[ ["data"] := MkInode Dir (default_meta Dir) ]}.
Definition secret_ops : list secret_op :=
  [OpCreate "db-pass" [Byte.x2a]; OpRead "db-pass"; OpCreate "db-pass" []; OpRemove "db-pass"; OpRead "db-pass"].

Lemma secrets_refine_witness :
  (run (impl_step ["data"]) secret_ops (MkSecretWorld secret_host 0 None)).1 = [Done; Data [Byte.x2a]; Exists; Done; Missing].
Proof.
  rewrite (secrets_refine ["data"] secret_ops secret_host 0).
  - vm_compute. reflexivity.
  - split; [set_solver|]. intros q k E. destruct q as [|c [|? ?]]; simplify_eq/=; done.
  - intros k Hk. unfold content_at. simpl. unfold secret_host. rewrite lookup_singleton_ne; [done|]. intros [=]. by destruct k.
  - repeat apply Forall_cons_2; [..|apply Forall_nil_2]; split; by vm_compute.
Defined.

(** ** Start order *)

Definition demo_services : Services := {[ "web" := ["db"]; "db" := [] ]}.

Lemma demo_depends a b : depends demo_services a b → a = "web" ∧ b = "db".
Proof.
  intros (deps & Hl & Hb & _). unfold demo_services in Hl.
  apply lookup_insert_Some in Hl as [[<- <-]|[_ Hl]].
  - by apply list_elem_of_singleton in Hb as ->.
  - apply lookup_singleton_Some in Hl as [_ <-]. by apply elem_of_nil in Hb.
Qed.

Lemma demo_acyclic : acyclic demo_services.
Proof.
  assert (Ht : ∀ a b, tc (depends demo_services) a b → a = "web" ∧ b = "db").
  { intros a b Hab. induction Hab as [a b Hab|a c b Hac _ [-> ->]]; [by apply demo_depends|].
    apply demo_depends in Hac as [_ [=]]. }
  intros a [-> [=]]%Ht.
Qed.

Lemma sortServices_topological_witness :
  ∃ l, sortServices 4 ["web"; "db"] demo_services = Some l ∧ topological demo_services l.
Proof.
  destruct (sortServices_topological demo_services ["web"; "db"] 4) as (l & E & _ & Ht).
  - exact demo_acyclic.
  - assert (elements (dom demo_services) = ["db"; "web"] ∨ elements (dom demo_services) = ["web"; "db"]) as [-> | ->]
      by (by vm_compute; auto); [apply Permutation_swap|reflexivity].
  - vm_compute. lia.
  - exists l. exact (conj E Ht).
Defined.

Lemma requested_service_dropped_witness :
  ∃ other, sortServices 4 ["web"] demo_services = Some [other] ∧ other ≠ "web".
Proof.
  apply (requested_service_dropped demo_services "web" "db" 4 demo_acyclic).
  - exists ["db"]. split; [reflexivity|]. split; [left|]. apply elem_of_dom. exists []. reflexivity.
  - vm_compute. lia.
Defined.

(** ** The control plane *)

Definition demo_node (id : string) (running : Z) : NodeRecord := MkNode id "10.0.0.1" 8 1024 ["runc"] 100 running.
Definition demo_cluster : FileStore :=
  MkStore ∅ {[ "n1" := demo_node "n1" 5; "n2" := demo_node "n2" 0 ]} ∅ ∅ ∅.
Definition demo_workload : WorkloadRecord := MkWorkload "wl-1" "web" "app" "runc" 100 64 ∅ 100 EmptyString "submitted".

Lemma schedule_best_witness :
  ∃ id, schedule_workload (map_to_list (nodes demo_cluster)) 101 (workloads demo_cluster) demo_workload = Ok id ∧ id = "n2".
Proof.
  pose proof (schedule_best (map_to_list (nodes demo_cluster)) 101 demo_cluster demo_workload) as Hs.
  specialize (Hs (reflexivity _)). destruct (schedule_workload _ _ _ _) as [id|e] eqn:E; [|by vm_compute in E].
  exists id. split; [reflexivity|]. destruct Hs as (n & Hn & _ & Hbest).
  - intros id' n' Hl ->. by vm_compute in Hl.
  - vm_compute in E. by injection E as <-.
Defined.

Definition demo_requests : FileStore := (register_node 100 "n1" "10.0.0.1" 8 1024 ["runc"] (newFileStore ∅ ∅ ∅)).2.


(** ** Dockerfiles *)

Definition demo_dockerfile : string :=
  "FROM golang AS build" +:+ nl +:+ "RUN go build" +:+ nl +:+ "FROM scratch" +:+ nl +:+ "COPY app /app".

Lemma parse_stages_witness :
  ∃ stages blocks, parse demo_dockerfile = Ok stages ∧ concat blocks = preprocess_lines demo_dockerfile ∧
    Forall2 stage_of blocks stages.
Proof.
  destruct (parse demo_dockerfile) as [stages|e] eqn:E; [|by vm_compute in E].
  destruct (parse_stages demo_dockerfile stages E) as [_ (blocks & Hb & Hf)].
  exists stages, blocks. exact (conj eq_refl (conj Hb Hf)).
Defined.

(** ** The Kubernetes shim *)

From S2P Require Import HostFs Exec Workload Service Cri CriSpec.

(** A runtime that knows which workloads run, with checkpoints as the codes of their
    fields. *)
#[local] Instance demo_runtime : RuntimeClient (gset string) := {|
  HasImage _ r := (None, r);
  rpc_PullImage _ _ r := (Some "00", r);
  RunWorkload req r :=
    match validate_workload_id (rq_id req) with
    | Ok _ => (Some (MkRunResponse (rq_id req) 7 (rq_backend req) "10.0.0.2"), {[rq_id req]} ∪ r)
    | Err _ => (None, r)
    end;
  StopWorkload id r := (Some tt, r ∖ {[id]});
  GetWorkload id r :=
    (if decide (id ∈ r) then Some (MkWorkloadStatus id "running" "container" 0 0 EmptyString false EmptyString 0 0) else None, r);
  ListWorkloads r :=
    (Some ((λ id, MkWorkloadStatus id "running" "container" 0 0 EmptyString false EmptyString 0 0) <$> elements r), r);
  UpdateWorkload _ _ _ r := (Some tt, r);
  ExecInWorkload _ _ r := (None, r);
  rpc_ListImages r := (Some [], r);
  rpc_RemoveImage _ r := (None, r);
  DagStoreInfo r := (None, r);
|}.

#[local] Instance demo_runtime_laws : RuntimeLaws (gset string).
Proof. intros req r resp r'. cbn. by destruct (validate_workload_id (rq_id req)) as [[]|]. Qed.

#[local] Instance demo_go_host : GoHost (gset string) := {|
  rand_read n r := (Some (replicate n Byte.x2a), r);
  time_now r := (1700000000000000000%Z, r);
|}.

#[local] Instance demo_go_host_laws : GoHostLaws (gset string).
Proof.
  split; [intros n r; eexists _, _; split; [done|apply length_replicate]|]. intros r. cbn. unfold go_time. lia.
Qed.

#[local] Instance demo_order : GoMapOrder := λ A l, l.
#[local] Instance demo_order_laws : GoMapOrderLaws.
Proof. by intros A l. Qed.
#[local] Instance demo_conversion : GoConversion := λ _, 0%Z.

Definition sandbox_fields (r : sandboxRecord) :=
  (sb_id r, sb_pullrun_id r, sb_namespace r, sb_name r, (sb_created_at r, sb_state r), sb_internal_ip r,
   (sb_runtime_class r, sb_bridge_name r, sb_host_network r)).

Definition container_fields (r : containerRecord) :=
  (ct_id r, ct_sandbox_id r, ct_pullrun_id r, ct_name r, ct_image r, ct_image_ref r, (ct_created_at r, ct_started_at r),
   (ct_state r, ct_exit_code r)).

#[local] Instance demo_cri_json : CriJson := {|
  sandbox_marshal cp := Some (text_of (sandbox_fields (cp_record cp), cp_dns_servers cp, cp_dns_searches cp, cp_dns_options cp));
  sandbox_unmarshal b :=
    (λ '(i, p, ns, n, (c, st), ip, (rc, br, h), a, s, o), MkSandboxCheckpoint (MkSandbox i p ns n c st ip rc br h None) a s o)
      <$> of_text b;
  container_marshal r := Some (text_of (container_fields r));
  container_unmarshal b :=
    (λ '(i, s, p, n, im, ir, (c, st), (x, e)), MkContainer i s p n im ir c st x e) <$> of_text b;
|}.

#[local] Instance demo_cri_json_laws : CriJsonLaws.
Proof.
  split; cbn.
  - by intros.
  - intros [[] a s o] b Hd [= <-]. rewrite of_text_of. simpl in *. by subst.
  - by intros.
  - intros [] b [= <-]. by rewrite of_text_of.
Qed.

Definition demo_shim : CriConfig := MkCriConfig ["run"] "bridge" 4000.

Definition shim_fs : HostFs :=
  <[["run"; "containers"] := MkInode Dir (default_meta Dir)]>
  (<[["run"; "sandboxes"] := MkInode Dir (default_meta Dir)]> {[ ["run"] := MkInode Dir (default_meta Dir) ]}).

Lemma shim_fs_fresh : fresh_store demo_shim shim_fs.
Proof.
  assert (Hp : ∀ d, d = "sandboxes" ∨ d = "containers" → plain shim_fs ["run"; d] ∧ ∀ c, content_at shim_fs (["run"; d] ++ [c]) = None).
  { intros d Hd. split; [split; [destruct Hd; subst; set_solver|]|].
    - intros [|a [|b [|]]] k E; simplify_eq/=; [done|done|by destruct Hd; subst].
    - intros c. unfold content_at. rewrite decide_False by done. unfold shim_fs.
      by rewrite !lookup_insert_ne, lookup_singleton_ne by by destruct Hd; subst. }
  intros dir [->| ->]; by apply Hp; auto.
Qed.

(** A pod with a container, which the kubelet starts. *)
Definition demo_pod : PodSandboxConfig := MkPodConfig "pod-1" "default" "web" ∅ false None.
Definition demo_container : ContainerConfig := MkContainerConfig "app" (Some "nginx") [] [] [] None None [] EmptyString.
Definition demo_cid : string := hex_encode (replicate 12 Byte.x2a).

Definition shim_requests : list request :=
  [ReqRunPodSandbox (Some demo_pod) EmptyString; ReqCreateContainer "pod-1" (Some demo_container); ReqStartContainer demo_cid].

Definition demo_shim_started : criServer (gset string) := serve_all demo_shim shim_requests (start_shim demo_shim shim_fs ∅).

Lemma related_some {A B} (P : A → B → Prop) x o : option_Forall2 P (Some x) o → ∃ y, o = Some y ∧ P x y.
Proof. inversion 1. eauto. Qed.


Definition demo_pod_runs : criServer (gset string) := serve demo_shim (ReqRunPodSandbox (Some demo_pod) EmptyString) (start_shim demo_shim shim_fs ∅).

Lemma removal_leaks_witness :
  ∃ s1 s2, CreateContainer demo_shim "pod-1" (Some demo_container) demo_pod_runs = (Ok demo_cid, s1) ∧
    RemoveContainer demo_shim demo_cid s1 = (Ok tt, s2) ∧ containers s2 !! demo_cid = None ∧
    containerWorkloadID demo_cid ∈ runtime s2.
Proof.
  assert (Ho : (CreateContainer demo_shim "pod-1" (Some demo_container) demo_pod_runs).1 = Ok demo_cid) by (vm_compute; reflexivity).
  assert (Hr : bool_decide (containerWorkloadID demo_cid ∈ runtime (CreateContainer demo_shim "pod-1" (Some demo_container) demo_pod_runs).2) = true)
    by (vm_compute; reflexivity).
  destruct (CreateContainer demo_shim "pod-1" (Some demo_container) demo_pod_runs) as [o s1] eqn:E. simpl in Ho, Hr. subst o.
  destruct (removal_leaks demo_shim "pod-1" (Some demo_container) demo_pod_runs demo_cid s1 E) as (_ & (s2 & E2 & Hc & Hrt) & _).
  exists s1, s2. split; [reflexivity|]. split; [exact E2|]. split; [exact Hc|]. rewrite Hrt. by apply bool_decide_eq_true in Hr.
Defined.
