(* ===== verification/NetWitnesses.v ===== *)
(** * Concrete applications of the network's properties *)

From stdpp Require Import base gmap strings list relations.
From Stdlib Require Import ZArith Ascii Lia.
From S2P Require Import Prelude Strs Utf8 Ipam Dns NetSpec Net Firewall.

(** ** Addresses *)

(** [10.42.0.0/16]. *)
Definition demo_range : IpRange := MkIpRange 170524672 65536.

Lemma demo_range_ok : range_ok demo_range.
Proof. unfold range_ok, u32_mod. simpl. lia. Qed.

Lemma range_from_cidr_spec_witness :
  ∃ addr len ip prefix, split "10.42.7.1/16" "/"%char = [addr; len] ∧ parse_ipv4 addr = Some ip ∧
    parse_u32 len = Some prefix ∧ (0 ≤ prefix ≤ 32)%Z ∧
    ((1 ≤ prefix)%Z → size demo_range = (2 ^ (32 - prefix))%Z ∧
       (base demo_range `mod` size demo_range = 0)%Z ∧
       (base demo_range ≤ ip < base demo_range + size demo_range)%Z ∧
       (base demo_range + size demo_range ≤ u32_mod)%Z).
Proof. apply (range_from_cidr_spec "10.42.7.1/16" demo_range). vm_compute. reflexivity. Defined.

(** Two threads load the same counter; the first to exchange wins, the second
    starts over and gets the next address. *)
Lemma demo_alloc :
  ∃ s, rtc (alloc_step demo_range) (MkAlloc 2 (<[0 := Idle]> {[1 := Idle]})) s ∧
    threads s !! 0 = Some (Got 170524674) ∧ threads s !! 1 = Some (Got 170524675).
Proof.
  eexists. split.
  { eapply rtc_l; [apply (step_load _ 0); [reflexivity|by vm_compute]|].
    eapply rtc_l; [apply (step_load _ 1); [reflexivity|by vm_compute]|].
    eapply rtc_l; [apply (step_cas _ 0); reflexivity|].
    eapply rtc_l; [apply (step_retry _ 1 _ 2); [reflexivity|by vm_compute]|].
    eapply rtc_l; [apply (step_load _ 1); [reflexivity|by vm_compute]|].
    eapply rtc_l; [apply (step_cas _ 1); reflexivity|]. apply rtc_refl. }
  split; vm_compute; reflexivity.
Qed.

Lemma allocate_unique_witness : 170524674%Z ≠ 170524675%Z.
Proof.
  destruct demo_alloc as (s & Hs & H0 & H1).
  destruct (allocate_unique demo_range (<[0 := Idle]> {[1 := Idle]}) s 0 1 170524674 170524675 demo_range_ok)
    as [Hn _]; [|exact Hs|exact H0|exact H1|by apply Hn].
  intros t th. rewrite lookup_insert_Some, lookup_singleton_Some. naive_solver.
Defined.

Definition demo_ipam : Ipam := (subnet_for None "br0" (Ipam_new demo_range)).2.

Lemma demo_subnets_inv : subnets_inv demo_ipam.
Proof.
  assert (E : subnets demo_ipam = {[ "br0" := MkIpRange 170524672 256 ]}) by (vm_compute; reflexivity).
  split.
  - intros k s. rewrite E, lookup_singleton_Some. intros [<- <-]. split; [done|]. exists 0%Z.
    split_and!; by vm_compute.
  - intros k k' s s'. rewrite E, !lookup_singleton_Some. naive_solver.
Qed.

Lemma subnet_for_disjoint_witness :
  ∃ s i', subnet_for None "br1" demo_ipam = (Some s, i') ∧ base s ≠ 170524672%Z.
Proof.
  exists (MkIpRange 170524928 256), (subnet_for None "br1" demo_ipam).2.
  assert (E : subnet_for None "br1" demo_ipam =
    (Some (MkIpRange 170524928 256), (subnet_for None "br1" demo_ipam).2)) by (vm_compute; reflexivity).
  split; [exact E|].
  destruct (subnet_for_disjoint None "br1" demo_ipam _ _ demo_range_ok ltac:(by vm_compute) ltac:(by vm_compute)
    demo_subnets_inv E) as (_ & _ & _ & _ & Hd).
  destruct (Hd "br0" (MkIpRange 170524672 256)) as [Hb|Hb]; [discriminate|vm_compute; reflexivity| |];
    simpl in *; lia.
Defined.

Lemma allocate_in_unique_witness :
  NoDup (allocate_all [MkIpRange 170524672 256; MkIpRange 170524672 256] (Ipam_new demo_range)).1.
Proof.
  set (l := [MkIpRange 170524672 256; MkIpRange 170524672 256]).
  destruct (allocate_in_unique (λ s, s = MkIpRange 170524672 256) demo_range l
    (allocate_all l (Ipam_new demo_range)).1 (allocate_all l (Ipam_new demo_range)).2) as [Hn _];
    [| |reflexivity|exact Hn].
  - split; [intros s ->; by vm_compute|]. intros s s' -> ->. by left.
  - unfold l. intros s. rewrite !elem_of_cons. intros [->|[->|?%not_elem_of_nil]]; done.
Defined.

Lemma allocators_overlap_witness :
  let i := Ipam_new demo_range in
  let '(a, i) := allocate i in
  let '(s, i) := subnet_for None "br0" i in
  ∃ subnet, s = Some subnet ∧ (allocate_in subnet i).1 = a ∧ a = Some (base demo_range + 2)%Z.
Proof. apply (allocators_overlap demo_range demo_range_ok). by vm_compute. Defined.

(** ** Names *)

Lemma demo_labels l : l ∈ ["web"; "local"] → ok_label l.
Proof.
  rewrite !elem_of_cons. intros [->|[->|?%not_elem_of_nil]]; [| |done];
    (split; [discriminate|]); repeat split; try (by vm_compute); apply Nat.ltb_lt; reflexivity.
Qed.

Lemma qname_roundtrip_witness :
  parse_qname (encode_name "web.local" ++ byte_of 0 :: [byte_of 1]) = Some "web.local".
Proof. apply (qname_roundtrip ["web"; "local"] [byte_of 1]); [discriminate|apply demo_labels]. Defined.

Definition demo_dns : DnsProxy := add_record "web.local" "10.42.0.2" (DnsProxy_new "127.0.0.1:53" "8.8.8.8:53").

Lemma local_answer_witness :
  ∃ resp, handle_query (λ _, None) demo_dns
    (repeat (byte_of 0) 12 ++ encode_name "web.local" ++ byte_of 0 :: (byte_of <$> [0; 1; 0; 1]%Z)) = Some resp.
Proof.
  destruct (local_answer (λ _, None) demo_dns (repeat (byte_of 0) 12) ["web"; "local"]
    (byte_of <$> [0; 1; 0; 1]%Z) "10.42.0.2" 170524674) as (resp & E & _);
    [reflexivity|discriminate|apply demo_labels|reflexivity|vm_compute; reflexivity|].
  exists resp. exact E.
Defined.

(** ** Workloads *)

Definition demo_net : ProxyNetwork := with_shared_ipam (Ipam_new demo_range) {[443%Z]} (λ _, None).

Lemma setup_teardown_witness :
  ∃ ep n', setup "w" [inbound_mapped 8080 80] demo_net = (Ok ep, n') ∧
    host_port_mappings ep = [(8080, 80)%Z].
Proof.
  destruct (setup "w" [inbound_mapped 8080 80] demo_net) as [[ep|e] n'] eqn:E.
  2: { exfalso. vm_compute in E. discriminate. }
  destruct (setup_teardown "w" [inbound_mapped 8080 80] demo_net ep n') as [Hm _].
  - by split; [intros w hs|intros w w' hs hs' _|intros b q].
  - reflexivity.
  - exact E.
  - exists ep, n'. split; [reflexivity|exact Hm].
Defined.

Lemma failed_setup_leaks_witness :
  ∃ n', register_endpoint "w" "10.42.0.2" [inbound 80; inbound 443] demo_net = (Err (SetupFailed (BindFailed 443)), n') ∧
    active_sessions n' = active_sessions demo_net ∧ 80%Z ∈ bound n' ∧ teardown "w" n' = (Ok tt, n').
Proof. apply (failed_setup_leaks "w" "10.42.0.2" 80 443 demo_net); set_solver by lia. Defined.

(** ** Firewall

    A host whose only state is its rule list. *)

Definition parse_rule (args : list string) : option (string * Iptables.rule) :=
  match args with
  | "-t" :: t :: letter :: spec => Some (letter, Iptables.MkRule ["-t"; t] spec)
  | letter :: spec => Some (letter, Iptables.MkRule [] spec)
  | [] => None
  end.

#[export] Instance rule_host : Host (list Iptables.rule) := λ cmd args _ l,
  match parse_rule args with
  | Some (letter, r) =>
    if decide (letter = "-C") then (CmdExit (bool_decide (r ∈ l)) EmptyString, l)
    else if decide (letter = "-A") then (CmdExit true EmptyString, l ++ [r])
    else if decide (letter = "-D") then (CmdExit (bool_decide (r ∈ l)) EmptyString, remove_first r l)
    else (CmdExit false EmptyString, l)
  | None => (CmdExit false EmptyString, l)
  end.

Lemma rule_host_laws b c o : iptables_laws (H := list Iptables.rule) id b c o.
Proof.
  split; intros h r; unfold Iptables.nat_rules; rewrite !elem_of_cons;
    (intros [->|[->|[->|?%not_elem_of_nil]]]; [..|done]); do 2? eexists; split || reflexivity; reflexivity.
Qed.

Lemma enable_nat_idempotent_witness :
  ∃ h', Iptables.enable_nat "br0" "10.42.0.0/24" "eth0" ([] : list Iptables.rule) = (Ok true, h') ∧
    Iptables.enable_nat "br0" "10.42.0.0/24" "eth0" h' = (Ok false, h').
Proof.
  destruct (enable_nat_idempotent id "br0" "10.42.0.0/24" "eth0"
    (rule_host_laws "br0" "10.42.0.0/24" "eth0") []) as (h' & E & _ & E').
  exists h'. split; [exact E|exact E'].
Defined.

Lemma enable_disable_nat_witness :
  ∃ h1 h2, Iptables.enable_nat "br0" "10.42.0.0/24" "eth0" ([] : list Iptables.rule) = (Ok true, h1) ∧
    Iptables.disable_nat "br0" "10.42.0.0/24" "eth0" h1 = (Ok tt, h2) ∧ h2 = [].
Proof.
  destruct (enable_disable_nat id "br0" "10.42.0.0/24" "eth0"
    (rule_host_laws "br0" "10.42.0.0/24" "eth0") []) as (h1 & h2 & E1 & E2 & _ & E).
  - intros r _. apply not_elem_of_nil.
  - exists h1, h2. split; [exact E1|]. split; [exact E2|exact E].
Defined.

Lemma rules_present_partial_witness :
  let h := [Iptables.masquerade "10.42.0.0/24" "eth0"] in
  Iptables.rules_present "br0" "10.42.0.0/24" "eth0" h = (Ok true, h) ∧
  (Iptables.enable_nat "br0" "10.42.0.0/24" "eth0" h).1 = Ok true.
Proof.
  intros h. apply (rules_present_partial id "br0" "10.42.0.0/24" "eth0"
    (rule_host_laws "br0" "10.42.0.0/24" "eth0") h).
  - left.
  - intros E%list_elem_of_singleton. discriminate E.
Defined.
