(* ===== verification/SyncWitnesses.v ===== *)
(** * Concrete applications of the pull and block exchange properties

    A registry with one image behind an index, and nodes that exchange blobs. *)

From stdpp Require Import base gmap strings list.
From Stdlib Require Import ZArith Lia Ascii.
From S2P Require Import Prelude Strs Crates Node Instances Fs Store StoreFacts.
From S2P Require Import OciTypes Puller Sync Demo.
From S2P Require Bloom.

(** ** A registry *)

Definition layer_bytes : bytes := as_bytes "L".
Definition config_bytes : bytes := as_bytes "C".
Definition manifest_bytes : bytes := as_bytes "M".
Definition index_bytes : bytes := as_bytes "I".

Definition describe (b : bytes) (p : option OciPlatform) : OciDescriptor :=
  MkDescriptor media_types.LAYER_TAR (sha256_of b) 1 None None None p None.

Definition demo_layer : OciDescriptor := describe layer_bytes None.
Definition demo_child : OciDescriptor :=
  describe manifest_bytes (Some (MkPlatform "amd64" "linux" None None None)).

Definition demo_manifest : OciManifest :=
  MkManifest 2 media_types.IMAGE_MANIFEST None (describe config_bytes None) [demo_layer] None None.

Definition demo_config : OciImageConfig :=
  MkImageConfig None None "amd64" "linux" None None None None (MkRootFs "layers" []) None.

#[export] Instance demo_json : OciJson := {
  parse_manifest b := if decide (b = manifest_bytes) then Some demo_manifest else None;
  parse_config b := if decide (b = config_bytes) then Some demo_config else None;
  parse_index _ := None;
  parse_manifest_list b := if decide (b = index_bytes) then Some [demo_child] else None;
  has_manifests b := bool_decide (b = index_bytes);
  parse_token _ := None;
}.

#[export] Instance demo_gz : GzDecoder := Some.
#[export] Instance demo_base64 : Base64 := λ s, s.

Definition demo_puller : OciPuller := OciPuller_new None.
Definition repo : string := "library/alpine".

Definition reply (b : bytes) : Response := MkResponse 200 None None (Some b).

Definition demo_serve (r : Request) : option Response :=
  let u := url r in
  let m := manifest_url demo_puller "docker.io" repo in
  let bl := blob_url demo_puller "docker.io" repo in
  if decide (u = m "latest") then Some (reply index_bytes)
  else if decide (u = m (sha256_of manifest_bytes)) then Some (reply manifest_bytes)
  else if decide (u = bl (sha256_of config_bytes)) then Some (reply config_bytes)
  else if decide (u = bl (sha256_of layer_bytes)) then Some (reply layer_bytes)
  else Some (MkResponse 404 None None (Some [])).

#[export] Instance demo_http : HttpClient unit := λ r h, (demo_serve r, h).

Definition demo_image : PulledImage :=
  MkPulledImage demo_manifest demo_config (compute config_bytes)
    [(compute layer_bytes, layer_bytes, media_types.LAYER_TAR)].

Lemma demo_leads : leads_to "x86_64" demo_puller demo_serve "docker.io" repo None None 2 "latest" demo_manifest.
Proof.
  eapply leads_index with (resp := reply index_bytes) (b := index_bytes) (child := demo_child);
    [split; [concrete|exists index_bytes; split; concrete]|concrete|discriminate|concrete|concrete|concrete|].
  eapply leads_manifest with (resp := reply manifest_bytes) (b := manifest_bytes);
    [split; [concrete|exists manifest_bytes; split; concrete]|concrete|intros _; concrete|concrete|concrete].
Qed.

Lemma pull_complete_witness :
  pull_with_platform "x86_64" demo_puller 2 "alpine" (Some "docker.io") None tt = (Ok demo_image, tt).
Proof.
  apply (pull_complete "x86_64" demo_puller demo_serve (λ r h, eq_refl) 2 "alpine" (Some "docker.io") None
    None demo_manifest demo_config config_bytes (λ _, layer_bytes) tt).
  - concrete.
  - exact demo_leads.
  - reflexivity.
  - concrete.
  - exists (reply config_bytes). split; [concrete|]. exists config_bytes. split; concrete.
  - intros l Hl. apply list_elem_of_singleton in Hl as ->. split; [reflexivity|].
    exists (reply layer_bytes). split; [concrete|]. exists layer_bytes. split; concrete.
Defined.


Lemma digest_reference_split_witness :
  image_parts "alpine@sha256:00ff" "docker.io" = ("library/alpine@sha256", "00ff").
Proof. apply (digest_reference_split "alpine" "00ff"); reflexivity. Defined.

(** ** Filters *)

#[export] Instance demo_sizing : Bloom.BloomSizing := {
  Bloom.f64 := unit; Bloom.DEFAULT_FP_RATE := tt; Bloom.ceil_m _ _ := 128%Z; Bloom.ceil_k _ _ := 3%Z }.

#[export] Instance demo_sizing_laws : Bloom.BloomSizingLaws.
Proof. by split. Qed.

Lemma bloom_no_false_negatives_witness :
  ∃ f, Bloom.insert_all ["00ff"; "aa11"] (Bloom.optimal 10) = Some f ∧ Bloom.contains "aa11" f = Some true.
Proof.
  destruct (Bloom.bloom_no_false_negatives 10 ["00ff"; "aa11"]) as (f & E & Hc & _).
  exists f. split; [exact E|]. apply Hc. right. left.
Defined.

Lemma gossip_finds_blobs_witness :
  ∃ f, Bloom.insert_all ["00ff"] (Bloom.optimal 10) = Some f ∧
    let c' := Bloom.update "n1" "10.0.0.2:7000"
      (Bloom.MkPeer "n1" "10.0.0.2:7000" (Bloom.to_bytes f) (Bloom.k f) (Bloom.m f) 100) ∅ in
    ∃ r, Bloom.find_peers_with_blob 160 "00ff" c' = Some r ∧ ("n1", "10.0.0.2:7000") ∈ r.
Proof.
  apply (Bloom.gossip_finds_blobs 10 ["00ff"] 160 100 "n1" "10.0.0.2:7000" ∅ "00ff").
  - concrete.
  - left.
  - intros info Hi. by rewrite lookup_empty in Hi.
  - intros i info Hi. by rewrite lookup_empty in Hi.
Defined.

Lemma zero_filter_panics_witness :
  Bloom.find_peers_with_blob 160 "00ff" (Bloom.update "n1" "10.0.0.2:7000"
    (Bloom.MkPeer "n1" "10.0.0.2:7000" (le_bytes 8 0 ++ le_bytes 4 1) 1 0 100) ∅) = None.
Proof.
  apply (Bloom.zero_filter_panics 160 100 "n1" "10.0.0.2:7000" 1 ∅ "00ff"); [by vm_compute..|reflexivity].
Defined.

(** ** Blob exchange *)

Definition blob_data : bytes := as_bytes "blob".
Definition d_blob : Digest := compute blob_data.
Definition w_blob : World := (put_blob d_blob blob_data w_empty).2.

Lemma peer_transfer_witness :
  collect_stream (Some <$> (get_blobs [as_hex d_blob] (BlockSyncService_new w_blob)).1) [] = Some blob_data.
Proof.
  assert (E : get_blob d_blob (svc_world (BlockSyncService_new w_blob)) =
    (Ok blob_data, (get_blob d_blob w_blob).2)) by (vm_compute; reflexivity).
  assert (Ed : from_hex (as_hex d_blob) = Ok d_blob) by (vm_compute; reflexivity).
  assert (Hs : (0 ≤ bytes_sent (BlockSyncService_new w_blob) < u64_mod)%Z) by (split; [discriminate|reflexivity]).
  pose proof (peer_transfer (as_hex d_blob) d_blob blob_data (BlockSyncService_new w_blob) _ Ed E
    ltac:(discriminate) Hs) as Ht.
  destruct (get_blobs [as_hex d_blob] (BlockSyncService_new w_blob)) as [cs s']. exact (proj1 Ht).
Defined.

Lemma announced_bare_witness : as_hex d_blob ≠ "sha256:" +:+ as_hex d_blob.
Proof.
  apply (announced_bare 0 w_blob (as_hex d_blob) (as_hex d_blob)).
  assert (E : collect_blob_digests 0 w_blob = [as_hex d_blob]) by (vm_compute; reflexivity).
  rewrite E. left.
Defined.

#[export] Instance demo_peers : PeerNet unit := λ _ _ h, (None, h).
#[export] Instance demo_clock : Clock unit := λ _, 0%Z.

Definition demo_pull : PullWorld unit := MkPull w_empty tt.

Lemma sync_pull_integrity_witness : verified_image demo_image.
Proof.
  destruct (sync_pull_integrity "x86_64" (λ _, True) (MkSyncPuller demo_puller (Some ∅)) 2 "alpine"
    (Some "docker.io") None demo_pull demo_image
    (sync_pull "x86_64" (MkSyncPuller demo_puller (Some ∅)) 2 "alpine" (Some "docker.io") None demo_pull).2)
    as [Hv _]; [| | |exact Hv].
  - destruct sound_empty as [Hi _ _ _ _ _]. split; [exact Hi|]. intros d b _ [Hb|Hb]; discriminate Hb.
  - vm_compute. reflexivity.
  - intros. exact I.
Defined.

Lemma sync_blobs_verified_witness :
  blob_file (svc_world (sync_blobs [MkSyncBlob (as_hex d_blob) layer_bytes] (BlockSyncService_new w_empty))) d_blob
    = None.
Proof.
  destruct (sync_blobs_verified [MkSyncBlob (as_hex d_blob) layer_bytes] (BlockSyncService_new w_empty))
    as [_ Hb].
  destruct (blob_file _ d_blob) as [b|] eqn:E; [|reflexivity]. exfalso.
  destruct (Hb d_blob b E) as [Hf|Hf]; [discriminate Hf|]. vm_compute in E. discriminate E.
Defined.
