(* ===== verification/ImagesWitnesses.v ===== *)
(** * The image table on concrete stores

    A concrete state for each property of the image table, and a run in which the
    start-up and a removal lose a part of a kernel image. *)

From stdpp Require Import base gmap strings list relations.
From Stdlib Require Import ZArith Lia.
From S2P Require Import Prelude Strs Crates Node Instances Fs Worklist Store StoreFacts.
From S2P Require Import GcFacts OpLock Gc RefcountFacts RemoveTag Net Exec Workload Images ImagesSpec Demo.

Definition image_service (w : World) (tags : gmap string string) (wl : gmap string WorkloadState) :
    ImageService :=
  MkImages (MkGcWorld w (MkOpDir ∅ 0 false)) tags wl (Some tags) Saved false.

Lemma sound_images T w k tags wl :
  sound (tag_roots tags ++ T) w k → images_ok T (image_service w tags wl).
Proof. by intros []. Qed.

(** The tree tagged as an application. *)
Definition app_tags : gmap string string := {[ as_hex d_tree := "app" ]}.
Definition app_service : ImageService := image_service w_tagged app_tags ∅.

Lemma app_ok : images_ok [] app_service.
Proof.
  apply (sound_images _ _ 3). assert (tag_roots app_tags ++ [] = [d_tree]) as -> by (by vm_compute).
  apply sound_tagged.
Qed.

Lemma tag_image_counts_witness :
  ∃ s', tag_image d_tree "again" app_service = (Ok tt, s') ∧ images_ok [d_tree] s'.
Proof.
  destruct (tag_image_counts d_tree "again" [] app_service app_ok) as (s' & E & _ & _ & Hok & _).
  - concrete.
  - exists s'. split; [exact E|].
    assert (image_tags app_service !! as_hex d_tree = Some "app") as Hs by (by vm_compute).
    rewrite Hs in Hok. exact Hok.
Defined.

Lemma remove_image_exact_witness :
  ∃ freed s', remove_image (as_hex d_tree) app_service = (Ok freed, s') ∧ images_ok [] s'.
Proof.
  destruct (remove_image_exact (as_hex d_tree) d_tree "app" [] app_service app_ok)
    as (freed & s' & E & _ & _ & Hok & _).
  - apply from_hex_as_hex.
  - concrete.
  - intros id ws E. by vm_compute in E.
  - exists freed, s'. exact (conj E Hok).
Defined.

Lemma gc_request_safe_witness :
  node_file (im_store (gc false true app_service).2) d_leaf = Some leaf_bytes.
Proof.
  destruct (gc_request_safe false true app_service _ _ (ok_inv _ _ app_ok) eq_refl (surjective_pairing _))
    as (_ & _ & _ & Hk).
  destruct (Hk d_tree d_leaf) as [-> _].
  - left. exists (as_hex d_tree), "app". split; [concrete|apply from_hex_as_hex].
  - apply rtc_once. unfold edge.
    assert (children (im_store app_service) d_tree = [d_leaf; d_leaf]) as -> by (by vm_compute). left.
  - concrete.
  - concrete.
Defined.

(** The tree stored and its tag saved, but not yet counted. *)
Definition crashed_service : ImageService :=
  MkImages (MkGcWorld w_tree (MkOpDir ∅ 0 false)) ∅ ∅ (Some app_tags) Saved false.

Lemma w_tree_nodes d : node_file w_tree d = node_file w_tagged d.
Proof. by rewrite (frame_node _ _ _ (proj2 sound_tagged)). Qed.

Lemma w_tree_edge a b : edge w_tree a b → a = d_tree ∧ b = d_leaf.
Proof.
  intros He. apply w_tagged_edge. revert He. unfold edge. by rewrite !children_edges_of, w_tree_nodes.
Qed.

Lemma w_tree_leaf : edge w_tree d_tree d_leaf.
Proof. unfold edge. assert (children w_tree d_tree = [d_leaf; d_leaf]) as -> by (by vm_compute). left. Qed.

Lemma w_tree_reachable d : is_Some (node_file w_tree d) → reachable w_tree [d_tree] d.
Proof.
  rewrite w_tree_nodes, w_tagged_nodes. intros Hd. exists d_tree. rewrite list_elem_of_singleton.
  split; [done|]. case_decide; [by subst|]. case_decide; [subst|by destruct Hd].
  apply rtc_once, w_tree_leaf.
Qed.

Lemma startup_counts_exact_witness :
  ∃ s', startup crashed_service = (Ok tt, s') ∧ images_ok [] s'.
Proof.
  destruct sound_tree as [[Hi Hh Hw Hin Hex Hb] _].
  assert (Hr : tag_roots (default ∅ (saved_tags crashed_service)) ++ wl_roots (workloads crashed_service)
    = [d_tree]) by (by vm_compute).
  pose proof (startup_counts_exact crashed_service) as Hs. cbv zeta in Hs. rewrite Hr in Hs.
  destruct Hs as (s' & E & _ & Hok & _); [exact Hi|exact Hh|exact Hw|exact Hin| |reflexivity|..].
  - change (closed w_tree). intros a b [_ ->]%w_tree_edge. concrete.
  - intros d. change (im_store crashed_service) with w_tree. pose proof (Hb d). pose proof (Hex d) as He.
    pose proof (occ_length d [d_tree]). simpl in *. unfold u64_mod. unfold occ at 1 in He. simpl in He. lia.
  - apply w_tree_reachable.
  - intros d Hd. change (im_store crashed_service) with w_tree in *. rewrite (Hex d).
    pose proof (in_refs_nonneg (node_map w_tree) d).
    destruct (decide (in_refs (node_map w_tree) d = 0)%Z) as [->|]; [done|].
    destruct (in_refs_pos w_tree d) as (p & [_ ->]%w_tree_edge); [lia|].
    destruct Hd. exists d_tree. split; [by apply list_elem_of_singleton|]. apply rtc_once, w_tree_leaf.
  - exists s'. exact (conj E Hok).
Defined.

Lemma tag_commit_deadlock_witness : ∃ s', tag_commit d_tree "snap" app_service = (Err WaitsForever, s').
Proof.
  destruct (tag_commit_deadlock d_tree "snap" app_service) as (s' & E & _); [discriminate|reflexivity|].
  exists s'. exact E.
Defined.

(** ** A kernel image *)

(** The leaf is tagged; the tree above it is the kernel image of a workload that
    runs from another image. *)
Definition shell : DagNode := DagNode.blob [Byte.x07].
Definition shell_bytes : bytes := default [] (rkyv_to_bytes shell).
Definition d_shell : Digest := compute shell_bytes.

Definition w_kernel : World :=
  (increment_refcount d_leaf (increment_refcount d_shell (put shell w_tree).2).2).2.
Definition kernel_tags : gmap string string := {[ as_hex d_leaf := "app"; as_hex d_shell := "shell" ]}.

(** A running workload with the given images. *)
Definition demo_state (root kernel_ref kernel_digest : string) : WorkloadState :=
  MkState "running" 100 0 None "vm" None 7 root [] [] ∅ kernel_ref kernel_digest "/" None None "starting" 0 0
    RestartPolicy.No 0 ∅ None None None "bridge" [] false false false None [] (MkDns [] [] []) None.

Definition kernel_service : ImageService :=
  image_service w_kernel kernel_tags {[ "vm" := demo_state (as_hex d_shell) "kernel" (as_hex d_tree) ]}.

Lemma kernel_ok : images_ok [] kernel_service.
Proof.
  apply (sound_images _ _ 4).
  assert (tag_roots kernel_tags ++ [] = [d_leaf; d_shell]) as -> by (by vm_compute).
  apply (sound_tag d_leaf [d_shell] _ 3); [|done]. apply (sound_tag d_shell [] _ 2); [|done].
  apply (sound_put shell shell_bytes [] w_tree 2); [apply sound_tree|concrete..].
Qed.

(** What has become of the kernel image, of which only the table of workloads knows. *)
Definition restarted : ImageService := (startup kernel_service).2.
Definition removed (s : ImageService) : result Status Z * ImageService := remove_image (as_hex d_leaf) s.

(** The start-up can lose data.  The rebuild of the counts does not start from
    the kernel images of workloads and so takes away the references that such an
    image's nodes have on shared nodes.  Here the counts are exact and removing the
    application keeps the node that it shares with the kernel image in use; after a
    restart the same request deletes that node. *)
Lemma kernel_image_lost :
  images_ok [] kernel_service ∧ in_use kernel_service d_tree ∧
  is_ok (removed kernel_service).1 = true ∧
  node_file (im_store (removed kernel_service).2) d_leaf = Some leaf_bytes ∧
  is_ok (removed restarted).1 = true ∧ in_use (removed restarted).2 d_tree ∧
  edge (im_store (removed restarted).2) d_tree d_leaf ∧
  node_file (im_store (removed restarted).2) d_leaf = None.
Proof.
  assert (Hu : ∀ s, workloads s !! "vm" = Some (demo_state (as_hex d_shell) "kernel" (as_hex d_tree)) →
    in_use s d_tree).
  { intros s Hs. right. eexists _, _, (as_hex d_tree). split; [exact Hs|].
    split; [right; left|apply from_hex_as_hex]. }
  split; [exact kernel_ok|]. split; [apply Hu; reflexivity|]. split; [concrete|]. split; [concrete|].
  split; [concrete|]. split; [apply Hu; concrete|]. split; [|concrete]. unfold edge.
  assert (children (im_store (removed restarted).2) d_tree = [d_leaf; d_leaf]) as -> by (by vm_compute).
  left.
Qed.
