(* ===== verification/DaemonWitnesses.v ===== *)
(** * The workload properties on a concrete daemon

    Formats and an outside world for the workload model: a checkpoint is the list of
    the codes of its fields, the registry is the one of [SyncWitnesses.v], and machines
    start and stop at once. *)

From stdpp Require Import base gmap strings list relations countable pretty.
From Stdlib Require Import ZArith Ascii Lia.
From S2P Require Import Prelude Strs Utf8 Crates Node Instances Fs Worklist Store StoreFacts GcFacts OpLock Gc OciTypes HostFs Tasks.
From S2P Require Import Puller Convert Materialize UnpackSpec Bloom Policy Secrets SecretsSpec Ipam Net Exec Container Rootless Kernel.
From S2P Require Import Sync Demo SyncWitnesses Workload Images ImagesWitnesses Service Handlers Requests Watcher ServiceFacts DaemonSpec.
From S2P Require Import StopSpec CheckpointSpec RunSpec CopySpec.

(** ** Checkpoints *)

#[global] Instance direction_countable : Countable Direction.
Proof.
  apply (inj_countable' (λ d, match d with Inbound => true | Outbound => false end) (λ b, if b : bool then Inbound else Outbound)).
  by intros [].
Defined.

#[global] Instance protocol_countable : Countable Protocol.
Proof.
  apply (inj_countable' (λ d, match d with Tcp => true | Udp => false end) (λ b, if b : bool then Tcp else Udp)).
  by intros [].
Defined.

#[global] Instance rule_eq_dec : EqDecision NetworkRule.
Proof. solve_decision. Defined.
#[global] Instance rule_countable : Countable NetworkRule.
Proof.
  apply (inj_countable' (λ r, (direction r, protocol r, (port r, host_port r), (to_host r, from_cidrs r)))
    (λ '(d, p, (a, b), (t, f)), MkRule d p a b t f)).
  by intros [].
Defined.

#[global] Instance mount_eq_dec : EqDecision Mount.
Proof. solve_decision. Defined.
#[global] Instance mount_countable : Countable Mount.
Proof.
  apply (inj_countable' (λ m, ((mt_type m, mt_source m), (mt_destination m, mt_options m)))
    (λ '((t, s), (d, o)), MkMount t s d o)).
  by intros [].
Defined.

#[global] Instance dns_eq_dec : EqDecision DnsConfig.
Proof. solve_decision. Defined.
#[global] Instance dns_countable : Countable DnsConfig.
Proof.
  apply (inj_countable' (λ d, (nameservers d, searches d, dns_options d)) (λ '(n, s, o), MkDns n s o)).
  by intros [].
Defined.

#[global] Instance check_eq_dec : EqDecision HealthCheck.
Proof. solve_decision. Defined.
#[global] Instance check_countable : Countable HealthCheck.
Proof.
  apply (inj_countable' (λ h, (hc_test h, (interval_seconds h, timeout_seconds h), (retries h, start_period_seconds h)))
    (λ '(t, (i, o), (r, s)), MkHealthCheck t i o r s)).
  by intros [].
Defined.

#[global] Instance policy_countable : Countable RestartPolicy.t.
Proof.
  apply (inj_countable restart_proto (λ z, Some (parse_restart_policy z))). by intros [].
Defined.

Definition state_fields (s : WorkloadState) : list positive :=
  [encode (status s); encode (start_time s); encode (exit_time s); encode (exit_code s); encode (backend s);
   encode (internal_ip s); encode (pid s); encode (image_root s); encode (command s); encode (network_rules s);
   encode (policy_decisions s); encode (kernel_image_ref s); encode (kernel_image_digest s); encode (working_dir s);
   encode (rootfs_dir s); encode (health_check s); encode (health s); encode (health_failures s);
   encode (health_last_success s); encode (restart_policy s); encode (restart_count s); encode (env s);
   encode (cpu_millicores s); encode (memory_bytes s); encode (bridge_name s); encode (network_mode s);
   encode (mounts s); encode (privileged s); encode (readonly_rootfs s); encode (no_new_privileges s);
   encode (seccomp_profile s); encode (allowed_syscalls s); encode (dns s); encode (console_log_path s)].

Definition fields_state (l : list positive) : option WorkloadState :=
  match l with
  | [a1; a2; a3; a4; a5; a6; a7; a8; a9; a10; a11; a12; a13; a14; a15; a16; a17; a18; a19; a20; a21; a22; a23; a24;
     a25; a26; a27; a28; a29; a30; a31; a32; a33; a34; _] =>
    x1 ← decode a1; x2 ← decode a2; x3 ← decode a3; x4 ← decode a4; x5 ← decode a5; x6 ← decode a6; x7 ← decode a7;
    x8 ← decode a8; x9 ← decode a9; x10 ← decode a10; x11 ← decode a11; x12 ← decode a12; x13 ← decode a13;
    x14 ← decode a14; x15 ← decode a15; x16 ← decode a16; x17 ← decode a17; x18 ← decode a18; x19 ← decode a19;
    x20 ← decode a20; x21 ← decode a21; x22 ← decode a22; x23 ← decode a23; x24 ← decode a24; x25 ← decode a25;
    x26 ← decode a26; x27 ← decode a27; x28 ← decode a28; x29 ← decode a29; x30 ← decode a30; x31 ← decode a31;
    x32 ← decode a32; x33 ← decode a33; x34 ← decode a34;
    Some (MkState x1 x2 x3 x4 x5 x6 x7 x8 x9 x10 x11 x12 x13 x14 x15 x16 x17 x18 x19 x20 x21 x22 x23 x24 x25 x26 x27
            x28 x29 x30 x31 x32 x33 x34)
  | _ => None
  end.

#[export] Instance demo_state_json : StateJson := {|
  state_to_string_pretty s := Some (fields_text (state_fields s));
  state_from_str b := fields_state (of_bits <$> split_bytes Byte.x04 b)
|}.

#[export] Instance demo_state_json_laws : StateJsonLaws.
Proof.
  split; [by eexists|]. intros s b [= <-]. unfold state_from_str, demo_state_json. rewrite text_fields.
  unfold state_fields. cbn [fmap list_fmap app]. rewrite !of_bits_of. unfold fields_state. rewrite !decode_encode.
  by destruct s.
Qed.

(** ** The outside world *)

#[export] Instance demo_lowercase : Lowercase := λ s, s.
#[export] Instance demo_hasher : DefaultHasher := λ s, Z.of_nat (String.length s).
#[export] Instance demo_json_text : JsonText := {| json_to_string_pretty _ := []; json_from_slice _ := None |}.
#[export] Instance demo_tempdir : TempDir unit := λ prefix h, (["tmp"; prefix], h).
#[export] Instance demo_empty_tar : LayerTar := λ _, Some [].
#[export] Instance demo_zstd_all : ZstdDecoder := Some.

#[export] Instance demo_processes : Processes unit := {|
  run_command _ _ _ h := (Exited (Some 0%Z) [] [], h);
  spawn_child _ _ _ h := (Some 1%Z, h);
  try_wait _ _ := None;
  wait_child _ h := (None, h);
  kill_child _ h := h
|}.

(** Machines that start at once and answer [running]. *)
Definition demo_machines : Executor (ExecWorld unit) := {|
  ex_create spec := mret (MkHandle (ws_id spec) (Some 7%Z) None None [] "vm" None None);
  ex_start h := mret h;
  ex_stop _ := mret tt;
  ex_wait _ := mret (MkExitStatus 0 None);
  ex_status _ := mret "running";
  ex_update _ _ _ := mret tt;
  ex_stats id := throw (ExecNotFound id);
  ex_exec _ _ _ := mret (MkExecOutput 0 [] [])
|}.

Definition demo_settings : ServiceConfig :=
  MkConfig ["store"] ["store"; "bundles"] ["store"; "checkpoints"] (Some ["vms"]) [] "x86_64" ∅ None.

Definition demo_router : ExecutorRouter unit :=
  MkRouter (LinuxContainerExecutor_new None ["store"; "bundles"]) None
    (Some (MkVmBackend demo_machines (λ id, ["vms"; id]))) true 4.

Definition demo_dir : inode := MkInode Dir (default_meta Dir).

Definition demo_files : HostFs :=
  {[ ["store"] := demo_dir; ["store"; "checkpoints"] := demo_dir; ["vms"] := demo_dir; ["vms"; "web"] := demo_dir ]}.

Definition demo_network : ProxyNetwork :=
  MkProxy (Ipam_new (MkIpRange 0 16)) ∅ ∅ (λ _, None).

Definition demo_service : RuntimeService unit :=
  MkService (image_service w_empty ∅ ∅) (MkExecWorld w_empty demo_files demo_network tt None ∅ ∅) ∅ ∅ [] 1000 0 None.

Definition demo_text (e : SvcError) : string := EmptyString.

Definition demo_request : RunRequest :=
  MkRunRequest "web" (as_hex d_tree) "vm" ["serve"] ∅ 500 0 "isolated"
    [MkProtoRule "outbound" "tcp" 443 0 "example.org" []] EmptyString EmptyString EmptyString [] None 3 [] [] false false
    false EmptyString [] None.

Abbreviation demo_serve_request := (serve demo_settings demo_router None demo_text 3).

Lemma split_pair {A B} (x : A * B) a : x.1 = a → x = (a, x.2).
Proof. destruct x. by intros [= ->]. Qed.

(** ** A run *)

Definition demo_started : RuntimeService unit := demo_serve_request (ReqRun demo_request) (start_service demo_settings demo_service).2.

Definition demo_running : System unit := MkSystem demo_started (MkWatcher ∅ Idle) (MkHealth [] None) [].

Lemma demo_reached : rtc (any_step demo_settings demo_router None demo_text 3) (initial demo_settings demo_service) demo_running.
Proof. exact (request_steps demo_settings demo_router None demo_text 3 (ReqRun demo_request) (start_service demo_settings demo_service).2 (MkWatcher ∅ Idle) (MkHealth [] None) []). Qed.

Lemma demo_no_checkpoints : load_workload_checkpoints (checkpoints_dir demo_settings) (sv_fs demo_service) = ∅.
Proof. vm_compute. reflexivity. Qed.

Lemma daemon_lifecycle_witness :
  ∃ st, sv_workloads demo_started !! "web" = Some st ∧ status st = "running" ∧ life_ok st.
Proof.
  eexists. split; [vm_compute; reflexivity|]. split; [reflexivity|].
  apply (daemon_lifecycle demo_settings demo_router None demo_text 3 demo_service demo_running) with (i := "web").
  - rewrite demo_no_checkpoints. apply map_Forall_empty.
  - exact demo_reached.
  - vm_compute. reflexivity.
Defined.


(** ** Stops and restarts *)

(** The watcher begins a round after the stop. *)
Abbreviation demo_stopped := ((finish_stop demo_settings "web" demo_started).2).
Definition demo_idle : Watcher := MkWatcher ∅ Idle.
Definition demo_quiet : Health := MkHealth [] None.
Definition demo_round : System unit :=
  MkSystem (watch demo_settings demo_router demo_idle demo_stopped).2
    (watch demo_settings demo_router demo_idle demo_stopped).1 demo_quiet [].

Lemma demo_round_step :
  step demo_settings demo_router None demo_text 3 None (MkSystem demo_stopped demo_idle demo_quiet []) demo_round.
Proof. exact (step_watch demo_settings demo_router None demo_text 3 demo_stopped demo_idle demo_quiet []). Qed.

Lemma demo_web : ∃ st, sv_workloads demo_started !! "web" = Some st ∧ status st = "running".
Proof. eexists. split; [vm_compute; reflexivity|reflexivity]. Qed.

Lemma stop_final_witness : stopped_in "web" (sv_workloads (sys_service demo_round)).
Proof.
  destruct demo_web as (st & E & Hr).
  refine (stop_final demo_settings demo_router None demo_text 3 "web" st demo_started demo_idle demo_quiet [] demo_round
    E Hr (λ f, match f with end) (Forall_nil_2 _) _).
  apply rtc_once. exists None. exact (conj demo_round_step I).
Defined.

Definition demo_handle : ProcessHandle := MkHandle "web" (Some 7%Z) None None [] "vm" None None.

(** A machine that exited and waits to be restarted. *)
Definition demo_exited_state : WorkloadState :=
  set_exit "exited" 1000 (Some 1%Z) (default (set_health EmptyString 0 0 (demo_state EmptyString EmptyString EmptyString)) (sv_workloads demo_started !! "web")).
Definition demo_paused : RuntimeService unit := set_workloads {[ "web" := demo_exited_state ]} demo_service.
Definition demo_plan : RestartPlan := MkPlan "web" "vm" demo_exited_state 1000.

Definition demo_restart_spec : WorkloadSpec := with_restart (spec_of_run None demo_request Backend.Vm d_tree None []).

Lemma demo_restart : restart_start demo_router demo_restart_spec demo_paused =
  (Ok demo_handle, (restart_start demo_router demo_restart_spec demo_paused).2).
Proof. apply (split_pair (restart_start demo_router demo_restart_spec demo_paused) (Ok demo_handle)). vm_compute. reflexivity. Qed.


(** A daemon that starts with the checkpoint of a workload that exited. *)
Definition demo_resumed : RuntimeService unit := (svc_checkpoint demo_settings "web" demo_exited_state demo_service).2.

Lemma demo_resumed_checkpoints :
  load_workload_checkpoints (checkpoints_dir demo_settings) (sv_fs demo_resumed) = {[ "web" := demo_exited_state ]}.
Proof. vm_compute. reflexivity. Qed.

Lemma demo_exited_typed : state_typed demo_exited_state.
Proof.
  assert (restart_count demo_exited_state = 0%Z) as Hr by (vm_compute; reflexivity).
  assert (health_failures demo_exited_state = 0%Z) as Hf by (vm_compute; reflexivity).
  assert (network_rules demo_exited_state = [MkRule Outbound Tcp 443 0 (Some "example.org") None]) as Hn by (vm_compute; reflexivity).
  constructor.
  - rewrite Hn. repeat constructor; discriminate.
  - intros c Hc. vm_compute in Hc. injection Hc as <-. split; [discriminate|reflexivity].
  - rewrite Hr. split; [discriminate|reflexivity].
  - rewrite Hf. split; [discriminate|reflexivity].
Qed.

Definition demo_resumed_system : System unit := initial demo_settings demo_resumed.


Lemma restart_same_witness :
  ws_network_mode <$> restart_spec (MkPlan "web" "vm" (set_exit "exited" 5 None
    (state_of_run demo_settings None demo_request (spec_of_run None demo_request Backend.Vm d_tree None []) demo_handle demo_service)) 6)
  = Some NetworkMode.Bridge.
Proof.
  rewrite (restart_same demo_settings None demo_request Backend.Vm d_tree None [] demo_handle demo_service).
  - reflexivity.
  - apply rtc_once, update_exit.
  - reflexivity.
  - apply from_hex_as_hex.
Defined.

Lemma health_streak_witness :
  health (probe_all 2 [(true, 1%Z); (false, 2%Z); (false, 3%Z)] (set_health "starting" 0 0 demo_exited_state)) = "unhealthy".
Proof.
  destruct (health_streak 2 [(true, 1%Z); (false, 2%Z); (false, 3%Z)] (set_health "starting" 0 0 demo_exited_state)) as [E _].
  - lia.
  - vm_compute. reflexivity.
  - reflexivity.
  - reflexivity.
  - rewrite E. reflexivity.
Defined.

(** ** Recovery *)

(** Nothing is in the directory of checkpoints. *)
Lemma demo_dir_empty c : demo_files !! ["store"; "checkpoints"; c] = None.
Proof.
  destruct (demo_files !! ["store"; "checkpoints"; c]) as [i|] eqn:E; [|done].
  apply elem_of_map_to_list in E. unfold demo_files in E.
  assert (map_to_list demo_files ≡ₚ [(["store"], demo_dir); (["store"; "checkpoints"], demo_dir); (["vms"], demo_dir); (["vms"; "web"], demo_dir)]) as Hp.
  { unfold demo_files. rewrite !map_to_list_insert by done. by rewrite map_to_list_singleton. }
  unfold demo_files in Hp. rewrite Hp in E.
  repeat (apply elem_of_cons in E as [E|E]; [discriminate E|]). by apply elem_of_nil in E.
Qed.

Lemma demo_checkpoints_plain : plain demo_files ["store"; "checkpoints"].
Proof.
  split; [set_solver|]. intros q k E.
  destruct q as [|a [|b [|c q]]]; simpl in E; simplify_eq; reflexivity.
Qed.

Lemma demo_durable : durable demo_settings demo_service.
Proof.
  assert (∀ c, content_at demo_files (["store"; "checkpoints"] ++ [c]) = None) as Hc.
  { intros c. unfold content_at. simpl. by rewrite demo_dir_empty. }
  constructor.
  - split; [exact demo_checkpoints_plain|]. intros c. change (sv_fs demo_service) with demo_files. by rewrite Hc.
  - intros c. change (sv_fs demo_service) with demo_files. by rewrite Hc.
  - exact demo_no_checkpoints.
Qed.

Definition demo_spec : WorkloadSpec := spec_of_run None demo_request Backend.Vm d_tree None [].
Definition demo_recorded : RuntimeService unit :=
  (record_run demo_settings None demo_request demo_spec demo_handle demo_service).2.


(** ** Copies *)

(** The bundle of a container that made a link out of its root file system. *)
Definition demo_bundle : HostFs :=
  {[ ["store"] := demo_dir; ["store"; "bundles"] := demo_dir; ["store"; "bundles"; "web"] := demo_dir;
     ["store"; "bundles"; "web"; "rootfs"] := demo_dir;
     ["store"; "bundles"; "web"; "rootfs"; "motd"] := MkInode (File (as_bytes "hello")) (default_meta (File []));
     ["store"; "bundles"; "web"; "rootfs"; "out"] := MkInode (Symlink "/etc/cron") (default_meta (Symlink "/etc/cron"));
     ["etc"] := demo_dir ]}.

Definition demo_contained : WorkloadState :=
  state_of_run demo_settings None demo_request demo_spec
    (MkHandle "web" (Some 7%Z) None None [] "container" None None) demo_service.

Definition demo_copies : RuntimeService unit :=
  MkService (image_service w_empty ∅ {[ "web" := demo_contained ]})
    (MkExecWorld w_empty demo_bundle demo_network tt None ∅ ∅) ∅ ∅ [] 1000 0 None.

Definition demo_copy (direction target : string) : CopyRequest := MkCopyRequest "web" target direction (as_bytes "x") 0.

Lemma copy_out_confined_witness :
  ∃ q, path_starts_with q ["store"; "bundles"; "web"; "rootfs"] = true ∧
    content_at demo_bundle q = Some (File (as_bytes "hello")).
Proof.
  destruct (copy_out_confined demo_settings (demo_copy "out" "/motd") demo_copies
    (MkCopyResponse (as_bytes "hello") (S_IFREG + 420) 5) (copy_file demo_settings (demo_copy "out" "/motd") demo_copies).2)
    as (_ & st & rootfs & q & Est & Er & Hq & Ec).
  - reflexivity.
  - apply split_pair. vm_compute. reflexivity.
  - assert (st = demo_contained) as -> by (vm_compute in Est; by injection Est as <-).
    exists q. apply (f_equal fst) in Er. vm_compute in Er. injection Er as <-. exact (conj Hq Ec).
Defined.


Lemma copy_in_follows_link_witness :
  ∃ resp s', copy_file demo_settings (demo_copy "in" "out") demo_copies = (Ok resp, s') ∧
    content_at (sv_fs s') ["etc"; "cron"] = Some (File (as_bytes "x")).
Proof.
  apply (copy_in_follows_link demo_settings (demo_copy "in" "out") demo_copies demo_contained "out" "/etc/cron" ["etc"] "cron");
    try reflexivity; try discriminate.
  - by split_and!.
  - split; [set_solver|]. intros q k E. change (["store"; "bundles"; "web"; "rootfs"] = q ++ k) in E.
    destruct q as [|a [|b [|c [|d [|e q]]]]]; simpl in E; simplify_eq; reflexivity.
  - split; [set_solver|]. intros q k E.
    destruct q as [|a [|b q]]; simpl in E; simplify_eq; reflexivity.
Defined.

(** ** Inspection, configurations, pulls *)

Lemma walk_dag_exact_witness :
  ∃ ds w', walk_dag (as_hex d_tree) w_tagged = (Ok (omap (node_info w_tagged) ds), w') ∧ d_leaf ∈ ds.
Proof.
  destruct sound_tagged as [[Hi Hh _ _ _ _] _].
  destruct (walk_dag_exact w_tagged (as_hex d_tree) d_tree Hi Hh) as (ds & w' & E & _ & _ & Hr).
  - vm_compute. reflexivity.
  - exists ds, w'. split; [exact E|]. apply Hr.
    exists d_tree. split; [by apply list_elem_of_singleton|]. apply rtc_once. unfold edge.
    assert (children w_tagged d_tree = [d_leaf; d_leaf]) as -> by (by vm_compute). left.
Defined.

Definition strict_policy : Policy := MkPolicy true false true (Some "default") [] ∅ None [] [] true.

Definition demo_unpacked : MaterializedBundle := MkBundle ["bundle"; "rootfs"] ["bundle"; "config.json"] [] ["sh"] [] None.

Definition demo_strict_spec : WorkloadSpec :=
  spec_of_run (Some (MkEngine strict_policy [])) demo_request Backend.Container d_tree None [].


Definition demo_pull_request : PullRequest :=
  MkPullRequest "alpine" EmptyString EmptyString EmptyString EmptyString EmptyString.

Definition demo_strict_pull : RuntimeService unit → result SvcError PullResponse * RuntimeService unit :=
  pull_image demo_settings (Some (MkEngine strict_policy [])) demo_text 10 demo_pull_request.

Definition demo_denied : RuntimeService unit := (demo_strict_pull demo_service).2.

Lemma denied_pull_cached_witness : ∃ d, demo_strict_pull demo_denied = (Ok (MkPullResponse d 0), demo_denied).
Proof.
  refine (denied_pull_cached demo_settings (Some (MkEngine strict_policy [])) demo_text 10 demo_pull_request demo_service
    NotSigned demo_denied _).
  apply (split_pair (demo_strict_pull demo_service) (Err (Denied NotSigned))). vm_compute. reflexivity.
Defined.

(** ** A machine *)

From S2P Require Import NetSpec Firewall Vm VmSpec.

#[export] Instance demo_commands : Host unit := λ _ _ _ h, (CmdNotFound, h).

#[export] Instance demo_vm_kernel : VmKernel unit := {|
  open_tun h := (Some 5%Z, h);
  tunsetiff _ _ h := (true, h);
  close_fd _ h := h;
  kill_zero _ _ := true;
  waitpid_nohang _ h := (0%Z, h);
  unix_exchange _ _ h := (None, h);
  random_bytes n h := (replicate n Byte.x00, h);
  run_tool _ _ fs h := (Exited (Some 0%Z) [] [], fs, h)
|}.

(** The text of a sidecar: the bits of its code. *)
Definition vm_net_fields (n : VmNetwork) :=
  (vn_tap_name n, vn_bridge_name n, (vn_guest_ip n, vn_guest_mac n), (vn_netmask n, vn_gateway n)).
Definition sidecar_fields (s : VmSidecar) :=
  (vm_net_fields (vs_vm_net s),
   (Net.internal_ip (vs_endpoint s), host_port_mappings (vs_endpoint s), namespace_path (vs_endpoint s)), vs_tap_name s).

Lemma utf8_bits p : valid_utf8 (bits_of p) = true.
Proof. induction p as [p IH|p IH|]; [exact IH|exact IH|done]. Qed.

#[export] Instance demo_vm_json : VmJson := {|
  sidecar_to_string s := Some (str_of_bytes (text_of (sidecar_fields s)));
  sidecar_from_str t :=
    (λ '((a, b, (c, d), (e, f)), (i, m, n), g), MkSidecar (MkVmNetwork a b c d e f) (MkEndpoint i m n) g) <$> of_text (as_bytes t);
  json_to_string _ := EmptyString
|}.

#[export] Instance demo_vm_json_laws : VmJsonLaws.
Proof.
  split; intros s t [= <-].
  - cbn [sidecar_from_str demo_vm_json]. rewrite as_bytes_of, of_text_of. by destruct s as [[] [] ?].
  - unfold utf8. rewrite as_bytes_of. apply utf8_bits.
Qed.

Definition demo_firecracker : FirecrackerExecutor :=
  MkFirecracker (MkFcConfig "firecracker" ["boot"; "vmlinux"] ["vms"] 2 512 256) None.

Definition demo_vm_files : HostFs := {[ ["tmp"] := demo_dir; ["vms"] := demo_dir ]}.

Definition demo_vm_world : ExecWorld (VmHost unit) :=
  MkExecWorld w_leaf demo_vm_files demo_network (MkVmHost (MkTables ∅ ∅ ∅ []) tt) None ∅ ∅.

Definition demo_vm_spec : WorkloadSpec :=
  MkSpec "m1" d_leaf Backend.Vm [] ∅ None None NetworkMode.Bridge [inbound 8080] None None [] None
    RestartPolicy.No false false None [] false (MkDns [] [] []).

Definition demo_vm_handle : ProcessHandle :=
  MkHandle "m1" None (Some "0.0.0.2") None [(8080, 8080)%Z] "vm" None None.

Definition demo_created : ExecWorld (VmHost unit) := (vm_create demo_firecracker 4 demo_vm_spec demo_vm_world).2.

Lemma plain_without_links fs dir :
  (".." ∉ dir) → (∀ q k, dir = q ++ k → content_at fs q = Some Dir) →
  bool_decide (map_Forall (λ _ i, is_link (Some (icontent i)) = false) fs) = true → plain_dir fs dir.
Proof.
  intros Hd Hp Hl%bool_decide_eq_true. split; [done|]. intros c. unfold content_at. case_decide; [done|].
  destruct (fs !! (dir ++ [c])) as [i|] eqn:E; [|done]. apply (Hl _ _ E).
Qed.

Lemma demo_vm_plain : plain_dir (ew_fs demo_created) ["vms"; "m1"].
Proof.
  apply plain_without_links; [set_solver| |vm_compute; reflexivity].
  intros [|a [|b [|c q]]] k Hk; simplify_eq/=; vm_compute; reflexivity.
Qed.

Lemma demo_vm_answer : (vm_create demo_firecracker 4 demo_vm_spec demo_vm_world).1 = Ok demo_vm_handle.
Proof. vm_compute. reflexivity. Qed.

Lemma demo_vm_created :
  vm_create demo_firecracker 4 demo_vm_spec demo_vm_world = (Ok demo_vm_handle, demo_created).
Proof. unfold demo_created. rewrite <- demo_vm_answer. apply surjective_pairing. Qed.

