(* ===== verification/BuilderWitnesses.v ===== *)
(** * The build properties on a concrete builder

    A context with one file, commands that succeed and change nothing, and the registry
    of [SyncWitnesses.v]. *)

From stdpp Require Import base gmap strings list.
From Stdlib Require Import ZArith Lia.
From S2P Require Import Prelude Strs Crates Node Instances Fs Store StoreFacts Archive OciTypes HostFs Puller Convert.
From S2P Require Import Materialize ConvertSpec Dockerfile Scan ScanSpec Tasks Exec Container Kernel Builder BuilderSpec.
From S2P Require Import OpLock Gc Images Service Push Publish Demo SyncWitnesses DaemonWitnesses.

(** A hash of all bytes, for manifests that end alike. *)
Definition mixed_hash (data : bytes) : Z :=
  foldl (λ h b, Z.land (h * 31 + u8_of b + 1) 0xffff)%Z 7%Z data.

#[local] Instance mixed_sha2 : Sha2 := {|
  sha256 data := arr_le 32 (mixed_hash data);
  sha512 data := arr_le 64 (mixed_hash data)
|}.

#[local] Instance demo_build_host : BuildHost unit := {|
  run_in _ _ _ fs h := (Exited (Some 0%Z) [] [], fs, h);
  process_id _ := 7%Z;
  elapsed_nanos h := (Some 1000%Z, h);
|}.

Definition build_fs : HostFs :=
  <[["ctx"; "f"] := MkInode (File [Byte.x2a]) (default_meta (File []))]>
  (<[["ctx"] := MkInode Dir (default_meta Dir)]> {[ ["tmp"] := MkInode Dir (default_meta Dir) ]}).

Definition builder : DagBuilder := DagBuilder_new "runc" ["var"; "builds"] ∅.

Definition demo_stage : BuildStage :=
  MkStage "scratch" [Copy ["f"] "/app"; Env "A" "1"; Run ["true"]; Cmd ["/app/f"]] None (Some "linux/arm64").

Definition build_start (w : World) : BuildWorld unit := MkBuildWorld w build_fs tt ∅.

Lemma w_empty_sound : store_inv w_empty ∧ addressed w_empty.
Proof.
  split; [split; [apply empty_wf..|]|]; intros d b E.
  - by change (cache (node_cache (store w_empty))) with (∅ : gmap Digest bytes) in E.
  - unfold node_file in E. change (files (os w_empty)) with (∅ : gmap path bytes) in E. by rewrite lookup_empty in E.
Qed.

Lemma demo_build_ok :
  ∃ r w', build "aarch64" 8 builder [demo_stage] ["ctx"] (build_start w_empty) = (Ok r, w').
Proof.
  assert (Hok : match (build "aarch64" 8 builder [demo_stage] ["ctx"] (build_start w_empty)).1 with
                | Ok _ => true | Err _ => false end = true) by (vm_compute; reflexivity).
  destruct (build "aarch64" 8 builder [demo_stage] ["ctx"] (build_start w_empty)) as [[r|e] w']; [eauto|done].
Qed.


Lemma build_adds_only_witness :
  adds w_empty (bw_store (build "aarch64" 8 builder [demo_stage] ["ctx"] (build_start w_empty)).2) ∧
  adds w_empty (bw_store (build_multi "aarch64" 8 builder [demo_stage] ["ctx"] ["linux/amd64"; "linux/arm64"]
                            (build_start w_empty)).2).
Proof.
  exact (build_adds_only "aarch64" 8 builder [demo_stage] ["ctx"] ["linux/amd64"; "linux/arm64"] (build_start w_empty)
           (proj1 w_empty_sound)).
Defined.

(** Two images: one of the context, one of an empty directory. *)

Definition scan_of (dir : path) (arch : string) (w : World) : World :=
  mw_store (build_dag_from_directory_with_platform 8 dir arch "linux" (MkMat w build_fs)).2.

Definition w_images : World := scan_of ["tmp"] "amd64" (scan_of ["ctx"] "arm64" w_empty).

Definition ctx_entry : DirEntry :=
  MkDirEntry "/" true zero_digest 493 0 [MkDirEntry "f" false (dig (DagNode.blob [Byte.x2a])) 420 1 []].
Definition tmp_entry : DirEntry := MkDirEntry "/" true zero_digest 493 0 [].

Lemma scan_of_adds dir arch w : adds w_empty w → adds w_empty (scan_of dir arch w).
Proof. exact (keeps_scan w_empty 8 dir arch "linux" (MkMat w build_fs)). Qed.

Lemma w_images_inv : store_inv w_images.
Proof.
  apply (ad_inv w_empty). unfold w_images. do 2 apply scan_of_adds. apply adds_refl, w_empty_sound.
Qed.

Lemma ctx_scanned : scanned 8 w_images (dig (image_manifest ctx_entry "arm64" "linux")).
Proof.
  exists ctx_entry, "arm64", "linux". split; [done|]. split; [done|]. split; [|split; [|simpl; lia]].
  - repeat (apply Forall_cons_2; [vm_compute; reflexivity|]). apply Forall_nil_2.
  - apply Forall_cons_2; [right; exists [Byte.x2a]; vm_compute; reflexivity|apply Forall_nil_2].
Qed.

Lemma tmp_scanned : scanned 8 w_images (dig (image_manifest tmp_entry "amd64" "linux")).
Proof.
  exists tmp_entry, "amd64", "linux". split; [done|]. split; [done|]. split; [|split; [apply Forall_nil_2|simpl; lia]].
  repeat (apply Forall_cons_2; [vm_compute; reflexivity|]). apply Forall_nil_2.
Qed.

Lemma layers_forgotten_witness :
  dig (image_manifest ctx_entry "arm64" "linux") ≠ dig (image_manifest tmp_entry "amd64" "linux") ∧
  (execute_copy 8 (dig (image_manifest ctx_entry "arm64" "linux")) ["ctx"] ["f"] "/g"
     (empty_manifest_data "arm64" "linux") 0 (build_start w_images)).1 =
  (execute_copy 8 (dig (image_manifest tmp_entry "amd64" "linux")) ["ctx"] ["f"] "/g"
     (empty_manifest_data "arm64" "linux") 0 (build_start w_images)).1.
Proof.
  split; [vm_compute; discriminate|].
  refine (proj2 (layers_forgotten "aarch64" 8 (dig (image_manifest ctx_entry "arm64" "linux"))
                   (dig (image_manifest tmp_entry "amd64" "linux")) (build_start w_images) _ w_images_inv ctx_scanned tmp_scanned)
            ["ctx"] ["f"] "/g" (empty_manifest_data "arm64" "linux") 0%Z).
  vm_compute. reflexivity.
Defined.

(** ** A build on request *)

#[local] Instance demo_upload : HttpUpload unit := λ _ _, (None, tt).
#[local] Instance demo_encoders : LayerBuilder :=
  {| tar_accepts _ := true; tar_bytes _ := []; gz_encode b := b; zstd_encoder := None |}.
#[local] Instance demo_writer : OciWriteJson :=
  {| manifest_to_vec _ := None; config_to_vec _ := None; index_to_vec _ := None |}.

Definition request_fs : HostFs :=
  <[["ctx"; "Dockerfile"] := MkInode (File (as_bytes "FROM scratch" ++ [newline] ++ as_bytes "COPY f /app")) (default_meta (File []))]> build_fs.

Definition request_service : RuntimeService unit :=
  with_exec (MkExecWorld w_empty request_fs demo_network tt None ∅ ∅) demo_service.

Definition demo_build_request : BuildRequest := MkBuildRequest ["ctx"; "Dockerfile"] None [] EmptyString "app:1" false.

